(** * Mobilytix: acquisition core

    A shallow embedding of the forensic acquisition core of Mobilytix
    ([src/modules/adb_utils.py] and [src/modules/parsers.py]):

    - the shell transport [run_adb] and the query fallback engine,
    - the brute-force filesystem discovery and the extraction manifest,
    - the binary archive writer,
    - the multi-strategy text parsers.

    The modules after the parsers carry the development on to code around
    that core: the listing and hashing helpers, the legacy pull, the
    device helpers, live queries and dumps of [adb_utils.py]; the table
    of a manifest; the session manager
    ([src/modules/session_manager.py]); the metadata the viewer reads
    back from a live query ([src/gui.py]); and the statistics of the
    timeline ([src/modules/timeline_builder.py]).

    Python [str] values are modelled as [string]: a character is a code
    point below 256, and the character classes used below ([isspace],
    [lower], line boundaries, the [re] classes) are Python's on that
    range.  Python [bytes] values are [list byte].  The parsers are
    modelled a second time on texts of arbitrary code points, with the
    tables of the Unicode database left open (module [Unicode]); that
    no parser raises is proved there for every text. *)

From Stdlib Require Import String Ascii List ListSet Bool Arith NArith ZArith QArith Lia.
From Stdlib.Strings Require Import Byte.
Import ListNotations.
Local Close Scope Q_scope.
Local Open Scope string_scope.
Local Open Scope list_scope.

(* ===================================================================== *)
(** * Python string operations *)
(* ===================================================================== *)

Module PyStr.

(** The code point of a character. *)
Definition code (c : ascii) : N := N_of_ascii c.

(** [if s:] on a string. *)
Definition truthy (s : string) : bool :=
  match s with EmptyString => false | String _ _ => true end.

(** [str.isspace] on one character (code points below 256). *)
Definition is_space (c : ascii) : bool :=
  let n := code c in
  ((9 <=? n) && (n <=? 13) || (28 <=? n) && (n <=? 32)
   || (n =? 133) || (n =? 160))%N.

(** The characters [str.splitlines] breaks lines at. *)
Definition is_linebreak (c : ascii) : bool :=
  let n := code c in
  ((10 <=? n) && (n <=? 13) || (28 <=? n) && (n <=? 30) || (n =? 133))%N.

(** [str.lower] on one character. *)
Definition lower_char (c : ascii) : ascii :=
  let n := code c in
  if ((65 <=? n) && (n <=? 90) || (192 <=? n) && (n <=? 222) && negb (n =? 215))%N
  then ascii_of_N (n + 32) else c.

(** A function applied to every character. *)
Fixpoint map_chars (f : ascii -> ascii) (s : string) : string :=
  match s with
  | EmptyString => EmptyString
  | String c r => String (f c) (map_chars f r)
  end.

(** [s.lower()]. *)
Definition lower (s : string) : string := map_chars lower_char s.

(** [s.startswith(p)]. *)
Fixpoint startswith (p s : string) : bool :=
  match p, s with
  | EmptyString, _ => true
  | String a p', String b s' => Ascii.eqb a b && startswith p' s'
  | String _ _, EmptyString => false
  end.

(** [sub in s]. *)
Fixpoint contains (sub s : string) : bool :=
  startswith sub s ||
  match s with
  | EmptyString => false
  | String _ r => contains sub r
  end.

(** [s.lstrip()] and [s.rstrip()] and [s.strip()] (whitespace). *)
Fixpoint lstrip (s : string) : string :=
  match s with
  | EmptyString => EmptyString
  | String c r => if is_space c then lstrip r else s
  end.

Fixpoint rstrip (s : string) : string :=
  match s with
  | EmptyString => EmptyString
  | String c r =>
      let r' := rstrip r in
      if is_space c && negb (truthy r') then EmptyString else String c r'
  end.

Definition strip (s : string) : string := lstrip (rstrip s).

(** [s.lstrip(c)] and [s.rstrip(c)] for a single character [c]. *)
Fixpoint lstrip_char (c : ascii) (s : string) : string :=
  match s with
  | EmptyString => EmptyString
  | String a r => if Ascii.eqb a c then lstrip_char c r else s
  end.

Fixpoint rstrip_char (c : ascii) (s : string) : string :=
  match s with
  | EmptyString => EmptyString
  | String a r =>
      let r' := rstrip_char c r in
      if Ascii.eqb a c && negb (truthy r') then EmptyString else String a r'
  end.

(** [s.splitlines()]: a carriage return followed by a line feed is one
    boundary, and a final boundary does not open an empty last line. *)
Fixpoint splitlines (s : string) : list string :=
  match s with
  | EmptyString => []
  | String c r =>
      if is_linebreak c then
        EmptyString ::
          match r with
          | String c2 r2 =>
              if Ascii.eqb c "013" && Ascii.eqb c2 "010" then splitlines r2
              else splitlines r
          | EmptyString => []
          end
      else
        match splitlines r with
        | [] => [String c EmptyString]
        | l :: ls => String c l :: ls
        end
  end.

(** [sep.join(parts)]. *)
Fixpoint join (sep : string) (parts : list string) : string :=
  match parts with
  | [] => EmptyString
  | [x] => x
  | x :: rest => (x ++ sep ++ join sep rest)%string
  end.

(** [s.replace("//", "/")]: occurrences are found left to right and do
    not overlap. *)
Fixpoint replace_double_slash (s : string) : string :=
  match s with
  | EmptyString => EmptyString
  | String c r =>
      match r with
      | String c2 r2 =>
          if Ascii.eqb c "/" && Ascii.eqb c2 "/"
          then String "/" (replace_double_slash r2)
          else String c (replace_double_slash r)
      | EmptyString => String c EmptyString
      end
  end.

Definition newline : string := String "010" EmptyString.

(** Basic facts about concatenation. *)
Lemma append_assoc : forall a b c : string,
  ((a ++ b) ++ c = a ++ (b ++ c))%string.
Proof.
  induction a as [|x a IH]; intros b c; cbn; [reflexivity|].
  rewrite IH. reflexivity.
Qed.

Lemma append_nil_r : forall a : string, (a ++ "")%string = a.
Proof.
  induction a as [|x a IH]; cbn; [reflexivity|]. rewrite IH. reflexivity.
Qed.

Lemma length_append : forall a b : string,
  String.length (a ++ b) = String.length a + String.length b.
Proof.
  induction a as [|x a IH]; intros b; cbn; [reflexivity|].
  rewrite IH. reflexivity.
Qed.

End PyStr.

(* ===================================================================== *)
(** * A small state monad for code that talks to the outside world *)
(* ===================================================================== *)

Module St.

Definition M (W A : Type) : Type := W -> A * W.

Definition ret {W A : Type} (a : A) : M W A := fun w => (a, w).

Definition bind {W A B : Type} (m : M W A) (k : A -> M W B) : M W B :=
  fun w => let (a, w') := m w in k a w'.

End St.

Notation "x <- m ;; k" := (St.bind m (fun x => k))
  (at level 61, m at next level, right associativity).

(* ===================================================================== *)
(** * Shell transport: [run_adb] *)
(* ===================================================================== *)

Module Transport.
Import PyStr.

(** How [subprocess.run] ends: it returns the two captured streams, or
    raises one of the exceptions [run_adb] distinguishes. *)
Inductive completion : Type :=
| Completed (stdout stderr : list byte)
| TimeoutExpired
| FileNotFoundError
| OtherException (text : string).

(** [b.decode('latin-1', errors='replace')]: every byte is the code point
    of the same value, so this never fails. *)
Definition decode_latin1 (b : list byte) : string := string_of_list_byte b.

(** A UTF-8 decoder for 7-bit input, where UTF-8 is the identity; a byte
    above 127 is reported as a decoding error. *)
Definition decode_utf8_7bit (b : list byte) : option string :=
  if forallb (fun x => (Byte.to_N x <? 128)%N) b
  then Some (string_of_list_byte b) else None.

Section RunAdb.

(** [bytes.decode('utf-8')]; [None] stands for [UnicodeDecodeError]. *)
Variable decode_utf8 : list byte -> option string.

(** The [try: ... .decode('utf-8').strip() except UnicodeDecodeError: ...]
    blocks of [run_adb]. *)
Definition decode_stream (b : list byte) : string :=
  match decode_utf8 b with
  | Some s => strip s
  | None => strip (decode_latin1 b)
  end.

Definition run_adb_result (c : completion) : string :=
  match c with
  | Completed stdout stderr =>
      let out := decode_stream stdout in
      let err := decode_stream stderr in
      if truthy out then out else err
  | TimeoutExpired => "adb command timed out."
  | FileNotFoundError => "adb not found."
  | OtherException e => ("adb error: " ++ e)%string
  end.

Variable World : Type.

(** [subprocess.run(argv, capture_output=True, timeout=timeout)]. *)
Variable spawn : list string -> Z -> St.M World completion.

Definition run_adb (args : list string) (timeout : Z) : St.M World string :=
  proc <- spawn ("adb" :: args) timeout ;;
  St.ret (run_adb_result proc).

End RunAdb.

Arguments run_adb decode_utf8 {World} spawn args timeout _.

(** A process that prints nothing on either stream. *)
Definition silent_spawn : list string -> Z -> St.M unit completion :=
  fun _ _ w => (Completed [] [], w).

(** C8 (as stated, refuted): a process that completes with both streams
    empty makes [run_adb] return the empty string, which is none of the
    fixed diagnostics. *)
Lemma run_adb_silent_process_returns_empty :
  fst (run_adb decode_utf8_7bit silent_spawn ["devices"; "-l"] 60 tt) = ""
  /\ ~ In (fst (run_adb decode_utf8_7bit silent_spawn ["devices"; "-l"] 60 tt))
          ["adb command timed out."; "adb not found."].
Proof.
  split; [reflexivity|].
  cbn. intros [H|[H|[]]]; discriminate H.
Qed.

(** C8 (amended): [run_adb] returns the decoded, stripped standard output
    when that is non-empty, else the decoded, stripped standard error
    (which may be empty); the fixed diagnostics arise only from the three
    exception handlers.  In particular a process completing with both
    streams empty after decoding and stripping yields the empty string. *)
Theorem run_adb_returns_stream_or_diagnostic :
  forall (decode_utf8 : list byte -> option string) (World : Type)
         (spawn : list string -> Z -> St.M World completion)
         (args : list string) (timeout : Z) (w : World),
    let proc := fst (spawn ("adb" :: args) timeout w) in
    let r := fst (run_adb decode_utf8 spawn args timeout w) in
    let text := decode_stream decode_utf8 in
    (forall so se, proc = Completed so se ->
       r = if truthy (text so) then text so else text se)
    /\ (proc = TimeoutExpired -> r = "adb command timed out.")
    /\ (proc = FileNotFoundError -> r = "adb not found.")
    /\ (forall e, proc = OtherException e -> r = ("adb error: " ++ e)%string)
    /\ (forall so se, proc = Completed so se ->
          text so = "" -> text se = "" -> r = "")
    /\ snd (run_adb decode_utf8 spawn args timeout w)
       = snd (spawn ("adb" :: args) timeout w).
Proof.
  intros dec World spawn args timeout w proc r text.
  subst proc r text. unfold run_adb, St.bind, St.ret.
  destruct (spawn ("adb" :: args) timeout w) as [c w'] eqn:E. cbn [fst snd].
  repeat split.
  - intros so se ->. reflexivity.
  - intros ->. reflexivity.
  - intros ->. reflexivity.
  - intros e ->. reflexivity.
  - intros so se -> Ho He. cbn. rewrite Ho, He. reflexivity.
Qed.

Lemma run_adb_returns_stream_or_diagnostic_witness :
  fst (run_adb decode_utf8_7bit silent_spawn ["devices"] 60 tt) = "".
Proof.
  pose proof (run_adb_returns_stream_or_diagnostic
                decode_utf8_7bit unit silent_spawn ["devices"] 60 tt) as H.
  cbv zeta in H.
  destruct H as (_ & _ & _ & _ & H & _).
  apply (H [] []); reflexivity.
Defined.

End Transport.

(* ===================================================================== *)
(** * Query fallback engine *)
(* ===================================================================== *)

Module Query.
Import PyStr.

(** The 4-tuple [(success_flag, raw_output, uri_used, projection_used)]. *)
Record QueryResult : Type := mkQueryResult {
  success : bool;
  raw_text : string;
  uri_used : option string;
  projection_used : option string
}.

Definition ERROR_MARKERS : list string :=
  ["error"; "exception"; "denied"; "failed"; "unknown";
   "no such"; "unable"; "cannot"; "not found"].

(** [result and not any(err in result.lower() for err in [...])]. *)
Definition looks_successful (result : string) : bool :=
  truthy result
  && negb (existsb (fun err => contains err (lower result)) ERROR_MARKERS).

(** The argument list handed to [run_adb] for one combination. *)
Definition query_args (uri projection : string) : list string :=
  if truthy projection
  then ["shell"; "content"; "query"; "--uri"; uri; "--projection"; projection]
  else ["shell"; "content"; "query"; "--uri"; uri].

Section Engine.

Variable World : Type.
(** The transport, called with its default timeout. *)
Variable run_adb : list string -> St.M World string.

(** The inner [for projection in projection_variants] loop; [Some] is the
    early [return]. *)
Fixpoint try_projections (uri : string) (projection_variants : list string)
  : St.M World (option QueryResult) :=
  match projection_variants with
  | [] => St.ret None
  | projection :: rest =>
      result <- run_adb (query_args uri projection) ;;
      if looks_successful result
      then St.ret (Some (mkQueryResult true result (Some uri) (Some projection)))
      else try_projections uri rest
  end.

(** The outer [for uri in uri_variants] loop. *)
Fixpoint try_uris (uri_variants projection_variants : list string)
  : St.M World (option QueryResult) :=
  match uri_variants with
  | [] => St.ret None
  | uri :: rest =>
      found <- try_projections uri projection_variants ;;
      match found with
      | Some r => St.ret (Some r)
      | None => try_uris rest projection_variants
      end
  end.

Definition query_content_provider_with_fallbacks
  (uri_variants projection_variants : list string) (label : string)
  : St.M World QueryResult :=
  found <- try_uris uri_variants projection_variants ;;
  match found with
  | Some r => St.ret r
  | None =>
      St.ret (mkQueryResult false
                ("All " ++ label ++ " query attempts failed.")%string None None)
  end.

(** Reference behaviour used to state the order of attempts: issue the
    queries of [combos] one after the other, as long as each one is
    classified as a failure.  [Some w'] is the world after all of them
    failed; [None] means one of them was classified as a success. *)
Fixpoint all_fail (combos : list (string * string)) (w : World) : option World :=
  match combos with
  | [] => Some w
  | (u, p) :: rest =>
      let (out, w') := run_adb (query_args u p) w in
      if looks_successful out then None else all_fail rest w'
  end.

Lemma all_fail_app : forall a b w,
  all_fail (a ++ b) w =
  match all_fail a w with Some w' => all_fail b w' | None => None end.
Proof.
  induction a as [|[u p] a IH]; intros b w; cbn; [reflexivity|].
  destruct (run_adb (query_args u p) w) as [out w'].
  destruct (looks_successful out); [reflexivity|apply IH].
Qed.

(** The inner loop on one URI: either every projection fails, or the
    first projection that succeeds is returned. *)
Lemma try_projections_spec : forall uri projs w,
  (exists w', all_fail (map (fun y : string => (uri, y)) projs) w = Some w'
              /\ try_projections uri projs w = (None, w'))
  \/ (exists pre p post w1 out w2,
        projs = pre ++ p :: post
        /\ all_fail (map (fun y : string => (uri, y)) pre) w = Some w1
        /\ run_adb (query_args uri p) w1 = (out, w2)
        /\ looks_successful out = true
        /\ try_projections uri projs w
           = (Some (mkQueryResult true out (Some uri) (Some p)), w2)).
Proof.
  intros uri projs; induction projs as [|p projs IH]; intros w.
  - left. exists w. split; reflexivity.
  - cbn [try_projections map all_fail]. unfold St.bind.
    destruct (run_adb (query_args uri p) w) as [out w1] eqn:E.
    destruct (looks_successful out) eqn:L.
    + right. exists [], p, projs, w, out, w1. repeat split; assumption.
    + destruct (IH w1) as [(w' & Hf & Ht)|(pre & q & post & wa & o & wb & Hp & Hf & Hr & Hs & Ht)].
      * left. exists w'. split; assumption.
      * right. exists (p :: pre), q, post, wa, o, wb.
        repeat split; try assumption.
        -- rewrite Hp. reflexivity.
        -- cbn [map all_fail]. rewrite E, L. exact Hf.
Qed.

Lemma try_uris_spec : forall uris projs w,
  (exists w', all_fail (list_prod uris projs) w = Some w'
              /\ try_uris uris projs w = (None, w'))
  \/ (exists pre u p post w1 out w2,
        list_prod uris projs = pre ++ (u, p) :: post
        /\ all_fail pre w = Some w1
        /\ run_adb (query_args u p) w1 = (out, w2)
        /\ looks_successful out = true
        /\ try_uris uris projs w
           = (Some (mkQueryResult true out (Some u) (Some p)), w2)).
Proof.
  intros uris projs; induction uris as [|u uris IH]; intros w.
  - left. exists w. split; reflexivity.
  - cbn [try_uris list_prod]. unfold St.bind.
    destruct (try_projections_spec u projs w)
      as [(w' & Hf & Ht)|(pre & p & post & wa & o & wb & Hp & Hf & Hr & Hs & Ht)].
    + rewrite Ht.
      destruct (IH w') as [(w2 & Hf2 & Ht2)|(pre & u2 & p & post & wa & o & wb & Hp & Hf2 & Hr & Hs & Ht2)].
      * left. exists w2. split; [|assumption].
        rewrite all_fail_app, Hf. exact Hf2.
      * right. exists (map (fun y : string => (u, y)) projs ++ pre), u2, p, post, wa, o, wb.
        repeat split; try assumption.
        -- rewrite Hp. rewrite app_assoc. reflexivity.
        -- rewrite all_fail_app, Hf. exact Hf2.
    + rewrite Ht. right.
      exists (map (fun y : string => (u, y)) pre), u, p, (map (fun y : string => (u, y)) post ++ list_prod uris projs), wa, o, wb.
      repeat split; try assumption.
      rewrite Hp, map_app. cbn [map]. rewrite <- app_assoc. reflexivity.
Qed.

End Engine.

Arguments try_projections {World} run_adb uri projection_variants _.
Arguments try_uris {World} run_adb uri_variants projection_variants _.
Arguments query_content_provider_with_fallbacks {World} run_adb
  uri_variants projection_variants label _.
Arguments all_fail {World} run_adb combos w.

(** A stub transport that answers from a fixed table and logs every
    argument list it is called with. *)
Definition logging_stub (table : list string -> string)
  : list string -> St.M (list (list string)) string :=
  fun args log => (table args, log ++ [args]).

(** C1: the combinations are attempted with the URI list as the outer
    loop and the projection list as the inner loop ([list_prod]); the
    engine stops at the first combination whose output is non-empty and
    contains none of the error markers (looked for in the lower-cased
    output) and returns it with [success = true], the output as
    [raw_text] and exactly that combination; no later combination is
    attempted (the final world is the one right after that attempt).  When
    each combination fails the synthesized failure is returned.  In
    particular, for [[u1;u2]] and [[p1;p2]] and a stub failing [(u1,p1)],
    [(u1,p2)] and succeeding on [(u2,p1)], exactly these three queries are
    issued in that order and the result names [u2] and [p1]. *)
Theorem query_fallback_order :
  (forall (World : Type) (run_adb : list string -> St.M World string)
          (uris projs : list string) (label : string) (w : World),
      (exists pre u p post w1 out w2,
          list_prod uris projs = pre ++ (u, p) :: post
          /\ all_fail run_adb pre w = Some w1
          /\ run_adb (query_args u p) w1 = (out, w2)
          /\ looks_successful out = true
          /\ query_content_provider_with_fallbacks run_adb uris projs label w
             = (mkQueryResult true out (Some u) (Some p), w2))
      \/ (exists w2,
            all_fail run_adb (list_prod uris projs) w = Some w2
            /\ query_content_provider_with_fallbacks run_adb uris projs label w
               = (mkQueryResult false
                    ("All " ++ label ++ " query attempts failed.")%string
                    None None, w2)))
  /\ (forall (table : list string -> string) (u1 u2 p1 p2 label : string),
        looks_successful (table (query_args u1 p1)) = false ->
        looks_successful (table (query_args u1 p2)) = false ->
        looks_successful (table (query_args u2 p1)) = true ->
        query_content_provider_with_fallbacks (logging_stub table)
          [u1; u2] [p1; p2] label []
        = (mkQueryResult true (table (query_args u2 p1)) (Some u2) (Some p1),
           [query_args u1 p1; query_args u1 p2; query_args u2 p1])).
Proof.
  split.
  - intros World run_adb uris projs label w.
    unfold query_content_provider_with_fallbacks, St.bind.
    destruct (try_uris_spec World run_adb uris projs w)
      as [(w' & Hf & Ht)|(pre & u & p & post & wa & o & wb & Hp & Hf & Hr & Hs & Ht)].
    + right. exists w'. rewrite Ht. split; [assumption|reflexivity].
    + left. exists pre, u, p, post, wa, o, wb. rewrite Ht.
      repeat split; assumption.
  - intros table u1 u2 p1 p2 label H1 H2 H3.
    unfold query_content_provider_with_fallbacks, St.bind, St.ret, logging_stub.
    cbn [try_uris try_projections]. unfold St.bind, St.ret.
    rewrite H1, H2, H3. reflexivity.
Qed.

(** A table under which the two queries on the first URI are denied. *)
Definition sample_table (args : list string) : string :=
  if list_eq_dec string_dec args (query_args "content://sms/inbox" "address:date:body")
  then "Row: 0 address=+15551234567, date=1700000000000, body=Hello"
  else "java.lang.SecurityException: Permission Denial".

Lemma query_fallback_order_witness :
  query_content_provider_with_fallbacks (logging_stub sample_table)
    ["content://sms/"; "content://sms/inbox"] ["address:date:body"; ""] "SMS" []
  = (mkQueryResult true
       "Row: 0 address=+15551234567, date=1700000000000, body=Hello"
       (Some "content://sms/inbox") (Some "address:date:body"),
     [ ["shell"; "content"; "query"; "--uri"; "content://sms/";
        "--projection"; "address:date:body"];
       ["shell"; "content"; "query"; "--uri"; "content://sms/"];
       ["shell"; "content"; "query"; "--uri"; "content://sms/inbox";
        "--projection"; "address:date:body"] ]).
Proof.
  exact (proj2 query_fallback_order sample_table
           "content://sms/" "content://sms/inbox" "address:date:body" "" "SMS"
           eq_refl eq_refl eq_refl).
Defined.

End Query.

(* ===================================================================== *)
(** * Filesystem discovery: [brute_scan_fs] *)
(* ===================================================================== *)

Module Discovery.
Import PyStr.

(** The dictionaries [{"path": fullpath, "is_dir": bool}]. *)
Record DiscoveredPath : Type := mkDiscovered {
  path : string;
  is_dir : bool
}.

Definition dquote : string := String "034" EmptyString.

Section Primitives.

(** The device as seen through [run_adb] with its default timeout. *)
Variable run_adb : list string -> string.

Definition is_directory (p : string) : bool :=
  let out :=
    run_adb ["shell";
             ("[ -d " ++ dquote ++ p ++ dquote ++ " ] && echo DIR || echo FILE")%string] in
  contains "DIR" out.

Definition list_directory (p : string) : list string :=
  let out := run_adb ["shell"; "ls"; "-1"; p] in
  if negb (truthy out) || contains "No such" out || contains "denied" (lower out)
  then []
  else map strip (filter (fun line => truthy (strip line)) (splitlines out)).

End Primitives.

(** [f"{current}/{name}".replace("//", "/")]. *)
Definition child_path (current name : string) : string :=
  replace_double_slash (current ++ "/" ++ name)%string.

(** [" -> " in name or name.startswith(".")]. *)
Definition hidden_or_link (name : string) : bool :=
  contains " -> " name || startswith "." name.

(** The local variables of [brute_scan_fs].  The head of [stack] is the
    top of the Python list used as a stack ([pop] takes it, [append] puts
    a new one).  [processed] is a ghost log, absent from the source: the
    paths for which [visited.add(current)] was executed, oldest first. *)
Record ScanState : Type := mkScan {
  discovered : list DiscoveredPath;
  stack : list string;
  visited : set string;
  processed : list string
}.

Section Scan.

(** The two primitives the scanner is written against. *)
Variable list_directory : string -> list string.
Variable is_directory : string -> bool.

(** One turn of [for name in entries], on [discovered] and [stack]. *)
Definition scan_entry (current : string)
  (acc : list DiscoveredPath * list string) (name : string)
  : list DiscoveredPath * list string :=
  let (disc, stk) := acc in
  let full := child_path current name in
  if hidden_or_link name then
    if is_directory full
    then (disc ++ [mkDiscovered full true], full :: stk)
    else (disc, stk)
  else
    if is_directory full
    then (disc ++ [mkDiscovered full true], full :: stk)
    else (disc ++ [mkDiscovered full false], stk).

Definition scan_entries (current : string) (entries : list string)
  (acc : list DiscoveredPath * list string) : list DiscoveredPath * list string :=
  fold_left (scan_entry current) entries acc.

(** One turn of [while stack]. *)
Definition scan_step (st : ScanState) : ScanState :=
  match stack st with
  | [] => st
  | current :: rest =>
      if set_mem string_dec current (visited st)
      then mkScan (discovered st) rest (visited st) (processed st)
      else
        let visited' := set_add string_dec current (visited st) in
        let processed' := processed st ++ [current] in
        match list_directory current with
        | [] => mkScan (discovered st) rest visited' processed'
        | entries =>
            let (disc, stk) := scan_entries current entries (discovered st, rest) in
            mkScan disc stk visited' processed'
        end
  end.

(** The [while] loop, cut off after [fuel] turns. *)
Fixpoint scan_loop (fuel : nat) (st : ScanState) : option ScanState :=
  match stack st with
  | [] => Some st
  | _ :: _ =>
      match fuel with
      | O => None
      | S fuel' => scan_loop fuel' (scan_step st)
      end
  end.

Definition scan_init (root : string) : ScanState :=
  mkScan [] [rstrip_char "/" root] (empty_set string) [].

(** [brute_scan_fs(root)]; [None] when [fuel] turns of the loop do not
    empty the stack. *)
Definition brute_scan_fs (fuel : nat) (root : string) : option (list DiscoveredPath) :=
  option_map discovered (scan_loop fuel (scan_init root)).

(** The state after exactly [n] turns (a turn on an empty stack changes
    nothing). *)
Fixpoint scan_after (n : nat) (st : ScanState) : ScanState :=
  match n with
  | O => st
  | S n' => scan_after n' (scan_step st)
  end.

End Scan.

(** The scanner on a device reached through [run_adb]. *)
Definition brute_scan_device (run_adb : list string -> string)
  (fuel : nat) (root : string) : option (list DiscoveredPath) :=
  brute_scan_fs (list_directory run_adb) (is_directory run_adb) fuel root.

(** ** Facts about the visited set *)


Section ScanFacts.

Variable list_directory : string -> list string.
Variable is_directory : string -> bool.

Abbreviation step := (scan_step list_directory is_directory).
Abbreviation entries_loop := (scan_entries is_directory).

Lemma scan_loop_after : forall fuel st st',
  scan_loop list_directory is_directory fuel st = Some st' ->
  exists n, st' = scan_after list_directory is_directory n st /\ stack st' = [].
Proof.
  induction fuel as [|fuel IH]; intros st st' H; cbn in H.
  - destruct (stack st) eqn:E; [|discriminate].
    injection H as <-. exists 0. split; [reflexivity|assumption].
  - destruct (stack st) eqn:E.
    + injection H as <-. exists 0. split; [reflexivity|assumption].
    + destruct (IH _ _ H) as (n & -> & Hs). exists (S n). split; [reflexivity|assumption].
Qed.

(** ** Every path is processed at most once *)

Definition unique_inv (st : ScanState) : Prop :=
  NoDup (processed st)
  /\ forall p, In p (processed st) -> set_In p (visited st).

Lemma unique_inv_add : forall st current rest_d rest_s,
  unique_inv st ->
  set_mem string_dec current (visited st) = false ->
  unique_inv (mkScan rest_d rest_s
                (set_add string_dec current (visited st))
                (processed st ++ [current])).
Proof.
  intros st current rd rs [Hnd Hsub] Hm. split; cbn.
  - apply NoDup_app; [assumption|apply NoDup_cons; [intros []|apply NoDup_nil]|].
    intros a Ha [<-|[]].
    apply Hsub in Ha. apply (set_mem_complete1 string_dec) in Hm. contradiction.
  - intros p Hp. apply in_app_or in Hp as [Hp|[<-|[]]].
    + apply set_add_intro1. apply Hsub. exact Hp.
    + apply set_add_intro2. reflexivity.
Qed.

Lemma unique_inv_step : forall st, unique_inv st -> unique_inv (step st).
Proof.
  intros st H. unfold scan_step.
  destruct (stack st) as [|current rest]; [exact H|].
  destruct (set_mem string_dec current (visited st)) eqn:Hm.
  - exact H.
  - destruct (list_directory current) as [|e es].
    + apply unique_inv_add; assumption.
    + destruct (entries_loop current (e :: es) (discovered st, rest)) as [d s].
      apply unique_inv_add; assumption.
Qed.

Lemma unique_inv_after : forall n st,
  unique_inv st -> unique_inv (scan_after list_directory is_directory n st).
Proof.
  induction n as [|n IH]; intros st H; cbn; [exact H|].
  apply IH, unique_inv_step, H.
Qed.

Lemma unique_inv_init : forall root, unique_inv (scan_init root).
Proof.
  intros root. split; cbn; [apply NoDup_nil|intros p []].
Qed.

(** ** A measure of the work left *)







End ScanFacts.

(** ** Simulated directory trees *)









(** ** A directory that contains a link to itself *)



















(** ** Hidden entries and link artifacts *)

(** A directory with one hidden file and one ordinary file. *)
Definition hidden_list (p : string) : list string :=
  if String.eqb p "/r" then [".nomedia"; "notes.txt"] else [].

Definition no_dirs (p : string) : bool := false.

(** C9 (as stated, refuted): a dot entry that does not resolve as a
    directory is not recorded at all, while the ordinary file next to it
    is recorded as a leaf. *)
Lemma hidden_file_is_not_recorded :
  brute_scan_fs hidden_list no_dirs 2 "/r"
  = Some [mkDiscovered "/r/notes.txt" false]
  /\ ~ (exists result,
          brute_scan_fs hidden_list no_dirs 2 "/r" = Some result
          /\ In (mkDiscovered "/r/.nomedia" false) result).
Proof.
  split; [reflexivity|].
  intros (result & H & Hin). vm_compute in H. injection H as <-.
  destruct Hin as [Hin|[]]. discriminate Hin.
Qed.

(** ** The root is never reported *)

(** Number of characters other than the slash. *)
Fixpoint non_slash (s : string) : nat :=
  match s with
  | EmptyString => 0
  | String c r => (if Ascii.eqb c "/" then 0 else 1) + non_slash r
  end.

(** [s.endswith("/")]. *)
Fixpoint ends_slash (s : string) : bool :=
  match s with
  | EmptyString => false
  | String c r =>
      match r with
      | EmptyString => Ascii.eqb c "/"
      | String _ _ => ends_slash r
      end
  end.

Lemma non_slash_append : forall a b,
  non_slash (a ++ b) = non_slash a + non_slash b.
Proof.
  induction a as [|c a IH]; intros b; cbn; [reflexivity|].
  rewrite IH. lia.
Qed.

Lemma non_slash_replace : forall s,
  non_slash (replace_double_slash s) = non_slash s.
Proof.
  assert (H : forall s,
             non_slash (replace_double_slash s) = non_slash s
             /\ forall c, non_slash (replace_double_slash (String c s))
                          = non_slash (String c s)).
  { induction s as [|a s [IH1 IH2]]; [split; [reflexivity|intros c; reflexivity]|].
    split; [apply IH2|]. intros c.
    change (replace_double_slash (String c (String a s)))
      with (if Ascii.eqb c "/" && Ascii.eqb a "/"
            then String "/" (replace_double_slash s)
            else String c (replace_double_slash (String a s))).
    destruct (Ascii.eqb c "/") eqn:Ec; destruct (Ascii.eqb a "/") eqn:Ea;
      cbn [andb non_slash]; rewrite ?Ec, ?Ea, ?IH1, ?IH2;
      cbn [non_slash]; rewrite ?Ea; reflexivity. }
  intros s. apply H.
Qed.

Lemma replace_nonempty : forall c s, replace_double_slash (String c s) <> "".
Proof.
  intros c [|a s]; cbn; [discriminate|].
  destruct (Ascii.eqb c "/" && Ascii.eqb a "/"); discriminate.
Qed.

Lemma ends_slash_cons : forall c s,
  s <> "" -> ends_slash (String c s) = ends_slash s.
Proof. intros c [|a s] H; [contradiction|reflexivity]. Qed.

Lemma ends_slash_replace : forall s,
  ends_slash (replace_double_slash s) = ends_slash s.
Proof.
  assert (H : forall s,
             ends_slash (replace_double_slash s) = ends_slash s
             /\ forall c, ends_slash (replace_double_slash (String c s))
                          = ends_slash (String c s)).
  { induction s as [|a s [IH1 IH2]]; [split; [reflexivity|intros c; reflexivity]|].
    split; [apply IH2|]. intros c.
    change (replace_double_slash (String c (String a s)))
      with (if Ascii.eqb c "/" && Ascii.eqb a "/"
            then String "/" (replace_double_slash s)
            else String c (replace_double_slash (String a s))).
    destruct (Ascii.eqb c "/" && Ascii.eqb a "/") eqn:E.
    - apply andb_prop in E as [_ Ea].
      destruct s as [|b s].
      + cbn. rewrite Ea. reflexivity.
      + rewrite ends_slash_cons by apply replace_nonempty.
        rewrite IH1. reflexivity.
    - rewrite ends_slash_cons by apply replace_nonempty.
      rewrite IH2. reflexivity. }
  intros s. apply H.
Qed.

Lemma ends_slash_append_slashes : forall c n,
  non_slash n = 0 -> ends_slash (c ++ "/" ++ n) = true.
Proof.
  assert (Hn : forall n, non_slash n = 0 -> ends_slash (String "/" n) = true).
  { induction n as [|a n IH]; intros H; [reflexivity|].
    cbn [non_slash] in H. destruct (Ascii.eqb a "/") eqn:Ea; [|discriminate].
    apply Ascii.eqb_eq in Ea. subst a.
    change (ends_slash (String "/" (String "/" n))) with (ends_slash (String "/" n)).
    apply IH. exact H. }
  induction c as [|a c IH]; intros n H.
  - apply Hn, H.
  - cbn [append]. rewrite ends_slash_cons.
    + apply IH, H.
    + destruct c; discriminate.
Qed.

Lemma rstrip_char_no_trailing : forall s, ends_slash (rstrip_char "/" s) = false.
Proof.
  induction s as [|a s IH]; [reflexivity|].
  cbn [rstrip_char]. destruct (rstrip_char "/" s) as [|b r] eqn:E.
  - cbn. destruct (Ascii.eqb a "/") eqn:Ea; cbn; [reflexivity|exact Ea].
  - rewrite andb_false_r. change (ends_slash (String a (String b r)))
      with (ends_slash (String b r)). exact IH.
Qed.

Section Reach.

Variable list_directory : string -> list string.
Variable is_directory : string -> bool.
Variable root0 : string.

(** A path obtained from [root0] by one or more joins of a directory path
    with one of the names listed for it. *)
Inductive under : string -> Prop :=
| under_root : forall name,
    In name (list_directory root0) ->
    under (child_path root0 name)
| under_deeper : forall c name,
    under c ->
    In name (list_directory c) ->
    under (child_path c name).

Lemma under_child : forall c name,
  c = root0 \/ under c -> In name (list_directory c) -> under (child_path c name).
Proof.
  intros c name [->|Hc] Hin; [apply under_root|apply under_deeper]; assumption.
Qed.

Lemma under_inv : forall p,
  under p ->
  exists c name, (c = root0 \/ under c) /\ In name (list_directory c)
                 /\ p = child_path c name.
Proof.
  intros p [name Hin|c name Hc Hin].
  - exists root0, name. repeat split; [left; reflexivity|exact Hin].
  - exists c, name. repeat split; [right; exact Hc|exact Hin].
Qed.

Lemma under_non_slash : forall p, under p -> non_slash root0 <= non_slash p.
Proof.
  induction 1 as [name Hin|c name Hc IH Hin];
    unfold child_path; rewrite non_slash_replace, !non_slash_append; lia.
Qed.

Lemma under_not_root : forall p,
  ends_slash root0 = false -> under p -> p <> root0.
Proof.
  intros p Hr Hu Heq.
  destruct (under_inv p Hu) as (c & name & Hc & Hin & ->).
  assert (Hroot : non_slash root0 <= non_slash c).
  { destruct Hc as [->|Hc]; [lia|apply under_non_slash, Hc]. }
  assert (Hn : non_slash name = 0).
  { apply (f_equal non_slash) in Heq. unfold child_path in Heq.
    rewrite non_slash_replace, !non_slash_append in Heq. cbn in Heq. lia. }
  apply (f_equal ends_slash) in Heq. unfold child_path in Heq.
  rewrite ends_slash_replace, ends_slash_append_slashes in Heq by exact Hn.
  congruence.
Qed.

(** What holds of the scanner's variables at every turn. *)
Definition reach_inv (st : ScanState) : Prop :=
  (forall d, In d (discovered st) ->
     under (path d)
     /\ exists c name,
          (c = root0 \/ In (mkDiscovered c true) (discovered st))
          /\ In name (list_directory c)
          /\ path d = child_path c name)
  /\ (forall s, In s (stack st) ->
        (s = root0 \/ under s)
        /\ (s = root0 \/ In (mkDiscovered s true) (discovered st))).

Lemma reach_entries : forall current entries disc stk,
  (current = root0 \/ under current) ->
  (current = root0 \/ In (mkDiscovered current true) disc) ->
  (forall name, In name entries -> In name (list_directory current)) ->
  reach_inv (mkScan disc stk [] []) ->
  reach_inv (mkScan (fst (scan_entries is_directory current entries (disc, stk)))
                    (snd (scan_entries is_directory current entries (disc, stk)))
                    [] []).
Proof.
  intros current entries. unfold scan_entries.
  induction entries as [|name es IH]; intros disc stk Hc Hd Hsub Hinv; [exact Hinv|].
  cbn [fold_left].
  assert (Hname : In name (list_directory current)) by (apply Hsub; left; reflexivity).
  assert (Hsub' : forall n, In n es -> In n (list_directory current))
    by (intros n Hn; apply Hsub; right; exact Hn).
  assert (Hu : under (child_path current name)) by (apply under_child; assumption).
  assert (Hext : forall b,
            reach_inv (mkScan (disc ++ [mkDiscovered (child_path current name) b])
                              stk [] [])).
  { intros b. destruct Hinv as [H1 H2]. split; cbn [discovered stack] in *.
    - intros d Hin. apply in_app_or in Hin as [Hin|[<-|[]]].
      + destruct (H1 d Hin) as (Hud & c & n & Hcc & Hn & Hp).
        split; [exact Hud|]. exists c, n. repeat split; try assumption.
        destruct Hcc as [->|Hcc]; [left; reflexivity|right; apply in_or_app; left; exact Hcc].
      + split; [exact Hu|]. exists current, name. repeat split; try assumption.
        destruct Hd as [->|Hd]; [left; reflexivity|right; apply in_or_app; left; exact Hd].
    - intros s Hs. destruct (H2 s Hs) as [Ha Hb]. split; [exact Ha|].
      destruct Hb as [->|Hb]; [left; reflexivity|right; apply in_or_app; left; exact Hb]. }
  assert (Hd' : forall b, current = root0
              \/ In (mkDiscovered current true)
                    (disc ++ [mkDiscovered (child_path current name) b])).
  { intros b. destruct Hd as [->|Hd]; [left; reflexivity|right; apply in_or_app; left; exact Hd]. }
  assert (Hpush : reach_inv (mkScan (disc ++ [mkDiscovered (child_path current name) true])
                                    (child_path current name :: stk) [] [])).
  { destruct (Hext true) as [H1 H2]. split; [exact H1|].
    cbn [stack discovered] in *. intros s [<-|Hs]; [|apply H2, Hs].
    split; [right; exact Hu|right; apply in_or_app; right; left; reflexivity]. }
  unfold scan_entry at 2 4.
  destruct (hidden_or_link name); destruct (is_directory (child_path current name)).
  - apply IH; auto.
  - apply IH; auto.
  - apply IH; auto.
  - apply IH; auto.
Qed.

Lemma reach_inv_frame : forall d s v p v' p',
  reach_inv (mkScan d s v p) -> reach_inv (mkScan d s v' p').
Proof. intros d s v p v' p' H. exact H. Qed.

Lemma reach_inv_pop : forall d c s v p v' p',
  reach_inv (mkScan d (c :: s) v p) -> reach_inv (mkScan d s v' p').
Proof.
  intros d c s v p v' p' [H1 H2]. split; [exact H1|].
  intros x Hx. apply H2. right. exact Hx.
Qed.

Lemma reach_inv_step : forall st,
  reach_inv st -> reach_inv (scan_step list_directory is_directory st).
Proof.
  intros [d s v p] H. unfold scan_step. cbn [stack discovered visited processed].
  destruct s as [|current rest]; [exact H|].
  destruct (set_mem string_dec current v).
  - apply (reach_inv_pop _ _ _ _ _ _ _ H).
  - destruct (list_directory current) as [|e es] eqn:El.
    + apply (reach_inv_pop _ _ _ _ _ _ _ H).
    + pose proof H as [_ H2]. cbn [stack discovered] in H2.
      destruct (H2 current (or_introl eq_refl)) as [Ha Hb].
      pose proof (reach_entries current (e :: es) d rest Ha Hb) as HE.
      rewrite <- El in HE. specialize (HE (fun n Hn => Hn)).
      specialize (HE (reach_inv_pop d current rest v p [] [] H)).
      rewrite El in HE.
      destruct (scan_entries is_directory current (e :: es) (d, rest)) as [d' s'].
      exact HE.
Qed.

Lemma reach_inv_after : forall n st,
  reach_inv st -> reach_inv (scan_after list_directory is_directory n st).
Proof.
  induction n as [|n IH]; intros st H; cbn; [exact H|].
  apply IH, reach_inv_step, H.
Qed.

(** ** Termination when finitely many reachable paths list entries *)



End Reach.

Lemma reach_inv_init : forall ls root,
  reach_inv ls (rstrip_char "/" root) (scan_init root).
Proof.
  intros ls root. split; cbn.
  - intros d [].
  - intros s [<-|[]]. split; left; reflexivity.
Qed.


(** A two-level tree: [/sdcard] holds a directory [DCIM] (listed twice)
    and a file; [DCIM] holds one picture. *)
Definition sample_list (p : string) : list string :=
  if String.eqb p "/sdcard" then ["DCIM"; "notes.txt"; "DCIM"]
  else if String.eqb p "/sdcard/DCIM" then ["a.jpg"]
  else [].

Definition sample_is_dir (p : string) : bool := String.eqb p "/sdcard/DCIM".



(** A directory [/r] for which the name [/] is listed. *)
Definition slash_list (p : string) : list string :=
  if String.eqb p "/r" then ["/"] else [].

(** C10 (as stated, refuted): for the root [/r/] the scanner seeds its
    stack with [/r]; the listed name [/] is joined to [/r//], which
    [replace("//", "/")] turns into [/r/]: the returned list holds the
    root argument itself. *)
Lemma root_with_trailing_slash_is_reported :
  brute_scan_fs slash_list no_dirs 2 "/r/" = Some [mkDiscovered "/r/" false]
  /\ child_path (rstrip_char "/" "/r/") "/" = "/r/"
  /\ ~ (forall result d,
          brute_scan_fs slash_list no_dirs 2 "/r/" = Some result ->
          In d result -> path d <> "/r/").
Proof.
  split; [reflexivity|]. split; [reflexivity|].
  intros H.
  apply (H [mkDiscovered "/r/" false] (mkDiscovered "/r/" false) eq_refl);
    [left; reflexivity|reflexivity].
Qed.

Lemma rstrip_char_unchanged : forall s,
  ends_slash s = false -> rstrip_char "/" s = s.
Proof.
  induction s as [|a s IH]; intros H; [reflexivity|].
  cbn [rstrip_char]. destruct s as [|b r].
  - cbn in *. rewrite H. reflexivity.
  - change (ends_slash (String a (String b r))) with (ends_slash (String b r)) in H.
    rewrite (IH H). cbn [truthy negb]. rewrite andb_false_r. reflexivity.
Qed.

(** C10 (amended): the list returned by [brute_scan_fs] never contains
    the path the scanner seeds its stack with, [root.rstrip("/")] -- which
    is the root argument itself when that does not end with a slash:
    every returned path is obtained by joining an already visited
    directory path -- the seeded root or a path reported earlier as a
    directory -- with a name listed for it, through one or more such
    joins, and is different from the seeded root.  A root argument that
    ends with a slash can be returned. *)
Theorem scan_never_reports_root :
  forall (list_directory : string -> list string) (is_directory : string -> bool)
         (fuel : nat) (root : string) (result : list DiscoveredPath),
    brute_scan_fs list_directory is_directory fuel root = Some result ->
    forall d, In d result ->
      path d <> rstrip_char "/" root
      /\ under list_directory (rstrip_char "/" root) (path d)
      /\ (exists c name,
            (c = rstrip_char "/" root \/ In (mkDiscovered c true) result)
            /\ In name (list_directory c)
            /\ path d = child_path c name)
      /\ (ends_slash root = false -> path d <> root).
Proof.
  intros ls isdir fuel root result H d Hd.
  unfold brute_scan_fs in H.
  destruct (scan_loop ls isdir fuel (scan_init root)) as [final|] eqn:E; [|discriminate].
  cbn in H. injection H as <-.
  destruct (scan_loop_after ls isdir _ _ _ E) as (n & -> & _).
  pose proof (reach_inv_after ls isdir (rstrip_char "/" root) n (scan_init root)
                (reach_inv_init ls root)) as [H1 _].
  destruct (H1 d Hd) as (Hu & Hex).
  assert (Hne : path d <> rstrip_char "/" root).
  { apply (under_not_root ls (rstrip_char "/" root));
      [apply rstrip_char_no_trailing|exact Hu]. }
  split; [exact Hne|]. split; [exact Hu|]. split; [exact Hex|].
  intros Hr. rewrite (rstrip_char_unchanged root Hr) in Hne. exact Hne.
Qed.

Definition sample_result : list DiscoveredPath :=
  [mkDiscovered "/sdcard/DCIM" true; mkDiscovered "/sdcard/notes.txt" false;
   mkDiscovered "/sdcard/DCIM" true; mkDiscovered "/sdcard/DCIM/a.jpg" false].

Lemma scan_never_reports_root_witness :
  "/sdcard/DCIM/a.jpg" <> rstrip_char "/" "/sdcard"
  /\ under sample_list (rstrip_char "/" "/sdcard") "/sdcard/DCIM/a.jpg"
  /\ (exists c name,
        (c = rstrip_char "/" "/sdcard" \/ In (mkDiscovered c true) sample_result)
        /\ In name (sample_list c)
        /\ "/sdcard/DCIM/a.jpg" = child_path c name)
  /\ "/sdcard/DCIM/a.jpg" <> "/sdcard".
Proof.
  destruct (scan_never_reports_root sample_list sample_is_dir 10 "/sdcard"
              sample_result eq_refl (mkDiscovered "/sdcard/DCIM/a.jpg" false)
              (or_intror (or_intror (or_intror (or_introl eq_refl)))))
    as (H1 & H2 & H3 & H4).
  split; [exact H1|]. split; [exact H2|]. split; [exact H3|].
  exact (H4 eq_refl).
Defined.

End Discovery.

(* ===================================================================== *)
(** * Reading local files in chunks *)
(* ===================================================================== *)

Module Chunks.

(** [f.read(n)] on the rest of a file: the chunk read and what is left. *)
Fixpoint read_n (n : N) (l : list byte) : list byte * list byte :=
  match l with
  | [] => ([], [])
  | b :: r =>
      if (n =? 0)%N then ([], l)
      else let (c, rest) := read_n (N.pred n) r in (b :: c, rest)
  end.

(** The chunks of [while chunk := f.read(n)]: reading stops at the first
    empty chunk.  [fuel] bounds the number of reads. *)
Fixpoint chunks (fuel : nat) (n : N) (l : list byte) : list (list byte) :=
  match fuel with
  | O => []
  | S fuel' =>
      match read_n n l with
      | ([], _) => []
      | (c, rest) => c :: chunks fuel' n rest
      end
  end.

(** A file of [k] bytes is read in at most [k] non-empty chunks. *)
Definition file_chunks (n : N) (content : list byte) : list (list byte) :=
  chunks (length content) n content.

(** [4*1024*1024]. *)
Definition CHUNK_SIZE : N := 4 * 1024 * 1024.

Lemma read_n_split : forall l n c rest,
  read_n n l = (c, rest) -> l = c ++ rest.
Proof.
  induction l as [|b l IH]; intros n c rest H; cbn in H.
  - injection H as <- <-. reflexivity.
  - destruct (n =? 0)%N.
    + injection H as <- <-. reflexivity.
    + destruct (read_n (N.pred n) l) as [c' rest'] eqn:E.
      injection H as <- <-. cbn. f_equal. apply (IH _ _ _ E).
Qed.

Lemma read_n_progress : forall l n,
  n <> 0%N -> l <> [] -> fst (read_n n l) <> [].
Proof.
  intros [|b l] n Hn Hl; [contradiction|]. cbn.
  apply N.eqb_neq in Hn. rewrite Hn.
  destruct (read_n (N.pred n) l). discriminate.
Qed.

Lemma concat_chunks : forall fuel n l,
  n <> 0%N -> length l <= fuel -> concat (chunks fuel n l) = l.
Proof.
  induction fuel as [|fuel IH]; intros n l Hn Hl.
  - destruct l; [reflexivity|cbn in Hl; lia].
  - cbn [chunks]. destruct (read_n n l) as [c rest] eqn:E.
    pose proof (read_n_split l n c rest E) as Hs.
    destruct c as [|b c].
    + destruct l as [|x l]; [reflexivity|].
      exfalso. apply (read_n_progress (x :: l) n Hn); [discriminate|].
      rewrite E. reflexivity.
    + cbn [concat]. rewrite IH; [symmetry; exact Hs|exact Hn|].
      subst l. rewrite length_app in Hl. cbn in Hl. lia.
Qed.

Lemma concat_file_chunks : forall n content,
  n <> 0%N -> concat (file_chunks n content) = content.
Proof.
  intros n content Hn. apply concat_chunks; [exact Hn|lia].
Qed.

End Chunks.

(* ===================================================================== *)
(** * Extraction and manifest: [brute_extract_folder] *)
(* ===================================================================== *)

Module Extraction.
Import PyStr Discovery Chunks.

(** The [hashes] dictionary; [None] is Python's [None]. *)
Record Hashes : Type := mkHashes {
  md5 : option string;
  sha1 : option string;
  sha256 : option string
}.

Definition NO_HASHES : Hashes := mkHashes None None None.

Record ManifestEntry : Type := mkEntry {
  remote_path : string;
  local_path : string;
  size : N;
  mtime : Q;
  hashes : Hashes;
  adb_result : string
}.

(** A [hashlib] object: [new], [update], [hexdigest]. *)
Record Hasher : Type := mkHasher {
  hstate : Type;
  hnew : hstate;
  hupdate : hstate -> list byte -> hstate;
  hexdigest : hstate -> string
}.

(** The part of the operating system the extraction uses, on a local
    filesystem of type [FS].  [read_bytes] is [open(path, "rb")] followed
    by reading to the end, [None] when that raises (a directory, a file
    that may not be read); [makedirs] is [os.makedirs(path, exist_ok=True)],
    [None] when it raises; [pull remote local] is
    [run_adb(["pull", remote, local], timeout=240)], which returns the
    transport text and may change the local filesystem in any way. *)
Record LocalOS (FS : Type) : Type := mkOS {
  abspath : string -> string;
  path_join : string -> string -> string;
  dirname : string -> string;
  makedirs : string -> FS -> option FS;
  path_exists : string -> FS -> bool;
  getsize : string -> FS -> N;
  getmtime : string -> FS -> Q;
  read_bytes : string -> FS -> option (list byte);
  pull : string -> string -> FS -> string * FS
}.

Arguments abspath {FS} _ _.
Arguments path_join {FS} _ _ _.
Arguments dirname {FS} _ _.
Arguments makedirs {FS} _ _ _.
Arguments path_exists {FS} _ _ _.
Arguments getsize {FS} _ _ _.
Arguments getmtime {FS} _ _ _.
Arguments read_bytes {FS} _ _ _.
Arguments pull {FS} _ _ _ _.

(** How a call ends: it returns, an exception leaves it, or the fuel of
    the discovery loop ran out. *)
Inductive Run (A : Type) : Type :=
| Returns (a : A)
| Raises
| Unfinished.

Arguments Returns {A} a.
Arguments Raises {A}.
Arguments Unfinished {A}.

Section Extract.

Variables MD5 SHA1 SHA256 : Hasher.
Variable FS : Type.
Variable os : LocalOS FS.
Variable list_directory : string -> list string.
Variable is_directory : string -> bool.

Definition digest (h : Hasher) (chunks : list (list byte)) : string :=
  hexdigest h (fold_left (hupdate h) chunks (hnew h)).

(** [compute_hashes(path)]: the three digests of the file read in chunks,
    or three [None] when anything raises. *)
Definition compute_hashes (p : string) (chunk_size : N) (fs : FS) : Hashes :=
  match read_bytes os p fs with
  | Some content =>
      let chunks := file_chunks chunk_size content in
      mkHashes (Some (digest MD5 chunks)) (Some (digest SHA1 chunks))
               (Some (digest SHA256 chunks))
  | None => NO_HASHES
  end.

(** The body of [for entry in fs_items] for an entry that is not a
    directory: the new manifest entry and the local filesystem after the
    pull attempt. *)
Definition pull_entry (dest_root remote : string) (fs : FS)
  : Run (ManifestEntry * FS) :=
  let local := path_join os dest_root (lstrip_char "/" remote) in
  match makedirs os (dirname os local) fs with
  | None => Raises
  | Some fs1 =>
      let (adb_out, fs2) := pull os remote local fs1 in
      let size := if path_exists os local fs2 then getsize os local fs2 else 0%N in
      let mtime := if path_exists os local fs2 then getmtime os local fs2 else 0%Q in
      let hashes := if path_exists os local fs2
                    then compute_hashes local CHUNK_SIZE fs2 else NO_HASHES in
      Returns (mkEntry remote local size mtime hashes adb_out, fs2)
  end.

Fixpoint extract_loop (dest_root : string) (fs_items : list DiscoveredPath)
  (manifest : list ManifestEntry) (fs : FS) : Run (list ManifestEntry * FS) :=
  match fs_items with
  | [] => Returns (manifest, fs)
  | entry :: rest =>
      if is_dir entry then extract_loop dest_root rest manifest fs
      else
        match pull_entry dest_root (path entry) fs with
        | Returns (e, fs2) => extract_loop dest_root rest (manifest ++ [e]) fs2
        | Raises => Raises
        | Unfinished => Unfinished
        end
  end.

Definition brute_extract_folder (fuel : nat) (remote_root dest_root : string)
  (fs : FS) : Run (list ManifestEntry * FS) :=
  let remote_root := rstrip_char "/" remote_root in
  let dest_root := abspath os dest_root in
  match makedirs os dest_root fs with
  | None => Raises
  | Some fs0 =>
      match brute_scan_fs list_directory is_directory fuel remote_root with
      | None => Unfinished
      | Some fs_items => extract_loop dest_root fs_items [] fs0
      end
  end.

(** The entries of a discovery result that are not directories. *)
Definition leaves (fs_items : list DiscoveredPath) : list DiscoveredPath :=
  filter (fun d => negb (is_dir d)) fs_items.

(** [e] was made by the loop body from the local filesystem [before], and
    [after] is the local filesystem right after its pull attempt. *)
Definition made_by_pull (dest_root : string) (e : ManifestEntry) (after : FS) : Prop :=
  exists before, pull_entry dest_root (remote_path e) before = Returns (e, after).

Definition all_null (h : Hashes) : Prop :=
  md5 h = None /\ sha1 h = None /\ sha256 h = None.

Definition none_null (h : Hashes) : Prop :=
  md5 h <> None /\ sha1 h <> None /\ sha256 h <> None.

Lemma pull_entry_remote : forall dest remote fs e fs2,
  pull_entry dest remote fs = Returns (e, fs2) -> remote_path e = remote.
Proof.
  intros dest remote fs e fs2 H. unfold pull_entry in H.
  destruct (makedirs os _ fs) as [fs1|]; [|discriminate].
  destruct (pull os remote _ fs1) as [out fs2'].
  injection H as <- _. reflexivity.
Qed.

Lemma extract_loop_spec : forall dest fs_items manifest fs result fs',
  extract_loop dest fs_items manifest fs = Returns (result, fs') ->
  exists added,
    result = manifest ++ added
    /\ map remote_path added = map path (leaves fs_items)
    /\ Forall (fun e => exists after, made_by_pull dest e after) added.
Proof.
  intros dest fs_items. induction fs_items as [|entry rest IH];
    intros manifest fs result fs' H; cbn in H.
  - injection H as <- <-. exists []. rewrite app_nil_r. repeat split. constructor.
  - unfold leaves. cbn [filter]. destruct (is_dir entry) eqn:Ed; cbn [negb].
    + apply (IH _ _ _ _ H).
    + destruct (pull_entry dest (path entry) fs) as [[e fs2]| |] eqn:Ep;
        try discriminate.
      destruct (IH _ _ _ _ H) as (added & -> & Hm & Hf).
      exists (e :: added). rewrite <- app_assoc. repeat split.
      * cbn [map]. rewrite (pull_entry_remote _ _ _ _ _ Ep).
        f_equal. exact Hm.
      * constructor; [|exact Hf]. exists fs2, fs.
        rewrite (pull_entry_remote _ _ _ _ _ Ep). exact Ep.
Qed.

Lemma extract_loop_returns : forall dest fs_items manifest fs,
  (forall p x, makedirs os p x <> None) ->
  exists result fs', extract_loop dest fs_items manifest fs = Returns (result, fs').
Proof.
  intros dest fs_items. induction fs_items as [|entry rest IH];
    intros manifest fs Hmk; cbn.
  - eexists _, _. reflexivity.
  - destruct (is_dir entry); [apply IH, Hmk|].
    unfold pull_entry.
    destruct (makedirs os _ fs) as [fs1|] eqn:Em; [|exfalso; apply (Hmk _ _ Em)].
    destruct (pull os (path entry) _ fs1) as [out fs2].
    apply IH, Hmk.
Qed.

Lemma pull_entry_hashes : forall dest e after,
  made_by_pull dest e after ->
  (path_exists os (local_path e) after = false -> all_null (hashes e))
  /\ (all_null (hashes e) <->
        path_exists os (local_path e) after = false
        \/ read_bytes os (local_path e) after = None)
  /\ (none_null (hashes e) <->
        path_exists os (local_path e) after = true
        /\ read_bytes os (local_path e) after <> None)
  /\ (all_null (hashes e) \/ none_null (hashes e)).
Proof.
  clear list_directory is_directory.
  intros dest e after [before H]. unfold pull_entry in H.
  destruct (makedirs os _ before) as [fs1|]; [|discriminate].
  destruct (pull os (remote_path e) _ fs1) as [out fs2].
  injection H as He <-. rewrite <- He. cbn [local_path hashes].
  unfold compute_hashes, all_null, none_null.
  destruct (path_exists os _ fs2); [destruct (read_bytes os _ fs2)|];
    cbn; intuition congruence.
Qed.

End Extract.

Arguments brute_extract_folder MD5 SHA1 SHA256 {FS} os list_directory is_directory
  fuel remote_root dest_root fs.
Arguments made_by_pull MD5 SHA1 SHA256 {FS} os dest_root e after.

(** ** A simulated workstation *)

(** What can be at a local path: a regular file, which the user may or
    may not be allowed to read, or a directory. *)
Inductive LocalNode : Type :=
| LocalFile (content : list byte) (readable : bool)
| LocalDir.

(** A local filesystem as a list of bindings, newest first. *)
Definition SimFS : Type := list (string * LocalNode).

Definition sim_lookup (p : string) (fs : SimFS) : option LocalNode :=
  option_map snd (find (fun kv => String.eqb (fst kv) p) fs).

(** [posixpath.join] and [posixpath.dirname]. *)
Definition posix_join (a b : string) : string :=
  if startswith "/" b then b
  else if negb (truthy a) || ends_slash a then (a ++ b)%string
  else (a ++ "/" ++ b)%string.

Fixpoint upto_last_slash (s : string) : string :=
  match s with
  | EmptyString => EmptyString
  | String c r => if contains "/" s then String c (upto_last_slash r) else EmptyString
  end.

Definition posix_dirname (p : string) : string :=
  let head := upto_last_slash p in
  if truthy (rstrip_char "/" head) then rstrip_char "/" head else head.

(** The workstation in front of a device: [remote] says what a pull of a
    remote path leaves at the local path (nothing for a path that cannot
    be pulled, in which case only the diagnostic is returned).
    Directories are created on demand. *)
Definition sim_os (remote : string -> option LocalNode) : LocalOS SimFS :=
  mkOS SimFS
    (fun p => p)
    posix_join
    posix_dirname
    (fun _ fs => Some fs)
    (fun p fs => match sim_lookup p fs with Some _ => true | None => false end)
    (fun p fs => match sim_lookup p fs with
                 | Some (LocalFile b _) => N.of_nat (length b)
                 | Some LocalDir => 4096%N
                 | None => 0%N
                 end)
    (fun _ _ => 0%Q)
    (fun p fs => match sim_lookup p fs with
                 | Some (LocalFile b true) => Some b
                 | _ => None
                 end)
    (fun r l fs => match remote r with
                   | Some node => ("1 file pulled.", (l, node) :: fs)
                   | None => ("adb: error: failed to stat remote object", fs)
                   end).

(** A stand-in digest that spells out what it was fed. *)
Definition spelling_hasher (tag : string) : Hasher :=
  mkHasher (list byte) [] (fun st chunk => st ++ chunk)
           (fun st => (tag ++ ":" ++ string_of_list_byte st)%string).

(** A device on which [/r/cache] is a directory that the directory test
    fails to recognise, and [/r/key.db] a file that arrives locally
    without read permission. *)
Definition cache_list (p : string) : list string :=
  if String.eqb p "/r" then ["cache"; "key.db"] else [].

Definition cache_remote (p : string) : option LocalNode :=
  if String.eqb p "/r/cache" then Some LocalDir
  else if String.eqb p "/r/key.db" then Some (LocalFile [x53; x51; x4c] false)
  else None.

(** C4 (as stated, refuted): after the pull attempts both local paths
    exist -- one as a directory, one as a regular file that cannot be
    read -- and yet the three hash fields of their entries are all
    null. *)
Lemma existing_local_path_with_null_hashes :
  brute_extract_folder (spelling_hasher "md5") (spelling_hasher "sha1")
    (spelling_hasher "sha256") (sim_os cache_remote) cache_list no_dirs
    2 "/r" "/out" []
  = Returns ([mkEntry "/r/cache" "/out/r/cache" 4096 0 NO_HASHES "1 file pulled.";
              mkEntry "/r/key.db" "/out/r/key.db" 3 0 NO_HASHES "1 file pulled."],
             [("/out/r/key.db", LocalFile [x53; x51; x4c] false);
              ("/out/r/cache", LocalDir)])
  /\ path_exists (sim_os cache_remote) "/out/r/cache"
       [("/out/r/key.db", LocalFile [x53; x51; x4c] false); ("/out/r/cache", LocalDir)]
     = true
  /\ path_exists (sim_os cache_remote) "/out/r/key.db"
       [("/out/r/key.db", LocalFile [x53; x51; x4c] false); ("/out/r/cache", LocalDir)]
     = true.
Proof. repeat split. Qed.

(** What the manifest records about one entry, with [after] the local
    filesystem right after the entry's pull attempt. *)
Definition entry_hashes_ok (MD5 SHA1 SHA256 : Hasher) (FS : Type) (os : LocalOS FS)
  (dest_root : string) (e : ManifestEntry) : Prop :=
  exists after,
    made_by_pull MD5 SHA1 SHA256 os dest_root e after
    /\ (path_exists os (local_path e) after = false -> all_null (hashes e))
    /\ (all_null (hashes e) <->
          path_exists os (local_path e) after = false
          \/ read_bytes os (local_path e) after = None)
    /\ (none_null (hashes e) <->
          path_exists os (local_path e) after = true
          /\ read_bytes os (local_path e) after <> None)
    /\ (all_null (hashes e) \/ none_null (hashes e)).

(** C4 (amended): when [brute_extract_folder] returns, its manifest has
    exactly one entry per discovered non-directory path and none for a
    directory, in discovery order, whatever the pulls did; and it does
    return whenever discovery ends and no local directory creation
    raises.  For every entry, with the local filesystem as it is right
    after the entry's pull attempt: the three hash fields are all null if
    the local path does not exist, and also if it exists but cannot be
    opened and read (for instance because it is a directory); they are all
    non-null exactly when the local path exists and can be read; no entry
    has only some of them null. *)
Theorem manifest_entry_per_leaf :
  forall (MD5 SHA1 SHA256 : Hasher) (FS : Type) (os : LocalOS FS)
         (list_directory : string -> list string) (is_directory : string -> bool)
         (fuel : nat) (remote_root dest_root : string) (fs : FS),
    (forall manifest fs',
        brute_extract_folder MD5 SHA1 SHA256 os list_directory is_directory
          fuel remote_root dest_root fs = Returns (manifest, fs') ->
        exists fs_items,
          brute_scan_fs list_directory is_directory fuel (rstrip_char "/" remote_root)
          = Some fs_items
          /\ map remote_path manifest = map path (leaves fs_items)
          /\ Forall (entry_hashes_ok MD5 SHA1 SHA256 FS os (abspath os dest_root))
               manifest)
    /\ ((forall p x, makedirs os p x <> None) ->
        forall fs_items,
          brute_scan_fs list_directory is_directory fuel (rstrip_char "/" remote_root)
          = Some fs_items ->
          exists manifest fs',
            brute_extract_folder MD5 SHA1 SHA256 os list_directory is_directory
              fuel remote_root dest_root fs = Returns (manifest, fs')).
Proof.
  intros MD5 SHA1 SHA256 FS os ls isdir fuel remote_root dest_root fs. split.
  - intros manifest fs' H. unfold brute_extract_folder in H.
    destruct (makedirs os (abspath os dest_root) fs) as [fs0|]; [|discriminate].
    destruct (brute_scan_fs ls isdir fuel (rstrip_char "/" remote_root))
      as [fs_items|]; [|discriminate].
    exists fs_items. split; [reflexivity|].
    destruct (extract_loop_spec MD5 SHA1 SHA256 FS os _ _ _ _ _ _ H)
      as (added & -> & Hm & Hf).
    cbn [app]. split; [exact Hm|].
    apply Forall_forall. intros e He.
    rewrite Forall_forall in Hf. destruct (Hf e He) as [after Hmade].
    exists after. split; [exact Hmade|].
    apply (pull_entry_hashes MD5 SHA1 SHA256 FS os (abspath os dest_root) e after Hmade).
  - intros Hmk fs_items Hscan. unfold brute_extract_folder.
    destruct (makedirs os (abspath os dest_root) fs) as [fs0|] eqn:Em;
      [|exfalso; apply (Hmk _ _ Em)].
    rewrite Hscan.
    apply (extract_loop_returns MD5 SHA1 SHA256 FS os _ _ _ _ Hmk).
Qed.

(** A device with one retrievable picture and one file whose pull fails. *)
Definition media_list (p : string) : list string :=
  if String.eqb p "/sdcard" then ["DCIM"; "gone.txt"]
  else if String.eqb p "/sdcard/DCIM" then ["a.jpg"]
  else [].

Definition media_remote (p : string) : option LocalNode :=
  if String.eqb p "/sdcard/DCIM/a.jpg" then Some (LocalFile [x4a; x46; x49; x46] true)
  else None.

Definition media_manifest : list ManifestEntry :=
  [ mkEntry "/sdcard/gone.txt" "/out/sdcard/gone.txt" 0 0 NO_HASHES
      "adb: error: failed to stat remote object";
    mkEntry "/sdcard/DCIM/a.jpg" "/out/sdcard/DCIM/a.jpg" 4 0
      (mkHashes (Some "md5:JFIF") (Some "sha1:JFIF") (Some "sha256:JFIF"))
      "1 file pulled." ].

Lemma manifest_entry_per_leaf_witness :
  (exists fs_items,
      brute_scan_fs media_list sample_is_dir 5 (rstrip_char "/" "/sdcard/")
      = Some fs_items
      /\ map remote_path media_manifest = map path (leaves fs_items)
      /\ Forall (entry_hashes_ok (spelling_hasher "md5") (spelling_hasher "sha1")
                   (spelling_hasher "sha256") SimFS (sim_os media_remote) "/out")
           media_manifest)
  /\ (exists manifest fs',
        brute_extract_folder (spelling_hasher "md5") (spelling_hasher "sha1")
          (spelling_hasher "sha256") (sim_os media_remote) media_list sample_is_dir
          5 "/sdcard/" "/out" [] = Returns (manifest, fs')).
Proof.
  pose proof (manifest_entry_per_leaf (spelling_hasher "md5") (spelling_hasher "sha1")
                (spelling_hasher "sha256") SimFS (sim_os media_remote)
                media_list sample_is_dir 5 "/sdcard/" "/out" []) as [H1 H2].
  split.
  - exact (H1 media_manifest _ eq_refl).
  - refine (H2 _ _ eq_refl). intros p x. discriminate.
Defined.

End Extraction.

(* ===================================================================== *)
(** * Archive writer: [archive_to_bin] *)
(* ===================================================================== *)

Module Archive.
Import PyStr Chunks Extraction.

(** [MAGIC = b"MOBIN001"]. *)
Definition MAGIC : list byte := list_byte_of_string "MOBIN001".

(** ** [struct.pack("<Q", n)] *)

Definition low_byte (n : N) : byte :=
  match Byte.of_N (n mod 256) with Some b => b | None => x00 end.

(** The [k] low bytes of [n], least significant first. *)
Fixpoint le_bytes (k : nat) (n : N) : list byte :=
  match k with
  | O => []
  | S k' => low_byte n :: le_bytes k' (n / 256)
  end.

(** [struct.pack("<Q", n)]; [None] is [struct.error] for a value that
    does not fit 64 bits. *)
Definition pack_u64_le (n : N) : option (list byte) :=
  if (n <? 2 ^ 64)%N then Some (le_bytes 8 n) else None.

(** The number a little-endian byte string stands for. *)
Fixpoint le_value (b : list byte) : N :=
  match b with
  | [] => 0
  | x :: r => Byte.to_N x + 256 * le_value r
  end.

Lemma to_N_low_byte : forall n, Byte.to_N (low_byte n) = (n mod 256)%N.
Proof.
  intros n. unfold low_byte.
  destruct (Byte.of_N (n mod 256)) as [b|] eqn:E.
  - apply Byte.to_of_N. exact E.
  - apply Byte.of_N_None_iff in E.
    pose proof (N.mod_upper_bound n 256). lia.
Qed.

Lemma le_value_le_bytes : forall k n,
  (n < 256 ^ N.of_nat k)%N -> le_value (le_bytes k n) = n.
Proof.
  induction k as [|k IH]; intros n H.
  - cbn in *. lia.
  - cbn [le_bytes le_value]. rewrite to_N_low_byte, IH.
    + rewrite N.add_comm. symmetry. rewrite N.mul_comm.
      rewrite (N.div_mod n 256) at 1 by lia. lia.
    + rewrite Nat2N.inj_succ, N.pow_succ_r' in H.
      apply N.Div0.div_lt_upper_bound. lia.
Qed.

Lemma length_le_bytes : forall k n, length (le_bytes k n) = k.
Proof. induction k as [|k IH]; intros n; cbn; [reflexivity|]. rewrite IH. reflexivity. Qed.

(** ** The filesystem the archive is written to *)

Inductive Node : Type :=
| Regular (content : list byte)
| Directory.

(** Paths to what is at them; the output file lives in the same store as
    the files it is assembled from. *)
Definition Store : Type := string -> option Node.

Definition update (p : string) (n : Node) (st : Store) : Store :=
  fun q => if String.eqb q p then Some n else st q.

(** [os.path.exists]. *)
Definition exists_path (p : string) (st : Store) : bool :=
  match st p with Some _ => true | None => false end.

(** [open(p, "rb")] read to the end; [None] when it raises. *)
Definition open_rb (p : string) (st : Store) : option (list byte) :=
  match st p with Some (Regular c) => Some c | _ => None end.

(** [open(p, "wb")]: the file is created or truncated; [None] when it
    raises. *)
Definition open_wb (p : string) (st : Store) : option Store :=
  match st p with
  | Some Directory => None
  | _ => Some (update p (Regular []) st)
  end.

(** [out.write(data)] on the file open at [p]. *)
Definition write (p : string) (data : list byte) (st : Store) : Store :=
  match st p with
  | Some (Regular c) => update p (Regular (c ++ data)) st
  | _ => st
  end.

(** The value returned: [f"BIN created -> {output_bin}"], or
    [f"BIN creation failed: {e}"] for the exception caught. *)
Inductive ArchiveResult : Type :=
| Created (message : string)
| Failed.

Section Writer.

(** [json.dumps({"generated": generated, "entries": manifest},
    indent=2).encode("utf-8")]. *)
Variable json_dumps : string -> list ManifestEntry -> list byte.
(** [timestamp()] at the time of the call. *)
Variable now : string.

(** [while chunk := f.read(4*1024*1024): out.write(chunk)]. *)
Definition copy_chunks (output_bin : string) (chunks : list (list byte))
  (st : Store) : Store :=
  fold_left (fun s chunk => write output_bin chunk s) chunks st.

(** [for entry in manifest]; the flag is [false] when opening a local
    file raises, and what was written so far stays in the store.  A file
    is copied as it is when it is opened. *)
Fixpoint copy_entries (output_bin : string) (manifest : list ManifestEntry)
  (st : Store) : bool * Store :=
  match manifest with
  | [] => (true, st)
  | entry :: rest =>
      let loc := local_path entry in
      if truthy loc && exists_path loc st then
        match open_rb loc st with
        | Some content =>
            copy_entries output_bin rest
              (copy_chunks output_bin (file_chunks CHUNK_SIZE content) st)
        | None => (false, st)
        end
      else copy_entries output_bin rest st
  end.

Definition archive_to_bin (manifest : list ManifestEntry) (output_bin : string)
  (st : Store) : ArchiveResult * Store :=
  let manifest_json := json_dumps now manifest in
  match open_wb output_bin st with
  | None => (Failed, st)
  | Some st0 =>
      let st1 := write output_bin MAGIC st0 in
      match pack_u64_le (N.of_nat (length manifest_json)) with
      | None => (Failed, st1)
      | Some packed =>
          let st2 := write output_bin packed st1 in
          let st3 := write output_bin manifest_json st2 in
          match copy_entries output_bin manifest st3 with
          | (true, st4) => (Created ("BIN created -> " ++ output_bin)%string, st4)
          | (false, st4) => (Failed, st4)
          end
      end
  end.

End Writer.

(** ** Reading a container back

    The repository only writes containers.  The reader below follows the
    layout the writer produces: 8 bytes of magic, the manifest length as a
    little-endian 64-bit number, that many bytes of manifest, then the
    payload, cut by the sizes the decoded manifest records, in order. *)

Record Container : Type := mkContainer {
  magic : list byte;
  manifest_length : N;
  manifest_json : list byte;
  payload : list byte
}.

Definition read_container (file : list byte) : Container :=
  let len := le_value (firstn 8 (skipn 8 file)) in
  mkContainer (firstn 8 file) len
    (firstn (N.to_nat len) (skipn 16 file))
    (skipn (N.to_nat len) (skipn 16 file)).

Fixpoint slice_by_size (sizes : list N) (data : list byte) : list (list byte) :=
  match sizes with
  | [] => []
  | s :: rest =>
      firstn (N.to_nat s) data :: slice_by_size rest (skipn (N.to_nat s) data)
  end.

(** The files of a container, given a decoder for its manifest. *)
Definition read_files (json_loads : list byte -> option (list ManifestEntry))
  (file : list byte) : option (list (list byte)) :=
  let c := read_container file in
  match json_loads (manifest_json c) with
  | Some manifest => Some (slice_by_size (map size manifest) (payload c))
  | None => None
  end.

(** ** Round trip *)

(** [st'] is [st] except that the output file holds [acc]. *)
Definition output_holds (out : string) (acc : list byte) (st st' : Store) : Prop :=
  st' out = Some (Regular acc) /\ forall q, q <> out -> st' q = st q.

Lemma update_same : forall p n st, update p n st p = Some n.
Proof. intros p n st. unfold update. rewrite String.eqb_refl. reflexivity. Qed.

Lemma update_other : forall p q n st, q <> p -> update p n st q = st q.
Proof.
  intros p q n st H. unfold update. apply String.eqb_neq in H.
  rewrite H. reflexivity.
Qed.

Lemma write_output : forall out acc data st st',
  output_holds out acc st st' ->
  output_holds out (acc ++ data) st (write out data st').
Proof.
  intros out acc data st st' [Ho Hq]. unfold write. rewrite Ho. split.
  - apply update_same.
  - intros q Hne. rewrite update_other by exact Hne. apply Hq, Hne.
Qed.

Lemma copy_chunks_output : forall out chunks acc st st',
  output_holds out acc st st' ->
  output_holds out (acc ++ concat chunks) st (copy_chunks out chunks st').
Proof.
  intros out chunks. unfold copy_chunks.
  induction chunks as [|c cs IH]; intros acc st st' H; cbn [fold_left concat].
  - rewrite app_nil_r. exact H.
  - rewrite app_assoc. apply IH. apply write_output. exact H.
Qed.

Definition entry_on_disk (out : string) (st : Store)
  (e : ManifestEntry) (content : list byte) : Prop :=
  truthy (local_path e) = true
  /\ st (local_path e) = Some (Regular content)
  /\ size e = N.of_nat (length content)
  /\ local_path e <> out.

Lemma copy_entries_output : forall out st manifest contents,
  Forall2 (entry_on_disk out st) manifest contents ->
  forall acc st',
    output_holds out acc st st' ->
    exists st'',
      copy_entries out manifest st' = (true, st'')
      /\ output_holds out (acc ++ concat contents) st st''.
Proof.
  intros out st manifest contents H.
  induction H as [|e c manifest contents (Ht & Hc & _ & Hne) _ IH];
    intros acc st' Hout.
  - exists st'. cbn. rewrite app_nil_r. split; [reflexivity|exact Hout].
  - cbn [copy_entries concat].
    destruct Hout as [Ho Hq].
    unfold exists_path, open_rb. rewrite (Hq _ Hne), Hc, Ht. cbn [andb].
    rewrite app_assoc. apply IH.
    pose proof (copy_chunks_output out (file_chunks CHUNK_SIZE c) acc st st'
                  (conj Ho Hq)) as Hc'.
    rewrite concat_file_chunks in Hc' by discriminate. exact Hc'.
Qed.

Lemma slice_concat : forall (manifest : list ManifestEntry) contents rest,
  Forall2 (fun e c => size e = N.of_nat (length c)) manifest contents ->
  slice_by_size (map size manifest) (concat contents ++ rest) = contents.
Proof.
  intros manifest contents rest H.
  induction H as [|e c manifest contents Hs _ IH]; [reflexivity|].
  cbn [map slice_by_size concat]. rewrite Hs, Nat2N.id, <- app_assoc.
  rewrite firstn_app, Nat.sub_diag, firstn_all. cbn [firstn]. rewrite app_nil_r.
  rewrite skipn_app, Nat.sub_diag, skipn_all. cbn [skipn app].
  rewrite IH. reflexivity.
Qed.

Lemma read_container_layout : forall json data,
  (N.of_nat (length json) < 2 ^ 64)%N ->
  read_container (MAGIC ++ le_bytes 8 (N.of_nat (length json)) ++ json ++ data)
  = mkContainer MAGIC (N.of_nat (length json)) json data.
Proof.
  intros json data Hlen. unfold read_container.
  assert (H8 : length MAGIC = 8) by reflexivity.
  assert (Hp : length (le_bytes 8 (N.of_nat (length json))) = 8)
    by apply length_le_bytes.
  assert (E1 : skipn 8 (MAGIC ++ le_bytes 8 (N.of_nat (length json)) ++ json ++ data)
               = le_bytes 8 (N.of_nat (length json)) ++ json ++ data).
  { rewrite <- H8 at 1. rewrite skipn_app, Nat.sub_diag, skipn_all. reflexivity. }
  assert (E2 : skipn 16 (MAGIC ++ le_bytes 8 (N.of_nat (length json)) ++ json ++ data)
               = json ++ data).
  { change 16 with (8 + 8). rewrite <- skipn_skipn, E1.
    rewrite <- Hp at 1. rewrite skipn_app, Nat.sub_diag, skipn_all. reflexivity. }
  rewrite E1, E2.
  assert (E3 : firstn 8 (le_bytes 8 (N.of_nat (length json)) ++ json ++ data)
               = le_bytes 8 (N.of_nat (length json))).
  { rewrite <- Hp at 1. rewrite firstn_app, Nat.sub_diag, firstn_all.
    cbn [firstn]. apply app_nil_r. }
  rewrite E3, le_value_le_bytes by exact Hlen.
  rewrite Nat2N.id.
  f_equal.
  - rewrite firstn_app, Nat.sub_diag, firstn_all. cbn [firstn]. apply app_nil_r.
  - rewrite skipn_app, Nat.sub_diag, skipn_all. reflexivity.
Qed.

(** C3: for a manifest whose local files exist, with recorded sizes equal
    to their byte lengths, [archive_to_bin] leaves in the output file the
    8 magic bytes, the length of the encoded manifest as 8 little-endian
    bytes, the encoded manifest, and the files' bytes in manifest order
    with nothing between them; reading that layout back, decoding the
    manifest and cutting the payload by the recorded sizes gives back each
    file's bytes.  (The output file is none of the files archived and can
    be opened for writing; the encoded manifest is shorter than [2^64]
    bytes.) *)
Theorem archive_round_trip :
  forall (json_dumps : string -> list ManifestEntry -> list byte) (now : string)
         (manifest : list ManifestEntry) (contents : list (list byte))
         (output_bin : string) (st : Store),
    Forall2 (entry_on_disk output_bin st) manifest contents ->
    st output_bin <> Some Directory ->
    (N.of_nat (length (json_dumps now manifest)) < 2 ^ 64)%N ->
    let json := json_dumps now manifest in
    let file := MAGIC ++ le_bytes 8 (N.of_nat (length json)) ++ json ++ concat contents in
    exists st',
      archive_to_bin json_dumps now manifest output_bin st
      = (Created ("BIN created -> " ++ output_bin)%string, st')
      /\ st' output_bin = Some (Regular file)
      /\ (forall q, q <> output_bin -> st' q = st q)
      /\ read_container file
         = mkContainer MAGIC (N.of_nat (length json)) json (concat contents)
      /\ slice_by_size (map size manifest) (payload (read_container file)) = contents
      /\ (forall json_loads,
            json_loads json = Some manifest ->
            read_files json_loads file = Some contents).
Proof.
  intros json_dumps now manifest contents out st Hdisk Hout Hlen json file.
  subst json file.
  assert (Hslice : slice_by_size (map size manifest) (concat contents) = contents).
  { rewrite <- (app_nil_r (concat contents)). apply slice_concat.
    apply (Forall2_impl _ (R1 := entry_on_disk out st)); [|exact Hdisk].
    intros e c (_ & _ & Hs & _). exact Hs. }
  pose proof (read_container_layout (json_dumps now manifest) (concat contents) Hlen)
    as Hread.
  unfold archive_to_bin.
  assert (Hopen : open_wb out st = Some (update out (Regular []) st)).
  { unfold open_wb. destruct (st out) as [[c|]|]; try reflexivity. contradiction. }
  rewrite Hopen. unfold pack_u64_le.
  apply N.ltb_lt in Hlen. rewrite Hlen.
  assert (H0 : output_holds out [] st (update out (Regular []) st)).
  { split; [apply update_same|intros q Hq; apply update_other, Hq]. }
  pose proof (write_output out [] MAGIC st _ H0) as H1.
  pose proof (write_output out _ (le_bytes 8 (N.of_nat (length (json_dumps now manifest))))
                st _ H1) as H2.
  pose proof (write_output out _ (json_dumps now manifest) st _ H2) as H3.
  destruct (copy_entries_output out st manifest contents Hdisk _ _ H3)
    as (st' & Hcopy & Hfinal).
  rewrite Hcopy. exists st'. split; [reflexivity|].
  destruct Hfinal as [Ho Hq].
  split; [|split; [exact Hq|split; [exact Hread|split]]].
  - rewrite Ho. cbn [app]. rewrite <- !app_assoc. reflexivity.
  - rewrite Hread. exact Hslice.
  - intros json_loads Hloads. unfold read_files. rewrite Hread. cbn [manifest_json payload].
    rewrite Hloads, Hslice. reflexivity.
Qed.

(** A store with two pulled files, and a manifest recording them. *)
Definition sample_store : Store :=
  fun p =>
    if String.eqb p "/out/a.jpg" then Some (Regular [x4a; x46; x49; x46])
    else if String.eqb p "/out/b.txt" then Some (Regular [x68; x69])
    else None.

Definition sample_manifest : list ManifestEntry :=
  [ mkEntry "/sdcard/a.jpg" "/out/a.jpg" 4 0 NO_HASHES "1 file pulled.";
    mkEntry "/sdcard/b.txt" "/out/b.txt" 2 0 NO_HASHES "1 file pulled." ].

(** A stand-in encoder that writes the generation time and one line per
    entry, and a decoder that recognises exactly its encoding of the
    sample manifest. *)
Definition sample_dumps (generated : string) (m : list ManifestEntry) : list byte :=
  list_byte_of_string
    (generated ++ String.concat newline (map local_path m))%string.

Definition sample_loads (b : list byte) : option (list ManifestEntry) :=
  if list_eq_dec Byte.byte_eq_dec b (sample_dumps "2024-01-01 00:00:00" sample_manifest)
  then Some sample_manifest else None.

Lemma archive_round_trip_witness :
  read_files sample_loads
    (MAGIC ++ le_bytes 8 (N.of_nat (length (sample_dumps "2024-01-01 00:00:00" sample_manifest)))
       ++ sample_dumps "2024-01-01 00:00:00" sample_manifest
       ++ concat [[x4a; x46; x49; x46]; [x68; x69]])
  = Some [[x4a; x46; x49; x46]; [x68; x69]].
Proof.
  assert (Hdisk : Forall2 (entry_on_disk "/out/evidence.bin" sample_store)
                    sample_manifest [[x4a; x46; x49; x46]; [x68; x69]]).
  { repeat constructor; discriminate. }
  destruct (archive_round_trip sample_dumps "2024-01-01 00:00:00" sample_manifest
              [[x4a; x46; x49; x46]; [x68; x69]] "/out/evidence.bin" sample_store
              Hdisk) as (st' & _ & _ & _ & _ & _ & H).
  - discriminate.
  - vm_compute. reflexivity.
  - apply H. reflexivity.
Defined.

End Archive.

(* ===================================================================== *)
(** * Regular expressions: the part of [re] the parsers use *)
(* ===================================================================== *)

Module Regex.
Import PyStr.

(** Patterns.  Every repetition in the parsers' patterns is over a single
    character class, so [Star] takes a class; [greedy = false] is the
    lazy form ([*?]). *)
Inductive regex : Type :=
| Eps
| Chr (p : ascii -> bool)
| Seq (a b : regex)
| Alt (a b : regex)
| Star (greedy : bool) (p : ascii -> bool)
| Group (name : string) (a : regex)
| Ahead (a : regex)
| EndZ
| EndDollar.

(** Captured groups, most recent first. *)
Definition caps : Type := list (string * string).

(** ** Character classes *)

Definition is_char (c : ascii) : ascii -> bool := fun a => Ascii.eqb a c.

(** A literal character under [re.IGNORECASE]. *)
Definition is_char_nocase (c : ascii) : ascii -> bool :=
  fun a => Ascii.eqb (lower_char a) (lower_char c).

(** [.] without and with [re.DOTALL]. *)
Definition dot : ascii -> bool := fun a => negb (Ascii.eqb a "010").
Definition dot_all : ascii -> bool := fun _ => true.

(** [\d], [\s], [\w] on code points below 256. *)
Definition digit : ascii -> bool :=
  fun a => let n := code a in ((48 <=? n) && (n <=? 57))%N.

Definition space : ascii -> bool := is_space.

Definition word : ascii -> bool :=
  fun a =>
    let n := code a in
    ((48 <=? n) && (n <=? 57) || (65 <=? n) && (n <=? 90) || (n =? 95)
     || (97 <=? n) && (n <=? 122)
     || (n =? 170) || (n =? 178) || (n =? 179) || (n =? 181) || (n =? 185)
     || (n =? 186) || (188 <=? n) && (n <=? 190)
     || (192 <=? n) && (n <=? 214) || (216 <=? n) && (n <=? 246)
     || (248 <=? n))%N.

(** ** Derived patterns *)

Fixpoint Lit (s : string) : regex :=
  match s with
  | EmptyString => Eps
  | String c r => Seq (Chr (is_char c)) (Lit r)
  end.

Fixpoint LitNoCase (s : string) : regex :=
  match s with
  | EmptyString => Eps
  | String c r => Seq (Chr (is_char_nocase c)) (LitNoCase r)
  end.

(** [p+] and [p+?]. *)
Definition Plus (greedy : bool) (p : ascii -> bool) : regex :=
  Seq (Chr p) (Star greedy p).

(** ** Matching, by backtracking

    [run r s c k] matches [r] at the front of [s] and hands what is left
    of the subject and the captures to the continuation [k]; when [k]
    answers [None] the next alternative is tried, in the order of
    Python's matcher: the left branch of [|] first, one more character
    first for a greedy repetition, one fewer first for a lazy one. *)

Fixpoint star_greedy {R : Type} (p : ascii -> bool) (s : string) (c : caps)
  (k : string -> caps -> option R) : option R :=
  match s with
  | String a r =>
      if p a then
        match star_greedy p r c k with
        | Some x => Some x
        | None => k s c
        end
      else k s c
  | EmptyString => k s c
  end.

Fixpoint star_lazy {R : Type} (p : ascii -> bool) (s : string) (c : caps)
  (k : string -> caps -> option R) : option R :=
  match k s c with
  | Some x => Some x
  | None =>
      match s with
      | String a r => if p a then star_lazy p r c k else None
      | EmptyString => None
      end
  end.

(** [take n s] is [s[:n]]; [taken s s'] is the part of [s] in front of
    its suffix [s']. *)
Fixpoint take (n : nat) (s : string) : string :=
  match n, s with
  | S n', String a r => String a (take n' r)
  | _, _ => EmptyString
  end.

Definition taken (s s' : string) : string :=
  take (String.length s - String.length s') s.

(** A lookahead is matched on its own, and its first match is final. *)
Fixpoint run {R : Type} (r : regex) (s : string) (c : caps)
  (k : string -> caps -> option R) : option R :=
  match r with
  | Eps => k s c
  | Chr p =>
      match s with
      | String a rest => if p a then k rest c else None
      | EmptyString => None
      end
  | Seq a b => run a s c (fun s' c' => run b s' c' k)
  | Alt a b =>
      match run a s c k with
      | Some x => Some x
      | None => run b s c k
      end
  | Star true p => star_greedy p s c k
  | Star false p => star_lazy p s c k
  | Group name a => run a s c (fun s' c' => k s' ((name, taken s s') :: c'))
  | Ahead a =>
      match run a s c (fun _ c' => Some c') with
      | Some c' => k s c'
      | None => None
      end
  | EndZ => match s with EmptyString => k s c | String _ _ => None end
  | EndDollar =>
      match s with
      | EmptyString => k s c
      | String a EmptyString => if Ascii.eqb a "010" then k s c else None
      | String _ (String _ _) => None
      end
  end.

(** ** [match], [search], [finditer] *)

(** A match object: the subject from the start of the match, what is
    left after the match, and the groups. *)
Record Match : Type := mkMatch {
  m_from : string;
  m_rest : string;
  m_caps : caps
}.

(** [m.group(name)]; [None] is Python's [None]. *)
Fixpoint lookup (name : string) (c : caps) : option string :=
  match c with
  | [] => None
  | (n, v) :: rest => if String.eqb n name then Some v else lookup name rest
  end.

Definition group (m : Match) (name : string) : option string :=
  lookup name (m_caps m).

(** [pattern.match(s)]: a match at the very start of [s]. *)
Definition match_at (r : regex) (s : string) : option Match :=
  run r s [] (fun s' c => Some (mkMatch s s' c)).

(** [pattern.search(s)]: the first position of [s] with a match. *)
Fixpoint search (r : regex) (s : string) : option Match :=
  match match_at r s with
  | Some m => Some m
  | None =>
      match s with
      | String _ rest => search r rest
      | EmptyString => None
      end
  end.

(** [pattern.finditer(s)]: the matches from left to right, each search
    starting where the previous match ended (one character further after
    an empty match).  [fuel] bounds the number of matches. *)
Fixpoint finditer_from (fuel : nat) (r : regex) (s : string) : list Match :=
  match fuel with
  | O => []
  | S fuel' =>
      match search r s with
      | None => []
      | Some m =>
          m :: if Nat.ltb (String.length (m_rest m)) (String.length (m_from m))
               then finditer_from fuel' r (m_rest m)
               else match m_rest m with
                    | String _ rest => finditer_from fuel' r rest
                    | EmptyString => []
                    end
      end
  end.

Definition finditer (r : regex) (s : string) : list Match :=
  finditer_from (S (String.length s)) r s.

End Regex.

(* ===================================================================== *)
(** * Timestamps: [epoch_ms_to_str] *)
(* ===================================================================== *)

Module Clock.
Import PyStr.
Local Open Scope Z_scope.

(** A call that returns or raises. *)
Inductive result (A : Type) : Type :=
| Ok (a : A)
| Raised.

Arguments Ok {A} a.
Arguments Raised {A}.

(** ** [int(s)] *)

Definition is_digit (c : ascii) : bool :=
  let n := code c in ((48 <=? n) && (n <=? 57))%N.

(** The whitespace [int] takes off both ends of a text: the ASCII
    whitespace and, in a text that is not all ASCII, the other whitespace
    characters (both of which are above 127, so that their presence makes
    the text one that is not all ASCII).  Unlike [str.strip] it leaves the
    separators U+001C to U+001F in place, and the conversion then
    fails. *)
Definition int_space (c : ascii) : bool :=
  let n := code c in
  ((9 <=? n) && (n <=? 13) || (n =? 32) || (n =? 133) || (n =? 160))%N.

Fixpoint lstrip_int (s : string) : string :=
  match s with
  | EmptyString => EmptyString
  | String c r => if int_space c then lstrip_int r else s
  end.

Fixpoint rstrip_int (s : string) : string :=
  match s with
  | EmptyString => EmptyString
  | String c r =>
      let r' := rstrip_int r in
      if int_space c && negb (truthy r') then EmptyString else String c r'
  end.

(** Digits with single underscores between them. *)
Fixpoint digits_value (acc : Z) (after_digit : bool) (s : string) : option Z :=
  match s with
  | EmptyString => if after_digit then Some acc else None
  | String c r =>
      if is_digit c
      then digits_value (10 * acc + (Z.of_N (code c) - 48)) true r
      else if Ascii.eqb c "_" && after_digit then digits_value acc false r
      else None
  end.

(** The number of digits in a text. *)
Fixpoint count_digits (s : string) : Z :=
  match s with
  | EmptyString => 0
  | String c r => (if is_digit c then 1 else 0) + count_digits r
  end.

(** [sys.get_int_max_str_digits()] as it is unless configured. *)
Definition MAX_STR_DIGITS : Z := 4300.

(** [int(s)] for a string: surrounding whitespace, an optional sign, then
    digits, no more of them than the limit; [Raised] is [ValueError]. *)
Definition py_int (s : string) : result Z :=
  let t := lstrip_int (rstrip_int s) in
  let signed :=
    match t with
    | String "-" r => option_map Z.opp (digits_value 0 false r)
    | String "+" r => digits_value 0 false r
    | _ => digits_value 0 false t
    end in
  match signed with
  | Some n => if count_digits t >? MAX_STR_DIGITS then Raised else Ok n
  | None => Raised
  end.

(** ** Calendar *)

Record datetime : Type := mkDatetime {
  year : Z; month : Z; day : Z; hour : Z; minute : Z; second : Z
}.

(** The civil date of a day number counted from 1970-01-01. *)
Definition civil_from_days (days : Z) : Z * Z * Z :=
  let z := days + 719468 in
  let era := z / 146097 in
  let doe := z - era * 146097 in
  let yoe := (doe - doe / 1460 + doe / 36524 - doe / 146096) / 365 in
  let doy := doe - (365 * yoe + yoe / 4 - yoe / 100) in
  let mp := (5 * doy + 2) / 153 in
  let d := doy - (153 * mp + 2) / 5 + 1 in
  let m := if mp <? 10 then mp + 3 else mp - 9 in
  let y := yoe + era * 400 + (if m <=? 2 then 1 else 0) in
  (y, m, d).

(** One decimal digit. *)
Definition digit_char (n : Z) : ascii := ascii_of_N (Z.to_N (48 + n mod 10)).

Definition pad2 (n : Z) : string :=
  String (digit_char (n / 10)) (String (digit_char n) EmptyString).

(** [str(n)] for an integer. *)
Fixpoint nat_digits (fuel : nat) (n : Z) (acc : string) : string :=
  match fuel with
  | O => acc
  | S fuel' =>
      let acc' := String (digit_char n) acc in
      if n <? 10 then acc' else nat_digits fuel' (n / 10) acc'
  end.

Definition str_of_int (n : Z) : string :=
  if n <? 0 then String "-" (nat_digits (Z.to_nat (Z.log2 (- n)) + 1) (- n) EmptyString)
  else nat_digits (Z.to_nat (Z.log2 n) + 1) n EmptyString.

(** [%Y] as the C library of Linux prints it: the number of the year
    without padding, so that a year below 1000 comes out with fewer than
    four digits. *)
Definition year_str (n : Z) : string := str_of_int n.

(** [dt.strftime("%Y-%m-%d %H:%M:%S")]. *)
Definition strftime (dt : datetime) : string :=
  (year_str (year dt) ++ "-" ++ pad2 (month dt) ++ "-" ++ pad2 (day dt) ++ " "
   ++ pad2 (hour dt) ++ ":" ++ pad2 (minute dt) ++ ":" ++ pad2 (second dt))%string.

Section LocalTime.

(** The local time zone: seconds east of UTC at a given instant. *)
Variable utc_offset : Z -> Z.

(** Whether the year of the local time at [t] is one a [datetime] can
    hold. *)
Definition year_in_range (t : Z) : bool :=
  let '(y, _, _) := civil_from_days ((t + utc_offset t) / 86400) in
  (1 <=? y) && (y <=? 9999).

(** [datetime.datetime.fromtimestamp(t)], to the second.  The call
    raises when the year of the local time falls outside 1..9999.  To
    tell a repeated hour it also converts the instant one day earlier,
    and, when the offset from UTC has gone down since then, the instant
    earlier by that much; it raises when the year of either falls
    outside 1..9999 -- as it does for every instant of the first day of
    the year 1. *)
Definition fromtimestamp (t : Z) : result datetime :=
  let local := t + utc_offset t in
  let '(y, m, d) := civil_from_days (local / 86400) in
  let sod := local mod 86400 in
  let transition := utc_offset t - utc_offset (t - 86400) in
  if year_in_range t && year_in_range (t - 86400)
     && (if transition <? 0 then year_in_range (t + transition) else true)
  then Ok (mkDatetime y m d (sod / 3600) (sod mod 3600 / 60) (sod mod 60))
  else Raised.

(** [epoch_ms_to_str(ms)] on a string.  When [int(ms)] raises, [ms] is
    still the string and is returned as it is; when the conversion to a
    date raises, [ms] is the integer by then. *)
Definition epoch_ms_to_str (ms : string) : string :=
  match py_int ms with
  | Raised => ms
  | Ok n =>
      let dt := if n >? 10 ^ 12 then fromtimestamp (n / 1000) else fromtimestamp n in
      match dt with
      | Ok dt => strftime dt
      | Raised => str_of_int n
      end
  end.

End LocalTime.

(** UTC. *)
Definition utc : Z -> Z := fun _ => 0.

End Clock.

(* ===================================================================== *)
(** * Parsers: [parse_sms_text], [parse_contacts_text], [parse_calls_text] *)
(* ===================================================================== *)

Module Parsers.
Import PyStr Regex Clock.

Record SmsRecord : Type := mkSms {
  address : string;
  sms_date_epoch_ms : string;
  sms_date : string;
  body : string
}.

Record ContactRecord : Type := mkContact {
  contact_name : string;
  contact_number : string
}.

Record CallRecord : Type := mkCall {
  call_name : string;
  call_number : string;
  duration_seconds : string;
  call_date_epoch_ms : string;
  call_date : string
}.

(** [fold_right Seq Eps]: the pieces of a pattern in a row. *)
Fixpoint cat (pieces : list regex) : regex :=
  match pieces with
  | [] => Eps
  | r :: rest => Seq r (cat rest)
  end.

(** [safe_strip(value)]. *)
Definition safe_strip (value : option string) : string :=
  match value with
  | None => EmptyString
  | Some v => strip v
  end.

(** [safe_group(match, group_name)] with the default [""]: a group that
    is [None] or missing gives the default. *)
Definition safe_group (m : Match) (group_name : string) : string :=
  match group m group_name with
  | Some v => safe_strip (Some v)
  | None => EmptyString
  end.

(** [value.strip()] where [value] may be [None]: [AttributeError]. *)
Definition strip_method (value : option string) : result string :=
  match value with
  | Some v => Ok (strip v)
  | None => Raised
  end.

(** The lines that do not start with ["#"], joined again. *)
Definition without_comments (raw_text : string) : string :=
  join newline (filter (fun line => negb (startswith "#" line)) (splitlines raw_text)).

(** [a or b or ... or default] over [dict.get] results. *)
Fixpoint first_truthy (candidates : list (option string)) (default : string) : string :=
  match candidates with
  | [] => default
  | Some v :: rest => if truthy v then v else first_truthy rest default
  | None :: rest => first_truthy rest default
  end.

(** A dictionary built from [(key, value)] pairs in order: the last pair
    with a key is the one [get] finds. *)
Definition dict_get (key : string) (pairs : list (string * string)) : option string :=
  lookup key (rev pairs).

(** [re.findall] for a pattern with two groups. *)
Definition findall_pairs (r : regex) (s : string) : list (string * string) :=
  map (fun m => (match group m "1" with Some v => v | None => EmptyString end,
                 match group m "2" with Some v => v | None => EmptyString end))
      (finditer r s).

(** The key/value pattern of the last strategies:
    [(\w+)=(.*?)(?:,\s*\w+=|$)]. *)
Definition KEY_VALUE : regex :=
  cat [Group "1" (Plus true word); Lit "="; Group "2" (Star false dot);
       Alt (cat [Lit ","; Star true space; Plus true word; Lit "="]) EndDollar].

Section WithClock.

(** [from modules.adb_utils import epoch_ms_to_str]. *)
Variable epoch_ms_to_str : string -> string.

(** [epoch_ms_to_str(date_ms) if date_ms else "Unknown"]. *)
Definition date_of (date_ms : string) : string :=
  if truthy date_ms then epoch_ms_to_str date_ms else "Unknown".

(** ** SMS *)

(** [address=(?P<address>.*?),\s*date=(?P<date>\d+),\s*body=(?P<body>.*?)(?=(?:\nRow)|\Z)]
    with [re.DOTALL]. *)
Definition SMS_ROW : regex :=
  cat [Lit "address="; Group "address" (Star false dot_all); Lit ",";
       Star true space; Lit "date="; Group "date" (Plus true digit); Lit ",";
       Star true space; Lit "body="; Group "body" (Star false dot_all);
       Ahead (Alt (Lit (newline ++ "Row")) EndZ)].

(** [address=(?P<addr>.*?),\s*date=(?P<date>\d+).*?body=(?P<body>.*?)(?:,\s*type=|$)]
    with [re.DOTALL]. *)
Definition SMS_LINE : regex :=
  cat [Lit "address="; Group "addr" (Star false dot_all); Lit ",";
       Star true space; Lit "date="; Group "date" (Plus true digit);
       Star false dot_all; Lit "body="; Group "body" (Star false dot_all);
       Alt (cat [Lit ","; Star true space; Lit "type="]) EndDollar].

(** [<a>(?P<addr>.*?),\s*<d>(?P<date>\d+).*?<b>(?P<body>.*?)(?:,|$)]
    with [re.DOTALL], for the column names [a], [d], [b] (each with its
    [=]). *)
Definition sms_alt (a d b : string) : regex :=
  cat [Lit a; Group "addr" (Star false dot_all); Lit ",";
       Star true space; Lit d; Group "date" (Plus true digit);
       Star false dot_all; Lit b; Group "body" (Star false dot_all);
       Alt (Lit ",") EndDollar].

Definition SMS_ALT_PATTERNS : list regex :=
  [sms_alt "phone_number=" "date=" "message=";
   sms_alt "sender=" "timestamp=" "text=";
   sms_alt "number=" "date_sent=" "body="].

Definition sms_record (addr date_ms body : string) : SmsRecord :=
  mkSms addr date_ms (date_of date_ms) body.

(** Strategy 1: every match of the row pattern with an address or a
    body. *)
Definition sms_strategy1 (text : string) : list SmsRecord :=
  fold_left
    (fun results m =>
       let addr := safe_group m "address" in
       let date_ms := safe_group m "date" in
       let body := safe_group m "body" in
       if truthy addr || truthy body
       then results ++ [sms_record addr date_ms body]
       else results)
    (finditer SMS_ROW text) [].

(** The body of a [try] that searches one line and appends a record. *)
Definition sms_search_line (pattern : regex) (line : string)
  (results : list SmsRecord) : result (list SmsRecord) :=
  match search pattern line with
  | Some m =>
      Ok (results ++ [sms_record (safe_group m "addr") (safe_group m "date")
                                 (safe_group m "body")])
  | None => Ok results
  end.

(** [try: ... except Exception: continue] around a loop body. *)
Definition or_continue {A : Type} (attempt : result A) (unchanged : A) : A :=
  match attempt with
  | Ok a => a
  | Raised => unchanged
  end.

(** Strategy 2: line by line, on lines that name the three fields. *)
Definition sms_strategy2 (text : string) : list SmsRecord :=
  fold_left
    (fun results line =>
       if contains "address=" line && contains "date=" line && contains "body=" line
       then or_continue (sms_search_line SMS_LINE line results) results
       else results)
    (splitlines text) [].

(** Strategy 3: the alternate column names, one pattern after the other;
    the first pattern that yields records ends the search. *)
Fixpoint sms_strategy3 (patterns : list regex) (text : string)
  (results : list SmsRecord) : option (list SmsRecord) :=
  match patterns with
  | [] => None
  | pattern :: rest =>
      let results' :=
        fold_left
          (fun acc line => or_continue (sms_search_line pattern line acc) acc)
          (splitlines text) results in
      match results' with
      | [] => sms_strategy3 rest text results'
      | _ :: _ => Some results'
      end
  end.

(** Strategy 4: key/value pairs of each line. *)
Definition sms_strategy4 (text : string) : list SmsRecord :=
  fold_left
    (fun results line =>
       if negb (truthy (strip line)) || startswith "Row:" line then results
       else
         let pairs := findall_pairs KEY_VALUE line in
         let data := map (fun kv => (fst kv, strip (snd kv))) pairs in
         let addr := first_truthy [dict_get "address" data; dict_get "phone_number" data;
                                   dict_get "sender" data; dict_get "number" data] "" in
         let body := first_truthy [dict_get "body" data; dict_get "message" data;
                                   dict_get "text" data] "" in
         let date_ms := first_truthy [dict_get "date" data; dict_get "timestamp" data;
                                      dict_get "date_sent" data] "" in
         if truthy addr || truthy body
         then results ++ [sms_record addr date_ms body]
         else results)
    (splitlines text) [].

Definition parse_sms_text (raw_text : string) : result (list SmsRecord) :=
  if negb (truthy raw_text) then Ok []
  else
    let text := without_comments raw_text in
    if negb (truthy (strip text)) then Ok []
    else
      match sms_strategy1 text with
      | (_ :: _) as results => Ok results
      | [] =>
          match sms_strategy2 text with
          | (_ :: _) as results => Ok results
          | [] =>
              match sms_strategy3 SMS_ALT_PATTERNS text [] with
              | Some results => Ok results
              | None => Ok (sms_strategy4 text)
              end
          end
      end.

End WithClock.

(** ** Contacts *)

(** [[\+\d\s\(\)-]]. *)
Definition number_char : ascii -> bool :=
  fun a => is_char "+" a || digit a || space a || is_char "(" a || is_char ")" a
           || is_char "-" a.

(** [Row:\s*\d+\s+display_name=(?P<name>.*?),\s*data1=(?P<number>[\+\d\s\(\)-]+)]
    with [re.IGNORECASE]. *)
Definition CONTACT_ROW : regex :=
  cat [LitNoCase "Row:"; Star true space; Plus true digit; Plus true space;
       LitNoCase "display_name="; Group "name" (Star false dot); LitNoCase ",";
       Star true space; LitNoCase "data1="; Group "number" (Plus true number_char)].

(** The loop over the matches; the two [.strip()] calls are on what
    [match.group] returns. *)
Fixpoint contact_rows (matches : list Match) (results : list ContactRecord)
  : result (list ContactRecord) :=
  match matches with
  | [] => Ok results
  | m :: rest =>
      match strip_method (group m "name"), strip_method (group m "number") with
      | Ok name, Ok number => contact_rows rest (results ++ [mkContact name number])
      | _, _ => Raised
      end
  end.

Definition parse_contacts_text (raw_text : string) : result (list ContactRecord) :=
  if negb (truthy raw_text) then Ok []
  else contact_rows (finditer CONTACT_ROW raw_text) [].

(** ** Calls *)

Section CallsWithClock.

Variable epoch_ms_to_str : string -> string.

(** [(?:name|cached_name)=(?P<name>.*?),\s*number=(?P<number>.*?),\s*duration=(?P<duration>\d+),\s*date=(?P<date>\d+)]
    with [re.IGNORECASE]. *)
Definition CALL_ROW : regex :=
  cat [Alt (LitNoCase "name") (LitNoCase "cached_name"); LitNoCase "=";
       Group "name" (Star false dot); LitNoCase ","; Star true space;
       LitNoCase "number="; Group "number" (Star false dot); LitNoCase ",";
       Star true space; LitNoCase "duration="; Group "duration" (Plus true digit);
       LitNoCase ","; Star true space; LitNoCase "date=";
       Group "date" (Plus true digit)].

(** The four patterns of the line-by-line strategy, with
    [re.IGNORECASE]: [(?:name|cached_name)=(.*?)(?:,|$)],
    [number=(.*?)(?:,|$)], [duration=(\d+)], [date=(\d+)]. *)
Definition CALL_NAME : regex :=
  cat [Alt (LitNoCase "name") (LitNoCase "cached_name"); LitNoCase "=";
       Group "1" (Star false dot); Alt (LitNoCase ",") EndDollar].

Definition CALL_NUMBER : regex :=
  cat [LitNoCase "number="; Group "1" (Star false dot); Alt (LitNoCase ",") EndDollar].

Definition CALL_DURATION : regex :=
  cat [LitNoCase "duration="; Group "1" (Plus true digit)].

Definition CALL_DATE : regex :=
  cat [LitNoCase "date="; Group "1" (Plus true digit)].

(** [<n>(?P<name>.*?),\s*<p>(?P<number>.*?),\s*<d>(?P<duration>\d+),\s*<t>(?P<date>\d+)]
    with [re.IGNORECASE], for the column names [n], [p], [d], [t] (each
    with its [=]). *)
Definition call_alt (n p d t : string) : regex :=
  cat [LitNoCase n; Group "name" (Star false dot); LitNoCase ",";
       Star true space; LitNoCase p; Group "number" (Star false dot);
       LitNoCase ","; Star true space; LitNoCase d;
       Group "duration" (Plus true digit); LitNoCase ","; Star true space;
       LitNoCase t; Group "date" (Plus true digit)].

Definition CALL_ALT_PATTERNS : list regex :=
  [call_alt "caller_name=" "phone_number=" "call_duration=" "timestamp=";
   call_alt "contact=" "number=" "duration=" "time="].

Definition call_record (name number duration date_ms : string) : CallRecord :=
  mkCall name number duration date_ms (date_of epoch_ms_to_str date_ms).

Definition call_of_match (m : Match) : CallRecord :=
  call_record (safe_group m "name") (safe_group m "number")
              (safe_group m "duration") (safe_group m "date").

(** Strategy 1: every match of the row pattern. *)
Definition calls_strategy1 (text : string) : list CallRecord :=
  fold_left (fun results m => results ++ [call_of_match m]) (finditer CALL_ROW text) [].

(** [safe_strip(m.group(1)) if m else default]. *)
Definition field_or (found : option Match) (default : string) : string :=
  match found with
  | Some m => safe_strip (group m "1")
  | None => default
  end.

(** The body of the [try] of strategy 2. *)
Definition calls_line (line : string) (results : list CallRecord)
  : result (list CallRecord) :=
  let name := field_or (search CALL_NAME line) "" in
  let number := field_or (search CALL_NUMBER line) "" in
  let duration := field_or (search CALL_DURATION line) "0" in
  let date_ms := field_or (search CALL_DATE line) "" in
  Ok (results ++ [call_record name number duration date_ms]).

(** Strategy 2: the four fields, each on its own, on the lines that
    name a duration and a date. *)
Definition calls_strategy2 (text : string) : list CallRecord :=
  fold_left
    (fun results line =>
       if contains "duration=" line && contains "date=" line
       then or_continue (calls_line line results) results
       else results)
    (splitlines text) [].

(** Strategy 3: the alternate formats, one pattern after the other. *)
Fixpoint calls_strategy3 (patterns : list regex) (text : string)
  (results : list CallRecord) : option (list CallRecord) :=
  match patterns with
  | [] => None
  | pattern :: rest =>
      let results' :=
        fold_left (fun acc m => acc ++ [call_of_match m]) (finditer pattern text) results in
      match results' with
      | [] => calls_strategy3 rest text results'
      | _ :: _ => Some results'
      end
  end.

(** Strategy 4: key/value pairs of each line, keys in lower case. *)
Definition calls_strategy4 (text : string) : list CallRecord :=
  fold_left
    (fun results line =>
       if negb (truthy (strip line)) || startswith "Row:" line then results
       else
         let pairs := findall_pairs KEY_VALUE line in
         let data := map (fun kv => (lower (fst kv), strip (snd kv))) pairs in
         let name := first_truthy [dict_get "name" data; dict_get "cached_name" data;
                                   dict_get "caller_name" data; dict_get "contact" data] "" in
         let number := first_truthy [dict_get "number" data; dict_get "phone_number" data;
                                     dict_get "phone" data] "" in
         let duration := first_truthy [dict_get "duration" data;
                                       dict_get "call_duration" data] "0" in
         let date_ms := first_truthy [dict_get "date" data; dict_get "timestamp" data;
                                      dict_get "time" data] "" in
         if truthy number || truthy name
         then results ++ [call_record name number duration date_ms]
         else results)
    (splitlines text) [].

Definition parse_calls_text (raw_text : string) : result (list CallRecord) :=
  if negb (truthy raw_text) then Ok []
  else
    let text := without_comments raw_text in
    if negb (truthy (strip text)) then Ok []
    else
      match calls_strategy1 text with
      | (_ :: _) as results => Ok results
      | [] =>
          match calls_strategy2 text with
          | (_ :: _) as results => Ok results
          | [] =>
              match calls_strategy3 CALL_ALT_PATTERNS text [] with
              | Some results => Ok results
              | None => Ok (calls_strategy4 text)
              end
          end
      end.

End CallsWithClock.

End Parsers.

(* ===================================================================== *)
(** * Facts about substrings and lines *)
(* ===================================================================== *)

Module StrFacts.
Import PyStr.

(** [L] occurs in [s]. *)
Definition occurs (L s : string) : Prop :=
  exists pre post, s = (pre ++ L ++ post)%string.

Lemma startswith_spec : forall L s,
  startswith L s = true <-> exists post, s = (L ++ post)%string.
Proof.
  induction L as [|x L IH]; intros s; cbn.
  - split; [intros _; exists s; reflexivity|reflexivity].
  - destruct s as [|y s]; cbn.
    + split; [discriminate|intros [post H]; discriminate].
    + split.
      * intros H. apply andb_prop in H as [Hxy Hs].
        apply Ascii.eqb_eq in Hxy. subst y.
        apply IH in Hs as [post ->]. exists post. reflexivity.
      * intros [post H]. injection H as -> ->.
        rewrite Ascii.eqb_refl. cbn. apply IH. exists post. reflexivity.
Qed.

Lemma contains_occurs : forall L s, contains L s = true <-> occurs L s.
Proof.
  intros L s. split.
  - induction s as [|a s IH]; cbn; intros H.
    + rewrite orb_false_r in H. apply startswith_spec in H as [post ->].
      exists EmptyString, post. reflexivity.
    + apply orb_prop in H as [H|H].
      * apply startswith_spec in H as [post ->]. exists EmptyString, post. reflexivity.
      * destruct (IH H) as (pre & post & ->). exists (String a pre), post. reflexivity.
  - intros (pre & post & ->). induction pre as [|a pre IH].
    + cbn [append]. assert (H : startswith L (L ++ post) = true)
        by (apply startswith_spec; exists post; reflexivity).
      destruct (L ++ post)%string; cbn; rewrite H; reflexivity.
    + cbn [append contains]. rewrite IH. apply orb_true_r.
Qed.

Lemma occurs_refl : forall s, occurs s s.
Proof. intros s. exists EmptyString, EmptyString. cbn. rewrite append_nil_r. reflexivity. Qed.

Lemma occurs_trans : forall a b c, occurs a b -> occurs b c -> occurs a c.
Proof.
  intros a b c (p1 & q1 & ->) (p2 & q2 & ->).
  exists (p2 ++ p1)%string, (q1 ++ q2)%string.
  rewrite !append_assoc. reflexivity.
Qed.

Lemma occurs_app_l : forall L a b, occurs L a -> occurs L (a ++ b).
Proof.
  intros L a b (p & q & ->). exists p, (q ++ b)%string.
  rewrite !append_assoc. reflexivity.
Qed.

Lemma occurs_app_r : forall L a b, occurs L b -> occurs L (a ++ b).
Proof.
  intros L a b (p & q & ->). exists (a ++ p)%string, q.
  rewrite !append_assoc. reflexivity.
Qed.

Lemma occurs_cons : forall L a s, occurs L s -> occurs L (String a s).
Proof. intros L a s H. apply (occurs_app_r L (String a EmptyString) s H). Qed.

Lemma occurs_prefix : forall L s, occurs L (L ++ s).
Proof. intros L s. apply occurs_app_l, occurs_refl. Qed.

Lemma map_chars_append : forall f a b,
  map_chars f (a ++ b) = (map_chars f a ++ map_chars f b)%string.
Proof.
  intros f a b. induction a as [|x a IH]; cbn; [reflexivity|].
  rewrite IH. reflexivity.
Qed.

Lemma occurs_map_chars : forall f L s,
  occurs L s -> occurs (map_chars f L) (map_chars f s).
Proof.
  intros f L s (p & q & ->). exists (map_chars f p), (map_chars f q).
  rewrite !map_chars_append. reflexivity.
Qed.

Lemma map_chars_id : forall s, map_chars (fun c => c) s = s.
Proof. induction s as [|a s IH]; cbn; [reflexivity|]. rewrite IH. reflexivity. Qed.

(** ** Lines *)

Lemma splitlines_cons : forall c r,
  splitlines (String c r) =
  if is_linebreak c then
    EmptyString ::
      match r with
      | String c2 r2 =>
          if Ascii.eqb c "013" && Ascii.eqb c2 "010" then splitlines r2
          else splitlines r
      | EmptyString => []
      end
  else
    match splitlines r with
    | [] => [String c EmptyString]
    | l :: ls => String c l :: ls
    end.
Proof. reflexivity. Qed.

Lemma splitlines_facts : forall s,
  (forall l ls, splitlines s = l :: ls -> exists post, s = (l ++ post)%string)
  /\ (forall l, In l (splitlines s) -> occurs l s).
Proof.
  assert (H : forall s,
    ((forall l ls, splitlines s = l :: ls -> exists post, s = (l ++ post)%string)
     /\ (forall l, In l (splitlines s) -> occurs l s))
    /\ forall c,
        (forall l ls, splitlines (String c s) = l :: ls ->
                      exists post, String c s = (l ++ post)%string)
        /\ (forall l, In l (splitlines (String c s)) -> occurs l (String c s))).
  { induction s as [|a s [[IH1 IH2] IHc]].
    - split; [split; [intros l ls H; discriminate|intros l []]|].
      intros c. cbn. destruct (is_linebreak c); split.
      + intros l ls H. injection H as <- <-. exists (String c EmptyString). reflexivity.
      + intros l [<-|[]]. exists EmptyString, (String c EmptyString). reflexivity.
      + intros l ls H. injection H as <- <-. exists EmptyString. reflexivity.
      + intros l [<-|[]]. apply occurs_refl.
    - split; [apply IHc|]. intros c.
      destruct (IHc a) as [IHa1 IHa2].
      rewrite (splitlines_cons c (String a s)). cbv beta iota.
      destruct (is_linebreak c).
      + assert (Hin : forall l,
                  In l (if Ascii.eqb c "013" && Ascii.eqb a "010"
                        then splitlines s else splitlines (String a s)) ->
                  occurs l (String a s)).
        { intros l Hl. destruct (Ascii.eqb c "013" && Ascii.eqb a "010").
          - apply occurs_cons, IH2, Hl.
          - apply IHa2, Hl. }
        split.
        * intros l ls H. injection H as <- _. exists (String c (String a s)). reflexivity.
        * intros l [<-|Hl].
          -- exists EmptyString, (String c (String a s)). reflexivity.
          -- apply occurs_cons, Hin, Hl.
      + destruct (splitlines (String a s)) as [|l0 ls0] eqn:E.
        * split.
          -- intros l ls H. injection H as <- <-. exists (String a s). reflexivity.
          -- intros l [<-|[]]. exists EmptyString, (String a s). reflexivity.
        * destruct (IHa1 l0 ls0 eq_refl) as [post Hpost].
          split.
          -- intros l ls H. injection H as <- <-. exists post. cbn. rewrite <- Hpost. reflexivity.
          -- intros l [<-|Hl].
             ++ exists EmptyString, post. cbn. rewrite <- Hpost. reflexivity.
             ++ apply occurs_cons, IHa2. right. exact Hl. }
  intros s. apply H.
Qed.

Lemma splitlines_occurs : forall s l, In l (splitlines s) -> occurs l s.
Proof. intros s. apply splitlines_facts. Qed.

(** [c] is not a character of [L]. *)
Fixpoint no_char (c : ascii) (L : string) : bool :=
  match L with
  | EmptyString => true
  | String x r => negb (Ascii.eqb x c) && no_char c r
  end.

Lemma startswith_cut : forall c L u v,
  no_char c L = true ->
  startswith L (u ++ String c v) = true -> startswith L u = true.
Proof.
  intros c. induction L as [|x L IH]; intros u v Hn H; [reflexivity|].
  cbn in Hn. apply andb_prop in Hn as [Hx Hn].
  destruct u as [|y u]; cbn in *.
  - apply andb_prop in H as [H _]. rewrite H in Hx. discriminate.
  - apply andb_prop in H as [Hxy H]. rewrite Hxy. cbn. apply (IH u v Hn H).
Qed.

Lemma contains_cut : forall c L a b,
  no_char c L = true ->
  contains L (a ++ String c b) = true ->
  contains L a = true \/ contains L b = true.
Proof.
  intros c L a b Hn. induction a as [|y a IH]; intros H.
  - cbn [append] in H. cbn [contains] in H. apply orb_prop in H as [H|H].
    + left. apply (startswith_cut c L EmptyString b Hn) in H.
      cbn. rewrite H. reflexivity.
    + right. exact H.
  - cbn [append contains] in H. apply orb_prop in H as [H|H].
    + left. apply (startswith_cut c L (String y a) b Hn) in H.
      cbn [contains]. rewrite H. reflexivity.
    + destruct (IH H) as [Ha|Hb]; [left|right; exact Hb].
      cbn [contains]. rewrite Ha. apply orb_true_r.
Qed.

Lemma contains_join : forall L ls,
  no_char "010" L = true -> L <> EmptyString ->
  contains L (join newline ls) = true ->
  exists l, In l ls /\ contains L l = true.
Proof.
  intros L ls Hn Hne. induction ls as [|x ls IH]; intros H.
  - cbn in H. destruct L; [contradiction|discriminate].
  - destruct ls as [|y ls].
    + exists x. split; [left; reflexivity|exact H].
    + change (join newline (x :: y :: ls))
        with (x ++ String "010" (join newline (y :: ls)))%string in H.
      apply (contains_cut "010" L x _ Hn) in H as [H|H].
      * exists x. split; [left; reflexivity|exact H].
      * destruct (IH H) as (l & Hl & Hc). exists l. split; [right; exact Hl|exact Hc].
Qed.

Lemma map_chars_join : forall f ls,
  f "010"%char = "010"%char ->
  map_chars f (join newline ls) = join newline (map (map_chars f) ls).
Proof.
  intros f ls Hf. induction ls as [|x ls IH]; [reflexivity|].
  destruct ls as [|y ls]; [reflexivity|].
  change (join newline (x :: y :: ls))
    with (x ++ String "010" (join newline (y :: ls)))%string.
  rewrite map_chars_append. cbn [map_chars]. rewrite Hf, IH. reflexivity.
Qed.

End StrFacts.

(* ===================================================================== *)
(** * What a match says about the subject *)
(* ===================================================================== *)

Module RegexFacts.
Import PyStr Regex StrFacts.

Fixpoint all_chars (p : ascii -> bool) (w : string) : bool :=
  match w with
  | EmptyString => true
  | String a r => p a && all_chars p r
  end.

(** [den r w c c']: the pattern [r] can consume the word [w], turning the
    captures [c] into [c'].  What follows the word (for lookaheads and
    anchors) is left out, which is all the proofs below need. *)
Fixpoint den (r : regex) (w : string) (c c' : caps) : Prop :=
  match r with
  | Eps => w = EmptyString /\ c' = c
  | Chr p => exists a, w = String a EmptyString /\ p a = true /\ c' = c
  | Seq a b =>
      exists w1 w2 cm, w = (w1 ++ w2)%string /\ den a w1 c cm /\ den b w2 cm c'
  | Alt a b => den a w c c' \/ den b w c c'
  | Star _ p => all_chars p w = true /\ c' = c
  | Group n a => exists c1, den a w c c1 /\ c' = (n, w) :: c1
  | Ahead a => w = EmptyString /\ exists x, den a x c c'
  | EndZ => w = EmptyString /\ c' = c
  | EndDollar => w = EmptyString /\ c' = c
  end.

Lemma take_app : forall w s, take (String.length w) (w ++ s) = w.
Proof.
  induction w as [|a w IH]; intros s; cbn.
  - destruct s; reflexivity.
  - rewrite IH. reflexivity.
Qed.

Lemma taken_app : forall w s, taken (w ++ s) s = w.
Proof.
  intros w s. unfold taken. rewrite length_append.
  replace (String.length w + String.length s - String.length s)
    with (String.length w) by lia.
  apply take_app.
Qed.

Lemma star_greedy_sound : forall R p s c (k : string -> caps -> option R) x,
  star_greedy p s c k = Some x ->
  exists w s', s = (w ++ s')%string /\ all_chars p w = true /\ k s' c = Some x.
Proof.
  intros R p s c k x. induction s as [|a s IH]; cbn; intros H.
  - exists EmptyString, EmptyString. repeat split. exact H.
  - destruct (p a) eqn:Pa.
    + destruct (star_greedy p s c k) as [y|] eqn:E.
      * injection H as ->. destruct (IH eq_refl) as (w & s' & -> & Hw & Hk).
        exists (String a w), s'. cbn. rewrite Pa, Hw. repeat split. exact Hk.
      * exists EmptyString, (String a s). repeat split. exact H.
    + exists EmptyString, (String a s). repeat split. exact H.
Qed.

Lemma star_lazy_sound : forall R p s c (k : string -> caps -> option R) x,
  star_lazy p s c k = Some x ->
  exists w s', s = (w ++ s')%string /\ all_chars p w = true /\ k s' c = Some x.
Proof.
  intros R p s c k x. induction s as [|a s IH]; cbn; intros H.
  - destruct (k EmptyString c) as [y|] eqn:E; [|discriminate].
    exists EmptyString, EmptyString. repeat split. rewrite E. exact H.
  - destruct (k (String a s) c) as [y|] eqn:E.
    + exists EmptyString, (String a s). repeat split. rewrite E. exact H.
    + destruct (p a) eqn:Pa; [|discriminate].
      destruct (IH H) as (w & s' & -> & Hw & Hk).
      exists (String a w), s'. cbn. rewrite Pa, Hw. repeat split. exact Hk.
Qed.

(** Soundness of the matcher. *)
Lemma run_sound : forall r R s c (k : string -> caps -> option R) x,
  run r s c k = Some x ->
  exists w s' c', s = (w ++ s')%string /\ den r w c c' /\ k s' c' = Some x.
Proof.
  induction r as [|p|a IHa b IHb|a IHa b IHb|g p|n a IHa|a IHa| |];
    intros R s c k x H; cbn [run] in H.
  - exists EmptyString, s, c. repeat split. exact H.
  - destruct s as [|ch rest]; [discriminate|].
    destruct (p ch) eqn:P; [|discriminate].
    exists (String ch EmptyString), rest, c. repeat split; [|exact H].
    exists ch. repeat split. exact P.
  - apply IHa in H as (w1 & s1 & c1 & -> & Ha & H).
    apply IHb in H as (w2 & s2 & c2 & -> & Hb & H).
    exists (w1 ++ w2)%string, s2, c2. rewrite append_assoc. repeat split; [|exact H].
    exists w1, w2, c1. repeat split; assumption.
  - destruct (run a s c k) as [y|] eqn:E.
    + injection H as ->. apply IHa in E as (w & s' & c' & -> & Ha & Hk).
      exists w, s', c'. repeat split; [left; exact Ha|exact Hk].
    + apply IHb in H as (w & s' & c' & -> & Hb & Hk).
      exists w, s', c'. repeat split; [right; exact Hb|exact Hk].
  - destruct g.
    + apply star_greedy_sound in H as (w & s' & -> & Hw & Hk).
      exists w, s', c. repeat split; assumption.
    + apply star_lazy_sound in H as (w & s' & -> & Hw & Hk).
      exists w, s', c. repeat split; assumption.
  - apply IHa in H as (w & s' & c1 & -> & Ha & Hk).
    rewrite taken_app in Hk.
    exists w, s', ((n, w) :: c1). repeat split; [|exact Hk].
    exists c1. split; [exact Ha|reflexivity].
  - destruct (run a s c (fun _ c' => Some c')) as [c1|] eqn:E; [|discriminate].
    apply IHa in E as (w & s' & c' & -> & Ha & Hk). injection Hk as ->.
    exists EmptyString, (w ++ s')%string, c1. repeat split; [|exact H].
    exists w. exact Ha.
  - destruct s; [|discriminate]. exists EmptyString, EmptyString, c. repeat split. exact H.
  - exists EmptyString, s, c. repeat split.
    destruct s as [|ch [|? ?]]; try discriminate; [exact H|].
    destruct (Ascii.eqb ch "010"); [exact H|discriminate].
Qed.

(** A match found in [s]: the word [w] it consumed, and where. *)
Definition found_in (r : regex) (s : string) (m : Match) : Prop :=
  exists pre w, s = (pre ++ w ++ m_rest m)%string /\ den r w [] (m_caps m).

Lemma match_at_sound : forall r s m,
  match_at r s = Some m ->
  exists w, s = (w ++ m_rest m)%string /\ den r w [] (m_caps m).
Proof.
  intros r s m H. unfold match_at in H.
  apply run_sound in H as (w & s' & c' & -> & Hd & Hk).
  injection Hk as <-. exists w. split; [reflexivity|exact Hd].
Qed.

Lemma search_sound : forall r s m, search r s = Some m -> found_in r s m.
Proof.
  intros r s m. induction s as [|a s IH]; cbn [search]; intros H.
  - destruct (match_at r EmptyString) as [m0|] eqn:E; [|discriminate].
    injection H as ->. apply match_at_sound in E as (w & Hs & Hd).
    exists EmptyString, w. split; assumption.
  - destruct (match_at r (String a s)) as [m0|] eqn:E.
    + injection H as ->. apply match_at_sound in E as (w & Hs & Hd).
      exists EmptyString, w. split; assumption.
    + destruct (IH H) as (pre & w & -> & Hd).
      exists (String a pre), w. split; [reflexivity|exact Hd].
Qed.

Lemma found_in_suffix : forall r q s m, found_in r s m -> found_in r (q ++ s) m.
Proof.
  intros r q s m (pre & w & -> & Hd). exists (q ++ pre)%string, w.
  rewrite append_assoc. split; [reflexivity|exact Hd].
Qed.

Lemma finditer_from_sound : forall r fuel s m,
  In m (finditer_from fuel r s) -> found_in r s m.
Proof.
  intros r. induction fuel as [|fuel IH]; intros s m H; [destruct H|].
  cbn [finditer_from] in H.
  destruct (search r s) as [m0|] eqn:E; [|destruct H].
  pose proof (search_sound r s m0 E) as Hm0.
  destruct H as [<-|H]; [exact Hm0|].
  destruct Hm0 as (pre & w & Hs & _).
  destruct (Nat.ltb (String.length (m_rest m0)) (String.length (m_from m0))).
  - apply IH in H. rewrite Hs. rewrite <- append_assoc.
    apply found_in_suffix. exact H.
  - destruct (m_rest m0) as [|a rest] eqn:Er; [destruct H|].
    apply IH in H. rewrite Hs, <- append_assoc.
    change (String a rest) with (String a EmptyString ++ rest)%string.
    rewrite <- append_assoc. apply found_in_suffix. exact H.
Qed.

Lemma finditer_sound : forall r s m, In m (finditer r s) -> found_in r s m.
Proof. intros r s m. apply finditer_from_sound. Qed.

(** A pattern whose matches all contain the marker [L] (after [f] is
    applied to the characters) finds nothing in a subject without it. *)
Section Marker.

Variable f : ascii -> ascii.
Variable L : string.
Variable r : regex.
Hypothesis needs : forall w c', den r w [] c' -> occurs L (map_chars f w).

Lemma found_has_marker : forall s m,
  found_in r s m -> contains L (map_chars f s) = true.
Proof.
  intros s m (pre & w & -> & Hd). apply contains_occurs.
  rewrite !map_chars_append. apply occurs_app_r, occurs_app_l, (needs _ _ Hd).
Qed.

Lemma search_none : forall s,
  contains L (map_chars f s) = false -> search r s = None.
Proof.
  intros s H. destruct (search r s) as [m|] eqn:E; [|reflexivity].
  apply search_sound, found_has_marker in E. congruence.
Qed.

Lemma finditer_nil : forall s,
  contains L (map_chars f s) = false -> finditer r s = [].
Proof.
  intros s H. unfold finditer. cbn [finditer_from].
  rewrite (search_none s H). reflexivity.
Qed.

End Marker.

End RegexFacts.

(* ===================================================================== *)
(** * Properties of the parsers *)
(* ===================================================================== *)

Module ParserFacts.
Import PyStr Regex StrFacts RegexFacts Clock Parsers.

(** ** What the patterns require *)

Lemma den_Lit : forall L w c c', den (Lit L) w c c' -> w = L /\ c' = c.
Proof.
  induction L as [|x L IH]; intros w c c' H; cbn [Lit den] in H.
  - exact H.
  - destruct H as (w1 & w2 & cm & -> & (a & -> & Ha & ->) & H2).
    apply IH in H2 as [-> ->]. unfold is_char in Ha.
    apply Ascii.eqb_eq in Ha. subst a. split; reflexivity.
Qed.

Lemma den_LitNoCase : forall L w c c',
  den (LitNoCase L) w c c' -> lower w = lower L /\ c' = c.
Proof.
  induction L as [|x L IH]; intros w c c' H; cbn [LitNoCase den] in H.
  - destruct H as [-> ->]. split; reflexivity.
  - destruct H as (w1 & w2 & cm & -> & (a & -> & Ha & ->) & H2).
    apply IH in H2 as [Hw ->]. unfold is_char_nocase in Ha.
    apply Ascii.eqb_eq in Ha. split; [|reflexivity].
    unfold lower in *. cbn. rewrite Ha, Hw. reflexivity.
Qed.

Lemma den_Plus : forall g p w c c',
  den (Plus g p) w c c' -> w <> EmptyString /\ c' = c.
Proof.
  intros g p w c c' H. unfold Plus in H. cbn [den] in H.
  destruct H as (w1 & w2 & cm & -> & (a & -> & _ & ->) & (_ & ->)).
  split; [discriminate|reflexivity].
Qed.

Ltac break_den :=
  repeat match goal with
         | H : exists _, _ |- _ => destruct H
         | H : _ /\ _ |- _ => destruct H
         | H : den (Lit _) _ _ _ |- _ => apply den_Lit in H
         | H : den (LitNoCase _) _ _ _ |- _ => apply den_LitNoCase in H
         | H : den (Plus _ _) _ _ _ |- _ => apply den_Plus in H
         end.

Lemma sms_row_needs : forall w c',
  den SMS_ROW w [] c' -> occurs "address=" (map_chars (fun a => a) w).
Proof.
  intros w c' H. rewrite map_chars_id. unfold SMS_ROW in H. cbn [cat den] in H.
  break_den. subst. apply occurs_prefix.
Qed.

Lemma sms_alt_needs : forall a d b w c',
  den (sms_alt a d b) w [] c' -> occurs a (map_chars (fun x => x) w).
Proof.
  intros a d b w c' H. rewrite map_chars_id. unfold sms_alt in H. cbn [cat den] in H.
  break_den. subst. apply occurs_prefix.
Qed.

Lemma key_value_captures : forall w c',
  den KEY_VALUE w [] c' ->
  exists k v, c' = [("2", v); ("1", k)] /\ occurs (k ++ "=") w.
Proof.
  intros w c' H. unfold KEY_VALUE in H. cbn [cat den] in H.
  destruct H as (wk & r1 & c1 & -> & (c0 & Hk & ->) & H).
  apply den_Plus in Hk as [_ ->].
  destruct H as (we & r2 & c2 & -> & He & H).
  apply den_Lit in He as [-> ->].
  destruct H as (wv & r3 & c3 & -> & (c4 & (_ & ->) & ->) & H).
  destruct H as (wt & r4 & c5 & -> & Ht & (-> & ->)).
  exists wk, wv. split.
  - destruct Ht as [Ht|Ht].
    + break_den. subst. reflexivity.
    + destruct Ht as [_ ->]. reflexivity.
  - rewrite <- append_assoc. apply occurs_prefix.
Qed.

Lemma contact_row_needs : forall w c',
  den CONTACT_ROW w [] c' ->
  occurs "display_name=" (map_chars lower_char w)
  /\ exists name number, c' = [("number", number); ("name", name)].
Proof.
  intros w c' H. unfold CONTACT_ROW in H. cbn [cat den] in H.
  break_den. subst. split.
  - rewrite !map_chars_append.
    match goal with
    | H : lower ?x = lower "display_name=" |- _ =>
        unfold lower in H; rewrite H
    end.
    do 4 apply occurs_app_r. apply occurs_prefix.
  - eexists _, _. reflexivity.
Qed.

Lemma call_row_needs : forall w c',
  den CALL_ROW w [] c' -> occurs "name=" (map_chars lower_char w).
Proof.
  intros w c' H. unfold CALL_ROW in H. cbn [cat den] in H.
  destruct H as (w1 & r1 & c1 & -> & H1 & H).
  destruct H as (w2 & r2 & c2 & -> & H2 & _).
  apply den_LitNoCase in H2 as [H2 _].
  rewrite !map_chars_append. unfold lower in *. rewrite H2.
  destruct H1 as [H1|H1]; apply den_LitNoCase in H1 as [H1 _];
    unfold lower in H1; rewrite H1.
  - exists EmptyString, (map_chars lower_char r2). reflexivity.
  - exists "cached_", (map_chars lower_char r2). reflexivity.
Qed.

Lemma call_alt_needs : forall n p d t w c',
  den (call_alt n p d t) w [] c' -> occurs (lower n) (map_chars lower_char w).
Proof.
  intros n p d t w c' H. unfold call_alt in H. cbn [cat den] in H.
  destruct H as (w1 & r1 & c1 & -> & H1 & _).
  apply den_LitNoCase in H1 as [H1 _].
  rewrite map_chars_append. unfold lower in *. rewrite H1. apply occurs_prefix.
Qed.

(** ** Text without field markers *)

(** None of [markers] occurs in [text]. *)
Definition no_markers (markers : list string) (text : string) : bool :=
  forallb (fun m => negb (contains m text)) markers.

(** The columns from which the SMS strategies take an address or a body
    (a date column alone never makes a record). *)
Definition SMS_MARKERS : list string :=
  ["address="; "phone_number="; "sender="; "number=";
   "body="; "message="; "text="].

(** The column the contact pattern requires; the pattern ignores case, so
    it is looked for in the lower-cased text. *)
Definition CONTACT_MARKERS : list string := ["display_name="].

(** The columns from which the call strategies take a name or a number,
    and the duration column of the line-by-line strategy; the patterns
    ignore case, so they are looked for in the lower-cased text. *)
Definition CALL_MARKERS : list string :=
  ["name="; "cached_name="; "caller_name="; "contact=";
   "number="; "phone_number="; "phone="; "duration="].

Lemma no_markers_in : forall markers text m,
  no_markers markers text = true -> In m markers -> contains m text = false.
Proof.
  intros markers text m H Hin. unfold no_markers in H.
  rewrite forallb_forall in H. apply H in Hin.
  destruct (contains m text); [discriminate|reflexivity].
Qed.

Lemma text_marker_free : forall f L raw,
  f "010"%char = "010"%char -> no_char "010" L = true -> L <> EmptyString ->
  contains L (map_chars f raw) = false ->
  contains L (map_chars f (without_comments raw)) = false
  /\ forall line, In line (splitlines (without_comments raw)) ->
                  contains L (map_chars f line) = false.
Proof.
  intros f L raw Hf Hn Hne Hraw.
  assert (Htext : contains L (map_chars f (without_comments raw)) = false).
  { destruct (contains L (map_chars f (without_comments raw))) eqn:E; [|reflexivity].
    unfold without_comments in E. rewrite (map_chars_join f _ Hf) in E.
    apply (contains_join L _ Hn Hne) in E as (l' & Hl' & Hc).
    apply in_map_iff in Hl' as (l & <- & Hl).
    apply filter_In in Hl as [Hl _].
    apply splitlines_occurs in Hl.
    apply (occurs_map_chars f) in Hl.
    apply contains_occurs in Hc.
    pose proof (occurs_trans _ _ _ Hc Hl) as Ho.
    apply contains_occurs in Ho. congruence. }
  split; [exact Htext|].
  intros line Hline.
  destruct (contains L (map_chars f line)) eqn:E; [|reflexivity].
  apply splitlines_occurs in Hline. apply (occurs_map_chars f) in Hline.
  apply contains_occurs in E.
  pose proof (occurs_trans _ _ _ E Hline) as Ho.
  apply contains_occurs in Ho. congruence.
Qed.

Lemma text_marker_free_exact : forall L raw,
  no_char "010" L = true -> L <> EmptyString ->
  contains L raw = false ->
  contains L (without_comments raw) = false
  /\ forall line, In line (splitlines (without_comments raw)) ->
                  contains L line = false.
Proof.
  intros L raw Hn Hne Hraw.
  destruct (text_marker_free (fun a => a) L raw eq_refl Hn Hne) as [H1 H2].
  - rewrite map_chars_id. exact Hraw.
  - rewrite map_chars_id in H1. split; [exact H1|].
    intros line Hl. specialize (H2 line Hl). rewrite map_chars_id in H2. exact H2.
Qed.

Lemma contains_lower : forall L s,
  lower L = L -> contains L (lower s) = false -> contains L s = false.
Proof.
  intros L s HL H. destruct (contains L s) eqn:E; [|reflexivity].
  apply contains_occurs in E. apply (occurs_map_chars lower_char) in E.
  fold (lower L) in E. fold (lower s) in E. rewrite HL in E.
  apply contains_occurs in E. congruence.
Qed.

Lemma fold_left_unchanged : forall (A B : Type) (step : A -> B -> A) l acc,
  (forall x a, In x l -> step a x = a) -> fold_left step l acc = acc.
Proof.
  intros A B step l. induction l as [|x l IH]; intros acc H; [reflexivity|].
  cbn. rewrite H by (left; reflexivity). apply IH.
  intros y a Hy. apply H. right. exact Hy.
Qed.

Lemma lookup_none : forall key (l : caps),
  (forall k v, In (k, v) l -> k <> key) -> lookup key l = None.
Proof.
  intros key l. induction l as [|[k v] l IH]; intros H; [reflexivity|].
  cbn. destruct (String.eqb k key) eqn:E.
  - apply String.eqb_eq in E. exfalso. apply (H k v); [left; reflexivity|exact E].
  - apply IH. intros k' v' Hin. apply (H k' v'). right. exact Hin.
Qed.

Lemma dict_get_none : forall (g h : string -> string) key pairs,
  (forall k v, In (k, v) pairs -> g k <> key) ->
  dict_get key (map (fun kv => (g (fst kv), h (snd kv))) pairs) = None.
Proof.
  intros g h key pairs H. unfold dict_get. apply lookup_none.
  intros k v Hin. apply in_rev in Hin. apply in_map_iff in Hin as ([k0 v0] & Heq & Hin).
  injection Heq as <- <-. apply (H k0 v0 Hin).
Qed.

(** Every key the key/value pattern finds is followed by [=] in the
    line. *)
Lemma key_value_pairs_keys : forall line k v,
  In (k, v) (findall_pairs KEY_VALUE line) -> occurs (k ++ "=") line.
Proof.
  intros line k v H. unfold findall_pairs in H.
  apply in_map_iff in H as (m & Heq & Hm).
  apply finditer_sound in Hm as (pre & w & -> & Hd).
  apply key_value_captures in Hd as (k0 & v0 & Hc & Ho).
  unfold group in Heq. rewrite Hc in Heq. cbn in Heq. injection Heq as <- <-.
  apply occurs_app_r, occurs_app_l, Ho.
Qed.

Section NoMarkers.

Variable epoch_ms_to_str : string -> string.

Lemma sms_search_line_none : forall pattern line acc,
  search pattern line = None ->
  or_continue (sms_search_line epoch_ms_to_str pattern line acc) acc = acc.
Proof.
  intros pattern line acc H. unfold sms_search_line. rewrite H. reflexivity.
Qed.

Lemma sms_strategy3_none : forall text,
  (forall line, In line (splitlines text) ->
     contains "phone_number=" line = false
     /\ contains "sender=" line = false
     /\ contains "number=" line = false) ->
  sms_strategy3 epoch_ms_to_str SMS_ALT_PATTERNS text [] = None.
Proof.
  intros text H. unfold SMS_ALT_PATTERNS. cbn [sms_strategy3].
  rewrite fold_left_unchanged.
  2:{ intros line acc Hl. apply sms_search_line_none.
      apply (search_none (fun a => a) "phone_number=" _ (sms_alt_needs _ _ _)).
      rewrite map_chars_id. apply H, Hl. }
  rewrite fold_left_unchanged.
  2:{ intros line acc Hl. apply sms_search_line_none.
      apply (search_none (fun a => a) "sender=" _ (sms_alt_needs _ _ _)).
      rewrite map_chars_id. apply H, Hl. }
  rewrite fold_left_unchanged.
  2:{ intros line acc Hl. apply sms_search_line_none.
      apply (search_none (fun a => a) "number=" _ (sms_alt_needs _ _ _)).
      rewrite map_chars_id. apply H, Hl. }
  reflexivity.
Qed.

Lemma sms_no_markers : forall raw,
  no_markers SMS_MARKERS raw = true ->
  parse_sms_text epoch_ms_to_str raw = Ok [].
Proof.
  intros raw H.
  assert (Hm : forall m, In m SMS_MARKERS ->
             contains m (without_comments raw) = false
             /\ forall line, In line (splitlines (without_comments raw)) ->
                             contains m line = false).
  { intros m Hin. pose proof (no_markers_in _ _ _ H Hin) as Hc.
    apply text_marker_free_exact; [| |exact Hc];
      unfold SMS_MARKERS in Hin; cbn in Hin;
      repeat (destruct Hin as [<-|Hin]; [try reflexivity; discriminate|]);
      destruct Hin. }
  assert (Hline : forall m line, In m SMS_MARKERS ->
             In line (splitlines (without_comments raw)) -> contains m line = false).
  { intros m line Hin Hl. apply (proj2 (Hm m Hin)), Hl. }
  unfold parse_sms_text.
  destruct (negb (truthy raw)); [reflexivity|].
  destruct (negb (truthy (strip (without_comments raw)))); [reflexivity|].
  assert (H1 : sms_strategy1 epoch_ms_to_str (without_comments raw) = []).
  { unfold sms_strategy1.
    rewrite (finditer_nil (fun a => a) "address=" SMS_ROW sms_row_needs); [reflexivity|].
    rewrite map_chars_id. apply (proj1 (Hm "address=" ltac:(cbn; tauto))). }
  rewrite H1.
  assert (H2 : sms_strategy2 epoch_ms_to_str (without_comments raw) = []).
  { unfold sms_strategy2. apply fold_left_unchanged. intros line acc Hl.
    rewrite (Hline "address=" line ltac:(cbn; tauto) Hl). reflexivity. }
  rewrite H2.
  rewrite sms_strategy3_none.
  2:{ intros line Hl. repeat split; apply Hline; try exact Hl; cbn; tauto. }
  f_equal. unfold sms_strategy4. apply fold_left_unchanged. intros line acc Hl.
  destruct (negb (truthy (strip line)) || startswith "Row:" line); [reflexivity|].
  assert (Hget : forall key, In (key ++ "=")%string SMS_MARKERS ->
            dict_get key (map (fun kv => (fst kv, strip (snd kv)))
                              (findall_pairs KEY_VALUE line)) = None).
  { intros key Hk.
    apply (dict_get_none (fun k => k) strip). intros k v Hin ->.
    apply key_value_pairs_keys, contains_occurs in Hin.
    rewrite (Hline _ line Hk Hl) in Hin. discriminate. }
  rewrite !Hget by (cbn; tauto). reflexivity.
Qed.

Lemma calls_strategy3_none : forall text,
  contains "caller_name=" (lower text) = false ->
  contains "contact=" (lower text) = false ->
  calls_strategy3 epoch_ms_to_str CALL_ALT_PATTERNS text [] = None.
Proof.
  intros text H1 H2. unfold CALL_ALT_PATTERNS. cbn [calls_strategy3].
  rewrite (finditer_nil lower_char "caller_name=" _
             (call_alt_needs "caller_name=" "phone_number=" "call_duration=" "timestamp=")
             text H1).
  cbn [fold_left].
  rewrite (finditer_nil lower_char "contact=" _
             (call_alt_needs "contact=" "number=" "duration=" "time=") text H2).
  reflexivity.
Qed.

Lemma calls_no_markers : forall raw,
  no_markers CALL_MARKERS (lower raw) = true ->
  parse_calls_text epoch_ms_to_str raw = Ok [].
Proof.
  intros raw H.
  assert (Hm : forall m, In m CALL_MARKERS ->
             contains m (lower (without_comments raw)) = false
             /\ forall line, In line (splitlines (without_comments raw)) ->
                             contains m (lower line) = false).
  { intros m Hin. pose proof (no_markers_in _ _ _ H Hin) as Hc.
    apply text_marker_free; [reflexivity| | |exact Hc];
      unfold CALL_MARKERS in Hin; cbn in Hin;
      repeat (destruct Hin as [<-|Hin]; [try reflexivity; discriminate|]);
      destruct Hin. }
  assert (Hline : forall m line, In m CALL_MARKERS ->
             In line (splitlines (without_comments raw)) ->
             contains m (lower line) = false).
  { intros m line Hin Hl. apply (proj2 (Hm m Hin)), Hl. }
  unfold parse_calls_text.
  destruct (negb (truthy raw)); [reflexivity|].
  destruct (negb (truthy (strip (without_comments raw)))); [reflexivity|].
  assert (H1 : calls_strategy1 epoch_ms_to_str (without_comments raw) = []).
  { unfold calls_strategy1.
    rewrite (finditer_nil lower_char "name=" CALL_ROW call_row_needs); [reflexivity|].
    apply (proj1 (Hm "name=" ltac:(cbn; tauto))). }
  rewrite H1.
  assert (H2 : calls_strategy2 epoch_ms_to_str (without_comments raw) = []).
  { unfold calls_strategy2. apply fold_left_unchanged. intros line acc Hl.
    rewrite (contains_lower "duration=" line eq_refl
               (Hline "duration=" line ltac:(cbn; tauto) Hl)).
    reflexivity. }
  rewrite H2.
  rewrite calls_strategy3_none;
    [|apply (proj1 (Hm "caller_name=" ltac:(cbn; tauto)))
     |apply (proj1 (Hm "contact=" ltac:(cbn; tauto)))].
  f_equal. unfold calls_strategy4. apply fold_left_unchanged. intros line acc Hl.
  destruct (negb (truthy (strip line)) || startswith "Row:" line); [reflexivity|].
  assert (Hget : forall key, lower key = key -> In (key ++ "=")%string CALL_MARKERS ->
            dict_get key (map (fun kv => (lower (fst kv), strip (snd kv)))
                              (findall_pairs KEY_VALUE line)) = None).
  { intros key Hlow Hk.
    apply (dict_get_none lower strip). intros k v Hin Heq.
    apply key_value_pairs_keys in Hin.
    apply (occurs_map_chars lower_char) in Hin.
    rewrite map_chars_append in Hin. fold (lower k) in Hin. rewrite Heq in Hin.
    apply contains_occurs in Hin.
    change (map_chars lower_char "=") with "=" in Hin.
    fold (lower line) in Hin.
    rewrite (Hline _ line Hk Hl) in Hin. discriminate. }
  rewrite !Hget by (try reflexivity; cbn; tauto). reflexivity.
Qed.

End NoMarkers.

(** ** The contact loop never meets [None] *)

Lemma contact_rows_ok : forall matches acc,
  (forall m, In m matches ->
     exists name number, m_caps m = [("number", number); ("name", name)]) ->
  exists records, contact_rows matches acc = Ok records.
Proof.
  induction matches as [|m ms IH]; intros acc H; cbn [contact_rows].
  - exists acc. reflexivity.
  - destruct (H m (or_introl eq_refl)) as (name & number & Hc).
    unfold group. rewrite Hc. cbn.
    apply IH. intros m' Hm'. apply H. right. exact Hm'.
Qed.

Lemma contacts_total : forall raw, exists records, parse_contacts_text raw = Ok records.
Proof.
  intros raw. unfold parse_contacts_text.
  destruct (negb (truthy raw)); [exists []; reflexivity|].
  apply contact_rows_ok. intros m Hm.
  apply finditer_sound in Hm as (pre & w & _ & Hd).
  apply contact_row_needs in Hd as [_ Hc]. exact Hc.
Qed.

Lemma contacts_no_markers : forall raw,
  no_markers CONTACT_MARKERS (lower raw) = true ->
  parse_contacts_text raw = Ok [].
Proof.
  intros raw H. unfold parse_contacts_text.
  destruct (negb (truthy raw)); [reflexivity|].
  rewrite (finditer_nil lower_char "display_name=" CONTACT_ROW
             (fun w c' Hd => proj1 (contact_row_needs w c' Hd))).
  - reflexivity.
  - apply (no_markers_in _ _ _ H). left. reflexivity.
Qed.

Lemma sms_total : forall f raw, exists records, parse_sms_text f raw = Ok records.
Proof.
  intros f raw. unfold parse_sms_text.
  destruct (negb (truthy raw)); [eexists; reflexivity|].
  destruct (negb (truthy (strip (without_comments raw)))); [eexists; reflexivity|].
  destruct (sms_strategy1 f _); [|eexists; reflexivity].
  destruct (sms_strategy2 f _); [|eexists; reflexivity].
  destruct (sms_strategy3 f _ _ _); eexists; reflexivity.
Qed.

Lemma calls_total : forall f raw, exists records, parse_calls_text f raw = Ok records.
Proof.
  intros f raw. unfold parse_calls_text.
  destruct (negb (truthy raw)); [eexists; reflexivity|].
  destruct (negb (truthy (strip (without_comments raw)))); [eexists; reflexivity|].
  destruct (calls_strategy1 f _); [|eexists; reflexivity].
  destruct (calls_strategy2 f _); [|eexists; reflexivity].
  destruct (calls_strategy3 f _ _ _); eexists; reflexivity.
Qed.

(** ** The literal SMS scenario *)

Definition SMS_SCENARIO : string :=
  ("Row: 0 address=+15551234567, date=1700000000000, body=Hello there"
   ++ newline
   ++ "Row: 1 address=+15559876543, date=1700000100000, body=See you soon")%string.

(** [s] is laid out as [mask], where [d] stands for a decimal digit. *)
Fixpoint has_shape (mask s : string) : bool :=
  match mask, s with
  | EmptyString, EmptyString => true
  | String m mask', String c s' =>
      (if Ascii.eqb m "d" then is_digit c else Ascii.eqb c m) && has_shape mask' s'
  | _, _ => false
  end.

(** A timestamp as [strftime("%Y-%m-%d %H:%M:%S")] writes it. *)
Definition is_timestamp (s : string) : bool := has_shape "dddd-dd-dd dd:dd:dd" s.

Lemma digit_char_is_digit : forall n, is_digit (digit_char n) = true.
Proof.
  intros n. unfold digit_char.
  pose proof (Z.mod_pos_bound n 10 ltac:(lia)) as Hb.
  assert (H : (n mod 10 = 0 \/ n mod 10 = 1 \/ n mod 10 = 2 \/ n mod 10 = 3
               \/ n mod 10 = 4 \/ n mod 10 = 5 \/ n mod 10 = 6 \/ n mod 10 = 7
               \/ n mod 10 = 8 \/ n mod 10 = 9)%Z) by lia.
  repeat (destruct H as [H|H]; [rewrite H; reflexivity|]).
  rewrite H. reflexivity.
Qed.

(** A year of four digits is printed with its four digits. *)
Lemma year_str_four_digits : forall y,
  (1000 <= y <= 9999)%Z ->
  year_str y
  = String (digit_char (y / 1000))
      (String (digit_char (y / 100))
         (String (digit_char (y / 10)) (String (digit_char y) EmptyString))).
Proof.
  intros y Hy. unfold year_str, str_of_int.
  assert (H0 : (y <? 0)%Z = false) by (apply Z.ltb_ge; lia).
  rewrite H0.
  assert (Hl : (9 <= Z.log2 y)%Z).
  { apply Z.log2_le_pow2; [lia|]. change (2 ^ 9)%Z with 512%Z. lia. }
  destruct (Z.to_nat (Z.log2 y) + 1)%nat as [|[|[|[|k]]]] eqn:E; try lia.
  cbn [nat_digits].
  assert (H1 : (y <? 10)%Z = false) by (apply Z.ltb_ge; lia).
  assert (H2 : (y / 10 <? 10)%Z = false)
    by (apply Z.ltb_ge, Z.div_le_lower_bound; lia).
  assert (H3 : (y / 10 / 10 <? 10)%Z = false).
  { rewrite Z.div_div by lia. apply Z.ltb_ge, Z.div_le_lower_bound; lia. }
  assert (H4 : (y / 10 / 10 / 10 <? 10)%Z = true).
  { rewrite !Z.div_div by lia. apply Z.ltb_lt, Z.div_lt_upper_bound; lia. }
  rewrite H1, H2, H3, H4. rewrite !Z.div_div by lia. reflexivity.
Qed.

Lemma strftime_shape : forall dt,
  (1000 <= year dt <= 9999)%Z -> is_timestamp (strftime dt) = true.
Proof.
  intros dt Hy. unfold is_timestamp, strftime.
  rewrite (year_str_four_digits _ Hy). unfold pad2.
  cbn [append has_shape Ascii.eqb Bool.eqb].
  rewrite !digit_char_is_digit. reflexivity.
Qed.

(** The year of a day number lies in the 400-year era of the day. *)
Lemma civil_year_bounds : forall days,
  let era := ((days + 719468) / 146097)%Z in
  let y := fst (fst (civil_from_days days)) in
  (400 * era <= y <= 400 * era + 401)%Z.
Proof.
  intros days era y. subst era y. unfold civil_from_days.
  set (z := (days + 719468)%Z).
  set (era := (z / 146097)%Z).
  set (doe := (z - era * 146097)%Z).
  assert (Hdoe : (0 <= doe < 146097)%Z).
  { subst doe era. pose proof (Z.mod_pos_bound z 146097 ltac:(lia)) as Hm.
    rewrite Z.mod_eq in Hm by lia. lia. }
  set (yoe := ((doe - doe / 1460 + doe / 36524 - doe / 146096) / 365)%Z).
  assert (Hyoe : (0 <= yoe <= 400)%Z).
  { subst yoe. Z.div_mod_to_equations. lia. }
  cbv zeta. cbn [fst].
  match goal with
  | |- context [if ?b then 1%Z else 0%Z] => destruct b
  end; lia.
Qed.

(** From the autumn of 2001 to the year 5138 the local year has four
    digits, in any time zone. *)
Lemma local_year_four_digits : forall (utc_offset : Z -> Z) u,
  (-86400 < utc_offset u < 86400)%Z ->
  (10 ^ 9 - 172800 <= u <= 10 ^ 11)%Z ->
  (1000 <= fst (fst (civil_from_days ((u + utc_offset u) / 86400))) <= 9999)%Z.
Proof.
  intros tz u Htz Hu. change (10 ^ 9)%Z with 1000000000%Z in Hu.
  change (10 ^ 11)%Z with 100000000000%Z in Hu.
  pose proof (civil_year_bounds ((u + tz u) / 86400)) as Hy. cbv zeta in Hy.
  assert (Hd : (11571 <= (u + tz u) / 86400 <= 1157409)%Z).
  { split; [apply Z.div_le_lower_bound; lia|apply Z.div_le_upper_bound; lia]. }
  assert (He : (5 <= ((u + tz u) / 86400 + 719468) / 146097 < 13)%Z).
  { split; [apply Z.div_le_lower_bound; lia|apply Z.div_lt_upper_bound; lia]. }
  lia.
Qed.

Lemma year_in_range_four_digits : forall (utc_offset : Z -> Z) u,
  (-86400 < utc_offset u < 86400)%Z ->
  (10 ^ 9 - 172800 <= u <= 10 ^ 11)%Z ->
  year_in_range utc_offset u = true.
Proof.
  intros tz u Htz Hu. unfold year_in_range.
  pose proof (local_year_four_digits tz u Htz Hu) as Hy.
  destruct (civil_from_days ((u + tz u) / 86400)) as [[y m] d]. cbn [fst] in Hy.
  apply andb_true_intro. split; apply Z.leb_le; lia.
Qed.

Lemma fromtimestamp_in_range : forall (utc_offset : Z -> Z) t,
  (forall x, -86400 < utc_offset x < 86400)%Z ->
  (10 ^ 9 <= t <= 10 ^ 11)%Z ->
  exists dt, fromtimestamp utc_offset t = Ok dt /\ (1000 <= year dt <= 9999)%Z.
Proof.
  intros tz t Htz Ht. unfold fromtimestamp.
  pose proof (local_year_four_digits tz t (Htz t)) as Hy.
  pose proof (Htz t) as H0. pose proof (Htz (t - 86400)%Z) as H1.
  change (10 ^ 9)%Z with 1000000000%Z in *.
  change (10 ^ 11)%Z with 100000000000%Z in *.
  rewrite (year_in_range_four_digits tz t (Htz t))
    by (change (10 ^ 9)%Z with 1000000000%Z;
        change (10 ^ 11)%Z with 100000000000%Z; lia).
  rewrite (year_in_range_four_digits tz (t - 86400)%Z (Htz _))
    by (change (10 ^ 9)%Z with 1000000000%Z;
        change (10 ^ 11)%Z with 100000000000%Z; lia).
  assert (Hp : (if (tz t - tz (t - 86400) <? 0)%Z
                then year_in_range tz (t + (tz t - tz (t - 86400)))%Z
                else true) = true).
  { destruct (tz t - tz (t - 86400) <? 0)%Z eqn:E; [|reflexivity].
    apply Z.ltb_lt in E.
    apply (year_in_range_four_digits tz _ (Htz _)).
    change (10 ^ 9)%Z with 1000000000%Z.
    change (10 ^ 11)%Z with 100000000000%Z. lia. }
  rewrite Hp. cbn [andb].
  destruct (civil_from_days ((t + tz t) / 86400)) as [[y m] d]. cbn [fst] in Hy.
  eexists. split; [reflexivity|]. cbn [year]. apply Hy. lia.
Qed.

Section Scenario.

Variable f : string -> string.

Lemma scenario_records :
  parse_sms_text f SMS_SCENARIO
  = Ok [mkSms "+15551234567" "1700000000000" (f "1700000000000") "Hello there";
        mkSms "+15559876543" "1700000100000" (f "1700000100000") "See you soon"].
Proof. vm_compute. reflexivity. Qed.

End Scenario.

Lemma scenario_dates : forall (utc_offset : Z -> Z) (ms : string) (secs : Z),
  (forall t, -86400 < utc_offset t < 86400)%Z ->
  py_int ms = Ok (1000 * secs)%Z ->
  (1700000000 <= secs <= 1700000100)%Z ->
  is_timestamp (epoch_ms_to_str utc_offset ms) = true.
Proof.
  intros tz ms secs Htz Hint Hsecs. unfold epoch_ms_to_str. rewrite Hint.
  assert (Hgt : (1000 * secs >? 10 ^ 12)%Z = true).
  { apply Z.gtb_lt. change (10 ^ 12)%Z with 1000000000000%Z. lia. }
  rewrite Hgt.
  replace (1000 * secs / 1000)%Z with secs
    by (rewrite Z.mul_comm, Z.div_mul; lia).
  destruct (fromtimestamp_in_range tz secs Htz) as (dt & Hdt & Hy).
  { change (10 ^ 9)%Z with 1000000000%Z.
    change (10 ^ 11)%Z with 100000000000%Z. lia. }
  rewrite Hdt. apply strftime_shape, Hy.
Qed.

(** C7: on the literal two-row input the SMS parser returns exactly two
    records, with the addresses, epoch strings and bodies of the two rows
    in order, and in each the date is a timestamp laid out as
    [YYYY-MM-DD HH:MM:SS], not ["Unknown"], whatever the local time zone;
    in UTC the two dates are 2023-11-14 22:13:20 and 22:15:00. *)
Theorem sms_literal_scenario :
  (forall utc_offset : Z -> Z,
      (forall t, -86400 < utc_offset t < 86400)%Z ->
      exists d1 d2,
        parse_sms_text (epoch_ms_to_str utc_offset) SMS_SCENARIO
        = Ok [mkSms "+15551234567" "1700000000000" d1 "Hello there";
              mkSms "+15559876543" "1700000100000" d2 "See you soon"]
        /\ is_timestamp d1 = true /\ is_timestamp d2 = true
        /\ d1 <> "Unknown" /\ d2 <> "Unknown")
  /\ parse_sms_text (epoch_ms_to_str utc) SMS_SCENARIO
     = Ok [mkSms "+15551234567" "1700000000000" "2023-11-14 22:13:20" "Hello there";
           mkSms "+15559876543" "1700000100000" "2023-11-14 22:15:00" "See you soon"].
Proof.
  split; [|vm_compute; reflexivity].
  intros tz Htz.
  exists (epoch_ms_to_str tz "1700000000000"), (epoch_ms_to_str tz "1700000100000").
  assert (H1 : is_timestamp (epoch_ms_to_str tz "1700000000000") = true)
    by (apply (scenario_dates tz "1700000000000" 1700000000 Htz); [reflexivity|lia]).
  assert (H2 : is_timestamp (epoch_ms_to_str tz "1700000100000") = true)
    by (apply (scenario_dates tz "1700000100000" 1700000100 Htz); [reflexivity|lia]).
  split; [apply scenario_records|].
  split; [exact H1|]. split; [exact H2|].
  split; intros E; [rewrite E in H1|rewrite E in H2]; discriminate.
Qed.

(** Local time one hour east of UTC. *)
Definition one_hour_east : Z -> Z := fun _ => 3600%Z.

Lemma sms_literal_scenario_witness :
  exists d1 d2,
    parse_sms_text (epoch_ms_to_str one_hour_east) SMS_SCENARIO
    = Ok [mkSms "+15551234567" "1700000000000" d1 "Hello there";
          mkSms "+15559876543" "1700000100000" d2 "See you soon"]
    /\ is_timestamp d1 = true /\ is_timestamp d2 = true
    /\ d1 <> "Unknown" /\ d2 <> "Unknown".
Proof.
  apply (proj1 sms_literal_scenario one_hour_east).
  intros t. unfold one_hour_east. lia.
Defined.

(** ** Comment lines and the contact parser *)

(** A live contacts dump as [query_contacts_live] builds it -- the
    metadata header, a blank line, the provider output -- from a device
    whose model property reads like a row. *)
Definition COMMENTED_CONTACTS : string :=
  ("# Device: acme row: 0 display_name=mallory, data1=666" ++ newline
   ++ "# URI: content://com.android.contacts/data/phones" ++ newline
   ++ "# Projection: display_name:data1" ++ newline
   ++ "# Success: True" ++ newline
   ++ newline
   ++ "Row: 0 display_name=Bob, data1=777")%string.

(** C5 (the code departs from it): the contact parser does not remove the
    lines that start with [#]; a row inside such a line becomes a record,
    while the same text without its comment lines gives one record
    less. *)
Lemma contacts_parser_reads_comment_lines :
  parse_contacts_text COMMENTED_CONTACTS
  = Ok [mkContact "mallory" "666"; mkContact "Bob" "777"]
  /\ without_comments COMMENTED_CONTACTS
     = (newline ++ "Row: 0 display_name=Bob, data1=777")%string
  /\ parse_contacts_text (without_comments COMMENTED_CONTACTS)
     = Ok [mkContact "Bob" "777"].
Proof. repeat split; vm_compute; reflexivity. Qed.

End ParserFacts.

(* ===================================================================== *)
(** * The parsers on texts of arbitrary code points *)
(* ===================================================================== *)

(** The parsers once more, on texts whose characters are arbitrary code
    points, as the characters of a Python [str] are.  What Python takes
    from the Unicode database -- which characters are whitespace, digits
    and word characters, which characters a letter of a pattern matches
    when case is ignored, the lower-case form of a text -- is left open:
    the definitions take these tables as arguments, and what is proved of
    them holds whatever the tables are. *)

Module Unicode.
Import Clock.

(** A text: its code points. *)
Definition text : Type := list N.

(** The code points of a literal of the source. *)
Definition codes (s : string) : text := map N_of_ascii (list_ascii_of_string s).

(** [if s:] on a text. *)
Definition truthy (s : text) : bool :=
  match s with [] => false | _ :: _ => true end.

(** [a == b] on texts. *)
Definition text_eqb (a b : text) : bool :=
  if list_eq_dec N.eq_dec a b then true else false.

(** [p] is laid over the front of [s], each character of [p] standing
    for the characters [same] relates it to. *)
Fixpoint startswith_by (same : N -> N -> bool) (p s : text) : bool :=
  match p, s with
  | [], _ => true
  | c :: p', a :: s' => same c a && startswith_by same p' s'
  | _ :: _, [] => false
  end.

Fixpoint contains_by (same : N -> N -> bool) (sub s : text) : bool :=
  startswith_by same sub s ||
  match s with
  | [] => false
  | _ :: r => contains_by same sub r
  end.

(** [s.startswith(p)] and [sub in s]. *)
Definition startswith (p s : text) : bool := startswith_by N.eqb p s.

Definition contains (sub s : text) : bool := contains_by N.eqb sub s.

Definition newline : text := [10%N].

(** [sep.join(parts)]. *)
Fixpoint join (sep : text) (parts : list text) : text :=
  match parts with
  | [] => []
  | [x] => x
  | x :: rest => x ++ sep ++ join sep rest
  end.

(** The characters [str.splitlines] breaks lines at. *)
Definition is_linebreak (c : N) : bool :=
  ((10 <=? c) && (c <=? 13) || (28 <=? c) && (c <=? 30) || (c =? 133)
   || (c =? 8232) || (c =? 8233))%N.

(** [s.splitlines()]: a carriage return followed by a line feed is one
    boundary, and a final boundary does not open an empty last line. *)
Fixpoint splitlines (s : text) : list text :=
  match s with
  | [] => []
  | c :: r =>
      if is_linebreak c then
        [] ::
          match r with
          | c2 :: r2 =>
              if N.eqb c 13 && N.eqb c2 10 then splitlines r2
              else splitlines r
          | [] => []
          end
      else
        match splitlines r with
        | [] => [[c]]
        | l :: ls => (c :: l) :: ls
        end
  end.

(** ** Regular expressions *)

Inductive regex : Type :=
| Eps
| Chr (p : N -> bool)
| Seq (a b : regex)
| Alt (a b : regex)
| Star (greedy : bool) (p : N -> bool)
| Group (name : string) (a : regex)
| Ahead (a : regex)
| EndZ
| EndDollar.

(** Captured groups, most recent first. *)
Definition caps : Type := list (string * text).

Definition is_char (c : N) : N -> bool := fun a => N.eqb a c.

(** [.] without and with [re.DOTALL]. *)
Definition dot : N -> bool := fun a => negb (N.eqb a 10).
Definition dot_all : N -> bool := fun _ => true.

Fixpoint Lit (s : text) : regex :=
  match s with
  | [] => Eps
  | c :: r => Seq (Chr (is_char c)) (Lit r)
  end.

(** [p+] and [p+?]. *)
Definition Plus (greedy : bool) (p : N -> bool) : regex :=
  Seq (Chr p) (Star greedy p).

Fixpoint star_greedy {R : Type} (p : N -> bool) (s : text) (c : caps)
  (k : text -> caps -> option R) : option R :=
  match s with
  | a :: r =>
      if p a then
        match star_greedy p r c k with
        | Some x => Some x
        | None => k s c
        end
      else k s c
  | [] => k s c
  end.

Fixpoint star_lazy {R : Type} (p : N -> bool) (s : text) (c : caps)
  (k : text -> caps -> option R) : option R :=
  match k s c with
  | Some x => Some x
  | None =>
      match s with
      | a :: r => if p a then star_lazy p r c k else None
      | [] => None
      end
  end.

(** [taken s s'] is the part of [s] in front of its suffix [s']. *)
Definition taken (s s' : text) : text := firstn (length s - length s') s.

(** Matching by backtracking, in the order of Python's matcher; a
    lookahead is matched on its own, and its first match is final. *)
Fixpoint run {R : Type} (r : regex) (s : text) (c : caps)
  (k : text -> caps -> option R) : option R :=
  match r with
  | Eps => k s c
  | Chr p =>
      match s with
      | a :: rest => if p a then k rest c else None
      | [] => None
      end
  | Seq a b => run a s c (fun s' c' => run b s' c' k)
  | Alt a b =>
      match run a s c k with
      | Some x => Some x
      | None => run b s c k
      end
  | Star true p => star_greedy p s c k
  | Star false p => star_lazy p s c k
  | Group name a => run a s c (fun s' c' => k s' ((name, taken s s') :: c'))
  | Ahead a =>
      match run a s c (fun _ c' => Some c') with
      | Some c' => k s c'
      | None => None
      end
  | EndZ => match s with [] => k s c | _ :: _ => None end
  | EndDollar =>
      match s with
      | [] => k s c
      | [a] => if N.eqb a 10 then k s c else None
      | _ :: _ :: _ => None
      end
  end.

(** A match object: the subject from the start of the match, what is
    left after the match, and the groups. *)
Record Match : Type := mkMatch {
  m_from : text;
  m_rest : text;
  m_caps : caps
}.

(** [m.group(name)]; [None] is Python's [None]. *)
Fixpoint lookup (name : string) (c : caps) : option text :=
  match c with
  | [] => None
  | (n, v) :: rest => if String.eqb n name then Some v else lookup name rest
  end.

Definition group (m : Match) (name : string) : option text :=
  lookup name (m_caps m).

(** [pattern.match(s)], [pattern.search(s)], [pattern.finditer(s)]. *)
Definition match_at (r : regex) (s : text) : option Match :=
  run r s [] (fun s' c => Some (mkMatch s s' c)).

Fixpoint search (r : regex) (s : text) : option Match :=
  match match_at r s with
  | Some m => Some m
  | None =>
      match s with
      | _ :: rest => search r rest
      | [] => None
      end
  end.

Fixpoint finditer_from (fuel : nat) (r : regex) (s : text) : list Match :=
  match fuel with
  | O => []
  | S fuel' =>
      match search r s with
      | None => []
      | Some m =>
          m :: if Nat.ltb (length (m_rest m)) (length (m_from m))
               then finditer_from fuel' r (m_rest m)
               else match m_rest m with
                    | _ :: rest => finditer_from fuel' r rest
                    | [] => []
                    end
      end
  end.

Definition finditer (r : regex) (s : text) : list Match :=
  finditer_from (S (length s)) r s.

(** [re.findall] for a pattern with two groups. *)
Definition findall_pairs (r : regex) (s : text) : list (text * text) :=
  map (fun m => (match group m "1" with Some v => v | None => [] end,
                 match group m "2" with Some v => v | None => [] end))
      (finditer r s).

(** [fold_right Seq Eps]: the pieces of a pattern in a row. *)
Fixpoint cat (pieces : list regex) : regex :=
  match pieces with
  | [] => Eps
  | r :: rest => Seq r (cat rest)
  end.

(** ** Records *)

Record SmsRecord : Type := mkSms {
  address : text;
  sms_date_epoch_ms : text;
  sms_date : text;
  body : text
}.

Record ContactRecord : Type := mkContact {
  contact_name : text;
  contact_number : text
}.

Record CallRecord : Type := mkCall {
  call_name : text;
  call_number : text;
  duration_seconds : text;
  call_date_epoch_ms : text;
  call_date : text
}.

(** [a or b or ... or default] over [dict.get] results. *)
Fixpoint first_truthy (candidates : list (option text)) (default : text) : text :=
  match candidates with
  | [] => default
  | Some v :: rest => if truthy v then v else first_truthy rest default
  | None :: rest => first_truthy rest default
  end.

(** A dictionary built from [(key, value)] pairs in order: the last pair
    with a key is the one [get] finds. *)
Fixpoint find_key (key : text) (pairs : list (text * text)) : option text :=
  match pairs with
  | [] => None
  | (k, v) :: rest => if text_eqb k key then Some v else find_key key rest
  end.

Definition dict_get (key : text) (pairs : list (text * text)) : option text :=
  find_key key (rev pairs).

(** [try: ... except Exception: continue] around a loop body. *)
Definition or_continue {A : Type} (attempt : result A) (unchanged : A) : A :=
  match attempt with
  | Ok a => a
  | Raised => unchanged
  end.

(** The lines that do not start with ["#"], joined again. *)
Definition without_comments (raw_text : text) : text :=
  join newline
    (filter (fun line => negb (startswith (codes "#") line)) (splitlines raw_text)).

(** A letter of a pattern: the characters of the patterns that have a
    case. *)
Definition is_letter (c : N) : bool :=
  ((65 <=? c) && (c <=? 90) || (97 <=? c) && (c <=? 122))%N.

Section Tables.

(** [str.isspace] on one character; the class [\s] is the same set. *)
Variable is_space : N -> bool.
(** The classes [\d] and [\w]. *)
Variable digit : N -> bool.
Variable word : N -> bool.
(** [ignorecase c a]: under [re.IGNORECASE] the letter [c] of a pattern
    matches the character [a]. *)
Variable ignorecase : N -> N -> bool.
(** [str.lower]. *)
Variable lower : text -> text.
(** [from modules.adb_utils import epoch_ms_to_str]. *)
Variable epoch_ms_to_str : text -> text.

(** [s.lstrip()], [s.rstrip()] and [s.strip()]. *)
Fixpoint lstrip (s : text) : text :=
  match s with
  | [] => []
  | c :: r => if is_space c then lstrip r else s
  end.

Fixpoint rstrip (s : text) : text :=
  match s with
  | [] => []
  | c :: r =>
      let r' := rstrip r in
      if is_space c && negb (truthy r') then [] else c :: r'
  end.

Definition strip (s : text) : text := lstrip (rstrip s).

(** A literal character under [re.IGNORECASE]: a letter matches what the
    table says, a character without case matches itself. *)
Definition same_nocase (c a : N) : bool :=
  if is_letter c then ignorecase c a else N.eqb a c.

Fixpoint LitNoCase (s : text) : regex :=
  match s with
  | [] => Eps
  | c :: r => Seq (Chr (same_nocase c)) (LitNoCase r)
  end.

(** [safe_strip(value)] and [safe_group(match, group_name)]. *)
Definition safe_strip (value : option text) : text :=
  match value with
  | None => []
  | Some v => strip v
  end.

Definition safe_group (m : Match) (group_name : string) : text :=
  match group m group_name with
  | Some v => safe_strip (Some v)
  | None => []
  end.

(** [value.strip()] where [value] may be [None]: [AttributeError]. *)
Definition strip_method (value : option text) : result text :=
  match value with
  | Some v => Ok (strip v)
  | None => Raised
  end.

(** [(\w+)=(.*?)(?:,\s*\w+=|$)]. *)
Definition KEY_VALUE : regex :=
  cat [Group "1" (Plus true word); Lit (codes "="); Group "2" (Star false dot);
       Alt (cat [Lit (codes ","); Star true is_space; Plus true word; Lit (codes "=")])
           EndDollar].

(** [epoch_ms_to_str(date_ms) if date_ms else "Unknown"]. *)
Definition date_of (date_ms : text) : text :=
  if truthy date_ms then epoch_ms_to_str date_ms else codes "Unknown".

(** ** SMS *)

(** [address=(?P<address>.*?),\s*date=(?P<date>\d+),\s*body=(?P<body>.*?)(?=(?:\nRow)|\Z)]
    with [re.DOTALL]. *)
Definition SMS_ROW : regex :=
  cat [Lit (codes "address="); Group "address" (Star false dot_all); Lit (codes ",");
       Star true is_space; Lit (codes "date="); Group "date" (Plus true digit);
       Lit (codes ","); Star true is_space; Lit (codes "body=");
       Group "body" (Star false dot_all);
       Ahead (Alt (Lit (newline ++ codes "Row")) EndZ)].

(** [address=(?P<addr>.*?),\s*date=(?P<date>\d+).*?body=(?P<body>.*?)(?:,\s*type=|$)]
    with [re.DOTALL]. *)
Definition SMS_LINE : regex :=
  cat [Lit (codes "address="); Group "addr" (Star false dot_all); Lit (codes ",");
       Star true is_space; Lit (codes "date="); Group "date" (Plus true digit);
       Star false dot_all; Lit (codes "body="); Group "body" (Star false dot_all);
       Alt (cat [Lit (codes ","); Star true is_space; Lit (codes "type=")]) EndDollar].

(** [<a>(?P<addr>.*?),\s*<d>(?P<date>\d+).*?<b>(?P<body>.*?)(?:,|$)]
    with [re.DOTALL], for the column names [a], [d], [b] (each with its
    [=]). *)
Definition sms_alt (a d b : string) : regex :=
  cat [Lit (codes a); Group "addr" (Star false dot_all); Lit (codes ",");
       Star true is_space; Lit (codes d); Group "date" (Plus true digit);
       Star false dot_all; Lit (codes b); Group "body" (Star false dot_all);
       Alt (Lit (codes ",")) EndDollar].

Definition SMS_ALT_PATTERNS : list regex :=
  [sms_alt "phone_number=" "date=" "message=";
   sms_alt "sender=" "timestamp=" "text=";
   sms_alt "number=" "date_sent=" "body="].

Definition sms_record (addr date_ms body : text) : SmsRecord :=
  mkSms addr date_ms (date_of date_ms) body.

(** Strategy 1: every match of the row pattern with an address or a
    body. *)
Definition sms_strategy1 (text : text) : list SmsRecord :=
  fold_left
    (fun results m =>
       let addr := safe_group m "address" in
       let date_ms := safe_group m "date" in
       let body := safe_group m "body" in
       if truthy addr || truthy body
       then results ++ [sms_record addr date_ms body]
       else results)
    (finditer SMS_ROW text) [].

(** The body of a [try] that searches one line and appends a record. *)
Definition sms_search_line (pattern : regex) (line : text)
  (results : list SmsRecord) : result (list SmsRecord) :=
  match search pattern line with
  | Some m =>
      Ok (results ++ [sms_record (safe_group m "addr") (safe_group m "date")
                                 (safe_group m "body")])
  | None => Ok results
  end.

(** Strategy 2: line by line, on lines that name the three fields. *)
Definition sms_strategy2 (text : text) : list SmsRecord :=
  fold_left
    (fun results line =>
       if contains (codes "address=") line && contains (codes "date=") line
          && contains (codes "body=") line
       then or_continue (sms_search_line SMS_LINE line results) results
       else results)
    (splitlines text) [].

(** Strategy 3: the alternate column names, one pattern after the other;
    the first pattern that yields records ends the search. *)
Fixpoint sms_strategy3 (patterns : list regex) (text : text)
  (results : list SmsRecord) : option (list SmsRecord) :=
  match patterns with
  | [] => None
  | pattern :: rest =>
      let results' :=
        fold_left
          (fun acc line => or_continue (sms_search_line pattern line acc) acc)
          (splitlines text) results in
      match results' with
      | [] => sms_strategy3 rest text results'
      | _ :: _ => Some results'
      end
  end.

(** Strategy 4: key/value pairs of each line. *)
Definition sms_strategy4 (text : text) : list SmsRecord :=
  fold_left
    (fun results line =>
       if negb (truthy (strip line)) || startswith (codes "Row:") line then results
       else
         let pairs := findall_pairs KEY_VALUE line in
         let data := map (fun kv => (fst kv, strip (snd kv))) pairs in
         let addr := first_truthy [dict_get (codes "address") data;
                                   dict_get (codes "phone_number") data;
                                   dict_get (codes "sender") data;
                                   dict_get (codes "number") data] [] in
         let body := first_truthy [dict_get (codes "body") data;
                                   dict_get (codes "message") data;
                                   dict_get (codes "text") data] [] in
         let date_ms := first_truthy [dict_get (codes "date") data;
                                      dict_get (codes "timestamp") data;
                                      dict_get (codes "date_sent") data] [] in
         if truthy addr || truthy body
         then results ++ [sms_record addr date_ms body]
         else results)
    (splitlines text) [].

Definition parse_sms_text (raw_text : text) : result (list SmsRecord) :=
  if negb (truthy raw_text) then Ok []
  else
    let text := without_comments raw_text in
    if negb (truthy (strip text)) then Ok []
    else
      match sms_strategy1 text with
      | (_ :: _) as results => Ok results
      | [] =>
          match sms_strategy2 text with
          | (_ :: _) as results => Ok results
          | [] =>
              match sms_strategy3 SMS_ALT_PATTERNS text [] with
              | Some results => Ok results
              | None => Ok (sms_strategy4 text)
              end
          end
      end.

(** ** Contacts *)

(** [[\+\d\s\(\)-]]; none of its members has a case. *)
Definition number_char : N -> bool :=
  fun a => N.eqb a 43 || digit a || is_space a || N.eqb a 40 || N.eqb a 41
           || N.eqb a 45.

(** [Row:\s*\d+\s+display_name=(?P<name>.*?),\s*data1=(?P<number>[\+\d\s\(\)-]+)]
    with [re.IGNORECASE]. *)
Definition CONTACT_ROW : regex :=
  cat [LitNoCase (codes "Row:"); Star true is_space; Plus true digit;
       Plus true is_space; LitNoCase (codes "display_name=");
       Group "name" (Star false dot); LitNoCase (codes ",");
       Star true is_space; LitNoCase (codes "data1=");
       Group "number" (Plus true number_char)].

(** The loop over the matches; the two [.strip()] calls are on what
    [match.group] returns. *)
Fixpoint contact_rows (matches : list Match) (results : list ContactRecord)
  : result (list ContactRecord) :=
  match matches with
  | [] => Ok results
  | m :: rest =>
      match strip_method (group m "name"), strip_method (group m "number") with
      | Ok name, Ok number => contact_rows rest (results ++ [mkContact name number])
      | _, _ => Raised
      end
  end.

Definition parse_contacts_text (raw_text : text) : result (list ContactRecord) :=
  if negb (truthy raw_text) then Ok []
  else contact_rows (finditer CONTACT_ROW raw_text) [].

(** ** Calls *)

(** [(?:name|cached_name)=(?P<name>.*?),\s*number=(?P<number>.*?),\s*duration=(?P<duration>\d+),\s*date=(?P<date>\d+)]
    with [re.IGNORECASE]. *)
Definition CALL_ROW : regex :=
  cat [Alt (LitNoCase (codes "name")) (LitNoCase (codes "cached_name"));
       LitNoCase (codes "=");
       Group "name" (Star false dot); LitNoCase (codes ","); Star true is_space;
       LitNoCase (codes "number="); Group "number" (Star false dot);
       LitNoCase (codes ","); Star true is_space; LitNoCase (codes "duration=");
       Group "duration" (Plus true digit); LitNoCase (codes ",");
       Star true is_space; LitNoCase (codes "date=");
       Group "date" (Plus true digit)].

(** The four patterns of the line-by-line strategy, with
    [re.IGNORECASE]: [(?:name|cached_name)=(.*?)(?:,|$)],
    [number=(.*?)(?:,|$)], [duration=(\d+)], [date=(\d+)]. *)
Definition CALL_NAME : regex :=
  cat [Alt (LitNoCase (codes "name")) (LitNoCase (codes "cached_name"));
       LitNoCase (codes "=");
       Group "1" (Star false dot); Alt (LitNoCase (codes ",")) EndDollar].

Definition CALL_NUMBER : regex :=
  cat [LitNoCase (codes "number="); Group "1" (Star false dot);
       Alt (LitNoCase (codes ",")) EndDollar].

Definition CALL_DURATION : regex :=
  cat [LitNoCase (codes "duration="); Group "1" (Plus true digit)].

Definition CALL_DATE : regex :=
  cat [LitNoCase (codes "date="); Group "1" (Plus true digit)].

(** [<n>(?P<name>.*?),\s*<p>(?P<number>.*?),\s*<d>(?P<duration>\d+),\s*<t>(?P<date>\d+)]
    with [re.IGNORECASE], for the column names [n], [p], [d], [t] (each
    with its [=]). *)
Definition call_alt (n p d t : string) : regex :=
  cat [LitNoCase (codes n); Group "name" (Star false dot); LitNoCase (codes ",");
       Star true is_space; LitNoCase (codes p); Group "number" (Star false dot);
       LitNoCase (codes ","); Star true is_space; LitNoCase (codes d);
       Group "duration" (Plus true digit); LitNoCase (codes ",");
       Star true is_space; LitNoCase (codes t); Group "date" (Plus true digit)].

Definition CALL_ALT_PATTERNS : list regex :=
  [call_alt "caller_name=" "phone_number=" "call_duration=" "timestamp=";
   call_alt "contact=" "number=" "duration=" "time="].

Definition call_record (name number duration date_ms : text) : CallRecord :=
  mkCall name number duration date_ms (date_of date_ms).

Definition call_of_match (m : Match) : CallRecord :=
  call_record (safe_group m "name") (safe_group m "number")
              (safe_group m "duration") (safe_group m "date").

(** Strategy 1: every match of the row pattern. *)
Definition calls_strategy1 (text : text) : list CallRecord :=
  fold_left (fun results m => results ++ [call_of_match m]) (finditer CALL_ROW text) [].

(** [safe_strip(m.group(1)) if m else default]. *)
Definition field_or (found : option Match) (default : text) : text :=
  match found with
  | Some m => safe_strip (group m "1")
  | None => default
  end.

(** The body of the [try] of strategy 2. *)
Definition calls_line (line : text) (results : list CallRecord)
  : result (list CallRecord) :=
  let name := field_or (search CALL_NAME line) [] in
  let number := field_or (search CALL_NUMBER line) [] in
  let duration := field_or (search CALL_DURATION line) (codes "0") in
  let date_ms := field_or (search CALL_DATE line) [] in
  Ok (results ++ [call_record name number duration date_ms]).

(** Strategy 2: the four fields, each on its own, on the lines that
    name a duration and a date. *)
Definition calls_strategy2 (text : text) : list CallRecord :=
  fold_left
    (fun results line =>
       if contains (codes "duration=") line && contains (codes "date=") line
       then or_continue (calls_line line results) results
       else results)
    (splitlines text) [].

(** Strategy 3: the alternate formats, one pattern after the other. *)
Fixpoint calls_strategy3 (patterns : list regex) (text : text)
  (results : list CallRecord) : option (list CallRecord) :=
  match patterns with
  | [] => None
  | pattern :: rest =>
      let results' :=
        fold_left (fun acc m => acc ++ [call_of_match m]) (finditer pattern text) results in
      match results' with
      | [] => calls_strategy3 rest text results'
      | _ :: _ => Some results'
      end
  end.

(** Strategy 4: key/value pairs of each line, keys in lower case. *)
Definition calls_strategy4 (text : text) : list CallRecord :=
  fold_left
    (fun results line =>
       if negb (truthy (strip line)) || startswith (codes "Row:") line then results
       else
         let pairs := findall_pairs KEY_VALUE line in
         let data := map (fun kv => (lower (fst kv), strip (snd kv))) pairs in
         let name := first_truthy [dict_get (codes "name") data;
                                   dict_get (codes "cached_name") data;
                                   dict_get (codes "caller_name") data;
                                   dict_get (codes "contact") data] [] in
         let number := first_truthy [dict_get (codes "number") data;
                                     dict_get (codes "phone_number") data;
                                     dict_get (codes "phone") data] [] in
         let duration := first_truthy [dict_get (codes "duration") data;
                                       dict_get (codes "call_duration") data]
                                      (codes "0") in
         let date_ms := first_truthy [dict_get (codes "date") data;
                                      dict_get (codes "timestamp") data;
                                      dict_get (codes "time") data] [] in
         if truthy number || truthy name
         then results ++ [call_record name number duration date_ms]
         else results)
    (splitlines text) [].

Definition parse_calls_text (raw_text : text) : result (list CallRecord) :=
  if negb (truthy raw_text) then Ok []
  else
    let text := without_comments raw_text in
    if negb (truthy (strip text)) then Ok []
    else
      match calls_strategy1 text with
      | (_ :: _) as results => Ok results
      | [] =>
          match calls_strategy2 text with
          | (_ :: _) as results => Ok results
          | [] =>
              match calls_strategy3 CALL_ALT_PATTERNS text [] with
              | Some results => Ok results
              | None => Ok (calls_strategy4 text)
              end
          end
      end.

End Tables.

End Unicode.

(* ===================================================================== *)
(** * No parser raises, on any text *)
(* ===================================================================== *)

Module UnicodeFacts.
Import Clock Unicode.

(** ** Occurrences *)

(** [L] occurs in [s]. *)
Definition occurs (L s : text) : Prop :=
  exists pre post, s = pre ++ L ++ post.

(** [w] is [L] read through [same]: character by character, [same]
    relates the character of [L] to that of [w]. *)
Definition reads (same : N -> N -> bool) (L w : text) : Prop :=
  Forall2 (fun c a => same c a = true) L w.

(** Some reading of [L] occurs in [s]. *)
Definition occurs_by (same : N -> N -> bool) (L s : text) : Prop :=
  exists w, reads same L w /\ occurs w s.

Lemma reads_exact : forall L w, reads N.eqb L w <-> w = L.
Proof.
  intros L w. split.
  - intros H. induction H as [|c a L w Hca _ IH]; [reflexivity|].
    apply N.eqb_eq in Hca. subst. reflexivity.
  - intros ->. induction L as [|c L IH]; constructor; [apply N.eqb_refl|exact IH].
Qed.

Lemma reads_app : forall same a b w,
  reads same (a ++ b) w ->
  exists w1 w2, w = w1 ++ w2 /\ reads same a w1 /\ reads same b w2.
Proof.
  intros same a b w H. apply Forall2_app_inv_l in H as (w1 & w2 & H1 & H2 & ->).
  exists w1, w2. repeat split; assumption.
Qed.

Lemma text_startswith_spec : forall same L s,
  startswith_by same L s = true <->
  exists w post, s = w ++ post /\ reads same L w.
Proof.
  intros same. induction L as [|c L IH]; intros s; cbn [startswith_by].
  - split; [|reflexivity]. intros _. exists [], s. split; [reflexivity|constructor].
  - destruct s as [|a s].
    + split; [discriminate|]. intros (w & post & H & Hr).
      inversion Hr; subst. discriminate H.
    + split.
      * intros H. apply andb_prop in H as [Hc Hs].
        apply IH in Hs as (w & post & -> & Hr).
        exists (a :: w), post. split; [reflexivity|constructor; assumption].
      * intros (w & post & H & Hr).
        inversion Hr as [|c' a' L' w' Hca Hr']; subst.
        cbn [app] in H. injection H as -> ->. rewrite Hca. cbn [andb].
        apply IH. exists w', post. split; [reflexivity|exact Hr'].
Qed.

Lemma text_contains_occurs_by : forall same L s,
  contains_by same L s = true <-> occurs_by same L s.
Proof.
  intros same L s. split.
  - induction s as [|a s IH]; cbn [contains_by]; intros H.
    + rewrite orb_false_r in H.
      apply text_startswith_spec in H as (w & post & -> & Hr).
      exists w. split; [exact Hr|]. exists [], post. reflexivity.
    + apply orb_prop in H as [H|H].
      * apply text_startswith_spec in H as (w & post & -> & Hr).
        exists w. split; [exact Hr|]. exists [], post. reflexivity.
      * destruct (IH H) as (w & Hr & pre & post & ->).
        exists w. split; [exact Hr|]. exists (a :: pre), post. reflexivity.
  - intros (w & Hr & pre & post & ->). induction pre as [|a pre IH].
    + cbn [app].
      assert (H : startswith_by same L (w ++ post) = true)
        by (apply text_startswith_spec; exists w, post; split; [reflexivity|exact Hr]).
      destruct (w ++ post); cbn [contains_by]; rewrite H; reflexivity.
    + cbn [app contains_by]. rewrite IH. apply orb_true_r.
Qed.

Lemma text_contains_occurs : forall L s, contains L s = true <-> occurs L s.
Proof.
  intros L s. unfold contains. rewrite text_contains_occurs_by. split.
  - intros (w & Hr & Ho). apply reads_exact in Hr. subst w. exact Ho.
  - intros Ho. exists L. split; [apply reads_exact; reflexivity|exact Ho].
Qed.

Lemma codes_append : forall a b : string,
  codes (a ++ b) = codes a ++ codes b.
Proof.
  intros a b. induction a as [|x a IH]; [reflexivity|].
  unfold codes in *. cbn. rewrite IH. reflexivity.
Qed.

Lemma text_occurs_refl : forall s, occurs s s.
Proof. intros s. exists [], []. cbn. rewrite app_nil_r. reflexivity. Qed.

Lemma text_occurs_trans : forall a b c, occurs a b -> occurs b c -> occurs a c.
Proof.
  intros a b c (p1 & q1 & ->) (p2 & q2 & ->).
  exists (p2 ++ p1), (q1 ++ q2). rewrite <- !app_assoc. reflexivity.
Qed.

Lemma text_occurs_app_l : forall L a b, occurs L a -> occurs L (a ++ b).
Proof.
  intros L a b (p & q & ->). exists p, (q ++ b). rewrite <- !app_assoc. reflexivity.
Qed.

Lemma text_occurs_app_r : forall L a b, occurs L b -> occurs L (a ++ b).
Proof.
  intros L a b (p & q & ->). exists (a ++ p), q. rewrite <- !app_assoc. reflexivity.
Qed.

Lemma text_occurs_cons : forall L a s, occurs L s -> occurs L (a :: s).
Proof. intros L a s H. apply (text_occurs_app_r L [a] s H). Qed.

Lemma text_occurs_prefix : forall L s, occurs L (L ++ s).
Proof. intros L s. apply text_occurs_app_l, text_occurs_refl. Qed.

Lemma occurs_by_inside : forall same L w s,
  occurs_by same L w -> occurs w s -> occurs_by same L s.
Proof.
  intros same L w s (x & Hr & Hx) Hw. exists x. split; [exact Hr|].
  exact (text_occurs_trans _ _ _ Hx Hw).
Qed.

Lemma occurs_by_reading : forall same L w, reads same L w -> occurs_by same L w.
Proof. intros same L w H. exists w. split; [exact H|apply text_occurs_refl]. Qed.

(** A reading of [a ++ b] holds a reading of [b]. *)
Lemma occurs_by_tail : forall same a b s,
  occurs_by same (a ++ b) s -> occurs_by same b s.
Proof.
  intros same a b s (w & Hr & Ho).
  apply reads_app in Hr as (w1 & w2 & -> & _ & H2).
  exists w2. split; [exact H2|].
  apply (text_occurs_trans _ (w1 ++ w2)); [apply text_occurs_app_r, text_occurs_refl|exact Ho].
Qed.

(** ** Lines *)

Lemma text_splitlines_cons : forall c r,
  splitlines (c :: r) =
  if is_linebreak c then
    [] ::
      match r with
      | c2 :: r2 =>
          if N.eqb c 13 && N.eqb c2 10 then splitlines r2
          else splitlines r
      | [] => []
      end
  else
    match splitlines r with
    | [] => [[c]]
    | l :: ls => (c :: l) :: ls
    end.
Proof. reflexivity. Qed.

Lemma text_splitlines_facts : forall s,
  (forall l ls, splitlines s = l :: ls -> exists post, s = l ++ post)
  /\ (forall l, In l (splitlines s) -> occurs l s).
Proof.
  assert (H : forall s,
    ((forall l ls, splitlines s = l :: ls -> exists post, s = l ++ post)
     /\ (forall l, In l (splitlines s) -> occurs l s))
    /\ forall c,
        (forall l ls, splitlines (c :: s) = l :: ls ->
                      exists post, c :: s = l ++ post)
        /\ (forall l, In l (splitlines (c :: s)) -> occurs l (c :: s))).
  { induction s as [|a s [[IH1 IH2] IHc]].
    - split; [split; [intros l ls H; discriminate|intros l []]|].
      intros c. cbn [splitlines]. destruct (is_linebreak c); split.
      + intros l ls H. injection H as <- <-. exists [c]. reflexivity.
      + intros l [<-|[]]. exists [], [c]. reflexivity.
      + intros l ls H. injection H as <- <-. exists []. reflexivity.
      + intros l [<-|[]]. apply text_occurs_refl.
    - split; [apply IHc|]. intros c.
      destruct (IHc a) as [IHa1 IHa2].
      rewrite (text_splitlines_cons c (a :: s)). cbv beta iota.
      destruct (is_linebreak c).
      + assert (Hin : forall l,
                  In l (if N.eqb c 13 && N.eqb a 10
                        then splitlines s else splitlines (a :: s)) ->
                  occurs l (a :: s)).
        { intros l Hl. destruct (N.eqb c 13 && N.eqb a 10).
          - apply text_occurs_cons, IH2, Hl.
          - apply IHa2, Hl. }
        split.
        * intros l ls H. injection H as <- _. exists (c :: a :: s). reflexivity.
        * intros l [<-|Hl].
          -- exists [], (c :: a :: s). reflexivity.
          -- apply text_occurs_cons, Hin, Hl.
      + destruct (splitlines (a :: s)) as [|l0 ls0] eqn:E.
        * split.
          -- intros l ls H. injection H as <- <-. exists (a :: s). reflexivity.
          -- intros l [<-|[]]. exists [], (a :: s). reflexivity.
        * destruct (IHa1 l0 ls0 eq_refl) as [post Hpost].
          split.
          -- intros l ls H. injection H as <- <-. exists post. cbn [app].
             rewrite <- Hpost. reflexivity.
          -- intros l [<-|Hl].
             ++ exists [], post. cbn [app]. rewrite <- Hpost. reflexivity.
             ++ apply text_occurs_cons, IHa2. right. exact Hl. }
  intros s. apply H.
Qed.

Lemma text_splitlines_occurs : forall s l, In l (splitlines s) -> occurs l s.
Proof. intros s. apply text_splitlines_facts. Qed.

(** [c] is not a character of [L]. *)
Fixpoint no_char (c : N) (L : text) : bool :=
  match L with
  | [] => true
  | x :: r => negb (N.eqb x c) && no_char c r
  end.

Lemma text_startswith_cut : forall c L u v,
  no_char c L = true ->
  startswith L (u ++ c :: v) = true -> startswith L u = true.
Proof.
  unfold startswith. intros c. induction L as [|x L IH]; intros u v Hn H; [reflexivity|].
  cbn [no_char] in Hn. apply andb_prop in Hn as [Hx Hn].
  destruct u as [|y u]; cbn [app startswith_by] in *.
  - apply andb_prop in H as [H _]. rewrite H in Hx. discriminate.
  - apply andb_prop in H as [Hxy H]. rewrite Hxy. cbn [andb]. apply (IH u v Hn H).
Qed.

Lemma text_contains_cut : forall c L a b,
  no_char c L = true ->
  contains L (a ++ c :: b) = true ->
  contains L a = true \/ contains L b = true.
Proof.
  intros c L a b Hn. induction a as [|y a IH]; intros H.
  - cbn [app] in H. unfold contains in H. cbn [contains_by] in H.
    apply orb_prop in H as [H|H].
    + left. apply (text_startswith_cut c L [] b Hn) in H.
      unfold contains. cbn [contains_by]. unfold startswith in H. rewrite H. reflexivity.
    + right. exact H.
  - cbn [app] in H. unfold contains in H. cbn [contains_by] in H.
    apply orb_prop in H as [H|H].
    + left. apply (text_startswith_cut c L (y :: a) b Hn) in H.
      unfold contains. cbn [contains_by]. unfold startswith in H. rewrite H. reflexivity.
    + destruct (IH H) as [Ha|Hb]; [left|right; exact Hb].
      unfold contains in *. cbn [contains_by]. rewrite Ha. apply orb_true_r.
Qed.

Lemma text_contains_join : forall L ls,
  no_char 10 L = true -> L <> [] ->
  contains L (join newline ls) = true ->
  exists l, In l ls /\ contains L l = true.
Proof.
  intros L ls Hn Hne. induction ls as [|x ls IH]; intros H.
  - cbn in H. destruct L; [contradiction|discriminate].
  - destruct ls as [|y ls].
    + exists x. split; [left; reflexivity|exact H].
    + change (join newline (x :: y :: ls))
        with (x ++ 10%N :: join newline (y :: ls)) in H.
      apply (text_contains_cut 10 L x _ Hn) in H as [H|H].
      * exists x. split; [left; reflexivity|exact H].
      * destruct (IH H) as (l & Hl & Hc). exists l. split; [right; exact Hl|exact Hc].
Qed.

(** A marker in the text without its comment lines, or in one of the
    lines of that text, is in the text. *)
Lemma text_marker_in_raw : forall L raw,
  no_char 10 L = true -> L <> [] ->
  contains L raw = false ->
  contains L (without_comments raw) = false
  /\ forall line, In line (splitlines (without_comments raw)) ->
                  contains L line = false.
Proof.
  intros L raw Hn Hne Hraw.
  assert (Htext : contains L (without_comments raw) = false).
  { destruct (contains L (without_comments raw)) eqn:E; [|reflexivity].
    unfold without_comments in E.
    apply (text_contains_join L _ Hn Hne) in E as (l & Hl & Hc).
    apply filter_In in Hl as [Hl _].
    apply text_splitlines_occurs in Hl.
    apply text_contains_occurs in Hc.
    pose proof (text_occurs_trans _ _ _ Hc Hl) as Ho.
    apply text_contains_occurs in Ho. congruence. }
  split; [exact Htext|].
  intros line Hline.
  destruct (contains L line) eqn:E; [|reflexivity].
  apply text_splitlines_occurs in Hline.
  apply text_contains_occurs in E.
  pose proof (text_occurs_trans _ _ _ E Hline) as Ho.
  apply text_contains_occurs in Ho. congruence.
Qed.

(** ** What a pattern can consume *)

Fixpoint all_chars (p : N -> bool) (w : text) : bool :=
  match w with
  | [] => true
  | a :: r => p a && all_chars p r
  end.

(** [den r w c c']: the pattern [r] can consume the word [w], turning the
    captures [c] into [c'].  What follows the word (for lookaheads and
    anchors) is left out. *)
Fixpoint den (r : regex) (w : text) (c c' : caps) : Prop :=
  match r with
  | Eps => w = [] /\ c' = c
  | Chr p => exists a, w = [a] /\ p a = true /\ c' = c
  | Seq a b =>
      exists w1 w2 cm, w = w1 ++ w2 /\ den a w1 c cm /\ den b w2 cm c'
  | Alt a b => den a w c c' \/ den b w c c'
  | Star _ p => all_chars p w = true /\ c' = c
  | Group n a => exists c1, den a w c c1 /\ c' = (n, w) :: c1
  | Ahead a => w = [] /\ exists x, den a x c c'
  | EndZ => w = [] /\ c' = c
  | EndDollar => w = [] /\ c' = c
  end.

Lemma text_taken_app : forall w s, taken (w ++ s) s = w.
Proof.
  intros w s. unfold taken. rewrite length_app.
  replace (length w + length s - length s) with (length w + 0) by lia.
  rewrite firstn_app_2. cbn. apply app_nil_r.
Qed.

Lemma text_star_greedy_sound : forall R p s c (k : text -> caps -> option R) x,
  star_greedy p s c k = Some x ->
  exists w s', s = w ++ s' /\ all_chars p w = true /\ k s' c = Some x.
Proof.
  intros R p s c k x. induction s as [|a s IH]; cbn [star_greedy]; intros H.
  - exists [], []. repeat split. exact H.
  - destruct (p a) eqn:Pa.
    + destruct (star_greedy p s c k) as [y|] eqn:E.
      * injection H as ->. destruct (IH eq_refl) as (w & s' & -> & Hw & Hk).
        exists (a :: w), s'. cbn [all_chars]. rewrite Pa, Hw. repeat split. exact Hk.
      * exists [], (a :: s). repeat split. exact H.
    + exists [], (a :: s). repeat split. exact H.
Qed.

Lemma text_star_lazy_sound : forall R p s c (k : text -> caps -> option R) x,
  star_lazy p s c k = Some x ->
  exists w s', s = w ++ s' /\ all_chars p w = true /\ k s' c = Some x.
Proof.
  intros R p s c k x. induction s as [|a s IH]; cbn [star_lazy]; intros H.
  - destruct (k [] c) as [y|] eqn:E; [|discriminate].
    exists [], []. repeat split. rewrite E. exact H.
  - destruct (k (a :: s) c) as [y|] eqn:E.
    + exists [], (a :: s). repeat split. rewrite E. exact H.
    + destruct (p a) eqn:Pa; [|discriminate].
      destruct (IH H) as (w & s' & -> & Hw & Hk).
      exists (a :: w), s'. cbn [all_chars]. rewrite Pa, Hw. repeat split. exact Hk.
Qed.

(** Soundness of the matcher. *)
Lemma text_run_sound : forall r R s c (k : text -> caps -> option R) x,
  run r s c k = Some x ->
  exists w s' c', s = w ++ s' /\ den r w c c' /\ k s' c' = Some x.
Proof.
  induction r as [|p|a IHa b IHb|a IHa b IHb|g p|n a IHa|a IHa| |];
    intros R s c k x H; cbn [run] in H.
  - exists [], s, c. repeat split. exact H.
  - destruct s as [|ch rest]; [discriminate|].
    destruct (p ch) eqn:P; [|discriminate].
    exists [ch], rest, c. repeat split; [|exact H].
    exists ch. repeat split. exact P.
  - apply IHa in H as (w1 & s1 & c1 & -> & Ha & H).
    apply IHb in H as (w2 & s2 & c2 & -> & Hb & H).
    exists (w1 ++ w2), s2, c2. rewrite <- app_assoc. repeat split; [|exact H].
    exists w1, w2, c1. repeat split; assumption.
  - destruct (run a s c k) as [y|] eqn:E.
    + injection H as ->. apply IHa in E as (w & s' & c' & -> & Ha & Hk).
      exists w, s', c'. repeat split; [left; exact Ha|exact Hk].
    + apply IHb in H as (w & s' & c' & -> & Hb & Hk).
      exists w, s', c'. repeat split; [right; exact Hb|exact Hk].
  - destruct g.
    + apply text_star_greedy_sound in H as (w & s' & -> & Hw & Hk).
      exists w, s', c. repeat split; assumption.
    + apply text_star_lazy_sound in H as (w & s' & -> & Hw & Hk).
      exists w, s', c. repeat split; assumption.
  - apply IHa in H as (w & s' & c1 & -> & Ha & Hk).
    rewrite text_taken_app in Hk.
    exists w, s', ((n, w) :: c1). repeat split; [|exact Hk].
    exists c1. split; [exact Ha|reflexivity].
  - destruct (run a s c (fun _ c' => Some c')) as [c1|] eqn:E; [|discriminate].
    apply IHa in E as (w & s' & c' & -> & Ha & Hk). injection Hk as ->.
    exists [], (w ++ s'), c1. repeat split; [|exact H].
    exists w. exact Ha.
  - destruct s; [|discriminate]. exists [], [], c. repeat split. exact H.
  - exists [], s, c. repeat split.
    destruct s as [|ch [|? ?]]; try discriminate; [exact H|].
    destruct (N.eqb ch 10); [exact H|discriminate].
Qed.

(** A match found in [s]: the word [w] it consumed, and where. *)
Definition found_in (r : regex) (s : text) (m : Match) : Prop :=
  exists pre w, s = pre ++ w ++ m_rest m /\ den r w [] (m_caps m).

Lemma text_match_at_sound : forall r s m,
  match_at r s = Some m ->
  exists w, s = w ++ m_rest m /\ den r w [] (m_caps m).
Proof.
  intros r s m H. unfold match_at in H.
  apply text_run_sound in H as (w & s' & c' & -> & Hd & Hk).
  injection Hk as <-. exists w. split; [reflexivity|exact Hd].
Qed.

Lemma text_search_sound : forall r s m, search r s = Some m -> found_in r s m.
Proof.
  intros r s m. induction s as [|a s IH]; cbn [search]; intros H.
  - destruct (match_at r []) as [m0|] eqn:E; [|discriminate].
    injection H as ->. apply text_match_at_sound in E as (w & Hs & Hd).
    exists [], w. split; assumption.
  - destruct (match_at r (a :: s)) as [m0|] eqn:E.
    + injection H as ->. apply text_match_at_sound in E as (w & Hs & Hd).
      exists [], w. split; assumption.
    + destruct (IH H) as (pre & w & -> & Hd).
      exists (a :: pre), w. split; [reflexivity|exact Hd].
Qed.

Lemma text_found_in_suffix : forall r q s m, found_in r s m -> found_in r (q ++ s) m.
Proof.
  intros r q s m (pre & w & -> & Hd). exists (q ++ pre), w.
  rewrite <- app_assoc. split; [reflexivity|exact Hd].
Qed.

Lemma text_finditer_from_sound : forall r fuel s m,
  In m (finditer_from fuel r s) -> found_in r s m.
Proof.
  intros r. induction fuel as [|fuel IH]; intros s m H; [destruct H|].
  cbn [finditer_from] in H.
  destruct (search r s) as [m0|] eqn:E; [|destruct H].
  pose proof (text_search_sound r s m0 E) as Hm0.
  destruct H as [<-|H]; [exact Hm0|].
  destruct Hm0 as (pre & w & Hs & _).
  destruct (Nat.ltb (length (m_rest m0)) (length (m_from m0))).
  - apply IH in H. rewrite Hs. rewrite app_assoc.
    apply text_found_in_suffix. exact H.
  - destruct (m_rest m0) as [|a rest] eqn:Er; [destruct H|].
    apply IH in H. rewrite Hs, app_assoc.
    change (a :: rest) with ([a] ++ rest).
    rewrite app_assoc. apply text_found_in_suffix. exact H.
Qed.

Lemma text_finditer_sound : forall r s m, In m (finditer r s) -> found_in r s m.
Proof. intros r s m. apply text_finditer_from_sound. Qed.

(** A pattern whose matches all hold a reading of the marker [L] finds
    nothing in a subject that holds none. *)
Section Marker.

Variable same : N -> N -> bool.
Variable L : text.
Variable r : regex.
Hypothesis needs : forall w c', den r w [] c' -> occurs_by same L w.

Lemma text_found_has_marker : forall s m,
  found_in r s m -> contains_by same L s = true.
Proof.
  intros s m (pre & w & -> & Hd). apply text_contains_occurs_by.
  apply (occurs_by_inside same L w); [exact (needs _ _ Hd)|].
  apply text_occurs_app_r, text_occurs_app_l, text_occurs_refl.
Qed.

Lemma text_search_none : forall s,
  contains_by same L s = false -> search r s = None.
Proof.
  intros s H. destruct (search r s) as [m|] eqn:E; [|reflexivity].
  apply text_search_sound, text_found_has_marker in E. congruence.
Qed.

Lemma text_finditer_nil : forall s,
  contains_by same L s = false -> finditer r s = [].
Proof.
  intros s H. unfold finditer. cbn [finditer_from].
  rewrite (text_search_none s H). reflexivity.
Qed.

End Marker.

Lemma occurs_exact : forall L w, occurs L w -> occurs_by N.eqb L w.
Proof.
  intros L w H. exists L. split; [apply reads_exact; reflexivity|exact H].
Qed.

Lemma text_den_Lit : forall L w c c', den (Lit L) w c c' -> w = L /\ c' = c.
Proof.
  induction L as [|x L IH]; intros w c c' H; cbn [Lit den] in H.
  - exact H.
  - destruct H as (w1 & w2 & cm & -> & (a & -> & Ha & ->) & H2).
    apply IH in H2 as [-> ->]. unfold is_char in Ha.
    apply N.eqb_eq in Ha. subst a. split; reflexivity.
Qed.

Lemma text_den_Plus : forall g p w c c',
  den (Plus g p) w c c' -> w <> [] /\ c' = c.
Proof.
  intros g p w c c' H. unfold Plus in H. cbn [den] in H.
  destruct H as (w1 & w2 & cm & -> & (a & -> & _ & ->) & (_ & ->)).
  split; [discriminate|reflexivity].
Qed.

Lemma text_fold_left_unchanged : forall (A B : Type) (step : A -> B -> A) l acc,
  (forall x a, In x l -> step a x = a) -> fold_left step l acc = acc.
Proof.
  intros A B step l. induction l as [|x l IH]; intros acc H; [reflexivity|].
  cbn. rewrite H by (left; reflexivity). apply IH.
  intros y a Hy. apply H. right. exact Hy.
Qed.

Lemma text_eqb_eq : forall a b, text_eqb a b = true -> a = b.
Proof.
  intros a b H. unfold text_eqb in H.
  destruct (list_eq_dec N.eq_dec a b); [assumption|discriminate].
Qed.

Lemma find_key_none : forall key (l : list (text * text)),
  (forall k v, In (k, v) l -> k <> key) -> find_key key l = None.
Proof.
  intros key l. induction l as [|[k v] l IH]; intros H; [reflexivity|].
  cbn [find_key]. destruct (text_eqb k key) eqn:E.
  - apply text_eqb_eq in E. exfalso. apply (H k v); [left; reflexivity|exact E].
  - apply IH. intros k' v' Hin. apply (H k' v'). right. exact Hin.
Qed.

Lemma text_dict_get_none : forall (g h : text -> text) key pairs,
  (forall k v, In (k, v) pairs -> g k <> key) ->
  dict_get key (map (fun kv => (g (fst kv), h (snd kv))) pairs) = None.
Proof.
  intros g h key pairs H. unfold dict_get. apply find_key_none.
  intros k v Hin. apply in_rev in Hin. apply in_map_iff in Hin as ([k0 v0] & Heq & Hin).
  injection Heq as <- <-. apply (H k0 v0 Hin).
Qed.

(** ** Keys in front of an equals sign *)

(** The ends of a text: the text, and what is left of it from each
    character on. *)
Fixpoint suffixes (s : text) : list text :=
  s :: match s with
       | [] => []
       | _ :: r => suffixes r
       end.

(** The stretches of [s] that end right in front of an equals sign;
    [front] is what has been passed. *)
Fixpoint before_equals_from (front s : text) : list text :=
  match s with
  | [] => []
  | a :: r =>
      (if N.eqb a 61 then suffixes front else []) ++ before_equals_from (front ++ [a]) r
  end.

Definition before_equals (s : text) : list text := before_equals_from [] s.

Lemma suffixes_self : forall p k, In k (suffixes (p ++ k)).
Proof.
  induction p as [|a p IH]; intros k.
  - destruct k; left; reflexivity.
  - cbn [app suffixes]. right. apply IH.
Qed.

Lemma before_equals_from_in : forall x front post k,
  In k (suffixes (front ++ x)) ->
  In k (before_equals_from front (x ++ 61%N :: post)).
Proof.
  induction x as [|a x IH]; intros front post k H.
  - rewrite app_nil_r in H. cbn [app before_equals_from].
    rewrite N.eqb_refl. apply in_or_app. left. exact H.
  - cbn [app before_equals_from]. apply in_or_app. right.
    apply IH. rewrite <- app_assoc. exact H.
Qed.

Lemma before_equals_in : forall k s,
  occurs (k ++ codes "=") s -> In k (before_equals s).
Proof.
  intros k s (p & post & ->). unfold before_equals.
  change (codes "=") with [61%N]. rewrite <- app_assoc. cbn [app].
  rewrite app_assoc. apply before_equals_from_in. cbn [app]. apply suffixes_self.
Qed.

(** ** The parsers *)

Section Tables.

Variable is_space : N -> bool.
Variable digit : N -> bool.
Variable word : N -> bool.
Variable ignorecase : N -> N -> bool.
Variable lower : text -> text.
Variable epoch_ms_to_str : text -> text.

Abbreviation nocase := (same_nocase ignorecase).

Lemma text_den_LitNoCase : forall L w c c',
  den (LitNoCase ignorecase L) w c c' -> reads nocase L w /\ c' = c.
Proof.
  induction L as [|x L IH]; intros w c c' H; cbn [LitNoCase den] in H.
  - destruct H as [-> ->]. split; [constructor|reflexivity].
  - destruct H as (w1 & w2 & cm & -> & (a & -> & Ha & ->) & H2).
    apply IH in H2 as [Hw ->]. split; [|reflexivity].
    cbn [app]. constructor; assumption.
Qed.

Ltac break_text_den :=
  repeat match goal with
         | H : exists _, _ |- _ => destruct H
         | H : _ /\ _ |- _ => destruct H
         | H : den (Lit _) _ _ _ |- _ => apply text_den_Lit in H
         | H : den (LitNoCase _ _) _ _ _ |- _ => apply text_den_LitNoCase in H
         | H : den (Plus _ _) _ _ _ |- _ => apply text_den_Plus in H
         end.

Lemma text_sms_row_needs : forall w c',
  den (SMS_ROW is_space digit) w [] c' -> occurs_by N.eqb (codes "address=") w.
Proof.
  intros w c' H. apply occurs_exact. unfold SMS_ROW in H. cbn [cat den] in H.
  break_text_den. subst. apply text_occurs_prefix.
Qed.

Lemma text_sms_alt_needs : forall a d b w c',
  den (sms_alt is_space digit a d b) w [] c' -> occurs_by N.eqb (codes a) w.
Proof.
  intros a d b w c' H. apply occurs_exact. unfold sms_alt in H. cbn [cat den] in H.
  break_text_den. subst. apply text_occurs_prefix.
Qed.

Lemma text_key_value_captures : forall w c',
  den (KEY_VALUE is_space word) w [] c' ->
  exists k v, c' = [("2", v); ("1", k)] /\ occurs (k ++ codes "=") w.
Proof.
  intros w c' H. unfold KEY_VALUE in H. cbn [cat den] in H.
  destruct H as (wk & r1 & c1 & -> & (c0 & Hk & ->) & H).
  apply text_den_Plus in Hk as [_ ->].
  destruct H as (we & r2 & c2 & -> & He & H).
  apply text_den_Lit in He as [-> ->].
  destruct H as (wv & r3 & c3 & -> & (c4 & (_ & ->) & ->) & H).
  destruct H as (wt & r4 & c5 & -> & Ht & (-> & ->)).
  exists wk, wv. split.
  - destruct Ht as [Ht|Ht].
    + break_text_den. subst. reflexivity.
    + destruct Ht as [_ ->]. reflexivity.
  - rewrite app_assoc. apply text_occurs_prefix.
Qed.

Lemma text_contact_row_needs : forall w c',
  den (CONTACT_ROW is_space digit ignorecase) w [] c' ->
  occurs_by nocase (codes "display_name=") w
  /\ exists name number, c' = [("number", number); ("name", name)].
Proof.
  intros w c' H. unfold CONTACT_ROW in H. cbn [cat den] in H.
  break_text_den. subst. split.
  - match goal with
    | H : reads nocase (codes "display_name=") ?x |- _ =>
        exists x; split; [exact H|]
    end.
    do 4 apply text_occurs_app_r. apply text_occurs_prefix.
  - eexists _, _. reflexivity.
Qed.

Lemma reads_name_equals : forall w1 w2,
  reads nocase (codes "name") w1 \/ reads nocase (codes "cached_name") w1 ->
  reads nocase (codes "=") w2 ->
  occurs_by nocase (codes "name=") (w1 ++ w2).
Proof.
  intros w1 w2 H1 H2. destruct H1 as [H1|H1].
  - apply occurs_by_reading.
    change (codes "name=") with (codes "name" ++ codes "=").
    apply Forall2_app; assumption.
  - apply (occurs_by_tail nocase (codes "cached_")).
    apply occurs_by_reading.
    change (codes "cached_" ++ codes "name=") with (codes "cached_name" ++ codes "=").
    apply Forall2_app; assumption.
Qed.

Lemma text_call_row_needs : forall w c',
  den (CALL_ROW is_space digit ignorecase) w [] c' ->
  occurs_by nocase (codes "name=") w.
Proof.
  intros w c' H. unfold CALL_ROW in H. cbn [cat den] in H.
  destruct H as (w1 & r1 & c1 & -> & H1 & H).
  destruct H as (w2 & r2 & c2 & -> & H2 & _).
  apply text_den_LitNoCase in H2 as [H2 _].
  rewrite app_assoc.
  apply (occurs_by_inside nocase _ (w1 ++ w2)); [|apply text_occurs_prefix].
  apply reads_name_equals; [|exact H2].
  destruct H1 as [H1|H1]; apply text_den_LitNoCase in H1 as [H1 _]; [left|right]; exact H1.
Qed.

Lemma text_call_alt_needs : forall n p d t w c',
  den (call_alt is_space digit ignorecase n p d t) w [] c' ->
  occurs_by nocase (codes n) w.
Proof.
  intros n p d t w c' H. unfold call_alt in H. cbn [cat den] in H.
  destruct H as (w1 & r1 & c1 & -> & H1 & _).
  apply text_den_LitNoCase in H1 as [H1 _].
  exists w1. split; [exact H1|apply text_occurs_prefix].
Qed.

(** Every key the key/value pattern finds is followed by [=] in the
    line. *)
Lemma text_key_value_pairs_keys : forall line k v,
  In (k, v) (findall_pairs (KEY_VALUE is_space word) line) ->
  occurs (k ++ codes "=") line.
Proof.
  intros line k v H. unfold findall_pairs in H.
  apply in_map_iff in H as (m & Heq & Hm).
  apply text_finditer_sound in Hm as (pre & w & -> & Hd).
  apply text_key_value_captures in Hd as (k0 & v0 & Hc & Ho).
  unfold group in Heq. rewrite Hc in Heq. cbn in Heq. injection Heq as <- <-.
  apply text_occurs_app_r, text_occurs_app_l, Ho.
Qed.

(** ** No parser raises *)

Lemma text_contact_rows_ok : forall matches acc,
  (forall m, In m matches ->
     exists name number, m_caps m = [("number", number); ("name", name)]) ->
  exists records, contact_rows is_space matches acc = Ok records.
Proof.
  induction matches as [|m ms IH]; intros acc H; cbn [contact_rows].
  - exists acc. reflexivity.
  - destruct (H m (or_introl eq_refl)) as (name & number & Hc).
    unfold group. rewrite Hc. cbn.
    apply IH. intros m' Hm'. apply H. right. exact Hm'.
Qed.

Lemma text_contacts_total : forall raw,
  exists records, parse_contacts_text is_space digit ignorecase raw = Ok records.
Proof.
  intros raw. unfold parse_contacts_text.
  destruct (negb (truthy raw)); [exists []; reflexivity|].
  apply text_contact_rows_ok. intros m Hm.
  apply text_finditer_sound in Hm as (pre & w & _ & Hd).
  apply text_contact_row_needs in Hd as [_ Hc]. exact Hc.
Qed.

Lemma text_sms_total : forall raw,
  exists records, parse_sms_text is_space digit word epoch_ms_to_str raw = Ok records.
Proof.
  intros raw. unfold parse_sms_text.
  destruct (negb (truthy raw)); [eexists; reflexivity|].
  destruct (negb (truthy (strip is_space (without_comments raw)))); [eexists; reflexivity|].
  destruct (sms_strategy1 is_space digit epoch_ms_to_str (without_comments raw));
    [|eexists; reflexivity].
  destruct (sms_strategy2 is_space digit epoch_ms_to_str (without_comments raw));
    [|eexists; reflexivity].
  destruct (sms_strategy3 is_space epoch_ms_to_str (SMS_ALT_PATTERNS is_space digit)
              (without_comments raw) []); eexists; reflexivity.
Qed.

Lemma text_calls_total : forall raw,
  exists records,
    parse_calls_text is_space digit word ignorecase lower epoch_ms_to_str raw = Ok records.
Proof.
  intros raw. unfold parse_calls_text.
  destruct (negb (truthy raw)); [eexists; reflexivity|].
  destruct (negb (truthy (strip is_space (without_comments raw)))); [eexists; reflexivity|].
  destruct (calls_strategy1 is_space digit ignorecase epoch_ms_to_str
              (without_comments raw)); [|eexists; reflexivity].
  destruct (calls_strategy2 is_space digit ignorecase epoch_ms_to_str
              (without_comments raw)); [|eexists; reflexivity].
  destruct (calls_strategy3 is_space epoch_ms_to_str
              (CALL_ALT_PATTERNS is_space digit ignorecase)
              (without_comments raw) []); eexists; reflexivity.
Qed.

(** ** Texts without field markers *)

(** The columns from which the SMS strategies take an address or a
    body. *)
Definition SMS_MARKERS : list text :=
  map codes ["address="; "phone_number="; "sender="; "number=";
             "body="; "message="; "text="].

(** None of [markers] occurs in [s], letter for letter. *)
Definition no_markers (markers : list text) (s : text) : bool :=
  forallb (fun m => negb (contains m s)) markers.

Lemma text_no_markers_in : forall markers s m,
  no_markers markers s = true -> In m markers -> contains m s = false.
Proof.
  intros markers s m H Hin. unfold no_markers in H.
  rewrite forallb_forall in H. apply H in Hin.
  destruct (contains m s); [discriminate|reflexivity].
Qed.

Lemma text_sms_search_line_none : forall pattern line acc,
  search pattern line = None ->
  or_continue (sms_search_line is_space epoch_ms_to_str pattern line acc) acc = acc.
Proof.
  intros pattern line acc H. unfold sms_search_line. rewrite H. reflexivity.
Qed.

Lemma text_sms_strategy3_none : forall s,
  (forall line, In line (splitlines s) ->
     contains (codes "phone_number=") line = false
     /\ contains (codes "sender=") line = false
     /\ contains (codes "number=") line = false) ->
  sms_strategy3 is_space epoch_ms_to_str (SMS_ALT_PATTERNS is_space digit) s [] = None.
Proof.
  intros s H. unfold SMS_ALT_PATTERNS. cbn [sms_strategy3].
  rewrite text_fold_left_unchanged.
  2:{ intros line acc Hl. apply text_sms_search_line_none.
      apply (text_search_none N.eqb (codes "phone_number=") _ (text_sms_alt_needs _ _ _)).
      apply H, Hl. }
  rewrite text_fold_left_unchanged.
  2:{ intros line acc Hl. apply text_sms_search_line_none.
      apply (text_search_none N.eqb (codes "sender=") _ (text_sms_alt_needs _ _ _)).
      apply H, Hl. }
  rewrite text_fold_left_unchanged.
  2:{ intros line acc Hl. apply text_sms_search_line_none.
      apply (text_search_none N.eqb (codes "number=") _ (text_sms_alt_needs _ _ _)).
      apply H, Hl. }
  reflexivity.
Qed.

Lemma text_sms_no_markers : forall raw,
  no_markers SMS_MARKERS raw = true ->
  parse_sms_text is_space digit word epoch_ms_to_str raw = Ok [].
Proof using is_space digit word epoch_ms_to_str.
  clear lower ignorecase. intros raw H.
  assert (Hm : forall m, In m SMS_MARKERS ->
             contains m (without_comments raw) = false
             /\ forall line, In line (splitlines (without_comments raw)) ->
                             contains m line = false).
  { intros m Hin. pose proof (text_no_markers_in _ _ _ H Hin) as Hc.
    apply text_marker_in_raw; [| |exact Hc];
      unfold SMS_MARKERS in Hin; cbn [map In] in Hin;
      repeat (destruct Hin as [<-|Hin]; [try reflexivity; discriminate|]);
      destruct Hin. }
  assert (Hline : forall m line, In m SMS_MARKERS ->
             In line (splitlines (without_comments raw)) -> contains m line = false).
  { intros m line Hin Hl. apply (proj2 (Hm m Hin)), Hl. }
  assert (Hin : forall m, In m ["address="; "phone_number="; "sender="; "number=";
                                "body="; "message="; "text="] ->
                  In (codes m) SMS_MARKERS)
    by (intros m Hi; apply in_map, Hi).
  unfold parse_sms_text.
  destruct (negb (truthy raw)); [reflexivity|].
  destruct (negb (truthy (strip is_space (without_comments raw)))); [reflexivity|].
  assert (H1 : sms_strategy1 is_space digit epoch_ms_to_str (without_comments raw) = []).
  { unfold sms_strategy1.
    rewrite (text_finditer_nil N.eqb (codes "address=") _ text_sms_row_needs);
      [reflexivity|].
    apply (proj1 (Hm (codes "address=") (Hin _ ltac:(cbn; tauto)))). }
  rewrite H1.
  assert (H2 : sms_strategy2 is_space digit epoch_ms_to_str (without_comments raw) = []).
  { unfold sms_strategy2. apply text_fold_left_unchanged. intros line acc Hl.
    rewrite (Hline (codes "address=") line (Hin _ ltac:(cbn; tauto)) Hl). reflexivity. }
  rewrite H2.
  rewrite text_sms_strategy3_none.
  2:{ intros line Hl. repeat split; apply Hline; try exact Hl; apply Hin; cbn; tauto. }
  f_equal. unfold sms_strategy4. apply text_fold_left_unchanged. intros line acc Hl.
  destruct (negb (truthy (strip is_space line)) || startswith (codes "Row:") line);
    [reflexivity|].
  assert (Hget : forall key, In (key ++ "=")%string
                               ["address="; "phone_number="; "sender="; "number=";
                                "body="; "message="; "text="] ->
            dict_get (codes key)
              (map (fun kv => (fst kv, strip is_space (snd kv)))
                   (findall_pairs (KEY_VALUE is_space word) line)) = None).
  { intros key Hk.
    apply (text_dict_get_none (fun k => k) (strip is_space)). intros k v Hi ->.
    apply text_key_value_pairs_keys, text_contains_occurs in Hi.
    rewrite <- codes_append in Hi.
    rewrite (Hline _ line (Hin _ Hk) Hl) in Hi. discriminate. }
  rewrite !Hget by (cbn; tauto). reflexivity.
Qed.

Lemma text_contacts_no_markers : forall raw,
  contains_by nocase (codes "display_name=") raw = false ->
  parse_contacts_text is_space digit ignorecase raw = Ok [].
Proof.
  intros raw H. unfold parse_contacts_text.
  destruct (negb (truthy raw)); [reflexivity|].
  rewrite (text_finditer_nil nocase (codes "display_name=") _
             (fun w c' Hd => proj1 (text_contact_row_needs w c' Hd))).
  - reflexivity.
  - exact H.
Qed.

(** The keys from which the last call strategy takes a name or a
    number. *)
Definition CALL_KEYS : list text :=
  map codes ["name"; "cached_name"; "caller_name"; "contact";
             "number"; "phone_number"; "phone"].

Lemma text_calls_strategy3_none : forall s,
  contains_by nocase (codes "name=") s = false ->
  contains_by nocase (codes "contact=") s = false ->
  calls_strategy3 is_space epoch_ms_to_str
    (CALL_ALT_PATTERNS is_space digit ignorecase) s [] = None.
Proof.
  intros s H1 H2. unfold CALL_ALT_PATTERNS. cbn [calls_strategy3].
  rewrite (text_finditer_nil nocase (codes "name=") _
             (fun w c' Hd =>
                occurs_by_tail nocase (codes "caller_") (codes "name=") w
                  (text_call_alt_needs "caller_name=" "phone_number=" "call_duration="
                     "timestamp=" w c' Hd))
             s H1).
  cbn [fold_left].
  rewrite (text_finditer_nil nocase (codes "contact=") _
             (text_call_alt_needs "contact=" "number=" "duration=" "time=") s H2).
  reflexivity.
Qed.

(** No call marker in [s]: no reading of [name=] or of [contact=] with
    case ignored, no [duration=], and in front of no equals sign a key
    whose lower-case form is one of the call keys. *)
Definition no_call_markers (s : text) : bool :=
  negb (contains_by nocase (codes "name=") s)
  && negb (contains_by nocase (codes "contact=") s)
  && negb (contains (codes "duration=") s)
  && forallb (fun k => negb (existsb (text_eqb (lower k)) CALL_KEYS)) (before_equals s).

Lemma text_calls_no_markers : forall raw,
  no_call_markers (without_comments raw) = true ->
  parse_calls_text is_space digit word ignorecase lower epoch_ms_to_str raw = Ok [].
Proof.
  intros raw H. unfold no_call_markers in H.
  apply andb_prop in H as [H Hk]. apply andb_prop in H as [H Hd].
  apply andb_prop in H as [Hn Hc].
  apply negb_true_iff in Hn, Hc, Hd. rewrite forallb_forall in Hk.
  unfold parse_calls_text.
  destruct (negb (truthy raw)); [reflexivity|].
  destruct (negb (truthy (strip is_space (without_comments raw)))); [reflexivity|].
  assert (H1 : calls_strategy1 is_space digit ignorecase epoch_ms_to_str
                 (without_comments raw) = []).
  { unfold calls_strategy1.
    rewrite (text_finditer_nil nocase (codes "name=") _ text_call_row_needs);
      [reflexivity|exact Hn]. }
  rewrite H1.
  assert (H2 : calls_strategy2 is_space digit ignorecase epoch_ms_to_str
                 (without_comments raw) = []).
  { unfold calls_strategy2. apply text_fold_left_unchanged. intros line acc Hl.
    assert (E : contains (codes "duration=") line = false).
    { destruct (contains (codes "duration=") line) eqn:E; [|reflexivity].
      apply text_contains_occurs in E. apply text_splitlines_occurs in Hl.
      pose proof (text_occurs_trans _ _ _ E Hl) as Ho.
      apply text_contains_occurs in Ho. congruence. }
    rewrite E. reflexivity. }
  rewrite H2.
  rewrite text_calls_strategy3_none by assumption.
  f_equal. unfold calls_strategy4. apply text_fold_left_unchanged. intros line acc Hl.
  destruct (negb (truthy (strip is_space line)) || startswith (codes "Row:") line);
    [reflexivity|].
  assert (Hget : forall key, In key ["name"; "cached_name"; "caller_name"; "contact";
                                     "number"; "phone_number"; "phone"] ->
            dict_get (codes key)
              (map (fun kv => (lower (fst kv), strip is_space (snd kv)))
                   (findall_pairs (KEY_VALUE is_space word) line)) = None).
  { intros key Hkey.
    apply (text_dict_get_none lower (strip is_space)). intros k v Hi Heq.
    apply text_key_value_pairs_keys in Hi.
    apply text_splitlines_occurs in Hl.
    pose proof (text_occurs_trans _ _ _ Hi Hl) as Ho.
    apply before_equals_in, Hk, negb_true_iff in Ho.
    assert (Ht : existsb (text_eqb (lower k)) CALL_KEYS = true).
    { apply existsb_exists. exists (codes key). split; [apply in_map, Hkey|].
      rewrite Heq. unfold text_eqb.
      destruct (list_eq_dec N.eq_dec (codes key) (codes key)); [reflexivity|contradiction]. }
    congruence. }
  rewrite !Hget by (cbn; tauto). reflexivity.
Qed.

(** ** Texts without an equals sign *)

Lemma no_equals_no_marker : forall same L s,
  (forall a, same 61%N a = true -> a = 61%N) ->
  contains (codes "=") s = false ->
  occurs_by same (L ++ codes "=") s -> False.
Proof.
  intros same L s Hsame H Ho.
  apply occurs_by_tail in Ho. destruct Ho as (w & Hr & Ho).
  inversion Hr as [|c a L' w' Hca Hr']; subst.
  inversion Hr'; subst. apply Hsame in Hca. subst a.
  apply text_contains_occurs in Ho. change (codes "=") with [61%N] in H. congruence.
Qed.

Lemma nocase_equals : forall a, nocase 61%N a = true -> a = 61%N.
Proof. intros a H. unfold same_nocase in H. cbn in H. apply N.eqb_eq, H. Qed.

Lemma exact_equals : forall a, N.eqb 61%N a = true -> a = 61%N.
Proof. intros a H. apply N.eqb_eq in H. symmetry. exact H. Qed.

Lemma no_equals_without_comments : forall raw,
  contains (codes "=") raw = false ->
  contains (codes "=") (without_comments raw) = false.
Proof.
  intros raw H.
  exact (proj1 (text_marker_in_raw (codes "=") raw eq_refl ltac:(discriminate) H)).
Qed.

Lemma text_sms_no_equals : forall raw,
  contains (codes "=") raw = false ->
  parse_sms_text is_space digit word epoch_ms_to_str raw = Ok [].
Proof using is_space digit word epoch_ms_to_str.
  intros raw H. apply text_sms_no_markers. unfold no_markers.
  apply forallb_forall. intros m Hm. apply negb_true_iff.
  destruct (contains m raw) eqn:E; [|reflexivity]. exfalso.
  unfold SMS_MARKERS in Hm. cbn [map In] in Hm.
  apply text_contains_occurs, occurs_exact in E.
  repeat (destruct Hm as [<-|Hm];
          [match type of E with
           | occurs_by _ (codes ?m) _ =>
               let k := eval vm_compute in (removelast (codes m)) in
               change (codes m) with (k ++ codes "=") in E
           end;
           exact (no_equals_no_marker N.eqb _ raw exact_equals H E)|]).
  destruct Hm.
Qed.

Lemma text_contacts_no_equals : forall raw,
  contains (codes "=") raw = false ->
  parse_contacts_text is_space digit ignorecase raw = Ok [].
Proof.
  intros raw H. apply text_contacts_no_markers.
  destruct (contains_by nocase (codes "display_name=") raw) eqn:E; [|reflexivity].
  exfalso. apply text_contains_occurs_by in E.
  change (codes "display_name=") with (codes "display_name" ++ codes "=") in E.
  exact (no_equals_no_marker nocase _ raw nocase_equals H E).
Qed.

Lemma before_equals_from_nil : forall s front,
  contains (codes "=") s = false -> before_equals_from front s = [].
Proof.
  induction s as [|a s IH]; intros front H; [reflexivity|].
  unfold contains in H. cbn [contains_by] in H.
  apply orb_false_elim in H as [H1 H2].
  change (codes "=") with [61%N] in H1. cbn [startswith_by] in H1.
  rewrite andb_true_r in H1. rewrite N.eqb_sym in H1.
  cbn [before_equals_from]. rewrite H1. cbn [app]. apply IH. exact H2.
Qed.

Lemma text_calls_no_equals : forall raw,
  contains (codes "=") raw = false ->
  parse_calls_text is_space digit word ignorecase lower epoch_ms_to_str raw = Ok [].
Proof.
  intros raw H. apply no_equals_without_comments in H.
  apply text_calls_no_markers. unfold no_call_markers.
  assert (Hn : contains_by nocase (codes "name=") (without_comments raw) = false).
  { destruct (contains_by nocase (codes "name=") (without_comments raw)) eqn:E;
      [|reflexivity].
    exfalso. apply text_contains_occurs_by in E.
    change (codes "name=") with (codes "name" ++ codes "=") in E.
    exact (no_equals_no_marker nocase _ _ nocase_equals H E). }
  assert (Hc : contains_by nocase (codes "contact=") (without_comments raw) = false).
  { destruct (contains_by nocase (codes "contact=") (without_comments raw)) eqn:E;
      [|reflexivity].
    exfalso. apply text_contains_occurs_by in E.
    change (codes "contact=") with (codes "contact" ++ codes "=") in E.
    exact (no_equals_no_marker nocase _ _ nocase_equals H E). }
  assert (Hd : contains (codes "duration=") (without_comments raw) = false).
  { destruct (contains (codes "duration=") (without_comments raw)) eqn:E;
      [|reflexivity].
    exfalso. apply text_contains_occurs, occurs_exact in E.
    change (codes "duration=") with (codes "duration" ++ codes "=") in E.
    exact (no_equals_no_marker N.eqb _ _ exact_equals H E). }
  rewrite Hn, Hc, Hd. unfold before_equals.
  rewrite (before_equals_from_nil _ [] H). reflexivity.
Qed.

End Tables.

(** ** Tables for plain ASCII, to run the parsers on examples *)

Definition ascii_space (c : N) : bool :=
  ((9 <=? c) && (c <=? 13) || (28 <=? c) && (c <=? 32))%N.

Definition ascii_digit (c : N) : bool := ((48 <=? c) && (c <=? 57))%N.

Definition ascii_word (c : N) : bool :=
  (ascii_digit c || is_letter c || (c =? 95))%N.

Definition ascii_lower_char (c : N) : N :=
  if ((65 <=? c) && (c <=? 90))%N then (c + 32)%N else c.

Definition ascii_ignorecase (c a : N) : bool :=
  N.eqb (ascii_lower_char a) (ascii_lower_char c).

Definition ascii_lower (s : text) : text := map ascii_lower_char s.

(** A table in which the letter [s] of a pattern also matches the long s,
    U+017F, as it does in Python. *)
Definition long_s_ignorecase (c a : N) : bool :=
  ascii_ignorecase c a || (N.eqb (ascii_lower_char c) 115 && N.eqb a 383).

(** The contact pattern reads [di], long s, [play_name=] as its column
    name: the row becomes a record, and the text is one that holds the
    marker when case is ignored. *)
Lemma contact_row_with_long_s :
  parse_contacts_text ascii_space ascii_digit long_s_ignorecase
    (codes "Row: 1 di" ++ [383%N] ++ codes "play_name=Bob, data1=777")
  = Ok [mkContact (codes "Bob") (codes "777")]
  /\ contains_by (same_nocase long_s_ignorecase) (codes "display_name=")
       (codes "Row: 1 di" ++ [383%N] ++ codes "play_name=Bob, data1=777") = true.
Proof. split; vm_compute; reflexivity. Qed.

(** The two rows of the SMS scenario, with the conversion of dates left
    out. *)
Lemma text_sms_scenario :
  parse_sms_text ascii_space ascii_digit ascii_word (fun ms => ms)
    (codes ParserFacts.SMS_SCENARIO)
  = Ok [mkSms (codes "+15551234567") (codes "1700000000000") (codes "1700000000000")
              (codes "Hello there");
        mkSms (codes "+15559876543") (codes "1700000100000") (codes "1700000100000")
              (codes "See you soon")].
Proof. vm_compute. reflexivity. Qed.

(** C6: no parser raises -- each returns a list for every input text --
    and a text with none of the parser's field markers gives the empty
    list.

    The first six parts are about texts of arbitrary code points and
    hold whatever the Unicode tables are (whitespace, digits, word
    characters, the characters a letter matches when case is ignored,
    lower case).  Each parser returns a list.  The SMS parser returns
    the empty list when none of its column names with [=] is in the
    text; the contact parser when the text holds no [display_name=],
    case being ignored as the pattern ignores it; the call parser when
    the text without its comment lines holds no [name=] and no
    [contact=] with case ignored, no [duration=], and no key in front of
    an equals sign whose lower-case form is a call key.  In particular
    every parser returns the empty list on a text without an equals
    sign, such as the empty text and a blank text.

    The last parts are about texts of code points below 256, with
    Python's tables on that range: there the markers of the contact and
    call parsers can be looked for in the lower-cased text. *)
Theorem parsers_never_raise :
  (forall (is_space digit word : N -> bool) (ignorecase : N -> N -> bool)
          (lower f : text -> text) (raw : text),
      (exists records, parse_sms_text is_space digit word f raw = Ok records)
      /\ (exists records,
            parse_contacts_text is_space digit ignorecase raw = Ok records)
      /\ (exists records,
            parse_calls_text is_space digit word ignorecase lower f raw = Ok records))
  /\ (forall (is_space digit word : N -> bool) (f : text -> text) (raw : text),
        no_markers SMS_MARKERS raw = true ->
        parse_sms_text is_space digit word f raw = Ok [])
  /\ (forall (is_space digit : N -> bool) (ignorecase : N -> N -> bool) (raw : text),
        contains_by (same_nocase ignorecase) (codes "display_name=") raw = false ->
        parse_contacts_text is_space digit ignorecase raw = Ok [])
  /\ (forall (is_space digit word : N -> bool) (ignorecase : N -> N -> bool)
             (lower f : text -> text) (raw : text),
        no_call_markers ignorecase lower (without_comments raw) = true ->
        parse_calls_text is_space digit word ignorecase lower f raw = Ok [])
  /\ (forall (is_space digit word : N -> bool) (ignorecase : N -> N -> bool)
             (lower f : text -> text) (raw : text),
        contains (codes "=") raw = false ->
        parse_sms_text is_space digit word f raw = Ok []
        /\ parse_contacts_text is_space digit ignorecase raw = Ok []
        /\ parse_calls_text is_space digit word ignorecase lower f raw = Ok [])
  /\ (forall (is_space digit word : N -> bool) (ignorecase : N -> N -> bool)
             (lower f : text -> text),
        parse_sms_text is_space digit word f [] = Ok []
        /\ parse_contacts_text is_space digit ignorecase [] = Ok []
        /\ parse_calls_text is_space digit word ignorecase lower f [] = Ok []
        /\ parse_sms_text is_space digit word f (codes " " ++ newline ++ codes "  ")
           = Ok []
        /\ parse_contacts_text is_space digit ignorecase
             (codes " " ++ newline ++ codes "  ") = Ok []
        /\ parse_calls_text is_space digit word ignorecase lower f
             (codes " " ++ newline ++ codes "  ") = Ok [])
  /\ (forall f raw, exists records, Parsers.parse_sms_text f raw = Ok records)
  /\ (forall raw, exists records, Parsers.parse_contacts_text raw = Ok records)
  /\ (forall f raw, exists records, Parsers.parse_calls_text f raw = Ok records)
  /\ (forall f raw,
        ParserFacts.no_markers ParserFacts.SMS_MARKERS raw = true ->
        Parsers.parse_sms_text f raw = Ok [])
  /\ (forall raw,
        ParserFacts.no_markers ParserFacts.CONTACT_MARKERS (PyStr.lower raw) = true ->
        Parsers.parse_contacts_text raw = Ok [])
  /\ (forall f raw,
        ParserFacts.no_markers ParserFacts.CALL_MARKERS (PyStr.lower raw) = true ->
        Parsers.parse_calls_text f raw = Ok [])
  /\ (forall f,
        Parsers.parse_sms_text f "" = Ok [] /\ Parsers.parse_contacts_text "" = Ok []
        /\ Parsers.parse_calls_text f "" = Ok []
        /\ Parsers.parse_sms_text f (" " ++ PyStr.newline ++ "  ") = Ok []
        /\ Parsers.parse_contacts_text (" " ++ PyStr.newline ++ "  ") = Ok []
        /\ Parsers.parse_calls_text f (" " ++ PyStr.newline ++ "  ") = Ok []).
Proof.
  split.
  { intros is_space digit word ignorecase lower f raw.
    split; [apply text_sms_total|].
    split; [apply text_contacts_total|apply text_calls_total]. }
  split; [intros; apply text_sms_no_markers; assumption|].
  split; [intros; apply text_contacts_no_markers; assumption|].
  split; [intros; apply text_calls_no_markers; assumption|].
  split.
  { intros is_space digit word ignorecase lower f raw H.
    split; [apply text_sms_no_equals, H|].
    split; [apply text_contacts_no_equals, H|apply text_calls_no_equals, H]. }
  split.
  { intros is_space digit word ignorecase lower f.
    split; [reflexivity|]. split; [reflexivity|]. split; [reflexivity|].
    split; [apply text_sms_no_equals; reflexivity|].
    split; [apply text_contacts_no_equals; reflexivity|].
    apply text_calls_no_equals; reflexivity. }
  split; [exact ParserFacts.sms_total|].
  split; [exact ParserFacts.contacts_total|].
  split; [exact ParserFacts.calls_total|].
  split; [exact ParserFacts.sms_no_markers|].
  split; [exact ParserFacts.contacts_no_markers|].
  split; [exact ParserFacts.calls_no_markers|].
  intros f. repeat split.
Qed.

(** A sentence that holds an equals sign and no marker. *)
Definition PROSE : string := "The quick brown fox; see notes = none".

Lemma parsers_never_raise_witness :
  parse_sms_text ascii_space ascii_digit ascii_word (fun ms => ms) (codes PROSE) = Ok []
  /\ parse_contacts_text ascii_space ascii_digit long_s_ignorecase (codes PROSE) = Ok []
  /\ parse_calls_text ascii_space ascii_digit ascii_word long_s_ignorecase ascii_lower
       (fun ms => ms) (codes PROSE) = Ok []
  /\ Parsers.parse_sms_text (epoch_ms_to_str utc) PROSE = Ok []
  /\ Parsers.parse_contacts_text PROSE = Ok []
  /\ Parsers.parse_calls_text (epoch_ms_to_str utc) PROSE = Ok [].
Proof.
  destruct parsers_never_raise
    as (_ & Gs & Gc & Gl & _ & _ & _ & _ & _ & Hs & Hc & Hl & _).
  split; [apply Gs; vm_compute; reflexivity|].
  split; [apply Gc; vm_compute; reflexivity|].
  split; [apply Gl; vm_compute; reflexivity|].
  split; [apply Hs; reflexivity|].
  split; [apply Hc; reflexivity|apply Hl; reflexivity].
Defined.

End UnicodeFacts.

(* ===================================================================== *)
(** * Facts about whitespace and line boundaries *)
(* ===================================================================== *)

Module TextFacts.
Import PyStr StrFacts RegexFacts.

(** No character of [s] is a line boundary. *)
Definition one_line (s : string) : bool :=
  all_chars (fun c => negb (is_linebreak c)) s.

(** [s] has no whitespace at either end. *)
Definition trimmed (s : string) : Prop := strip s = s.

Lemma lstrip_lstrip : forall s, lstrip (lstrip s) = lstrip s.
Proof.
  induction s as [|c r IH]; [reflexivity|].
  cbn [lstrip]. destruct (is_space c) eqn:E; [exact IH|].
  cbn [lstrip]. rewrite E. reflexivity.
Qed.

Lemma rstrip_cons : forall c r,
  rstrip (String c r)
  = if is_space c && negb (truthy (rstrip r)) then EmptyString else String c (rstrip r).
Proof. reflexivity. Qed.

Lemma rstrip_rstrip : forall s, rstrip (rstrip s) = rstrip s.
Proof.
  induction s as [|c r IH]; [reflexivity|].
  rewrite rstrip_cons. destruct (rstrip r) as [|b t] eqn:E.
  - destruct (is_space c) eqn:Ec; cbn; [reflexivity|].
    rewrite Ec. reflexivity.
  - rewrite andb_false_r. rewrite rstrip_cons, IH, andb_false_r. reflexivity.
Qed.

Lemma rstrip_lstrip : forall s, rstrip (lstrip s) = lstrip (rstrip s).
Proof.
  induction s as [|c r IH]; [reflexivity|].
  rewrite rstrip_cons. cbn [lstrip]. destruct (is_space c) eqn:Ec.
  - rewrite IH. destruct (rstrip r) as [|b t]; cbn [andb negb truthy lstrip].
    + reflexivity.
    + rewrite Ec. reflexivity.
  - rewrite rstrip_cons, Ec. cbn [andb lstrip]. rewrite Ec. reflexivity.
Qed.

Lemma strip_strip : forall s, strip (strip s) = strip s.
Proof.
  intros s. unfold strip.
  rewrite rstrip_lstrip, rstrip_rstrip, lstrip_lstrip. reflexivity.
Qed.

Lemma all_chars_lstrip : forall p s,
  all_chars p s = true -> all_chars p (lstrip s) = true.
Proof.
  intros p. induction s as [|c r IH]; intros H; [reflexivity|].
  cbn [lstrip]. destruct (is_space c); [|exact H].
  cbn in H. apply andb_prop in H as [_ H]. apply IH, H.
Qed.

Lemma all_chars_rstrip : forall p s,
  all_chars p s = true -> all_chars p (rstrip s) = true.
Proof.
  intros p. induction s as [|c r IH]; intros H; [reflexivity|].
  cbn in H. apply andb_prop in H as [Hc H].
  rewrite rstrip_cons. destruct (is_space c && negb (truthy (rstrip r))); [reflexivity|].
  cbn. rewrite Hc. apply IH, H.
Qed.

Lemma all_chars_strip : forall p s,
  all_chars p s = true -> all_chars p (strip s) = true.
Proof. intros p s H. apply all_chars_lstrip, all_chars_rstrip, H. Qed.

Lemma all_chars_append : forall p a b,
  all_chars p (a ++ b) = all_chars p a && all_chars p b.
Proof.
  intros p a b. induction a as [|c a IH]; [reflexivity|].
  cbn. rewrite IH. apply andb_assoc.
Qed.

(** The lines [splitlines] returns hold no line boundary. *)
Lemma splitlines_one_line : forall s l, In l (splitlines s) -> one_line l = true.
Proof.
  assert (H : forall s,
            (forall l, In l (splitlines s) -> one_line l = true)
            /\ forall c l, In l (splitlines (String c s)) -> one_line l = true).
  { induction s as [|a s [IH1 IH2]].
    - split; [intros l []|]. intros c l. cbn.
      destruct (is_linebreak c) eqn:E; intros [<-|[]]; [reflexivity|].
      unfold one_line. cbn. rewrite E. reflexivity.
    - split; [apply IH2|]. intros c l.
      rewrite (splitlines_cons c (String a s)). cbv beta iota.
      destruct (is_linebreak c) eqn:E.
      + intros [<-|Hl]; [reflexivity|].
        destruct (Ascii.eqb c "013" && Ascii.eqb a "010"); [apply IH1|apply (IH2 a)]; exact Hl.
      + destruct (splitlines (String a s)) as [|l0 ls0] eqn:Es.
        * intros [<-|[]]. unfold one_line. cbn. rewrite E. reflexivity.
        * intros [<-|Hl].
          -- unfold one_line. cbn. rewrite E. cbn.
             apply (IH2 a). rewrite Es. left. reflexivity.
          -- apply (IH2 a). rewrite Es. right. exact Hl. }
  intros s. apply H.
Qed.

(** A text that starts with a line and a line feed. *)
Lemma splitlines_first_line : forall l rest,
  one_line l = true ->
  splitlines (l ++ String "010" rest) = l :: splitlines rest.
Proof.
  induction l as [|c l IH]; intros rest H.
  - cbn [append]. rewrite splitlines_cons.
    change (is_linebreak "010") with true. cbv iota.
    destruct rest as [|c2 r2]; reflexivity.
  - unfold one_line in H. cbn in H. apply andb_prop in H as [Hc H].
    cbn [append]. rewrite splitlines_cons.
    destruct (is_linebreak c); [discriminate|].
    rewrite (IH rest H). reflexivity.
Qed.

Lemma strip_leading_newline : forall s, strip (String "010" s) = strip s.
Proof.
  intros s. unfold strip. rewrite rstrip_cons.
  change (is_space "010") with true. cbn [andb].
  destruct (rstrip s) as [|b t]; reflexivity.
Qed.

Lemma truthy_nonempty : forall s, truthy s = true <-> s <> EmptyString.
Proof. intros [|c r]; cbn; split; congruence. Qed.

End TextFacts.

(* ===================================================================== *)
(** * What [list_directory] returns *)
(* ===================================================================== *)

Module Listing.
Import PyStr StrFacts RegexFacts TextFacts Discovery.

(** X1: Every name [list_directory] returns is usable as a name: it is not
    empty, it has no whitespace at either end, and it holds no line
    boundary. *)
Theorem list_directory_names_are_clean :
  forall (run_adb : list string -> string) (p name : string),
    In name (list_directory run_adb p) ->
    name <> EmptyString /\ trimmed name /\ one_line name = true.
Proof.
  intros run_adb p name H. unfold list_directory in H.
  destruct (negb (truthy (run_adb ["shell"; "ls"; "-1"; p]))
            || contains "No such" (run_adb ["shell"; "ls"; "-1"; p])
            || contains "denied" (lower (run_adb ["shell"; "ls"; "-1"; p])));
    [destruct H|].
  apply in_map_iff in H as (line & <- & Hl).
  apply filter_In in Hl as [Hl Ht].
  split; [apply truthy_nonempty, Ht|].
  split; [apply strip_strip|].
  apply all_chars_strip. apply (splitlines_one_line _ _ Hl).
Qed.

(** X2: A listing in which some line mentions ["No such"], or ["denied"] in
    any letter case -- be it the shell's complaint or part of a file name
    -- is reported as an empty directory. *)
Theorem list_directory_hides_listing_with_marker :
  forall (run_adb : list string -> string) (p line : string),
    In line (splitlines (run_adb ["shell"; "ls"; "-1"; p])) ->
    contains "No such" line = true \/ contains "denied" (lower line) = true ->
    list_directory run_adb p = [].
Proof.
  intros run_adb p line Hl Hm. unfold list_directory.
  set (out := run_adb ["shell"; "ls"; "-1"; p]) in *.
  apply splitlines_occurs in Hl.
  assert (E : contains "No such" out || contains "denied" (lower out) = true).
  { destruct Hm as [Hm|Hm].
    - apply contains_occurs in Hm.
      pose proof (occurs_trans _ _ _ Hm Hl) as Ho.
      apply contains_occurs in Ho. rewrite Ho. reflexivity.
    - apply contains_occurs in Hm.
      apply (occurs_map_chars lower_char) in Hl.
      pose proof (occurs_trans _ _ _ Hm Hl) as Ho.
      apply contains_occurs in Ho. unfold lower. rewrite Ho. apply orb_true_r. }
  rewrite <- orb_assoc, E, orb_true_r. reflexivity.
Qed.

(** A folder holding a file called [Access_Denied.log]. *)
Definition denied_listing (args : list string) : string :=
  ("DCIM" ++ newline ++ "Access_Denied.log" ++ newline ++ "notes.txt")%string.

Lemma list_directory_hides_listing_with_marker_witness :
  list_directory denied_listing "/sdcard" = [].
Proof.
  apply (list_directory_hides_listing_with_marker denied_listing "/sdcard"
           "Access_Denied.log").
  - vm_compute. right. left. reflexivity.
  - right. reflexivity.
Defined.

Lemma list_directory_names_are_clean_witness :
  "b c.txt" <> EmptyString /\ trimmed "b c.txt" /\ one_line "b c.txt" = true.
Proof.
  apply (list_directory_names_are_clean
           (fun _ => ("  a.jpg " ++ newline ++ newline ++ " b c.txt")%string)
           "/sdcard" "b c.txt").
  vm_compute. right. left. reflexivity.
Defined.

End Listing.

(* ===================================================================== *)
(** * What a finished scan has covered *)
(* ===================================================================== *)

Module ScanClosure.
Import PyStr Discovery.

Section Closure.

Variable list_directory : string -> list string.
Variable is_directory : string -> bool.

(** What the loop body leaves in [disc] for the entry [name] of the
    directory [c]: a directory is recorded as one; anything else is
    recorded as a file unless its name is hidden or link-like. *)
Definition reported (disc : list DiscoveredPath) (c name : string) : Prop :=
  if is_directory (child_path c name)
  then In (mkDiscovered (child_path c name) true) disc
  else hidden_or_link name = true
       \/ In (mkDiscovered (child_path c name) false) disc.

(** What holds of the scanner's variables at every turn: the recorded
    flags are the answers of the directory test; the entries of every
    visited path are recorded; every recorded directory, and the root,
    is waiting on the stack or visited. *)
Definition closure_inv (root0 : string) (st : ScanState) : Prop :=
  (forall d, In d (discovered st) -> is_dir d = is_directory (path d))
  /\ (forall c, set_In c (visited st) ->
        forall name, In name (list_directory c) -> reported (discovered st) c name)
  /\ (forall d, In d (discovered st) -> is_dir d = true ->
        In (path d) (stack st) \/ set_In (path d) (visited st))
  /\ (In root0 (stack st) \/ set_In root0 (visited st)).

Lemma reported_mono : forall disc disc' c name,
  (forall d, In d disc -> In d disc') ->
  reported disc c name -> reported disc' c name.
Proof.
  intros disc disc' c name Hsub. unfold reported.
  destruct (is_directory (child_path c name)).
  - apply Hsub.
  - intros [H|H]; [left; exact H|right; apply Hsub, H].
Qed.

(** The effect of [for name in entries] on [discovered] and [stack]. *)
Lemma scan_entries_effect : forall current entries disc stk,
  let out := scan_entries is_directory current entries (disc, stk) in
  (forall d, In d disc -> In d (fst out))
  /\ (forall s, In s stk -> In s (snd out))
  /\ (forall name, In name entries -> reported (fst out) current name)
  /\ (forall d, In d (fst out) ->
        In d disc
        \/ (is_dir d = is_directory (path d)
            /\ (is_dir d = true -> In (path d) (snd out)))).
Proof.
  intros current entries. unfold scan_entries.
  induction entries as [|name es IH]; intros disc stk; cbn [fold_left].
  - cbn [fst snd]. repeat split; auto. intros name [].
  - set (acc := scan_entry is_directory current (disc, stk) name).
    assert (Hacc : (forall d, In d disc -> In d (fst acc))
                   /\ (forall s, In s stk -> In s (snd acc))
                   /\ reported (fst acc) current name
                   /\ (forall d, In d (fst acc) ->
                         In d disc
                         \/ (is_dir d = is_directory (path d)
                             /\ (is_dir d = true -> In (path d) (snd acc))))).
    { subst acc. unfold scan_entry, reported.
      destruct (hidden_or_link name) eqn:Eh;
        destruct (is_directory (child_path current name)) eqn:Ed; cbn [fst snd].
      - repeat split.
        + intros d Hd. apply in_or_app. left. exact Hd.
        + intros s Hs. right. exact Hs.
        + apply in_or_app. right. left. reflexivity.
        + intros d Hd. apply in_app_or in Hd as [Hd|[<-|[]]]; [left; exact Hd|right].
          cbn. split; [symmetry; exact Ed|intros _; left; reflexivity].
      - repeat split; auto.
      - repeat split.
        + intros d Hd. apply in_or_app. left. exact Hd.
        + intros s Hs. right. exact Hs.
        + apply in_or_app. right. left. reflexivity.
        + intros d Hd. apply in_app_or in Hd as [Hd|[<-|[]]]; [left; exact Hd|right].
          cbn. split; [symmetry; exact Ed|intros _; left; reflexivity].
      - repeat split.
        + intros d Hd. apply in_or_app. left. exact Hd.
        + auto.
        + right. apply in_or_app. right. left. reflexivity.
        + intros d Hd. apply in_app_or in Hd as [Hd|[<-|[]]]; [left; exact Hd|right].
          cbn. split; [symmetry; exact Ed|discriminate]. }
    destruct acc as [disc1 stk1]. cbn [fst snd] in Hacc.
    destruct Hacc as (A1 & A2 & A3 & A4).
    destruct (IH disc1 stk1) as (B1 & B2 & B3 & B4).
    repeat split.
    + intros d Hd. apply B1, A1, Hd.
    + intros s Hs. apply B2, A2, Hs.
    + intros n [<-|Hn]; [|apply B3, Hn].
      apply (reported_mono disc1); [exact B1|exact A3].
    + intros d Hd. destruct (B4 d Hd) as [Hd1|Hd1]; [|right; exact Hd1].
      destruct (A4 d Hd1) as [Hd0|[E1 E2]]; [left; exact Hd0|right].
      split; [exact E1|]. intros Ht. apply B2, E2, Ht.
Qed.

Lemma closure_inv_step : forall root0 st,
  closure_inv root0 st ->
  closure_inv root0 (scan_step list_directory is_directory st).
Proof.
  intros root0 [disc stk vis proc] (I1 & I2 & I3 & I4).
  cbn [discovered stack visited] in *.
  unfold scan_step. cbn [stack discovered visited processed].
  destruct stk as [|current rest]; [repeat split; assumption|].
  destruct (set_mem string_dec current vis) eqn:Hm.
  - apply (set_mem_correct1 string_dec) in Hm.
    repeat split; cbn [discovered stack visited]; try assumption.
    + intros d Hd Ht. destruct (I3 d Hd Ht) as [[<-|H]|H]; auto.
    + destruct I4 as [[<-|H]|H]; auto.
  - assert (Hpop : forall x, In x (current :: rest) \/ set_In x vis ->
                     In x rest \/ set_In x (set_add string_dec current vis)).
    { intros x [[<-|H]|H].
      - right. apply set_add_intro2. reflexivity.
      - left. exact H.
      - right. apply set_add_intro1. exact H. }
    destruct (list_directory current) as [|e es] eqn:El.
    + repeat split; cbn [discovered stack visited]; try assumption.
      * intros c Hc name Hn. apply set_add_elim in Hc as [->|Hc].
        -- rewrite El in Hn. destruct Hn.
        -- apply (I2 c Hc name Hn).
      * intros d Hd Ht. apply Hpop, I3; assumption.
      * apply Hpop, I4.
    + pose proof (scan_entries_effect current (e :: es) disc rest)
        as (B1 & B2 & B3 & B4).
      destruct (scan_entries is_directory current (e :: es) (disc, rest))
        as [disc' stk'].
      cbn [fst snd] in *.
      repeat split; cbn [discovered stack visited].
      * intros d Hd. destruct (B4 d Hd) as [Hd0|[E _]]; [apply I1, Hd0|exact E].
      * intros c Hc name Hn. apply set_add_elim in Hc as [->|Hc].
        -- apply B3. rewrite <- El. exact Hn.
        -- apply (reported_mono disc); [exact B1|apply (I2 c Hc name Hn)].
      * intros d Hd Ht. destruct (B4 d Hd) as [Hd0|[_ E]].
        -- destruct (Hpop (path d) (I3 d Hd0 Ht)) as [H|H]; [left; apply B2, H|right; exact H].
        -- left. apply E, Ht.
      * destruct (Hpop root0 I4) as [H|H]; [left; apply B2, H|right; exact H].
Qed.

Lemma closure_inv_after : forall root0 n st,
  closure_inv root0 st ->
  closure_inv root0 (scan_after list_directory is_directory n st).
Proof.
  intros root0. induction n as [|n IH]; intros st H; cbn; [exact H|].
  apply IH, closure_inv_step, H.
Qed.

Lemma closure_inv_init : forall root,
  closure_inv (rstrip_char "/" root) (scan_init root).
Proof.
  intros root. repeat split; cbn.
  - intros d [].
  - intros c [].
  - intros d [].
  - left. left. reflexivity.
Qed.

End Closure.

(** X3: When [brute_scan_fs] returns, its list is closed under listing: the
    flag of every record is the answer of the directory test for its
    path, and for the root and for every path recorded as a directory,
    each name listed for it is accounted for -- a directory is recorded
    as a directory, and anything else is recorded as a file unless its
    name is hidden or link-like.  No recorded directory is left
    unexplored. *)
Theorem scan_result_is_closed :
  forall (list_directory : string -> list string) (is_directory : string -> bool)
         (fuel : nat) (root : string) (result : list DiscoveredPath),
    brute_scan_fs list_directory is_directory fuel root = Some result ->
    (forall d, In d result -> is_dir d = is_directory (path d))
    /\ (forall c name,
          c = rstrip_char "/" root \/ In (mkDiscovered c true) result ->
          In name (list_directory c) ->
          if is_directory (child_path c name)
          then In (mkDiscovered (child_path c name) true) result
          else hidden_or_link name = true
               \/ In (mkDiscovered (child_path c name) false) result).
Proof.
  intros ls isdir fuel root result H.
  unfold brute_scan_fs in H.
  destruct (scan_loop ls isdir fuel (scan_init root)) as [final|] eqn:E; [|discriminate].
  cbn in H. injection H as <-.
  destruct (scan_loop_after ls isdir _ _ _ E) as (n & -> & Hs).
  pose proof (closure_inv_after ls isdir (rstrip_char "/" root) n (scan_init root)
                (closure_inv_init ls isdir root)) as (I1 & I2 & I3 & I4).
  rewrite Hs in I3, I4.
  split; [exact I1|].
  intros c name Hc Hn.
  assert (Hv : set_In c (visited (scan_after ls isdir n (scan_init root)))).
  { destruct Hc as [->|Hc].
    - destruct I4 as [[]|H]; exact H.
    - destruct (I3 _ Hc eq_refl) as [[]|H]. exact H. }
  apply (I2 c Hv name Hn).
Qed.

Lemma scan_result_is_closed_witness :
  brute_scan_fs sample_list sample_is_dir 10 "/sdcard/" = Some sample_result
  /\ In "a.jpg" (sample_list "/sdcard/DCIM")
  /\ (hidden_or_link "a.jpg" = true
      \/ In (mkDiscovered "/sdcard/DCIM/a.jpg" false) sample_result).
Proof.
  split; [reflexivity|]. split; [left; reflexivity|].
  exact (proj2 (scan_result_is_closed sample_list sample_is_dir 10 "/sdcard/"
                  sample_result eq_refl)
           "/sdcard/DCIM" "a.jpg" (or_intror (or_introl eq_refl)) (or_introl eq_refl)).
Defined.

End ScanClosure.

(* ===================================================================== *)
(** * Discovery against primitives that act on the device *)
(* ===================================================================== *)

Module ScanTrace.
Import PyStr Discovery ScanClosure.

(** ** The scanner, with the calls of its primitives as effects *)

Section Effects.

Variable World : Type.

(** [list_directory] and [is_directory] as calls that act on the world
    (each is one [run_adb] call in the source). *)
Variable list_directory : string -> St.M World (list string).
Variable is_directory : string -> St.M World bool.

(** One turn of [for name in entries]. *)
Definition scan_entry_io (current : string)
  (acc : list DiscoveredPath * list string) (name : string)
  : St.M World (list DiscoveredPath * list string) :=
  let (disc, stk) := acc in
  let full := child_path current name in
  if hidden_or_link name then
    d <- is_directory full ;;
    St.ret (if d then (disc ++ [mkDiscovered full true], full :: stk)
            else (disc, stk))
  else
    d <- is_directory full ;;
    St.ret (if d then (disc ++ [mkDiscovered full true], full :: stk)
            else (disc ++ [mkDiscovered full false], stk)).

Fixpoint scan_entries_io (current : string) (entries : list string)
  (acc : list DiscoveredPath * list string)
  : St.M World (list DiscoveredPath * list string) :=
  match entries with
  | [] => St.ret acc
  | name :: rest =>
      acc' <- scan_entry_io current acc name ;;
      scan_entries_io current rest acc'
  end.

(** One turn of [while stack]. *)
Definition scan_step_io (st : ScanState) : St.M World ScanState :=
  match stack st with
  | [] => St.ret st
  | current :: rest =>
      if set_mem string_dec current (visited st)
      then St.ret (mkScan (discovered st) rest (visited st) (processed st))
      else
        let visited' := set_add string_dec current (visited st) in
        let processed' := processed st ++ [current] in
        entries <- list_directory current ;;
        match entries with
        | [] => St.ret (mkScan (discovered st) rest visited' processed')
        | _ :: _ =>
            acc <- scan_entries_io current entries (discovered st, rest) ;;
            St.ret (mkScan (fst acc) (snd acc) visited' processed')
        end
  end.

(** The [while] loop, cut off after [fuel] turns. *)
Fixpoint scan_loop_io (fuel : nat) (st : ScanState) : St.M World (option ScanState) :=
  match stack st with
  | [] => St.ret (Some st)
  | _ :: _ =>
      match fuel with
      | O => St.ret None
      | S fuel' => st' <- scan_step_io st ;; scan_loop_io fuel' st'
      end
  end.

(** [brute_scan_fs(root)]. *)
Definition brute_scan_fs_io (fuel : nat) (root : string)
  : St.M World (option (list DiscoveredPath)) :=
  final <- scan_loop_io fuel (scan_init root) ;;
  St.ret (option_map discovered final).

End Effects.

Arguments scan_entry_io {World} is_directory current acc name _.
Arguments scan_entries_io {World} is_directory current entries acc _.
Arguments scan_step_io {World} list_directory is_directory st _.
Arguments scan_loop_io {World} list_directory is_directory fuel st _.
Arguments brute_scan_fs_io {World} list_directory is_directory fuel root _.

(** ** A simulated device that keeps a log of the calls *)

Inductive call : Type :=
| Listed (p : string)
| Probed (p : string).

(** A listing oracle and a directory oracle, each noting its call. *)
Definition logged_list (ls : string -> list string)
  : string -> St.M (list call) (list string) :=
  fun p log => (ls p, log ++ [Listed p]).

Definition logged_test (isdir : string -> bool)
  : string -> St.M (list call) bool :=
  fun p log => (isdir p, log ++ [Probed p]).

(** The calls for one directory: its listing, then the directory test of
    every listed name in turn. *)
Definition calls_for (ls : string -> list string) (c : string) : list call :=
  Listed c :: map (fun name => Probed (child_path c name)) (ls c).

(** What a listed name of the directory [c] leaves in the result: a
    directory record when the test says so; otherwise a file record, but
    nothing at all when the name is hidden or link-like. *)
Definition records_for_name (isdir : string -> bool) (c name : string)
  : list DiscoveredPath :=
  if isdir (child_path c name) then [mkDiscovered (child_path c name) true]
  else if hidden_or_link name then []
  else [mkDiscovered (child_path c name) false].

Definition records_for (ls : string -> list string) (isdir : string -> bool)
  (c : string) : list DiscoveredPath :=
  flat_map (records_for_name isdir c) (ls c).

Section Logged.

Variable ls : string -> list string.
Variable isdir : string -> bool.

Lemma scan_entry_logged : forall current acc name log,
  scan_entry_io (logged_test isdir) current acc name log
  = (scan_entry isdir current acc name, log ++ [Probed (child_path current name)]).
Proof.
  intros current [disc stk] name log.
  unfold scan_entry_io, scan_entry, St.bind, St.ret, logged_test.
  destruct (hidden_or_link name); destruct (isdir (child_path current name)); reflexivity.
Qed.

Lemma scan_entries_logged : forall current entries acc log,
  scan_entries_io (logged_test isdir) current entries acc log
  = (scan_entries isdir current entries acc,
     log ++ map (fun name => Probed (child_path current name)) entries).
Proof.
  intros current entries. unfold scan_entries.
  induction entries as [|name rest IH]; intros acc log; cbn [scan_entries_io fold_left map].
  - unfold St.ret. rewrite app_nil_r. reflexivity.
  - unfold St.bind. rewrite scan_entry_logged, IH, <- app_assoc. reflexivity.
Qed.

(** The paths a turn of the loop marks visited, and the calls it makes. *)
Definition turn_dirs (st : ScanState) : list string :=
  match stack st with
  | [] => []
  | current :: _ => if set_mem string_dec current (visited st) then [] else [current]
  end.

Lemma scan_step_processed : forall st,
  processed (scan_step ls isdir st) = processed st ++ turn_dirs st.
Proof.
  intros [d s v p]. unfold scan_step, turn_dirs. cbn [stack visited discovered processed].
  destruct s as [|current rest]; [rewrite app_nil_r; reflexivity|].
  destruct (set_mem string_dec current v); [rewrite app_nil_r; reflexivity|].
  destruct (ls current) as [|e es]; [reflexivity|].
  destruct (scan_entries isdir current (e :: es) (d, rest)). reflexivity.
Qed.

Lemma scan_step_logged : forall st log,
  scan_step_io (logged_list ls) (logged_test isdir) st log
  = (scan_step ls isdir st, log ++ flat_map (calls_for ls) (turn_dirs st)).
Proof.
  intros [d s v p] log. unfold scan_step_io, scan_step, turn_dirs.
  cbn [stack visited discovered processed].
  destruct s as [|current rest]; [unfold St.ret; cbn; rewrite app_nil_r; reflexivity|].
  destruct (set_mem string_dec current v);
    [unfold St.ret; cbn; rewrite app_nil_r; reflexivity|].
  unfold St.bind at 1. unfold logged_list at 1.
  cbn [flat_map]. rewrite app_nil_r. unfold calls_for.
  destruct (ls current) as [|e es] eqn:El.
  - unfold St.ret. reflexivity.
  - unfold St.bind. rewrite scan_entries_logged. unfold St.ret.
    destruct (scan_entries isdir current (e :: es) (d, rest)) as [disc stk].
    cbn [fst snd]. rewrite <- app_assoc. reflexivity.
Qed.

Lemma scan_loop_logged : forall fuel st final log,
  scan_loop ls isdir fuel st = Some final ->
  exists added,
    processed final = processed st ++ added
    /\ scan_loop_io (logged_list ls) (logged_test isdir) fuel st log
       = (Some final, log ++ flat_map (calls_for ls) added).
Proof.
  induction fuel as [|fuel IH]; intros st final log H; cbn [scan_loop scan_loop_io] in *.
  - destruct (stack st); [|discriminate]. injection H as <-.
    exists []. rewrite !app_nil_r. split; reflexivity.
  - destruct (stack st) eqn:Es.
    + injection H as <-. exists []. rewrite !app_nil_r. split; reflexivity.
    + unfold St.bind. rewrite scan_step_logged.
      destruct (IH _ _ (log ++ flat_map (calls_for ls) (turn_dirs st)) H)
        as (added & Hp & Hl).
      exists (turn_dirs st ++ added). split.
      * rewrite Hp, scan_step_processed, <- app_assoc. reflexivity.
      * rewrite Hl, flat_map_app, app_assoc. reflexivity.
Qed.

(** ** What the scanner's variables hold at every turn *)

Lemma scan_entry_records : forall current disc stk name,
  fst (scan_entry isdir current (disc, stk) name)
  = disc ++ records_for_name isdir current name.
Proof.
  intros current disc stk name. unfold scan_entry, records_for_name.
  destruct (hidden_or_link name); destruct (isdir (child_path current name));
    cbn [fst]; rewrite ?app_nil_r; reflexivity.
Qed.

Lemma scan_entries_records : forall current entries disc stk,
  fst (scan_entries isdir current entries (disc, stk))
  = disc ++ flat_map (records_for_name isdir current) entries.
Proof.
  intros current entries. unfold scan_entries.
  induction entries as [|name rest IH]; intros disc stk; cbn [fold_left flat_map].
  - rewrite app_nil_r. reflexivity.
  - pose proof (scan_entry_records current disc stk name) as E.
    destruct (scan_entry isdir current (disc, stk) name) as [disc1 stk1].
    cbn [fst] in E. rewrite IH, E, <- app_assoc. reflexivity.
Qed.

(** Whatever the entries loop puts on the stack it has recorded as a
    directory. *)
Lemma scan_entries_pushed : forall current entries disc stk s,
  In s (snd (scan_entries isdir current entries (disc, stk))) ->
  In s stk
  \/ In (mkDiscovered s true) (fst (scan_entries isdir current entries (disc, stk))).
Proof.
  intros current entries. unfold scan_entries.
  induction entries as [|name rest IH]; intros disc stk s H; cbn [fold_left] in *.
  - left. exact H.
  - assert (Hmono : forall d acc,
              In d (fst acc) ->
              In d (fst (fold_left (scan_entry isdir current) rest acc))).
    { intros d [disc0 stk0] Hd. cbn [fst] in Hd.
      pose proof (scan_entries_records current rest disc0 stk0) as E.
      unfold scan_entries in E. rewrite E. apply in_or_app. left. exact Hd. }
    remember (scan_entry isdir current (disc, stk) name) as acc eqn:Ea.
    destruct acc as [disc1 stk1].
    destruct (IH disc1 stk1 s H) as [Hs|Hs]; [|right; exact Hs].
    unfold scan_entry in Ea.
    destruct (hidden_or_link name); destruct (isdir (child_path current name));
      injection Ea as -> ->.
    + destruct Hs as [<-|Hs]; [|left; exact Hs].
      right. apply (Hmono _ (_, _)). cbn [fst]. apply in_or_app. right. left. reflexivity.
    + left. exact Hs.
    + destruct Hs as [<-|Hs]; [|left; exact Hs].
      right. apply (Hmono _ (_, _)). cbn [fst]. apply in_or_app. right. left. reflexivity.
    + left. exact Hs.
Qed.

(** The result is what the visited directories leave, in the order of
    the visits; the paths on the stack and the visited ones are the root
    and recorded directories; and a visited path is in the log of the
    visits. *)
Definition trace_inv (root0 : string) (st : ScanState) : Prop :=
  discovered st = flat_map (records_for ls isdir) (processed st)
  /\ (forall s, In s (stack st) ->
        s = root0 \/ In (mkDiscovered s true) (discovered st))
  /\ (forall p, In p (processed st) ->
        p = root0 \/ In (mkDiscovered p true) (discovered st))
  /\ (forall p, set_In p (visited st) -> In p (processed st)).

Lemma trace_inv_init : forall root, trace_inv (rstrip_char "/" root) (scan_init root).
Proof.
  intros root. repeat split; cbn.
  - intros s [<-|[]]. left. reflexivity.
  - intros p [].
  - intros p [].
Qed.

Lemma trace_inv_step : forall root0 st,
  trace_inv root0 st -> trace_inv root0 (scan_step ls isdir st).
Proof.
  intros root0 [disc stk vis proc] (I1 & I2 & I3 & I4).
  cbn [discovered stack visited processed] in *.
  unfold scan_step. cbn [stack discovered visited processed].
  destruct stk as [|current rest]; [repeat split; assumption|].
  destruct (set_mem string_dec current vis) eqn:Hm.
  - repeat split; cbn [discovered stack visited processed]; try assumption.
    intros s Hs. apply I2. right. exact Hs.
  - assert (Hvis : forall p, set_In p (set_add string_dec current vis) ->
                     In p (proc ++ [current])).
    { intros p Hp. apply in_or_app. apply set_add_elim in Hp as [->|Hp].
      - right. left. reflexivity.
      - left. apply I4, Hp. }
    destruct (ls current) as [|e es] eqn:El.
    + repeat split; cbn [discovered stack visited processed].
      * rewrite flat_map_app. cbn [flat_map]. unfold records_for at 2.
        rewrite El. cbn [flat_map]. rewrite !app_nil_r. exact I1.
      * intros s Hs. apply I2. right. exact Hs.
      * intros p Hp. apply in_app_or in Hp as [Hp|[<-|[]]].
        -- apply I3, Hp.
        -- apply I2. left. reflexivity.
      * exact Hvis.
    + pose proof (scan_entries_records current (e :: es) disc rest) as E1.
      pose proof (scan_entries_pushed current (e :: es) disc rest) as E2.
      destruct (scan_entries isdir current (e :: es) (disc, rest)) as [disc' stk'].
      cbn [fst snd] in *.
      assert (Hsub : forall d, In d disc -> In d disc')
        by (intros d Hd; rewrite E1; apply in_or_app; left; exact Hd).
      assert (Hkeep : forall x, x = root0 \/ In (mkDiscovered x true) disc ->
                        x = root0 \/ In (mkDiscovered x true) disc')
        by (intros x [->|Hx]; [left; reflexivity|right; apply Hsub, Hx]).
      repeat split; cbn [discovered stack visited processed].
      * rewrite flat_map_app. cbn [flat_map]. unfold records_for at 2.
        rewrite El, app_nil_r, E1, I1. reflexivity.
      * intros s Hs. destruct (E2 s Hs) as [Hr|Hr]; [|right; exact Hr].
        apply Hkeep, I2. right. exact Hr.
      * intros p Hp. apply in_app_or in Hp as [Hp|[<-|[]]].
        -- apply Hkeep, I3, Hp.
        -- apply Hkeep, I2. left. reflexivity.
      * exact Hvis.
Qed.

Lemma trace_inv_after : forall root0 n st,
  trace_inv root0 st -> trace_inv root0 (scan_after ls isdir n st).
Proof.
  intros root0. induction n as [|n IH]; intros st H; cbn; [exact H|].
  apply IH, trace_inv_step, H.
Qed.

End Logged.

(** C9 (amended): every listed child of a directory the scan visits --
    also one whose name begins with a dot or contains [" -> "] -- is
    probed with the directory test: a run of the scanner against
    primitives that log their calls returns the same list, and its log
    is, for each visited directory in turn, the listing of the directory
    and then the test of each listed name.  The visited directories are
    the root and the paths recorded as directories, each visited once.
    The returned list is what the listed names of the visited
    directories leave, in that order: a name that resolves as a
    directory leaves a directory record whether it is hidden or not; a
    name that does not leaves a file record when it is ordinary and
    nothing when it is hidden or link-like.  So a hidden or link-like
    child that resolves as a directory is recorded and traversed as an
    ordinary directory is, and one that does not is skipped. *)
Theorem hidden_entries_are_probed_and_kept_only_as_directories :
  forall (list_directory : string -> list string) (is_directory : string -> bool)
         (fuel : nat) (root : string) (result : list DiscoveredPath),
    brute_scan_fs list_directory is_directory fuel root = Some result ->
    exists dirs : list string,
      brute_scan_fs_io (logged_list list_directory) (logged_test is_directory)
        fuel root []
      = (Some result, flat_map (calls_for list_directory) dirs)
      /\ NoDup dirs
      /\ (forall c, In c dirs <->
                    c = rstrip_char "/" root \/ In (mkDiscovered c true) result)
      /\ result = flat_map (records_for list_directory is_directory) dirs
      /\ (forall c name,
            In c dirs -> In name (list_directory c) -> hidden_or_link name = true ->
            In (Probed (child_path c name)) (flat_map (calls_for list_directory) dirs)
            /\ (is_directory (child_path c name) = true ->
                  records_for_name is_directory c name
                  = [mkDiscovered (child_path c name) true]
                  /\ In (mkDiscovered (child_path c name) true) result
                  /\ In (child_path c name) dirs)
            /\ (is_directory (child_path c name) = false ->
                  records_for_name is_directory c name = []))
      /\ (forall c name,
            In c dirs -> In name (list_directory c) -> hidden_or_link name = false ->
            In (Probed (child_path c name)) (flat_map (calls_for list_directory) dirs)
            /\ (is_directory (child_path c name) = true ->
                  records_for_name is_directory c name
                  = [mkDiscovered (child_path c name) true]
                  /\ In (mkDiscovered (child_path c name) true) result
                  /\ In (child_path c name) dirs)
            /\ (is_directory (child_path c name) = false ->
                  records_for_name is_directory c name
                  = [mkDiscovered (child_path c name) false]
                  /\ In (mkDiscovered (child_path c name) false) result)).
Proof.
  intros ls isdir fuel root result H.
  unfold brute_scan_fs in H.
  destruct (scan_loop ls isdir fuel (scan_init root)) as [final|] eqn:E; [|discriminate].
  cbn in H. injection H as <-.
  destruct (scan_loop_logged ls isdir fuel (scan_init root) final [] E)
    as (dirs & Hp & Hl).
  cbn [scan_init processed app] in Hp.
  destruct (scan_loop_after ls isdir _ _ _ E) as (n & En & Hs).
  pose proof (trace_inv_after ls isdir (rstrip_char "/" root) n (scan_init root)
                (trace_inv_init ls isdir root)) as (T1 & _ & T3 & T4).
  pose proof (closure_inv_after ls isdir (rstrip_char "/" root) n (scan_init root)
                (closure_inv_init ls isdir root)) as (_ & _ & C3 & C4).
  pose proof (unique_inv_after ls isdir n (scan_init root) (unique_inv_init root))
    as [U1 _].
  rewrite <- En in T1, T3, T4, C3, C4, U1. rewrite Hs in C3, C4. rewrite Hp in *.
  assert (Hdirs : forall c, In c dirs <->
                    c = rstrip_char "/" root \/ In (mkDiscovered c true) (discovered final)).
  { intros c. split; [apply T3|].
    intros [->|Hc]; apply T4.
    - destruct C4 as [[]|Hv]. exact Hv.
    - destruct (C3 _ Hc eq_refl) as [[]|Hv]. exact Hv. }
  assert (Hin : forall c name d,
            In c dirs -> In name (ls c) -> In d (records_for_name isdir c name) ->
            In d (discovered final)).
  { intros c name d Hc Hn Hd. rewrite T1. apply in_flat_map. exists c.
    split; [exact Hc|]. unfold records_for. apply in_flat_map. exists name.
    split; assumption. }
  assert (Hprobe : forall c name,
            In c dirs -> In name (ls c) ->
            In (Probed (child_path c name)) (flat_map (calls_for ls) dirs)).
  { intros c name Hc Hn. apply in_flat_map. exists c. split; [exact Hc|].
    unfold calls_for. right. apply in_map_iff. exists name. split; [reflexivity|exact Hn]. }
  exists dirs.
  split.
  { unfold brute_scan_fs_io, St.bind, St.ret. rewrite Hl. reflexivity. }
  split; [exact U1|]. split; [exact Hdirs|]. split; [exact T1|].
  split; intros c name Hc Hn Hh.
  - split; [apply Hprobe; assumption|]. split; intros Hd.
    + assert (Er : records_for_name isdir c name = [mkDiscovered (child_path c name) true])
        by (unfold records_for_name; rewrite Hd; reflexivity).
      split; [exact Er|].
      assert (Hr : In (mkDiscovered (child_path c name) true) (discovered final))
        by (apply (Hin c name); [assumption..|rewrite Er; left; reflexivity]).
      split; [exact Hr|]. apply Hdirs. right. exact Hr.
    + unfold records_for_name. rewrite Hd, Hh. reflexivity.
  - split; [apply Hprobe; assumption|]. split; intros Hd.
    + assert (Er : records_for_name isdir c name = [mkDiscovered (child_path c name) true])
        by (unfold records_for_name; rewrite Hd; reflexivity).
      split; [exact Er|].
      assert (Hr : In (mkDiscovered (child_path c name) true) (discovered final))
        by (apply (Hin c name); [assumption..|rewrite Er; left; reflexivity]).
      split; [exact Hr|]. apply Hdirs. right. exact Hr.
    + assert (Er : records_for_name isdir c name = [mkDiscovered (child_path c name) false])
        by (unfold records_for_name; rewrite Hd, Hh; reflexivity).
      split; [exact Er|].
      apply (Hin c name); [assumption..|rewrite Er; left; reflexivity].
Qed.

(** A folder with a hidden directory, a hidden file and an ordinary
    file; the hidden directory holds one picture. *)
Definition dot_list (p : string) : list string :=
  if String.eqb p "/r" then [".thumbnails"; ".nomedia"; "notes.txt"]
  else if String.eqb p "/r/.thumbnails" then ["a.jpg"]
  else [].

Definition dot_is_dir (p : string) : bool := String.eqb p "/r/.thumbnails".

Lemma hidden_entries_are_probed_and_kept_only_as_directories_witness :
  brute_scan_fs dot_list dot_is_dir 5 "/r"
  = Some [mkDiscovered "/r/.thumbnails" true; mkDiscovered "/r/notes.txt" false;
          mkDiscovered "/r/.thumbnails/a.jpg" false]
  /\ brute_scan_fs_io (logged_list dot_list) (logged_test dot_is_dir) 5 "/r" []
     = (Some [mkDiscovered "/r/.thumbnails" true; mkDiscovered "/r/notes.txt" false;
              mkDiscovered "/r/.thumbnails/a.jpg" false],
        [Listed "/r"; Probed "/r/.thumbnails"; Probed "/r/.nomedia";
         Probed "/r/notes.txt"; Listed "/r/.thumbnails"; Probed "/r/.thumbnails/a.jpg"])
  /\ exists dirs : list string,
       brute_scan_fs_io (logged_list dot_list) (logged_test dot_is_dir) 5 "/r" []
       = (Some [mkDiscovered "/r/.thumbnails" true; mkDiscovered "/r/notes.txt" false;
                mkDiscovered "/r/.thumbnails/a.jpg" false],
          flat_map (calls_for dot_list) dirs)
       /\ NoDup dirs
       /\ [mkDiscovered "/r/.thumbnails" true; mkDiscovered "/r/notes.txt" false;
           mkDiscovered "/r/.thumbnails/a.jpg" false]
          = flat_map (records_for dot_list dot_is_dir) dirs.
Proof.
  split; [reflexivity|]. split; [reflexivity|].
  destruct (hidden_entries_are_probed_and_kept_only_as_directories
              dot_list dot_is_dir 5 "/r" _ eq_refl)
    as (dirs & H1 & H2 & _ & H4 & _).
  exists dirs. split; [exact H1|]. split; [exact H2|exact H4].
Defined.

End ScanTrace.

(* ===================================================================== *)
(** * Hashing in chunks: [compute_hashes] *)
(* ===================================================================== *)

Module Hashing.
Import PyStr Chunks Extraction.

(** What [hashlib] promises of [update]: feeding data in pieces is
    feeding their concatenation, and feeding nothing changes nothing. *)
Definition streaming (h : Hasher) : Prop :=
  (forall st a b, hupdate h (hupdate h st a) b = hupdate h st (a ++ b))
  /\ (forall st, hupdate h st [] = st).

(** The digest of a whole byte string, fed at once. *)
Definition digest_of (h : Hasher) (content : list byte) : string :=
  hexdigest h (hupdate h (hnew h) content).

Lemma fold_update_concat : forall h chunks st,
  streaming h ->
  fold_left (hupdate h) chunks st = hupdate h st (concat chunks).
Proof.
  intros h chunks st [Hs He]. revert st.
  induction chunks as [|c cs IH]; intros st; cbn [fold_left concat].
  - symmetry. apply He.
  - rewrite IH, Hs. reflexivity.
Qed.

Lemma digest_chunks : forall h n content,
  streaming h -> n <> 0%N ->
  digest h (file_chunks n content) = digest_of h content.
Proof.
  intros h n content Hs Hn. unfold digest, digest_of.
  rewrite (fold_update_concat h _ _ Hs), concat_file_chunks by exact Hn.
  reflexivity.
Qed.

Lemma chunks_zero : forall fuel l, chunks fuel 0 l = [].
Proof. intros [|fuel] [|b l]; reflexivity. Qed.

(** X4: For a file that can be read, the three digests [compute_hashes]
    returns are those of the file's whole content, whatever positive
    chunk size it is read with; with a chunk size of zero the first read
    returns nothing, the loop ends at once, and the digests are those of
    the empty input whatever the file holds. *)
Theorem compute_hashes_ignores_chunk_size :
  forall (MD5 SHA1 SHA256 : Hasher) (FS : Type) (os : LocalOS FS)
         (p : string) (fs : FS) (content : list byte),
    streaming MD5 -> streaming SHA1 -> streaming SHA256 ->
    read_bytes os p fs = Some content ->
    (forall chunk_size, chunk_size <> 0%N ->
       compute_hashes MD5 SHA1 SHA256 FS os p chunk_size fs
       = mkHashes (Some (digest_of MD5 content)) (Some (digest_of SHA1 content))
                  (Some (digest_of SHA256 content)))
    /\ compute_hashes MD5 SHA1 SHA256 FS os p 0 fs
       = mkHashes (Some (hexdigest MD5 (hnew MD5))) (Some (hexdigest SHA1 (hnew SHA1)))
                  (Some (hexdigest SHA256 (hnew SHA256))).
Proof.
  intros MD5 SHA1 SHA256 FS os p fs content H1 H2 H3 Hr. split.
  - intros n Hn. unfold compute_hashes. rewrite Hr.
    rewrite !digest_chunks by assumption. reflexivity.
  - unfold compute_hashes. rewrite Hr. unfold file_chunks, digest.
    rewrite chunks_zero. reflexivity.
Qed.

Lemma spelling_hasher_streaming : forall tag, streaming (spelling_hasher tag).
Proof.
  intros tag. split; cbn.
  - intros st a b. symmetry. apply app_assoc.
  - intros st. apply app_nil_r.
Qed.

Lemma compute_hashes_ignores_chunk_size_witness :
  read_bytes (sim_os media_remote) "/out/a.jpg"
    [("/out/a.jpg", LocalFile [x4a; x46; x49; x46] true)]
  = Some [x4a; x46; x49; x46]
  /\ compute_hashes (spelling_hasher "md5") (spelling_hasher "sha1")
       (spelling_hasher "sha256") SimFS (sim_os media_remote) "/out/a.jpg" 3
       [("/out/a.jpg", LocalFile [x4a; x46; x49; x46] true)]
     = mkHashes (Some "md5:JFIF") (Some "sha1:JFIF") (Some "sha256:JFIF").
Proof.
  split; [reflexivity|].
  refine (proj1 (compute_hashes_ignores_chunk_size
                   (spelling_hasher "md5") (spelling_hasher "sha1")
                   (spelling_hasher "sha256") SimFS (sim_os media_remote)
                   "/out/a.jpg" [("/out/a.jpg", LocalFile [x4a; x46; x49; x46] true)]
                   [x4a; x46; x49; x46]
                   (spelling_hasher_streaming "md5") (spelling_hasher_streaming "sha1")
                   (spelling_hasher_streaming "sha256") eq_refl) 3%N _).
  discriminate.
Defined.

End Hashing.

(* ===================================================================== *)
(** * The legacy folder pull: [pull_folder_with_metadata] *)
(* ===================================================================== *)

Module Legacy.
Import PyStr Discovery Chunks Extraction.

(** What the function returns: the fixed message, or a manifest. *)
Inductive FolderResult : Type :=
| NoFiles (message : string)
| Manifest (entries : list ManifestEntry).

Section Pull.

Variables MD5 SHA1 SHA256 : Hasher.
Variable FS : Type.
Variable os : LocalOS FS.
(** The device as seen through [run_adb] with its default timeout. *)
Variable run_adb : list string -> string.

(** [f"{remote_folder.rstrip('/')}/{item}"]. *)
Definition remote_of (remote_folder item : string) : string :=
  (rstrip_char "/" remote_folder ++ "/" ++ item)%string.

(** [for item in ls_output.splitlines()]; the loop body after the blank
    check is the one of [brute_extract_folder]. *)
Fixpoint pull_items (local_root remote_folder : string) (lines : list string)
  (manifest : list ManifestEntry) (fs : FS) : Run (list ManifestEntry * FS) :=
  match lines with
  | [] => Returns (manifest, fs)
  | line :: rest =>
      let item := strip line in
      if negb (truthy item) then pull_items local_root remote_folder rest manifest fs
      else
        match pull_entry MD5 SHA1 SHA256 FS os local_root
                (remote_of remote_folder item) fs with
        | Returns (e, fs2) =>
            pull_items local_root remote_folder rest (manifest ++ [e]) fs2
        | Raises => Raises
        | Unfinished => Unfinished
        end
  end.

Definition pull_folder_with_metadata (remote_folder local_root : string) (fs : FS)
  : Run (FolderResult * FS) :=
  let local_root := abspath os local_root in
  match makedirs os local_root fs with
  | None => Raises
  | Some fs0 =>
      let ls_output := run_adb ["shell"; "ls"; "-1"; remote_folder] in
      if negb (truthy ls_output) || contains "No such" ls_output
         || contains "denied" (lower ls_output)
      then Returns (NoFiles "No files found or permission denied.", fs0)
      else
        match pull_items local_root remote_folder (splitlines ls_output) [] fs0 with
        | Returns (manifest, fs1) => Returns (Manifest manifest, fs1)
        | Raises => Raises
        | Unfinished => Unfinished
        end
  end.

Lemma pull_items_spec : forall local_root remote_folder lines manifest fs result fs',
  pull_items local_root remote_folder lines manifest fs = Returns (result, fs') ->
  exists added,
    result = manifest ++ added
    /\ map remote_path added
       = map (remote_of remote_folder)
             (map strip (filter (fun line => truthy (strip line)) lines))
    /\ Forall (entry_hashes_ok MD5 SHA1 SHA256 FS os local_root) added.
Proof.
  intros local_root remote_folder lines.
  induction lines as [|line rest IH]; intros manifest fs result fs' H;
    cbn [pull_items] in H.
  - injection H as <- <-. exists []. rewrite app_nil_r. repeat split. constructor.
  - cbn [filter]. destruct (truthy (strip line)) eqn:Et; cbn [negb] in H.
    + destruct (pull_entry MD5 SHA1 SHA256 FS os local_root
                  (remote_of remote_folder (strip line)) fs)
        as [[e fs2]| |] eqn:Ep; try discriminate.
      destruct (IH _ _ _ _ H) as (added & -> & Hm & Hf).
      pose proof (pull_entry_remote MD5 SHA1 SHA256 FS os _ _ _ _ _ Ep) as Hr.
      exists (e :: added). rewrite <- app_assoc. repeat split.
      * cbn [map]. rewrite Hr, Hm. reflexivity.
      * constructor; [|exact Hf].
        assert (Hmade : made_by_pull MD5 SHA1 SHA256 os local_root e fs2).
        { exists fs. rewrite Hr. exact Ep. }
        exists fs2. split; [exact Hmade|].
        apply (pull_entry_hashes MD5 SHA1 SHA256 FS os local_root e fs2 Hmade).
    + apply (IH _ _ _ _ H).
Qed.

End Pull.

Arguments pull_folder_with_metadata MD5 SHA1 SHA256 {FS} os run_adb
  remote_folder local_root fs.

(** X5: The legacy pull works on the very names [list_directory] returns for
    the folder, in that order, with no directory test: when it returns a
    manifest, the manifest has one entry per listed name, directories
    included, with the remote path [folder/name]; it returns the fixed
    message only when [list_directory] reports the folder as empty.  The
    hash fields of every entry are all null or all set, and null exactly
    when the local path is missing or cannot be read right after the pull
    attempt. *)
Theorem legacy_pull_follows_listing :
  forall (MD5 SHA1 SHA256 : Hasher) (FS : Type) (os : LocalOS FS)
         (run_adb : list string -> string)
         (remote_folder local_root : string) (fs fs' : FS),
    (forall manifest,
        pull_folder_with_metadata MD5 SHA1 SHA256 os run_adb remote_folder local_root fs
        = Returns (Manifest manifest, fs') ->
        map remote_path manifest
        = map (remote_of remote_folder) (list_directory run_adb remote_folder)
        /\ Forall (entry_hashes_ok MD5 SHA1 SHA256 FS os (abspath os local_root)) manifest)
    /\ (forall message,
          pull_folder_with_metadata MD5 SHA1 SHA256 os run_adb remote_folder local_root fs
          = Returns (NoFiles message, fs') ->
          list_directory run_adb remote_folder = []
          /\ message = "No files found or permission denied."
          /\ makedirs os (abspath os local_root) fs = Some fs').
Proof.
  intros MD5 SHA1 SHA256 FS os run_adb remote_folder local_root fs fs'.
  unfold pull_folder_with_metadata, list_directory.
  destruct (makedirs os (abspath os local_root) fs) as [fs0|];
    [|split; intros ? H; discriminate H].
  destruct (negb (truthy (run_adb ["shell"; "ls"; "-1"; remote_folder]))
            || contains "No such" (run_adb ["shell"; "ls"; "-1"; remote_folder])
            || contains "denied" (lower (run_adb ["shell"; "ls"; "-1"; remote_folder]))).
  - split; intros x H; [discriminate H|].
    injection H as <- <-. repeat split.
  - split; intros x H.
    + destruct (pull_items MD5 SHA1 SHA256 FS os (abspath os local_root) remote_folder
                  (splitlines (run_adb ["shell"; "ls"; "-1"; remote_folder])) [] fs0)
        as [[m fs1]| |] eqn:Ep; try discriminate H.
      injection H as <- <-.
      destruct (pull_items_spec MD5 SHA1 SHA256 FS os _ _ _ _ _ _ _ Ep)
        as (added & -> & Hm & Hf).
      cbn [app]. split; assumption.
    + destruct (pull_items MD5 SHA1 SHA256 FS os (abspath os local_root) remote_folder
                  (splitlines (run_adb ["shell"; "ls"; "-1"; remote_folder])) [] fs0)
        as [[m fs1]| |]; discriminate H.
Qed.

(** A folder with a sub-folder and a picture; only the picture can be
    pulled as a file. *)
Definition dcim_listing (args : list string) : string :=
  ("Camera" ++ newline ++ " a.jpg " ++ newline)%string.

Definition dcim_remote (p : string) : option LocalNode :=
  if String.eqb p "/sdcard/DCIM/a.jpg" then Some (LocalFile [x4a; x46; x49; x46] true)
  else if String.eqb p "/sdcard/DCIM/Camera" then Some LocalDir
  else None.

Definition dcim_manifest : list ManifestEntry :=
  [ mkEntry "/sdcard/DCIM/Camera" "/out/sdcard/DCIM/Camera" 4096 0 NO_HASHES
      "1 file pulled.";
    mkEntry "/sdcard/DCIM/a.jpg" "/out/sdcard/DCIM/a.jpg" 4 0
      (mkHashes (Some "md5:JFIF") (Some "sha1:JFIF") (Some "sha256:JFIF"))
      "1 file pulled." ].

Lemma legacy_pull_follows_listing_witness :
  pull_folder_with_metadata (spelling_hasher "md5") (spelling_hasher "sha1")
    (spelling_hasher "sha256") (sim_os dcim_remote) dcim_listing
    "/sdcard/DCIM/" "/out" []
  = Returns (Manifest dcim_manifest,
             [("/out/sdcard/DCIM/a.jpg", LocalFile [x4a; x46; x49; x46] true);
              ("/out/sdcard/DCIM/Camera", LocalDir)])
  /\ map remote_path dcim_manifest
     = map (remote_of "/sdcard/DCIM/") (list_directory dcim_listing "/sdcard/DCIM/").
Proof.
  split; [reflexivity|].
  exact (proj1 (proj1 (legacy_pull_follows_listing
                  (spelling_hasher "md5") (spelling_hasher "sha1")
                  (spelling_hasher "sha256") SimFS (sim_os dcim_remote) dcim_listing
                  "/sdcard/DCIM/" "/out" []
                  [("/out/sdcard/DCIM/a.jpg", LocalFile [x4a; x46; x49; x46] true);
                   ("/out/sdcard/DCIM/Camera", LocalDir)])
                 dcim_manifest eq_refl)).
Defined.

End Legacy.

(* ===================================================================== *)
(** * More about the archive writer *)
(* ===================================================================== *)

Module ArchiveFacts.
Import PyStr Chunks Extraction Archive.

(** How an entry of the manifest stands in the store when the archive is
    written to [out], and the bytes it contributes: no local path, or
    nothing at the local path, contributes nothing; a regular file
    contributes its content.  The output file is none of them. *)
Definition entry_state (out : string) (st : Store)
  (e : ManifestEntry) (content : list byte) : Prop :=
  (local_path e = EmptyString /\ content = [])
  \/ (local_path e <> out /\ st (local_path e) = None /\ content = [])
  \/ (local_path e <> out /\ local_path e <> EmptyString
      /\ st (local_path e) = Some (Regular content)).

(** The header of a container. *)
Definition header (json : list byte) : list byte :=
  MAGIC ++ le_bytes 8 (N.of_nat (length json)) ++ json.

Lemma truthy_false_empty : forall s, truthy s = false -> s = EmptyString.
Proof. intros [|c r] H; [reflexivity|discriminate H]. Qed.

Lemma copy_entries_states : forall out st manifest contents,
  Forall2 (entry_state out st) manifest contents ->
  forall acc st',
    output_holds out acc st st' ->
    exists st'',
      copy_entries out manifest st' = (true, st'')
      /\ output_holds out (acc ++ concat contents) st st''.
Proof.
  intros out st manifest contents H.
  induction H as [|e c manifest contents He _ IH]; intros acc st' Hout.
  - exists st'. cbn. rewrite app_nil_r. split; [reflexivity|exact Hout].
  - cbn [copy_entries concat]. destruct Hout as [Ho Hq].
    destruct He as [(Hl & ->)|[(Hne & Hs & ->)|(Hne & Hl & Hs)]].
    + rewrite Hl. cbn [truthy andb app]. apply IH. split; assumption.
    + unfold exists_path. rewrite (Hq _ Hne), Hs, andb_false_r.
      cbn [app]. apply IH. split; assumption.
    + unfold exists_path, open_rb. rewrite (Hq _ Hne), Hs.
      destruct (local_path e) as [|x y] eqn:El; [contradiction|]. cbn [truthy andb].
      rewrite app_assoc. apply IH.
      pose proof (copy_chunks_output out (file_chunks CHUNK_SIZE c) acc st st'
                    (conj Ho Hq)) as Hc.
      rewrite concat_file_chunks in Hc by discriminate. exact Hc.
Qed.

Lemma archive_header_written : forall out json st,
  st out <> Some Directory ->
  open_wb out st = Some (update out (Regular []) st)
  /\ output_holds out (header json) st
       (write out json
          (write out (le_bytes 8 (N.of_nat (length json)))
             (write out MAGIC (update out (Regular []) st)))).
Proof.
  intros out json st Hout. split.
  - unfold open_wb. destruct (st out) as [[c|]|]; try reflexivity. contradiction.
  - assert (H0 : output_holds out [] st (update out (Regular []) st)).
    { split; [apply update_same|intros q Hq; apply update_other, Hq]. }
    pose proof (write_output out [] MAGIC st _ H0) as H1.
    pose proof (write_output out _ (le_bytes 8 (N.of_nat (length json))) st _ H1) as H2.
    pose proof (write_output out _ json st _ H2) as H3.
    unfold header. cbn [app] in H3. rewrite <- !app_assoc in H3. exact H3.
Qed.

Lemma slice_sizes : forall (manifest : list ManifestEntry) contents,
  Forall2 (fun e c => size e = N.of_nat (length c)) manifest contents ->
  slice_by_size (map size manifest) (concat contents) = contents.
Proof.
  intros manifest contents H.
  rewrite <- (app_nil_r (concat contents)). apply slice_concat. exact H.
Qed.

(** X6: The round trip also holds for a manifest with failed pulls.  An entry
    whose local file is missing contributes no byte to the payload, and
    [brute_extract_folder] records the size 0 for it; so when every entry
    is either missing with recorded size 0 or a regular file with its
    length recorded, the archive is written, and cutting the payload by
    the recorded sizes gives back each file's bytes, the empty string for
    the missing ones.  (The output file is none of the local paths.) *)
Theorem archive_round_trip_with_missing_files :
  forall (json_dumps : string -> list ManifestEntry -> list byte) (now : string)
         (manifest : list ManifestEntry) (contents : list (list byte))
         (output_bin : string) (st : Store),
    Forall2 (fun e c => entry_state output_bin st e c /\ size e = N.of_nat (length c))
            manifest contents ->
    st output_bin <> Some Directory ->
    (N.of_nat (length (json_dumps now manifest)) < 2 ^ 64)%N ->
    exists st',
      archive_to_bin json_dumps now manifest output_bin st
      = (Created ("BIN created -> " ++ output_bin)%string, st')
      /\ st' output_bin
         = Some (Regular (header (json_dumps now manifest) ++ concat contents))
      /\ (forall json_loads,
            json_loads (json_dumps now manifest) = Some manifest ->
            read_files json_loads (header (json_dumps now manifest) ++ concat contents)
            = Some contents).
Proof.
  intros json_dumps now manifest contents out st Hall Hout Hlen.
  assert (Hst : Forall2 (entry_state out st) manifest contents).
  { apply (Forall2_impl _ (R1 := fun e c => entry_state out st e c
                                           /\ size e = N.of_nat (length c)));
      [|exact Hall]. intros e c [H _]. exact H. }
  assert (Hsz : Forall2 (fun e c => size e = N.of_nat (length c)) manifest contents).
  { apply (Forall2_impl _ (R1 := fun e c => entry_state out st e c
                                           /\ size e = N.of_nat (length c)));
      [|exact Hall]. intros e c [_ H]. exact H. }
  destruct (archive_header_written out (json_dumps now manifest) st Hout) as [Hopen Hhead].
  destruct (copy_entries_states out st manifest contents Hst _ _ Hhead)
    as (st' & Hcopy & Ho & _).
  unfold archive_to_bin. rewrite Hopen. unfold pack_u64_le.
  pose proof Hlen as Hltb. apply N.ltb_lt in Hltb. rewrite Hltb, Hcopy.
  exists st'. split; [reflexivity|]. split; [exact Ho|].
  intros json_loads Hloads. unfold read_files, header.
  rewrite <- !app_assoc.
  rewrite (read_container_layout _ _ Hlen). cbn [manifest_json payload].
  rewrite Hloads, (slice_sizes _ _ Hsz). reflexivity.
Qed.

(** A manifest whose second pull failed. *)
Definition partial_manifest : list ManifestEntry :=
  [ mkEntry "/sdcard/a.jpg" "/out/a.jpg" 4 0 NO_HASHES "1 file pulled.";
    mkEntry "/sdcard/gone.txt" "/out/gone.txt" 0 0 NO_HASHES
      "adb: error: failed to stat remote object";
    mkEntry "/sdcard/b.txt" "/out/b.txt" 2 0 NO_HASHES "1 file pulled." ].

Definition partial_loads (b : list byte) : option (list ManifestEntry) :=
  if list_eq_dec Byte.byte_eq_dec b (sample_dumps "2024-01-01 00:00:00" partial_manifest)
  then Some partial_manifest else None.

Lemma archive_round_trip_with_missing_files_witness :
  read_files partial_loads
    (header (sample_dumps "2024-01-01 00:00:00" partial_manifest)
     ++ concat [[x4a; x46; x49; x46]; []; [x68; x69]])
  = Some [[x4a; x46; x49; x46]; []; [x68; x69]].
Proof.
  assert (Hall : Forall2 (fun e c => entry_state "/out/evidence.bin" sample_store e c
                                     /\ size e = N.of_nat (length c))
                   partial_manifest [[x4a; x46; x49; x46]; []; [x68; x69]]).
  { constructor; [split; [right; right; repeat split; discriminate|reflexivity]|].
    constructor; [split; [right; left; repeat split; discriminate|reflexivity]|].
    constructor; [split; [right; right; repeat split; discriminate|reflexivity]|].
    constructor. }
  destruct (archive_round_trip_with_missing_files sample_dumps "2024-01-01 00:00:00"
              partial_manifest [[x4a; x46; x49; x46]; []; [x68; x69]]
              "/out/evidence.bin" sample_store Hall) as (st' & _ & _ & H).
  - discriminate.
  - vm_compute. reflexivity.
  - apply H. reflexivity.
Defined.

(** ** What a failed run leaves behind *)

Lemma option_eq_dec_dir : forall o : option Node,
  {o = Some Directory} + {o <> Some Directory}.
Proof.
  intros [[c|]|]; [right; discriminate|left; reflexivity|right; discriminate].
Qed.

Lemma copy_entries_frame : forall out st manifest acc st',
  Forall (fun e => local_path e <> out) manifest ->
  output_holds out acc st st' ->
  exists more,
    output_holds out (acc ++ more) st (snd (copy_entries out manifest st')).
Proof.
  intros out st manifest. induction manifest as [|e rest IH]; intros acc st' Hne Hout.
  - exists []. rewrite app_nil_r. exact Hout.
  - cbn [copy_entries]. inversion Hne as [|? ? He Hrest]; subst.
    destruct (truthy (local_path e) && exists_path (local_path e) st').
    + destruct (open_rb (local_path e) st') as [content|].
      * destruct (IH (acc ++ concat (file_chunks CHUNK_SIZE content))
                     (copy_chunks out (file_chunks CHUNK_SIZE content) st') Hrest)
          as [more Hm].
        -- apply copy_chunks_output. exact Hout.
        -- exists (concat (file_chunks CHUNK_SIZE content) ++ more).
           rewrite app_assoc. exact Hm.
      * exists []. rewrite app_nil_r. exact Hout.
    + apply IH; assumption.
Qed.

(** X7: Whatever the manifest, and whether it succeeds or fails,
    [archive_to_bin] changes no file but the output file; and no failure
    is cleaned up: once the output file could be opened it is left
    holding the magic bytes and what had been written after them, also
    when the result is the failure message.  (The output file is none of
    the local paths of the manifest.) *)
Theorem archive_changes_only_output :
  forall (json_dumps : string -> list ManifestEntry -> list byte) (now : string)
         (manifest : list ManifestEntry) (output_bin : string) (st : Store),
    Forall (fun e => local_path e <> output_bin) manifest ->
    let st' := snd (archive_to_bin json_dumps now manifest output_bin st) in
    (forall q, q <> output_bin -> st' q = st q)
    /\ (st output_bin = Some Directory ->
        archive_to_bin json_dumps now manifest output_bin st = (Failed, st))
    /\ (st output_bin <> Some Directory ->
        exists written, st' output_bin = Some (Regular (MAGIC ++ written))).
Proof.
  intros json_dumps now manifest out st Hne st'. subst st'.
  destruct (option_eq_dec_dir (st out)) as [Hd|Hd].
  - unfold archive_to_bin, open_wb. rewrite Hd. cbn [snd].
    split; [reflexivity|]. split; [reflexivity|]. intros Hn. contradiction.
  - split; [|split; [intros Hd'; contradiction|intros _]];
      unfold archive_to_bin;
      assert (Hopen : open_wb out st = Some (update out (Regular []) st))
        by (unfold open_wb; destruct (st out) as [[c|]|]; try reflexivity; contradiction);
      rewrite Hopen;
      assert (H0 : output_holds out [] st (update out (Regular []) st))
        by (split; [apply update_same|intros q Hq; apply update_other, Hq]);
      pose proof (write_output out [] MAGIC st _ H0) as H1;
      destruct (pack_u64_le (N.of_nat (length (json_dumps now manifest)))) as [packed|].
    + pose proof (write_output out _ packed st _ H1) as H2.
      pose proof (write_output out _ (json_dumps now manifest) st _ H2) as H3.
      destruct (copy_entries_frame out st manifest _ _ Hne H3) as [more [_ Hq]].
      destruct (copy_entries out manifest _) as [[|] st4]; cbn [snd] in *; exact Hq.
    + cbn [snd]. apply H1.
    + pose proof (write_output out _ packed st _ H1) as H2.
      pose proof (write_output out _ (json_dumps now manifest) st _ H2) as H3.
      destruct (copy_entries_frame out st manifest _ _ Hne H3) as [more [Ho _]].
      exists ((packed ++ json_dumps now manifest) ++ more).
      destruct (copy_entries out manifest _) as [[|] st4]; cbn [snd] in *;
        rewrite Ho; cbn [app]; rewrite <- !app_assoc; reflexivity.
    + cbn [snd]. exists []. apply H1.
Qed.

(** A manifest naming a local path that is a directory: opening it
    raises, and the archive stops after the header. *)
Definition store_with_directory : Store :=
  fun p => if String.eqb p "/out/DCIM" then Some Directory else None.

Lemma archive_changes_only_output_witness :
  fst (archive_to_bin sample_dumps "2024-01-01 00:00:00"
         [mkEntry "/sdcard/DCIM" "/out/DCIM" 4096 0 NO_HASHES "1 file pulled."]
         "/out/evidence.bin" store_with_directory) = Failed
  /\ exists written,
       snd (archive_to_bin sample_dumps "2024-01-01 00:00:00"
              [mkEntry "/sdcard/DCIM" "/out/DCIM" 4096 0 NO_HASHES "1 file pulled."]
              "/out/evidence.bin" store_with_directory) "/out/evidence.bin"
       = Some (Regular (MAGIC ++ written)).
Proof.
  split; [reflexivity|].
  refine (proj2 (proj2 (archive_changes_only_output sample_dumps "2024-01-01 00:00:00"
            [mkEntry "/sdcard/DCIM" "/out/DCIM" 4096 0 NO_HASHES "1 file pulled."]
            "/out/evidence.bin" store_with_directory _)) _).
  - constructor; [discriminate|constructor].
  - discriminate.
Defined.

End ArchiveFacts.

(* ===================================================================== *)
(** * Device helpers of [adb_utils.py] *)
(* ===================================================================== *)

Module Device.
Import PyStr Clock Query Regex Parsers.

(** [str(x)] inside an f-string, for a flag and for a value that may be
    [None]. *)
Definition str_of_bool (b : bool) : string := if b then "True" else "False".

Definition str_of_opt (o : option string) : string :=
  match o with Some s => s | None => "None" end.

(** [s.endswith(suffix)]. *)
Fixpoint endswith (suffix s : string) : bool :=
  String.eqb suffix s ||
  match s with
  | EmptyString => false
  | String _ r => endswith suffix r
  end.

(** [s.replace(old, new)] for a non-empty [old]: occurrences are found
    left to right and do not overlap.  [skip] counts the characters of an
    occurrence still to be dropped. *)
Fixpoint replace_from (skip : nat) (old new s : string) : string :=
  match s with
  | EmptyString => EmptyString
  | String c r =>
      match skip with
      | S k => replace_from k old new r
      | O =>
          if startswith old s
          then (new ++ replace_from (String.length old - 1) old new r)%string
          else String c (replace_from 0 old new r)
      end
  end.

Definition replace (old new s : string) : string := replace_from 0 old new s.

(** The dictionary [detect_device_manufacturer] returns. *)
Record DeviceInfo : Type := mkDeviceInfo {
  manufacturer : string;
  model : string;
  brand : string;
  sdk : Z;
  is_xiaomi : bool;
  is_samsung : bool;
  is_oneplus : bool;
  is_oppo : bool;
  is_motorola : bool;
  is_google : bool
}.

(** [package:(/.*?\.apk)]. *)
Definition APK_PATH : regex :=
  cat [Lit "package:"; Group "1" (cat [Lit "/"; Star false dot; Lit ".apk"])].

(** The candidate folders of the three copy helpers. *)
Definition WHATSAPP_CANDIDATES : list string :=
  ["/sdcard/Android/media/com.whatsapp/WhatsApp";
   "/sdcard/WhatsApp";
   "/storage/emulated/0/WhatsApp";
   "/storage/emulated/0/Android/media/com.whatsapp/WhatsApp"].

Definition SCREENSHOT_CANDIDATES : list string :=
  ["/sdcard/Pictures/Screenshots";
   "/sdcard/DCIM/Screenshots";
   "/storage/emulated/0/Pictures/Screenshots";
   "/storage/emulated/0/DCIM/Screenshots";
   "/sdcard/Screenshots"].

Definition CAMERA_CANDIDATES : list string :=
  ["/sdcard/DCIM/Camera";
   "/storage/emulated/0/DCIM/Camera";
   "/sdcard/DCIM/100ANDRO"].

(** ["No such" not in ls and "denied" not in ls.lower()]. *)
Definition accessible (ls : string) : bool :=
  negb (contains "No such" ls) && negb (contains "denied" (lower ls)).

(** The URI and projection lists of the live queries. *)
Definition SMS_LIVE_URIS : list string :=
  ["content://sms/"; "content://sms/inbox"; "content://sms/sent"].
Definition SMS_LIVE_PROJECTIONS : list string :=
  ["address:date:body:type"; "address:date:body"; ""].

Definition CONTACTS_LIVE_URIS : list string :=
  ["content://com.android.contacts/data/phones";
   "content://contacts/phones/";
   "content://com.android.contacts/data"].
Definition CONTACTS_LIVE_PROJECTIONS : list string :=
  ["display_name:data1"; "display_name:number"; ""].

Definition CALLS_LIVE_URIS : list string := ["content://call_log/calls"].
Definition CALLS_LIVE_PROJECTIONS : list string :=
  ["name:number:duration:date:type"; "name:number:duration:date"; ""].

(** The lists of the dump functions. *)
Definition SMS_DUMP_URIS : list string :=
  ["content://sms/"; "content://sms/inbox"; "content://sms/sent";
   "content://mms-sms/conversations"; "content://sms/conversations"].
Definition SMS_DUMP_PROJECTIONS : list string :=
  ["address:date:body:type"; "address:date:body"; "address:date_sent:body:type";
   "_id:address:date:body:type:read"; ""].

Definition CALLS_DUMP_URIS : list string :=
  ["content://call_log/calls"; "content://call_log/calls/"; "content://logs/calls"].
Definition CALLS_DUMP_PROJECTIONS : list string :=
  ["name:number:duration:date:type"; "name:number:duration:date";
   "cached_name:number:duration:date:type"; "_id:name:number:duration:date:type"; ""].

(** The metadata the live queries put in front of the provider output. *)
Definition live_metadata (info : DeviceInfo) (r : QueryResult) : string :=
  ("# Device: " ++ manufacturer info ++ " " ++ model info ++ newline
   ++ "# URI: " ++ str_of_opt (uri_used r) ++ newline
   ++ "# Projection: " ++ str_of_opt (projection_used r) ++ newline
   ++ "# Success: " ++ str_of_bool (success r) ++ newline ++ newline)%string.

(** The six header writes of a dump, [stamp] being what [timestamp()]
    returned for the fifth. *)
Definition dump_header (info : DeviceInfo) (r : QueryResult) (stamp : string)
  : list string :=
  [("# Device: " ++ manufacturer info ++ " " ++ model info ++ newline)%string;
   ("# SDK: " ++ str_of_int (sdk info) ++ newline)%string;
   ("# URI used: " ++ str_of_opt (uri_used r) ++ newline)%string;
   ("# Projection: " ++ str_of_opt (projection_used r) ++ newline)%string;
   ("# Timestamp: " ++ stamp ++ newline)%string;
   ("# Success: " ++ str_of_bool (success r) ++ newline ++ newline)%string].

(** [dt.strftime("%Y-%m-%d_%H-%M-%S")]. *)
Definition strftime_fname (dt : datetime) : string :=
  (year_str (year dt) ++ "-" ++ pad2 (month dt) ++ "-" ++ pad2 (day dt) ++ "_"
   ++ pad2 (hour dt) ++ "-" ++ pad2 (minute dt) ++ "-" ++ pad2 (second dt))%string.

Section WithAdb.

Variable World : Type.

(** [run_adb(args, timeout)]. *)
Variable run_adb : list string -> Z -> St.M World string.

(** [run_adb(args)], with the default timeout. *)
Definition adb (args : list string) : St.M World string := run_adb args 60.

(** [detect_device_manufacturer()]; the bare [except:] turns any failure
    of [int(sdk)] into 0. *)
Definition detect_device_manufacturer : St.M World DeviceInfo :=
  mfg0 <- adb ["shell"; "getprop"; "ro.product.manufacturer"] ;;
  model0 <- adb ["shell"; "getprop"; "ro.product.model"] ;;
  brand0 <- adb ["shell"; "getprop"; "ro.product.brand"] ;;
  sdk0 <- adb ["shell"; "getprop"; "ro.build.version.sdk"] ;;
  let mfg := lower mfg0 in
  let model := lower model0 in
  let brand := lower brand0 in
  let sdk_int := match py_int sdk0 with Ok n => n | Raised => 0%Z end in
  St.ret (mkDeviceInfo mfg model brand sdk_int
            (contains "xiaomi" mfg || contains "xiaomi" brand || contains "redmi" model)
            (contains "samsung" mfg || contains "samsung" brand)
            (contains "oneplus" mfg || contains "oneplus" brand)
            (contains "oppo" mfg || contains "oppo" brand || contains "realme" brand)
            (contains "motorola" mfg || contains "motorola" brand)
            (contains "google" mfg || contains "google" brand)).

(** The body shared by [query_sms_live], [query_contacts_live] and
    [query_calls_live]. *)
Definition query_live (uri_variants projection_variants : list string) (label : string)
  : St.M World string :=
  device_info <- detect_device_manufacturer ;;
  r <- query_content_provider_with_fallbacks adb uri_variants projection_variants label ;;
  St.ret (live_metadata device_info r ++ raw_text r)%string.

Definition query_sms_live : St.M World string :=
  query_live SMS_LIVE_URIS SMS_LIVE_PROJECTIONS "SMS".

Definition query_contacts_live : St.M World string :=
  query_live CONTACTS_LIVE_URIS CONTACTS_LIVE_PROJECTIONS "Contacts".

Definition query_calls_live : St.M World string :=
  query_live CALLS_LIVE_URIS CALLS_LIVE_PROJECTIONS "Call Logs".

(** The loop shared by [copy_whatsapp], [copy_screenshots] and
    [copy_camera]. *)
Fixpoint copy_first (candidates : list string) (dest not_found : string)
  : St.M World string :=
  match candidates with
  | [] => St.ret not_found
  | p :: rest =>
      ls <- adb ["shell"; "ls"; p] ;;
      if accessible ls
      then run_adb ["pull"; p; dest] 240
      else copy_first rest dest not_found
  end.

Definition copy_whatsapp (dest : string) : St.M World string :=
  copy_first WHATSAPP_CANDIDATES dest "WhatsApp folder not found or inaccessible.".

Definition copy_screenshots (dest : string) : St.M World string :=
  copy_first SCREENSHOT_CANDIDATES dest "Screenshots folder not found.".

Definition copy_camera (dest : string) : St.M World string :=
  copy_first CAMERA_CANDIDATES dest "Camera folder not found.".

(** The listings made before a pull: the candidates of [candidates] are
    listed one after the other as long as none is accessible.  [Some w']
    is the world after all of them were found inaccessible. *)
Fixpoint all_inaccessible (candidates : list string) (w : World) : option World :=
  match candidates with
  | [] => Some w
  | p :: rest =>
      let (ls, w') := adb ["shell"; "ls"; p] w in
      if accessible ls then None else all_inaccessible rest w'
  end.

(** [pull_apk(pkg, dest)].  Group 1 takes part in every match of the
    pattern. *)
Definition pull_apk (pkg dest : string) : St.M World string :=
  if negb (truthy dest) then St.ret "Destination cancelled."
  else
    path_out <- adb ["shell"; "pm"; "path"; pkg] ;;
    if negb (truthy path_out) || negb (contains "package:" path_out)
    then St.ret ("Unable to get APK path for " ++ pkg ++ newline ++ path_out)%string
    else
      let apk :=
        match search APK_PATH path_out with
        | Some m => match group m "1" with Some v => v | None => EmptyString end
        | None => strip (replace "package:" "" path_out)
        end in
      out <- run_adb ["pull"; apk; dest] 180 ;;
      St.ret ("APK pulled: " ++ apk ++ " -> " ++ dest ++ ". adb: " ++ out)%string.

End WithAdb.

Arguments adb {World} run_adb args _.
Arguments detect_device_manufacturer {World} run_adb _.
Arguments query_live {World} run_adb uri_variants projection_variants label _.
Arguments query_sms_live {World} run_adb _.
Arguments query_contacts_live {World} run_adb _.
Arguments query_calls_live {World} run_adb _.
Arguments copy_first {World} run_adb candidates dest not_found _.
Arguments copy_whatsapp {World} run_adb dest _.
Arguments copy_screenshots {World} run_adb dest _.
Arguments copy_camera {World} run_adb dest _.
Arguments all_inaccessible {World} run_adb candidates w.
Arguments pull_apk {World} run_adb pkg dest _.

(** A stub transport that answers from a fixed table and logs every
    call with its timeout. *)
Definition recording_stub (table : list string -> string)
  : list string -> Z -> St.M (list (list string * Z)) string :=
  fun args timeout log => (table args, log ++ [(args, timeout)]).

End Device.

(* ===================================================================== *)
(** * Properties of the device helpers *)
(* ===================================================================== *)

Module DeviceFacts.
Import PyStr StrFacts RegexFacts TextFacts Clock Query Regex Parsers ParserFacts Device.

Section CopyFacts.

Variable World : Type.
Variable run_adb : list string -> Z -> St.M World string.

Lemma copy_first_spec : forall candidates dest not_found w,
  (exists pre p post w1 ls w2,
      candidates = pre ++ p :: post
      /\ all_inaccessible run_adb pre w = Some w1
      /\ adb run_adb ["shell"; "ls"; p] w1 = (ls, w2)
      /\ accessible ls = true
      /\ copy_first run_adb candidates dest not_found w
         = run_adb ["pull"; p; dest] 240%Z w2)
  \/ (exists w',
        all_inaccessible run_adb candidates w = Some w'
        /\ copy_first run_adb candidates dest not_found w = (not_found, w')).
Proof.
  intros candidates dest not_found.
  induction candidates as [|p rest IH]; intros w.
  - right. exists w. split; reflexivity.
  - cbn [copy_first all_inaccessible]. unfold St.bind.
    destruct (adb run_adb ["shell"; "ls"; p] w) as [ls w1] eqn:E.
    destruct (accessible ls) eqn:A.
    + left. exists [], p, rest, w, ls, w1. repeat split; assumption.
    + destruct (IH w1) as [(pre & q & post & wa & l & wb & Hc & Hi & Hl & Ha & Hr)
                          |(w' & Hi & Hr)].
      * left. exists (p :: pre), q, post, wa, l, wb. repeat split; try assumption.
        -- rewrite Hc. reflexivity.
        -- cbn [all_inaccessible]. rewrite E, A. exact Hi.
      * right. exists w'. split; assumption.
Qed.

End CopyFacts.

(** What one of the copy helpers does with its candidate list: the
    candidates are listed in order; the first whose listing mentions
    neither ["No such"] nor, in any letter case, ["denied"] is pulled to
    [dest] with a timeout of 240 seconds, the pull's text is returned and
    nothing else is listed or pulled; when no candidate is accessible the
    fixed message is returned and nothing is pulled. *)
Definition pulls_first_accessible (World : Type)
  (run_adb : list string -> Z -> St.M World string)
  (candidates : list string) (not_found : string)
  (copy : string -> St.M World string) : Prop :=
  forall (dest : string) (w : World),
    (exists pre p post w1 ls w2,
        candidates = pre ++ p :: post
        /\ all_inaccessible run_adb pre w = Some w1
        /\ adb run_adb ["shell"; "ls"; p] w1 = (ls, w2)
        /\ accessible ls = true
        /\ copy dest w = run_adb ["pull"; p; dest] 240%Z w2)
    \/ (exists w',
          all_inaccessible run_adb candidates w = Some w'
          /\ copy dest w = (not_found, w')).

(** X8: [copy_whatsapp], [copy_screenshots] and [copy_camera] pull the first
    accessible folder of their candidate lists and nothing else; an empty
    listing counts as accessible.  On a device where only the second
    WhatsApp folder exists, exactly two listings and one pull are
    issued. *)
Theorem copy_helpers_pull_first_accessible :
  (forall (World : Type) (run_adb : list string -> Z -> St.M World string),
      pulls_first_accessible World run_adb WHATSAPP_CANDIDATES
        "WhatsApp folder not found or inaccessible." (copy_whatsapp run_adb)
      /\ pulls_first_accessible World run_adb SCREENSHOT_CANDIDATES
           "Screenshots folder not found." (copy_screenshots run_adb)
      /\ pulls_first_accessible World run_adb CAMERA_CANDIDATES
           "Camera folder not found." (copy_camera run_adb))
  /\ accessible "" = true
  /\ (forall (table : list string -> string) (dest : string),
        accessible (table ["shell"; "ls"; "/sdcard/Android/media/com.whatsapp/WhatsApp"])
        = false ->
        accessible (table ["shell"; "ls"; "/sdcard/WhatsApp"]) = true ->
        copy_whatsapp (recording_stub table) dest []
        = (table ["pull"; "/sdcard/WhatsApp"; dest],
           [(["shell"; "ls"; "/sdcard/Android/media/com.whatsapp/WhatsApp"], 60%Z);
            (["shell"; "ls"; "/sdcard/WhatsApp"], 60%Z);
            (["pull"; "/sdcard/WhatsApp"; dest], 240%Z)])).
Proof.
  split; [|split; [reflexivity|]].
  - intros World run_adb. repeat split; intros dest w; apply copy_first_spec.
  - intros table dest H1 H2.
    unfold copy_whatsapp, WHATSAPP_CANDIDATES. cbn [copy_first].
    unfold St.bind, adb, recording_stub. rewrite H1, H2. reflexivity.
Qed.

(** A device on which the first WhatsApp folder is missing. *)
Definition whatsapp_table (args : list string) : string :=
  if list_eq_dec string_dec args
       ["shell"; "ls"; "/sdcard/Android/media/com.whatsapp/WhatsApp"]
  then "ls: /sdcard/Android/media/com.whatsapp/WhatsApp: No such file or directory"
  else if list_eq_dec string_dec args ["shell"; "ls"; "/sdcard/WhatsApp"]
  then "Media Databases"
  else "/sdcard/WhatsApp/: 2 files pulled.".

Lemma copy_helpers_pull_first_accessible_witness :
  copy_whatsapp (recording_stub whatsapp_table) "/out" []
  = ("/sdcard/WhatsApp/: 2 files pulled.",
     [(["shell"; "ls"; "/sdcard/Android/media/com.whatsapp/WhatsApp"], 60%Z);
      (["shell"; "ls"; "/sdcard/WhatsApp"], 60%Z);
      (["pull"; "/sdcard/WhatsApp"; "/out"], 240%Z)]).
Proof.
  exact (proj2 (proj2 copy_helpers_pull_first_accessible) whatsapp_table "/out"
           eq_refl eq_refl).
Defined.

(** ** The path [pull_apk] pulls *)

Lemma endswith_append : forall a b, endswith b (a ++ b) = true.
Proof.
  induction a as [|c a IH]; intros b.
  - cbn [append]. destruct b as [|x y]; cbn; [reflexivity|].
    rewrite Ascii.eqb_refl, String.eqb_refl. reflexivity.
  - cbn [append endswith]. rewrite IH. apply orb_true_r.
Qed.

Lemma apk_path_captures : forall w c',
  den APK_PATH w [] c' ->
  exists middle,
    all_chars dot middle = true
    /\ c' = [("1", ("/" ++ middle ++ ".apk")%string)]
    /\ w = ("package:" ++ "/" ++ middle ++ ".apk")%string.
Proof.
  intros w c' H. unfold APK_PATH in H. cbn [cat den] in H.
  destruct H as (w1 & r1 & c1 & -> & H1 & H).
  apply den_Lit in H1 as [-> ->].
  destruct H as (w2 & r2 & c2 & -> & (c3 & H2 & ->) & (-> & ->)).
  destruct H2 as (ws & r3 & c4 & -> & Hs & H2).
  apply den_Lit in Hs as [-> ->].
  destruct H2 as (wm & r4 & c5 & -> & (Hm & ->) & H2).
  destruct H2 as (wa & r5 & c6 & -> & Ha & (-> & ->)).
  apply den_Lit in Ha as [-> ->].
  exists wm. rewrite !append_nil_r. repeat split. exact Hm.
Qed.

(** X9: [pull_apk] issues no command for an empty destination, and no pull
    when [pm path] prints nothing or nothing with ["package:"] in it.
    Otherwise exactly one pull follows, with a timeout of 180 seconds;
    when the path pattern matches, the path pulled starts with a slash,
    ends in [.apk], holds no line feed, and stands right after a
    ["package:"] of the reply; when it does not match, the path is the
    reply without its ["package:"] marks, stripped. *)
Theorem pull_apk_pulls_a_package_path :
  forall (World : Type) (run_adb : list string -> Z -> St.M World string)
         (pkg dest : string) (w : World),
    (dest = EmptyString -> pull_apk run_adb pkg dest w = ("Destination cancelled.", w))
    /\ (dest <> EmptyString ->
        forall path_out w1,
          adb run_adb ["shell"; "pm"; "path"; pkg] w = (path_out, w1) ->
          (contains "package:" path_out = false ->
           pull_apk run_adb pkg dest w
           = (("Unable to get APK path for " ++ pkg ++ newline ++ path_out)%string, w1))
          /\ (contains "package:" path_out = true ->
              exists apk,
                pull_apk run_adb pkg dest w
                = (let (out, w2) := run_adb ["pull"; apk; dest] 180%Z w1 in
                   (("APK pulled: " ++ apk ++ " -> " ++ dest ++ ". adb: " ++ out)%string, w2))
                /\ (search APK_PATH path_out <> None ->
                    startswith "/" apk = true /\ endswith ".apk" apk = true
                    /\ all_chars dot apk = true
                    /\ occurs ("package:" ++ apk) path_out)
                /\ (search APK_PATH path_out = None ->
                    apk = strip (replace "package:" "" path_out)))).
Proof.
  intros World run_adb pkg dest w. split.
  - intros ->. reflexivity.
  - intros Hd path_out w1 Hp. unfold pull_apk.
    destruct dest as [|d0 dest']; [contradiction|]. cbn [truthy negb].
    unfold St.bind. rewrite Hp. split.
    + intros Hc. rewrite Hc. rewrite orb_true_r. reflexivity.
    + intros Hc. rewrite Hc. cbn [negb].
      assert (Ht : truthy path_out = true).
      { destruct path_out; [discriminate Hc|reflexivity]. }
      rewrite Ht. cbn [negb orb].
      destruct (search APK_PATH path_out) as [m|] eqn:Es.
      * apply search_sound in Es as (pre & wd & Hs & Hden).
        apply apk_path_captures in Hden as (middle & Hm & Hcaps & ->).
        unfold group. rewrite Hcaps. cbn [lookup String.eqb Ascii.eqb Bool.eqb].
        exists ("/" ++ middle ++ ".apk")%string.
        split; [unfold St.ret; destruct (run_adb _ 180%Z w1); reflexivity|].
        split; [intros _|intros Hn; discriminate Hn].
        split; [reflexivity|].
        split; [apply (endswith_append (String "/" middle) ".apk")|].
        split.
        -- change (all_chars dot (String "/" (middle ++ ".apk")) = true).
           cbn [all_chars]. rewrite all_chars_append, Hm. reflexivity.
        -- exists pre, (m_rest m). rewrite Hs. rewrite !append_assoc. reflexivity.
      * exists (strip (replace "package:" "" path_out)).
        split; [unfold St.ret; destruct (run_adb _ 180%Z w1); reflexivity|].
        split; [intros Hn; contradiction|reflexivity].
Qed.

(** A package installed as a base package with one split. *)
Definition pm_table (args : list string) : string :=
  if list_eq_dec string_dec args ["shell"; "pm"; "path"; "com.example.app"]
  then ("package:/data/app/com.example.app-1/base.apk" ++ newline
        ++ "package:/data/app/com.example.app-1/split_config.en.apk")%string
  else "1 file pulled.".

Lemma pull_apk_pulls_a_package_path_witness :
  pull_apk (recording_stub pm_table) "com.example.app" "/out" []
  = ("APK pulled: /data/app/com.example.app-1/base.apk -> /out. adb: 1 file pulled.",
     [(["shell"; "pm"; "path"; "com.example.app"], 60%Z);
      (["pull"; "/data/app/com.example.app-1/base.apk"; "/out"], 180%Z)])
  /\ exists apk,
       startswith "/" apk = true /\ endswith ".apk" apk = true
       /\ occurs ("package:" ++ apk) (pm_table ["shell"; "pm"; "path"; "com.example.app"]).
Proof.
  split; [vm_compute; reflexivity|].
  destruct (proj2 (pull_apk_pulls_a_package_path _ (recording_stub pm_table)
                     "com.example.app" "/out" [])
              ltac:(discriminate) _ _ eq_refl) as [_ H].
  destruct (H eq_refl) as (apk & _ & Hm & _).
  exists apk.
  destruct (Hm ltac:(vm_compute; discriminate)) as (H1 & H2 & _ & H4).
  split; [exact H1|]. split; [exact H2|exact H4].
Defined.

End DeviceFacts.

(* ===================================================================== *)
(** * Dump files: [dump_sms_enhanced], [dump_calls_enhanced] *)
(* ===================================================================== *)

Module Dumps.
Import PyStr Clock Query Device.

(** The text files of the workstation. *)
Definition Files : Type := string -> option string.

Definition set_file (path content : string) (fs : Files) : Files :=
  fun q => if String.eqb q path then Some content else fs q.

Section WithFiles.

Variable World : Type.
Variable run_adb : list string -> Z -> St.M World string.
(** [datetime.datetime.now()]. *)
Variable now : St.M World datetime.
(** [os.path.join]. *)
Variable path_join : string -> string -> string.
(** The text of the exception [open(path, "w", encoding="utf-8")] raises,
    if it raises, and likewise for [f.write(text)] on the file open at
    [path]. *)
Variable open_error : string -> Files -> option string.
Variable write_error : string -> string -> Files -> option string.

(** [timestamp()] and [fname_timestamp()]. *)
Definition timestamp : St.M World string :=
  dt <- now ;; St.ret (strftime dt).

Definition fname_timestamp : St.M World string :=
  dt <- now ;; St.ret (strftime_fname dt).

(** The device and clock on one side, the files on the other. *)
Definition State : Type := (World * Files)%type.

Definition on_device {A : Type} (m : St.M World A) : St.M State A :=
  fun s => let (a, w') := m (fst s) in (a, (w', snd s)).

(** [f.write(text)]; the answer is the exception raised, if any. *)
Definition f_write (path text : string) : St.M State (option string) :=
  fun s =>
    match write_error path text (snd s) with
    | Some e => (Some e, s)
    | None =>
        let old := match snd s path with Some c => c | None => EmptyString end in
        (None, (fst s, set_file path (old ++ text) (snd s)))
    end.

(** One statement of a [try] block after another: the first exception
    ends the block. *)
Definition and_then (m k : St.M State (option string)) : St.M State (option string) :=
  e <- m ;;
  match e with
  | Some x => St.ret (Some x)
  | None => k
  end.

(** The seven writes of the [with] block. *)
Definition write_dump (path : string) (device_info : DeviceInfo) (r : QueryResult)
  : St.M State (option string) :=
  and_then (f_write path ("# Device: " ++ manufacturer device_info ++ " "
                          ++ model device_info ++ newline)) (
  and_then (f_write path ("# SDK: " ++ str_of_int (sdk device_info) ++ newline)) (
  and_then (f_write path ("# URI used: " ++ str_of_opt (uri_used r) ++ newline)) (
  and_then (f_write path ("# Projection: " ++ str_of_opt (projection_used r) ++ newline)) (
  and_then (stamp <- on_device timestamp ;;
            f_write path ("# Timestamp: " ++ stamp ++ newline)) (
  and_then (f_write path ("# Success: " ++ str_of_bool (success r) ++ newline ++ newline))
           (f_write path (raw_text r))))))).

(** The body shared by the dump functions; [saved], [attempted] and
    [failed] make the three messages. *)
Definition dump_enhanced (uri_variants projection_variants : list string)
  (label prefix : string) (saved attempted failed : string -> string)
  (dest : string) : St.M State string :=
  if negb (truthy dest) then St.ret "Destination not provided."
  else
    device_info <- on_device (detect_device_manufacturer run_adb) ;;
    r <- on_device (query_content_provider_with_fallbacks (adb run_adb)
                      uri_variants projection_variants label) ;;
    stamp <- on_device fname_timestamp ;;
    let path := path_join dest (prefix ++ stamp ++ ".txt") in
    fun s =>
      match open_error path (snd s) with
      | Some e => (failed e, s)
      | None =>
          let (exc, s') := write_dump path device_info r
                             (fst s, set_file path EmptyString (snd s)) in
          match exc with
          | Some e => (failed e, s')
          | None => (if success r then saved path else attempted path, s')
          end
      end.

Definition dump_sms_enhanced : string -> St.M State string :=
  dump_enhanced SMS_DUMP_URIS SMS_DUMP_PROJECTIONS "SMS" "sms_"
    (fun path => ("SMS dumped successfully -> " ++ path)%string)
    (fun path => ("SMS dump attempted with errors -> " ++ path ++ newline
                  ++ "Try: adb shell content query --uri content://sms/")%string)
    (fun e => ("Failed to save SMS dump: " ++ e)%string).

Definition dump_calls_enhanced : string -> St.M State string :=
  dump_enhanced CALLS_DUMP_URIS CALLS_DUMP_PROJECTIONS "Call Logs" "calls_"
    (fun path => ("Call logs dumped successfully -> " ++ path)%string)
    (fun path => ("Call log dump attempted with errors -> " ++ path)%string)
    (fun e => ("Failed to save call log dump: " ++ e)%string).

End WithFiles.

Arguments timestamp {World} now _.
Arguments fname_timestamp {World} now _.
Arguments on_device {World A} m _.
Arguments f_write {World} write_error path text _.
Arguments write_dump {World} now write_error path device_info r _.
Arguments dump_enhanced {World} run_adb now path_join open_error write_error
  uri_variants projection_variants label prefix saved attempted failed dest _.
Arguments dump_sms_enhanced {World} run_adb now path_join open_error write_error _ _.
Arguments dump_calls_enhanced {World} run_adb now path_join open_error write_error _ _.

End Dumps.

(* ===================================================================== *)
(** * The metadata header and the parsers *)
(* ===================================================================== *)

Module HeaderFacts.
Import PyStr StrFacts RegexFacts TextFacts Clock Query Regex Parsers ParserFacts.
Import Device Dumps.

(** ** Matches and fuel *)

Lemma search_shape : forall r s m,
  search r s = Some m ->
  exists pre w, s = (pre ++ m_from m)%string /\ m_from m = (w ++ m_rest m)%string.
Proof.
  intros r. induction s as [|a s IH]; intros m H; cbn [search] in H.
  - destruct (match_at r EmptyString) as [m0|] eqn:E; [|discriminate].
    injection H as ->. unfold match_at in E.
    apply run_sound in E as (w & s' & c' & Hs & _ & Hk). injection Hk as <-.
    exists EmptyString, w. cbn [m_from m_rest]. split; [reflexivity|exact Hs].
  - destruct (match_at r (String a s)) as [m0|] eqn:E.
    + injection H as ->. unfold match_at in E.
      apply run_sound in E as (w & s' & c' & Hs & _ & Hk). injection Hk as <-.
      exists EmptyString, w. cbn [m_from m_rest]. split; [reflexivity|exact Hs].
    + destruct (IH m H) as (pre & w & -> & Hm).
      exists (String a pre), w. split; [reflexivity|exact Hm].
Qed.

Lemma finditer_from_S : forall fuel r s,
  finditer_from (S fuel) r s
  = match search r s with
    | None => []
    | Some m =>
        m :: if Nat.ltb (String.length (m_rest m)) (String.length (m_from m))
             then finditer_from fuel r (m_rest m)
             else match m_rest m with
                  | String _ rest => finditer_from fuel r rest
                  | EmptyString => []
                  end
    end.
Proof. reflexivity. Qed.

(** More fuel than the subject has characters changes nothing. *)
Lemma finditer_from_fuel : forall r f1 f2 s,
  String.length s < f1 -> String.length s < f2 ->
  finditer_from f1 r s = finditer_from f2 r s.
Proof.
  intros r. induction f1 as [|f1 IH]; intros [|f2] s H1 H2; try lia.
  rewrite !finditer_from_S.
  destruct (search r s) as [m|] eqn:E; [|reflexivity]. f_equal.
  apply search_shape in E as (pre & w & Hs & Hm).
  assert (L1 : String.length (m_from m) <= String.length s)
    by (rewrite Hs, length_append; lia).
  assert (L2 : String.length (m_rest m) <= String.length (m_from m))
    by (rewrite Hm, length_append; lia).
  destruct (Nat.ltb (String.length (m_rest m)) (String.length (m_from m))) eqn:L.
  - apply Nat.ltb_lt in L. apply IH; lia.
  - destruct (m_rest m) as [|x rest] eqn:R; [reflexivity|].
    cbn [String.length] in L2. apply IH; lia.
Qed.

(** A first character at which the pattern cannot start is skipped. *)
Lemma finditer_skip : forall r c s,
  match_at r (String c s) = None -> finditer r (String c s) = finditer r s.
Proof.
  intros r c s H. unfold finditer. cbn [String.length].
  rewrite (finditer_from_S (S (String.length s))), (finditer_from_S (String.length s)).
  cbn [search]. rewrite H.
  destruct (search r s) as [m|] eqn:E; [|reflexivity]. f_equal.
  apply search_shape in E as (pre & w & Hs & Hm).
  assert (L1 : String.length (m_from m) <= String.length s)
    by (rewrite Hs, length_append; lia).
  assert (L2 : String.length (m_rest m) <= String.length (m_from m))
    by (rewrite Hm, length_append; lia).
  destruct (Nat.ltb (String.length (m_rest m)) (String.length (m_from m))) eqn:L.
  - apply Nat.ltb_lt in L. apply finditer_from_fuel; lia.
  - destruct (m_rest m) as [|x rest] eqn:R; [reflexivity|].
    cbn [String.length] in L2. apply finditer_from_fuel; lia.
Qed.

(** ** A block of comment lines *)

(** Lines, each followed by a line feed. *)
Fixpoint comment_block (lines : list string) : string :=
  match lines with
  | [] => EmptyString
  | l :: rest => (l ++ String "010" (comment_block rest))%string
  end.

(** A line of a metadata header: it starts with [#] and holds no line
    boundary. *)
Definition comment_line (l : string) : bool := one_line l && startswith "#" l.

Lemma without_comments_block : forall lines rest,
  forallb comment_line lines = true ->
  without_comments (comment_block lines ++ rest) = without_comments rest.
Proof.
  induction lines as [|l lines IH]; intros rest H; [reflexivity|].
  cbn [forallb] in H. apply andb_prop in H as [Hl H].
  unfold comment_line in Hl. apply andb_prop in Hl as [H1 H2].
  cbn [comment_block]. rewrite append_assoc. cbn [append].
  unfold without_comments. rewrite (splitlines_first_line l _ H1).
  cbn [filter]. rewrite H2. cbn [negb].
  apply (IH rest H).
Qed.

Lemma splitlines_newline : forall rest,
  splitlines (String "010" rest) = EmptyString :: splitlines rest.
Proof. intros rest. apply (splitlines_first_line EmptyString rest eq_refl). Qed.

Lemma without_comments_blank : forall result,
  without_comments (String "010" result)
  = match filter (fun line => negb (startswith "#" line)) (splitlines result) with
    | [] => EmptyString
    | _ :: _ => String "010" (without_comments result)
    end.
Proof.
  intros result. unfold without_comments.
  rewrite (splitlines_newline result).
  cbn [filter startswith negb].
  destruct (filter (fun line => negb (startswith "#" line)) (splitlines result));
    reflexivity.
Qed.

Lemma splitlines_empty : forall s, splitlines s = [] -> s = EmptyString.
Proof.
  intros [|c r] H; [reflexivity|]. rewrite splitlines_cons in H.
  destruct (is_linebreak c); [discriminate|].
  destruct (splitlines r); discriminate.
Qed.

Lemma truthy_append_cons : forall a c b, truthy (a ++ String c b) = true.
Proof. intros [|x a] c b; reflexivity. Qed.

(** ** The SMS parser *)

Section SmsHeader.

Variable f : string -> string.

(** What [parse_sms_text] does with the text left after the comment
    lines are removed. *)
Definition sms_cascade (text : string) : result (list SmsRecord) :=
  match sms_strategy1 f text with
  | (_ :: _) as results => Ok results
  | [] =>
      match sms_strategy2 f text with
      | (_ :: _) as results => Ok results
      | [] =>
          match sms_strategy3 f SMS_ALT_PATTERNS text [] with
          | Some results => Ok results
          | None => Ok (sms_strategy4 f text)
          end
      end
  end.

Lemma parse_sms_unfold : forall raw,
  parse_sms_text f raw
  = if negb (truthy raw) then Ok []
    else if negb (truthy (strip (without_comments raw))) then Ok []
         else sms_cascade (without_comments raw).
Proof. reflexivity. Qed.

Lemma sms_strategy3_newline : forall patterns text acc,
  (forall p, In p patterns -> search p EmptyString = None) ->
  sms_strategy3 f patterns (String "010" text) acc = sms_strategy3 f patterns text acc.
Proof.
  induction patterns as [|p rest IH]; intros text acc H; [reflexivity|].
  cbn [sms_strategy3].
  rewrite (splitlines_newline text). cbn [fold_left].
  rewrite (sms_search_line_none f p EmptyString acc) by (apply H; left; reflexivity).
  destruct (fold_left _ (splitlines text) acc); [|reflexivity].
  apply IH. intros q Hq. apply H. right. exact Hq.
Qed.

Lemma sms_cascade_newline : forall text,
  sms_cascade (String "010" text) = sms_cascade text.
Proof.
  intros text. unfold sms_cascade.
  assert (H1 : sms_strategy1 f (String "010" text) = sms_strategy1 f text).
  { unfold sms_strategy1. rewrite finditer_skip by reflexivity. reflexivity. }
  assert (H2 : sms_strategy2 f (String "010" text) = sms_strategy2 f text).
  { unfold sms_strategy2.
    rewrite (splitlines_newline text). reflexivity. }
  assert (H3 : sms_strategy3 f SMS_ALT_PATTERNS (String "010" text) []
               = sms_strategy3 f SMS_ALT_PATTERNS text []).
  { apply sms_strategy3_newline. intros p Hp.
    unfold SMS_ALT_PATTERNS in Hp. cbn [In] in Hp.
    destruct Hp as [<-|[<-|[<-|[]]]]; vm_compute; reflexivity. }
  assert (H4 : sms_strategy4 f (String "010" text) = sms_strategy4 f text).
  { unfold sms_strategy4.
    rewrite (splitlines_newline text). reflexivity. }
  rewrite H1, H2, H3, H4. reflexivity.
Qed.

Lemma parse_sms_blank_line : forall result,
  parse_sms_text f (String "010" result) = parse_sms_text f result.
Proof.
  intros result. rewrite !parse_sms_unfold. cbn [truthy negb].
  rewrite without_comments_blank.
  destruct (filter (fun line => negb (startswith "#" line)) (splitlines result))
    as [|x xs] eqn:E.
  - cbn [strip rstrip lstrip truthy negb].
    destruct (negb (truthy result)); [reflexivity|].
    unfold without_comments. rewrite E. reflexivity.
  - assert (Hr : truthy result = true).
    { destruct result; [discriminate E|reflexivity]. }
    rewrite Hr. cbn [negb]. rewrite strip_leading_newline.
    destruct (negb (truthy (strip (without_comments result)))); [reflexivity|].
    apply sms_cascade_newline.
Qed.

Lemma parse_sms_commented : forall lines result,
  forallb comment_line lines = true ->
  parse_sms_text f (comment_block lines ++ String "010" result)
  = parse_sms_text f result.
Proof.
  intros lines result H.
  rewrite <- (parse_sms_blank_line result).
  rewrite (parse_sms_unfold (comment_block lines ++ String "010" result)).
  rewrite (parse_sms_unfold (String "010" result)).
  rewrite truthy_append_cons, (without_comments_block lines _ H). reflexivity.
Qed.

End SmsHeader.

(** ** The call log parser *)

Section CallsHeader.

Variable f : string -> string.

Definition calls_cascade (text : string) : result (list CallRecord) :=
  match calls_strategy1 f text with
  | (_ :: _) as results => Ok results
  | [] =>
      match calls_strategy2 f text with
      | (_ :: _) as results => Ok results
      | [] =>
          match calls_strategy3 f CALL_ALT_PATTERNS text [] with
          | Some results => Ok results
          | None => Ok (calls_strategy4 f text)
          end
      end
  end.

Lemma parse_calls_unfold : forall raw,
  parse_calls_text f raw
  = if negb (truthy raw) then Ok []
    else if negb (truthy (strip (without_comments raw))) then Ok []
         else calls_cascade (without_comments raw).
Proof. reflexivity. Qed.

Lemma calls_strategy3_newline : forall patterns text acc,
  (forall p x, In p patterns -> match_at p (String "010" x) = None) ->
  calls_strategy3 f patterns (String "010" text) acc
  = calls_strategy3 f patterns text acc.
Proof.
  induction patterns as [|p rest IH]; intros text acc H; [reflexivity|].
  cbn [calls_strategy3].
  rewrite finditer_skip by (apply H; left; reflexivity).
  destruct (fold_left _ (finditer p text) acc); [|reflexivity].
  apply IH. intros q x Hq. apply H. right. exact Hq.
Qed.

Lemma calls_cascade_newline : forall text,
  calls_cascade (String "010" text) = calls_cascade text.
Proof.
  intros text. unfold calls_cascade.
  assert (H1 : calls_strategy1 f (String "010" text) = calls_strategy1 f text).
  { unfold calls_strategy1. rewrite finditer_skip by reflexivity. reflexivity. }
  assert (H2 : calls_strategy2 f (String "010" text) = calls_strategy2 f text).
  { unfold calls_strategy2.
    rewrite (splitlines_newline text). reflexivity. }
  assert (H3 : calls_strategy3 f CALL_ALT_PATTERNS (String "010" text) []
               = calls_strategy3 f CALL_ALT_PATTERNS text []).
  { apply calls_strategy3_newline. intros p x Hp.
    unfold CALL_ALT_PATTERNS in Hp. cbn [In] in Hp.
    destruct Hp as [<-|[<-|[]]]; reflexivity. }
  assert (H4 : calls_strategy4 f (String "010" text) = calls_strategy4 f text).
  { unfold calls_strategy4.
    rewrite (splitlines_newline text). reflexivity. }
  rewrite H1, H2, H3, H4. reflexivity.
Qed.

Lemma parse_calls_blank_line : forall result,
  parse_calls_text f (String "010" result) = parse_calls_text f result.
Proof.
  intros result. rewrite !parse_calls_unfold. cbn [truthy negb].
  rewrite without_comments_blank.
  destruct (filter (fun line => negb (startswith "#" line)) (splitlines result))
    as [|x xs] eqn:E.
  - cbn [strip rstrip lstrip truthy negb].
    destruct (negb (truthy result)); [reflexivity|].
    unfold without_comments. rewrite E. reflexivity.
  - assert (Hr : truthy result = true).
    { destruct result; [discriminate E|reflexivity]. }
    rewrite Hr. cbn [negb]. rewrite strip_leading_newline.
    destruct (negb (truthy (strip (without_comments result)))); [reflexivity|].
    apply calls_cascade_newline.
Qed.

Lemma parse_calls_commented : forall lines result,
  forallb comment_line lines = true ->
  parse_calls_text f (comment_block lines ++ String "010" result)
  = parse_calls_text f result.
Proof.
  intros lines result H.
  rewrite <- (parse_calls_blank_line result).
  rewrite (parse_calls_unfold (comment_block lines ++ String "010" result)).
  rewrite (parse_calls_unfold (String "010" result)).
  rewrite truthy_append_cons, (without_comments_block lines _ H). reflexivity.
Qed.

End CallsHeader.

End HeaderFacts.

(* ===================================================================== *)
(** * Live queries: the metadata header and the parsers *)
(* ===================================================================== *)

Module LiveFacts.
Import PyStr StrFacts RegexFacts TextFacts Clock Query Regex Parsers ParserFacts.
Import Device Dumps HeaderFacts.

(** ** The values written into a header hold no line boundary *)

Lemma one_line_append : forall a b,
  one_line (a ++ b) = one_line a && one_line b.
Proof. intros a b. apply all_chars_append. Qed.

Lemma digit_is_no_linebreak : forall c, is_digit c = true -> is_linebreak c = false.
Proof.
  intros c H. unfold is_digit in H. unfold is_linebreak.
  apply andb_prop in H as [H1 H2].
  apply N.leb_le in H1. apply N.leb_le in H2.
  assert (E1 : (code c <=? 13)%N = false) by (apply N.leb_gt; lia).
  assert (E2 : (code c <=? 30)%N = false) by (apply N.leb_gt; lia).
  assert (E3 : (code c =? 133)%N = false) by (apply N.eqb_neq; lia).
  rewrite E1, E2, E3, !andb_false_r. reflexivity.
Qed.

Lemma one_line_digit_char : forall n acc,
  one_line acc = true -> one_line (String (digit_char n) acc) = true.
Proof.
  intros n acc H. unfold one_line in *. cbn [all_chars].
  rewrite (digit_is_no_linebreak _ (digit_char_is_digit n)), H. reflexivity.
Qed.

Lemma one_line_nat_digits : forall fuel n acc,
  one_line acc = true -> one_line (nat_digits fuel n acc) = true.
Proof.
  induction fuel as [|fuel IH]; intros n acc H; [exact H|].
  cbn [nat_digits]. destruct (n <? 10)%Z.
  - apply one_line_digit_char, H.
  - apply IH, one_line_digit_char, H.
Qed.

Lemma one_line_str_of_int : forall n, one_line (str_of_int n) = true.
Proof.
  intros n. unfold str_of_int. destruct (n <? 0)%Z.
  - change (one_line (String "-" ?s)) with (one_line s).
    apply one_line_nat_digits. reflexivity.
  - apply one_line_nat_digits. reflexivity.
Qed.

Lemma one_line_pad2 : forall n rest,
  one_line rest = true -> one_line (pad2 n ++ rest) = true.
Proof.
  intros n rest H. unfold pad2. cbn [append].
  apply one_line_digit_char, one_line_digit_char, H.
Qed.

Lemma one_line_strftime : forall dt, one_line (strftime dt) = true.
Proof.
  intros dt. unfold strftime, year_str.
  rewrite one_line_append, one_line_str_of_int. cbn [andb append].
  change (one_line (String "-" ?s)) with (one_line s).
  apply one_line_pad2. change (one_line (String "-" ?s)) with (one_line s).
  apply one_line_pad2. change (one_line (String " " ?s)) with (one_line s).
  apply one_line_pad2. change (one_line (String ":" ?s)) with (one_line s).
  apply one_line_pad2. change (one_line (String ":" ?s)) with (one_line s).
  rewrite <- (append_nil_r (pad2 (second dt))). apply one_line_pad2. reflexivity.
Qed.

(** ** What the query engine can return *)

(** What the engine answers from the lists [uris] and [projs]: a success
    names one URI and one projection of the lists; the failure names
    none and carries the fixed message. *)
Definition engine_answer (uris projs : list string) (label : string)
  (r : QueryResult) : Prop :=
  (success r = true
   /\ exists u p, uri_used r = Some u /\ projection_used r = Some p
                  /\ In u uris /\ In p projs)
  \/ r = mkQueryResult false ("All " ++ label ++ " query attempts failed.")%string
           None None.

Lemma engine_answers : forall (World : Type) (run : list string -> St.M World string)
    uris projs label w,
  engine_answer uris projs label
    (fst (query_content_provider_with_fallbacks run uris projs label w)).
Proof.
  intros World run uris projs label w.
  unfold query_content_provider_with_fallbacks, St.bind.
  destruct (try_uris_spec World run uris projs w)
    as [(w' & _ & Ht)|(pre & u & p & post & wa & o & wb & Hp & _ & _ & _ & Ht)];
    rewrite Ht; cbn [fst St.ret].
  - right. reflexivity.
  - left. split; [reflexivity|]. exists u, p. cbn.
    assert (Hin : In (u, p) (list_prod uris projs))
      by (rewrite Hp; apply in_or_app; right; left; reflexivity).
    apply in_prod_iff in Hin. repeat split; apply Hin.
Qed.

(** The URI and projection of an answer hold no line boundary when the
    lists hold none. *)
Lemma engine_answer_one_line : forall uris projs label r,
  forallb one_line uris = true -> forallb one_line projs = true ->
  engine_answer uris projs label r ->
  one_line (str_of_opt (uri_used r)) = true
  /\ one_line (str_of_opt (projection_used r)) = true.
Proof.
  intros uris projs label r Hu Hp [(_ & u & p & -> & -> & Iu & Ip)| ->].
  - rewrite forallb_forall in Hu, Hp. split; [apply Hu, Iu|apply Hp, Ip].
  - split; reflexivity.
Qed.

(** ** Live queries *)

Lemma live_text_is_commented : forall info r,
  (live_metadata info r ++ raw_text r)%string
  = (comment_block
       [("# Device: " ++ manufacturer info ++ " " ++ model info)%string;
        ("# URI: " ++ str_of_opt (uri_used r))%string;
        ("# Projection: " ++ str_of_opt (projection_used r))%string;
        ("# Success: " ++ str_of_bool (success r))%string]
     ++ String "010" (raw_text r))%string.
Proof.
  intros info r. unfold live_metadata, newline. cbn [comment_block].
  repeat (rewrite ?append_assoc; cbn [append]). reflexivity.
Qed.

Lemma live_header_lines : forall info r,
  one_line (manufacturer info) = true -> one_line (model info) = true ->
  one_line (str_of_opt (uri_used r)) = true ->
  one_line (str_of_opt (projection_used r)) = true ->
  forallb comment_line
    [("# Device: " ++ manufacturer info ++ " " ++ model info)%string;
     ("# URI: " ++ str_of_opt (uri_used r))%string;
     ("# Projection: " ++ str_of_opt (projection_used r))%string;
     ("# Success: " ++ str_of_bool (success r))%string] = true.
Proof.
  intros info r H1 H2 H3 H4. unfold comment_line. cbn [forallb].
  rewrite !one_line_append, H1, H2, H3, H4.
  destruct (success r); reflexivity.
Qed.

Lemma query_live_unfold : forall (World : Type)
    (run_adb : list string -> Z -> St.M World string) uris projs label w,
  fst (query_live run_adb uris projs label w)
  = (live_metadata (fst (detect_device_manufacturer run_adb w))
       (fst (query_content_provider_with_fallbacks (adb run_adb) uris projs label
               (snd (detect_device_manufacturer run_adb w))))
     ++ raw_text
          (fst (query_content_provider_with_fallbacks (adb run_adb) uris projs label
                  (snd (detect_device_manufacturer run_adb w)))))%string.
Proof.
  intros World run_adb uris projs label w. unfold query_live, St.bind.
  destruct (detect_device_manufacturer run_adb w) as [info w1]. cbn [fst snd].
  destruct (query_content_provider_with_fallbacks (adb run_adb) uris projs label w1)
    as [r w2].
  reflexivity.
Qed.

(** X10: Parsing what [query_sms_live] returns gives what parsing the
    provider output alone gives: the metadata lines are comment lines
    and the blank line after them changes nothing -- provided the
    manufacturer and model properties of the device hold no line
    boundary.  In particular, when every query failed no record is
    parsed. *)
Theorem live_sms_header_is_ignored :
  forall (World : Type) (run_adb : list string -> Z -> St.M World string)
         (f : string -> string) (w : World),
    let info := fst (detect_device_manufacturer run_adb w) in
    let r := fst (query_content_provider_with_fallbacks (adb run_adb)
                    SMS_LIVE_URIS SMS_LIVE_PROJECTIONS "SMS"
                    (snd (detect_device_manufacturer run_adb w))) in
    one_line (manufacturer info) = true ->
    one_line (model info) = true ->
    parse_sms_text f (fst (query_sms_live run_adb w)) = parse_sms_text f (raw_text r)
    /\ (success r = false -> parse_sms_text f (fst (query_sms_live run_adb w)) = Ok []).
Proof.
  intros World run_adb f w info r H1 H2.
  pose proof (engine_answers World (adb run_adb) SMS_LIVE_URIS SMS_LIVE_PROJECTIONS "SMS"
                (snd (detect_device_manufacturer run_adb w))) as Ha.
  fold r in Ha.
  destruct (engine_answer_one_line SMS_LIVE_URIS SMS_LIVE_PROJECTIONS "SMS" r
              eq_refl eq_refl Ha) as [H3 H4].
  assert (E : parse_sms_text f (fst (query_sms_live run_adb w))
              = parse_sms_text f (raw_text r)).
  { unfold query_sms_live. rewrite query_live_unfold. fold info. fold r.
    rewrite live_text_is_commented.
    apply parse_sms_commented, live_header_lines; assumption. }
  split; [exact E|].
  intros Hs. rewrite E.
  destruct Ha as [(Ht & _)| ->]; [congruence|].
  vm_compute. reflexivity.
Qed.

(** X11: Parsing what [query_calls_live] returns gives what [parse_calls_text]
    gives on the provider output alone: the metadata lines are comment
    lines and the blank line after them changes nothing -- provided the
    manufacturer and model properties of the device hold no line
    boundary.  In particular, when every query failed no record is
    parsed. *)
Theorem live_calls_header_is_ignored :
  forall (World : Type) (run_adb : list string -> Z -> St.M World string)
         (f : string -> string) (w : World),
    let info := fst (detect_device_manufacturer run_adb w) in
    let r := fst (query_content_provider_with_fallbacks (adb run_adb)
                    CALLS_LIVE_URIS CALLS_LIVE_PROJECTIONS "Call Logs"
                    (snd (detect_device_manufacturer run_adb w))) in
    one_line (manufacturer info) = true ->
    one_line (model info) = true ->
    parse_calls_text f (fst (query_calls_live run_adb w)) = parse_calls_text f (raw_text r)
    /\ (success r = false -> parse_calls_text f (fst (query_calls_live run_adb w)) = Ok []).
Proof.
  intros World run_adb f w info r H1 H2.
  pose proof (engine_answers World (adb run_adb) CALLS_LIVE_URIS CALLS_LIVE_PROJECTIONS
                "Call Logs" (snd (detect_device_manufacturer run_adb w))) as Ha.
  fold r in Ha.
  destruct (engine_answer_one_line CALLS_LIVE_URIS CALLS_LIVE_PROJECTIONS "Call Logs" r
              eq_refl eq_refl Ha) as [H3 H4].
  assert (E : parse_calls_text f (fst (query_calls_live run_adb w))
              = parse_calls_text f (raw_text r)).
  { unfold query_calls_live. rewrite query_live_unfold. fold info. fold r.
    rewrite live_text_is_commented.
    apply parse_calls_commented, live_header_lines; assumption. }
  split; [exact E|].
  intros Hs. rewrite E.
  destruct Ha as [(Ht & _)| ->]; [congruence|].
  vm_compute. reflexivity.
Qed.

(** A phone that answers the second SMS query. *)
Definition phone_table (args : list string) : string :=
  if list_eq_dec string_dec args ["shell"; "getprop"; "ro.product.manufacturer"]
  then "Xiaomi"
  else if list_eq_dec string_dec args ["shell"; "getprop"; "ro.product.model"]
  then "Redmi Note 8"
  else if list_eq_dec string_dec args ["shell"; "getprop"; "ro.product.brand"]
  then "Redmi"
  else if list_eq_dec string_dec args ["shell"; "getprop"; "ro.build.version.sdk"]
  then "29"
  else if list_eq_dec string_dec args
            (query_args "content://sms/" "address:date:body")
  then "Row: 0 address=+15551234567, date=1700000000000, body=Hello there"
  else if list_eq_dec string_dec args
            (query_args "content://call_log/calls" "name:number:duration:date")
  then "Row: 0 name=Bob, number=777, duration=12, date=1700000000000"
  else "java.lang.SecurityException: Permission Denial".

Definition phone : list string -> Z -> St.M unit string :=
  fun args _ w => (phone_table args, w).

Lemma live_sms_header_is_ignored_witness :
  parse_sms_text (epoch_ms_to_str utc) (fst (query_sms_live phone tt))
  = Ok [mkSms "+15551234567" "1700000000000" "2023-11-14 22:13:20" "Hello there"].
Proof.
  rewrite (proj1 (live_sms_header_is_ignored unit phone (epoch_ms_to_str utc) tt
                    eq_refl eq_refl)).
  vm_compute. reflexivity.
Defined.

Lemma live_calls_header_is_ignored_witness :
  parse_calls_text (epoch_ms_to_str utc) (fst (query_calls_live phone tt))
  = Ok [mkCall "Bob" "777" "12" "1700000000000" "2023-11-14 22:13:20"].
Proof.
  rewrite (proj1 (live_calls_header_is_ignored unit phone (epoch_ms_to_str utc) tt
                    eq_refl eq_refl)).
  vm_compute. reflexivity.
Defined.

End LiveFacts.

(* ===================================================================== *)
(** * Dumps: what is written parses like the provider output *)
(* ===================================================================== *)

Module DumpFacts.
Import PyStr StrFacts RegexFacts TextFacts Clock Query Regex Parsers ParserFacts.
Import Device Dumps HeaderFacts LiveFacts.

(** What a file holds, the empty text for a file that is not there. *)
Definition content_at (path : string) (fs : Files) : string :=
  match fs path with Some c => c | None => EmptyString end.

Lemma content_at_set : forall path c fs, content_at path (set_file path c fs) = c.
Proof. intros path c fs. unfold content_at, set_file. rewrite String.eqb_refl. reflexivity. Qed.

Section Writes.

Variable World : Type.
Variable now : St.M World datetime.
Variable write_error : string -> string -> Files -> option string.

Lemma f_write_ok : forall path text (s s' : State World),
  f_write write_error path text s = (None, s') ->
  s' = (fst s, set_file path (content_at path (snd s) ++ text) (snd s)).
Proof.
  intros path text s s' H. unfold f_write in H.
  destruct (write_error path text (snd s)); [discriminate|].
  injection H as <-. reflexivity.
Qed.

Lemma and_then_ok : forall (m k : St.M (State World) (option string)) s s',
  and_then World m k s = (None, s') ->
  exists s1, m s = (None, s1) /\ k s1 = (None, s').
Proof.
  intros m k s s' H. unfold and_then, St.bind in H.
  destruct (m s) as [[e|] s1]; [discriminate|].
  exists s1. split; [reflexivity|exact H].
Qed.

(** When none of the seven writes raises, the file has grown by the six
    header writes and the provider output; the time in the header is
    what the clock says at that point. *)
Lemma write_dump_ok : forall path info r (s s' : State World),
  write_dump now write_error path info r s = (None, s') ->
  content_at path (snd s')
  = (content_at path (snd s)
     ++ String.concat "" (dump_header info r (fst (timestamp now (fst s))))
     ++ raw_text r)%string.
Proof.
  intros path info r s s' H. unfold write_dump in H.
  apply and_then_ok in H as (s1 & H1 & H). apply f_write_ok in H1.
  apply and_then_ok in H as (s2 & H2 & H). apply f_write_ok in H2.
  apply and_then_ok in H as (s3 & H3 & H). apply f_write_ok in H3.
  apply and_then_ok in H as (s4 & H4 & H). apply f_write_ok in H4.
  apply and_then_ok in H as (s5 & H5 & H).
  apply and_then_ok in H as (s6 & H6 & H). apply f_write_ok in H6.
  apply f_write_ok in H.
  unfold St.bind, on_device, timestamp, St.bind, St.ret in H5.
  destruct (now (fst s4)) as [dt w5] eqn:En.
  apply f_write_ok in H5. cbn [fst snd] in H5.
  subst s' s6 s5 s4 s3 s2 s1. cbn [fst snd] in *.
  unfold timestamp, St.bind, St.ret. rewrite En. cbn [fst].
  rewrite !content_at_set. unfold dump_header. cbn [String.concat].
  rewrite !append_assoc. reflexivity.
Qed.

End Writes.

Lemma dump_text_is_commented : forall info r stamp,
  (String.concat "" (dump_header info r stamp) ++ raw_text r)%string
  = (comment_block
       [("# Device: " ++ manufacturer info ++ " " ++ model info)%string;
        ("# SDK: " ++ str_of_int (sdk info))%string;
        ("# URI used: " ++ str_of_opt (uri_used r))%string;
        ("# Projection: " ++ str_of_opt (projection_used r))%string;
        ("# Timestamp: " ++ stamp)%string;
        ("# Success: " ++ str_of_bool (success r))%string]
     ++ String "010" (raw_text r))%string.
Proof.
  intros info r stamp. unfold dump_header, newline. cbn [String.concat comment_block].
  repeat (rewrite ?append_assoc; cbn [append]). reflexivity.
Qed.

Lemma dump_header_lines : forall info r stamp,
  one_line (manufacturer info) = true -> one_line (model info) = true ->
  one_line (str_of_opt (uri_used r)) = true ->
  one_line (str_of_opt (projection_used r)) = true ->
  one_line stamp = true ->
  forallb comment_line
    [("# Device: " ++ manufacturer info ++ " " ++ model info)%string;
     ("# SDK: " ++ str_of_int (sdk info))%string;
     ("# URI used: " ++ str_of_opt (uri_used r))%string;
     ("# Projection: " ++ str_of_opt (projection_used r))%string;
     ("# Timestamp: " ++ stamp)%string;
     ("# Success: " ++ str_of_bool (success r))%string] = true.
Proof.
  intros info r stamp H1 H2 H3 H4 H5. unfold comment_line. cbn [forallb].
  rewrite !one_line_append, H1, H2, H3, H4, H5, one_line_str_of_int.
  destruct (success r); reflexivity.
Qed.

(** The text of a dump: six header lines, a blank line and the provider
    output. *)
Lemma dump_text_lines : forall info r stamp,
  (String.concat "" (dump_header info r stamp) ++ raw_text r)%string
  = ("# Device: " ++ manufacturer info ++ " " ++ model info ++ newline
     ++ "# SDK: " ++ str_of_int (sdk info) ++ newline
     ++ "# URI used: " ++ str_of_opt (uri_used r) ++ newline
     ++ "# Projection: " ++ str_of_opt (projection_used r) ++ newline
     ++ "# Timestamp: " ++ stamp ++ newline
     ++ "# Success: " ++ str_of_bool (success r) ++ newline
     ++ newline
     ++ raw_text r)%string.
Proof.
  intros info r stamp. unfold dump_header, newline. cbn [String.concat].
  repeat (rewrite ?append_assoc; cbn [append]). reflexivity.
Qed.

(** What a dump function does unless it fails to save: the file named
    after the clock holds the header and the provider output, and the
    message names the file. *)
Lemma dump_enhanced_saved : forall (World : Type)
    (run_adb : list string -> Z -> St.M World string) (now : St.M World datetime)
    path_join open_error write_error uris projs label prefix saved attempted failed
    dest (s : State World),
  dest <> EmptyString ->
  let info := fst (detect_device_manufacturer run_adb (fst s)) in
  let answer := query_content_provider_with_fallbacks (adb run_adb) uris projs label
                  (snd (detect_device_manufacturer run_adb (fst s))) in
  let r := fst answer in
  let path := path_join dest (prefix ++ fst (fname_timestamp now (snd answer)) ++ ".txt")%string in
  let stamp := fst (timestamp now (snd (fname_timestamp now (snd answer)))) in
  let out := dump_enhanced run_adb now path_join open_error write_error
               uris projs label prefix saved attempted failed dest s in
  (exists e, fst out = failed e)
  \/ (snd (snd out) path
      = Some (String.concat "" (dump_header info r stamp) ++ raw_text r)%string
      /\ fst out = (if success r then saved path else attempted path)).
Proof.
  intros World run_adb now path_join open_error write_error uris projs label prefix
    saved attempted failed dest s Hd info answer r path stamp out.
  subst info answer r path stamp out. unfold dump_enhanced.
  destruct dest as [|d0 dest']; [contradiction|]. cbn [truthy negb].
  unfold St.bind, on_device.
  destruct (detect_device_manufacturer run_adb (fst s)) as [info w1]. cbn [fst snd].
  destruct (query_content_provider_with_fallbacks (adb run_adb) uris projs label w1)
    as [r w2]. cbn [fst snd].
  destruct (fname_timestamp now w2) as [stamp w3]. cbn [fst snd].
  destruct (open_error _ (snd s)) as [e|]; [left; exists e; reflexivity|].
  destruct (write_dump now write_error _ info r _) as [[e|] s'] eqn:Ew;
    [left; exists e; reflexivity|].
  right. apply write_dump_ok in Ew. cbn [fst snd] in Ew.
  rewrite content_at_set in Ew. cbn [append] in Ew.
  cbn [fst snd]. split; [|reflexivity].
  unfold content_at in Ew.
  destruct (snd s' (path_join (String d0 dest') (prefix ++ stamp ++ ".txt")%string))
    as [c|] eqn:Ec; [rewrite Ew; reflexivity|].
  exfalso. unfold dump_header in Ew. cbn in Ew. discriminate Ew.
Qed.

(** X12: A dump written by [dump_sms_enhanced] parses like the provider
    output it holds.  Unless the function returns its "Failed to save"
    message, the file [sms_<time>.txt] in the destination holds exactly
    six comment lines (device, SDK, URI, projection, time, success), a
    blank line and the provider output; the message names that file and
    tells success from failure of the queries; and [parse_sms_text] on
    the text of the file gives what it gives on the provider output
    alone, provided the manufacturer and model properties hold no line
    boundary. *)
Theorem sms_dump_parses_like_provider_output :
  forall (World : Type) (run_adb : list string -> Z -> St.M World string)
         (now : St.M World datetime) (path_join : string -> string -> string)
         (open_error : string -> Files -> option string)
         (write_error : string -> string -> Files -> option string)
         (f : string -> string) (dest : string) (s : State World),
    dest <> EmptyString ->
    let info := fst (detect_device_manufacturer run_adb (fst s)) in
    let answer := query_content_provider_with_fallbacks (adb run_adb)
                    SMS_DUMP_URIS SMS_DUMP_PROJECTIONS "SMS"
                    (snd (detect_device_manufacturer run_adb (fst s))) in
    let r := fst answer in
    let path := path_join dest
                  ("sms_" ++ fst (fname_timestamp now (snd answer)) ++ ".txt")%string in
    let stamp := fst (timestamp now (snd (fname_timestamp now (snd answer)))) in
    let text := ("# Device: " ++ manufacturer info ++ " " ++ model info ++ newline
                 ++ "# SDK: " ++ str_of_int (sdk info) ++ newline
                 ++ "# URI used: " ++ str_of_opt (uri_used r) ++ newline
                 ++ "# Projection: " ++ str_of_opt (projection_used r) ++ newline
                 ++ "# Timestamp: " ++ stamp ++ newline
                 ++ "# Success: " ++ str_of_bool (success r) ++ newline
                 ++ newline
                 ++ raw_text r)%string in
    let out := dump_sms_enhanced run_adb now path_join open_error write_error dest s in
    startswith "Failed to save" (fst out) = false ->
    snd (snd out) path = Some text
    /\ fst out
       = (if success r then "SMS dumped successfully -> " ++ path
          else "SMS dump attempted with errors -> " ++ path ++ newline
               ++ "Try: adb shell content query --uri content://sms/")%string
    /\ (one_line (manufacturer info) = true -> one_line (model info) = true ->
        parse_sms_text f text = parse_sms_text f (raw_text r)).
Proof.
  intros World run_adb now path_join open_error write_error f dest s Hd
    info answer r path stamp text out Hf.
  subst out. unfold dump_sms_enhanced in *.
  destruct (dump_enhanced_saved World run_adb now path_join open_error write_error
              SMS_DUMP_URIS SMS_DUMP_PROJECTIONS "SMS" "sms_"
              (fun path => ("SMS dumped successfully -> " ++ path)%string)
              (fun path => ("SMS dump attempted with errors -> " ++ path ++ newline
                            ++ "Try: adb shell content query --uri content://sms/")%string)
              (fun e => ("Failed to save SMS dump: " ++ e)%string) dest s Hd)
    as [[e He]|(Htext & Hmsg)].
  - exfalso. rewrite He in Hf. discriminate Hf.
  - fold info answer in Htext, Hmsg. fold r in Htext, Hmsg.
    fold stamp in Htext. fold path in Htext, Hmsg.
    rewrite dump_text_lines in Htext. fold text in Htext.
    split; [exact Htext|]. split; [exact Hmsg|].
    intros H1 H2.
    pose proof (engine_answers World (adb run_adb) SMS_DUMP_URIS SMS_DUMP_PROJECTIONS "SMS"
                  (snd (detect_device_manufacturer run_adb (fst s)))) as Ha.
    fold answer in Ha. fold r in Ha.
    destruct (engine_answer_one_line SMS_DUMP_URIS SMS_DUMP_PROJECTIONS "SMS" r
                eq_refl eq_refl Ha) as [H3 H4].
    subst text. rewrite <- dump_text_lines, dump_text_is_commented.
    apply parse_sms_commented, dump_header_lines; try assumption.
    subst stamp. unfold timestamp, St.bind, St.ret.
    destruct (now _) as [dt w]. apply one_line_strftime.
Qed.

(** X13: A dump written by [dump_calls_enhanced] parses like the provider
    output it holds.  Unless the function returns its "Failed to save"
    message, the file [calls_<time>.txt] in the destination holds exactly
    six comment lines, a blank line and the provider output; the message
    names that file and tells success from failure of the queries; and
    [parse_calls_text] on the text of the file gives what it gives on the
    provider output alone, provided the manufacturer and model properties
    hold no line boundary. *)
Theorem calls_dump_parses_like_provider_output :
  forall (World : Type) (run_adb : list string -> Z -> St.M World string)
         (now : St.M World datetime) (path_join : string -> string -> string)
         (open_error : string -> Files -> option string)
         (write_error : string -> string -> Files -> option string)
         (f : string -> string) (dest : string) (s : State World),
    dest <> EmptyString ->
    let info := fst (detect_device_manufacturer run_adb (fst s)) in
    let answer := query_content_provider_with_fallbacks (adb run_adb)
                    CALLS_DUMP_URIS CALLS_DUMP_PROJECTIONS "Call Logs"
                    (snd (detect_device_manufacturer run_adb (fst s))) in
    let r := fst answer in
    let path := path_join dest
                  ("calls_" ++ fst (fname_timestamp now (snd answer)) ++ ".txt")%string in
    let stamp := fst (timestamp now (snd (fname_timestamp now (snd answer)))) in
    let text := ("# Device: " ++ manufacturer info ++ " " ++ model info ++ newline
                 ++ "# SDK: " ++ str_of_int (sdk info) ++ newline
                 ++ "# URI used: " ++ str_of_opt (uri_used r) ++ newline
                 ++ "# Projection: " ++ str_of_opt (projection_used r) ++ newline
                 ++ "# Timestamp: " ++ stamp ++ newline
                 ++ "# Success: " ++ str_of_bool (success r) ++ newline
                 ++ newline
                 ++ raw_text r)%string in
    let out := dump_calls_enhanced run_adb now path_join open_error write_error dest s in
    startswith "Failed to save" (fst out) = false ->
    snd (snd out) path = Some text
    /\ fst out
       = (if success r then "Call logs dumped successfully -> " ++ path
          else "Call log dump attempted with errors -> " ++ path)%string
    /\ (one_line (manufacturer info) = true -> one_line (model info) = true ->
        parse_calls_text f text = parse_calls_text f (raw_text r)).
Proof.
  intros World run_adb now path_join open_error write_error f dest s Hd
    info answer r path stamp text out Hf.
  subst out. unfold dump_calls_enhanced in *.
  destruct (dump_enhanced_saved World run_adb now path_join open_error write_error
              CALLS_DUMP_URIS CALLS_DUMP_PROJECTIONS "Call Logs" "calls_"
              (fun path => ("Call logs dumped successfully -> " ++ path)%string)
              (fun path => ("Call log dump attempted with errors -> " ++ path)%string)
              (fun e => ("Failed to save call log dump: " ++ e)%string) dest s Hd)
    as [[e He]|(Htext & Hmsg)].
  - exfalso. rewrite He in Hf. discriminate Hf.
  - fold info answer in Htext, Hmsg. fold r in Htext, Hmsg.
    fold stamp in Htext. fold path in Htext, Hmsg.
    rewrite dump_text_lines in Htext. fold text in Htext.
    split; [exact Htext|]. split; [exact Hmsg|].
    intros H1 H2.
    pose proof (engine_answers World (adb run_adb) CALLS_DUMP_URIS CALLS_DUMP_PROJECTIONS
                  "Call Logs" (snd (detect_device_manufacturer run_adb (fst s)))) as Ha.
    fold answer in Ha. fold r in Ha.
    destruct (engine_answer_one_line CALLS_DUMP_URIS CALLS_DUMP_PROJECTIONS "Call Logs" r
                eq_refl eq_refl Ha) as [H3 H4].
    subst text. rewrite <- dump_text_lines, dump_text_is_commented.
    apply parse_calls_commented, dump_header_lines; try assumption.
    subst stamp. unfold timestamp, St.bind, St.ret.
    destruct (now _) as [dt w]. apply one_line_strftime.
Qed.

(** A workstation whose clock stands still and whose disk never fails. *)
Definition still_clock : St.M unit datetime :=
  fun w => (mkDatetime 2024 1 2 3 4 5, w).

Definition no_files : Files := fun _ => None.

Definition never_fails_open : string -> Files -> option string := fun _ _ => None.
Definition never_fails_write : string -> string -> Files -> option string :=
  fun _ _ _ => None.

Definition slash_join (a b : string) : string := (a ++ "/" ++ b)%string.

Lemma sms_dump_parses_like_provider_output_witness :
  snd (snd (dump_sms_enhanced phone still_clock slash_join never_fails_open
              never_fails_write "/out" (tt, no_files)))
      "/out/sms_2024-01-02_03-04-05.txt"
  = Some ("# Device: xiaomi redmi note 8" ++ newline
          ++ "# SDK: 29" ++ newline
          ++ "# URI used: content://sms/" ++ newline
          ++ "# Projection: address:date:body" ++ newline
          ++ "# Timestamp: 2024-01-02 03:04:05" ++ newline
          ++ "# Success: True" ++ newline
          ++ newline
          ++ "Row: 0 address=+15551234567, date=1700000000000, body=Hello there")%string
  /\ fst (dump_sms_enhanced phone still_clock slash_join never_fails_open
            never_fails_write "/out" (tt, no_files))
     = "SMS dumped successfully -> /out/sms_2024-01-02_03-04-05.txt"
  /\ parse_sms_text (epoch_ms_to_str utc)
       ("# Device: xiaomi redmi note 8" ++ newline
        ++ "# SDK: 29" ++ newline
        ++ "# URI used: content://sms/" ++ newline
        ++ "# Projection: address:date:body" ++ newline
        ++ "# Timestamp: 2024-01-02 03:04:05" ++ newline
        ++ "# Success: True" ++ newline
        ++ newline
        ++ "Row: 0 address=+15551234567, date=1700000000000, body=Hello there")%string
     = Ok [mkSms "+15551234567" "1700000000000" "2023-11-14 22:13:20" "Hello there"].
Proof.
  destruct (sms_dump_parses_like_provider_output unit phone still_clock slash_join
              never_fails_open never_fails_write (epoch_ms_to_str utc) "/out"
              (tt, no_files) ltac:(discriminate) eq_refl)
    as (H1 & H2 & H3).
  split; [exact H1|]. split; [exact H2|].
  etransitivity; [exact (H3 eq_refl eq_refl)|]. vm_compute. reflexivity.
Defined.

Lemma calls_dump_parses_like_provider_output_witness :
  snd (snd (dump_calls_enhanced phone still_clock slash_join never_fails_open
              never_fails_write "/out" (tt, no_files)))
      "/out/calls_2024-01-02_03-04-05.txt"
  = Some ("# Device: xiaomi redmi note 8" ++ newline
          ++ "# SDK: 29" ++ newline
          ++ "# URI used: content://call_log/calls" ++ newline
          ++ "# Projection: name:number:duration:date" ++ newline
          ++ "# Timestamp: 2024-01-02 03:04:05" ++ newline
          ++ "# Success: True" ++ newline
          ++ newline
          ++ "Row: 0 name=Bob, number=777, duration=12, date=1700000000000")%string
  /\ fst (dump_calls_enhanced phone still_clock slash_join never_fails_open
            never_fails_write "/out" (tt, no_files))
     = "Call logs dumped successfully -> /out/calls_2024-01-02_03-04-05.txt"
  /\ parse_calls_text (epoch_ms_to_str utc)
       ("# Device: xiaomi redmi note 8" ++ newline
        ++ "# SDK: 29" ++ newline
        ++ "# URI used: content://call_log/calls" ++ newline
        ++ "# Projection: name:number:duration:date" ++ newline
        ++ "# Timestamp: 2024-01-02 03:04:05" ++ newline
        ++ "# Success: True" ++ newline
        ++ newline
        ++ "Row: 0 name=Bob, number=777, duration=12, date=1700000000000")%string
     = Ok [mkCall "Bob" "777" "12" "1700000000000" "2023-11-14 22:13:20"].
Proof.
  destruct (calls_dump_parses_like_provider_output unit phone still_clock slash_join
              never_fails_open never_fails_write (epoch_ms_to_str utc) "/out"
              (tt, no_files) ltac:(discriminate) eq_refl)
    as (H1 & H2 & H3).
  split; [exact H1|]. split; [exact H2|].
  etransitivity; [exact (H3 eq_refl eq_refl)|]. vm_compute. reflexivity.
Defined.

End DumpFacts.

(* ===================================================================== *)
(** * The shape of parsed records *)
(* ===================================================================== *)

Module RecordShape.
Import PyStr StrFacts RegexFacts TextFacts Clock Regex Parsers ParserFacts.

(** ** Stripped values *)

Lemma trimmed_empty : trimmed EmptyString.
Proof. reflexivity. Qed.

Lemma trimmed_strip : forall s, trimmed (strip s).
Proof. intros s. apply strip_strip. Qed.

Lemma trimmed_safe_strip : forall v, trimmed (safe_strip v).
Proof. intros [v|]; [apply trimmed_strip|apply trimmed_empty]. Qed.

Lemma trimmed_safe_group : forall m g, trimmed (safe_group m g).
Proof.
  intros m g. unfold safe_group. destruct (group m g); [apply trimmed_strip|apply trimmed_empty].
Qed.

Lemma trimmed_first_truthy : forall candidates default,
  Forall (fun c => match c with Some v => trimmed v | None => True end) candidates ->
  trimmed default ->
  trimmed (first_truthy candidates default).
Proof.
  induction candidates as [|[v|] rest IH]; intros default H Hd; [exact Hd| |].
  - inversion H as [|? ? Hv Hrest]; subst. cbn [first_truthy].
    destruct (truthy v); [exact Hv|apply IH; assumption].
  - inversion H as [|? ? Hv Hrest]; subst. cbn [first_truthy]. apply IH; assumption.
Qed.

Lemma lookup_in : forall key (l : caps) v,
  lookup key l = Some v -> In (key, v) l.
Proof.
  intros key l v. induction l as [|[k x] l IH]; cbn [lookup]; [discriminate|].
  destruct (String.eqb k key) eqn:E.
  - intros H. injection H as ->. apply String.eqb_eq in E. subst k. left. reflexivity.
  - intros H. right. apply IH, H.
Qed.

(** The values of a dictionary built with [v.strip()] are stripped. *)
Lemma trimmed_dict_get : forall (g : string -> string) key pairs,
  match dict_get key (map (fun kv => (g (fst kv), strip (snd kv))) pairs) with
  | Some v => trimmed v
  | None => True
  end.
Proof.
  intros g key pairs.
  destruct (dict_get key _) as [v|] eqn:E; [|exact I].
  unfold dict_get in E. apply lookup_in, in_rev in E.
  apply in_map_iff in E as ([k x] & Heq & _). injection Heq as _ <-.
  apply trimmed_strip.
Qed.

(** A string without whitespace is left as it is by [strip]. *)
Lemma strip_no_space : forall s,
  all_chars (fun c => negb (is_space c)) s = true -> strip s = s.
Proof.
  intros s H. unfold strip.
  assert (Hr : rstrip s = s).
  { induction s as [|c r IH]; [reflexivity|].
    cbn in H. apply andb_prop in H as [Hc H].
    rewrite rstrip_cons, (IH H).
    destruct (is_space c); [discriminate|reflexivity]. }
  rewrite Hr. destruct s as [|c r]; [reflexivity|].
  cbn in H. apply andb_prop in H as [Hc _]. cbn [lstrip].
  destruct (is_space c); [discriminate|reflexivity].
Qed.

Lemma digit_is_no_space : forall c, digit c = true -> is_space c = false.
Proof.
  intros c H. unfold digit in H. unfold is_space.
  apply andb_prop in H as [H1 H2].
  apply N.leb_le in H1. apply N.leb_le in H2.
  assert (E1 : (code c <=? 13)%N = false) by (apply N.leb_gt; lia).
  assert (E2 : (code c <=? 32)%N = false) by (apply N.leb_gt; lia).
  assert (E3 : (code c =? 133)%N = false) by (apply N.eqb_neq; lia).
  assert (E4 : (code c =? 160)%N = false) by (apply N.eqb_neq; lia).
  rewrite E1, E2, E3, E4, !andb_false_r. reflexivity.
Qed.

Lemma all_chars_impl : forall (p q : ascii -> bool) s,
  (forall c, p c = true -> q c = true) ->
  all_chars p s = true -> all_chars q s = true.
Proof.
  intros p q s Hpq. induction s as [|c r IH]; [reflexivity|].
  cbn. intros H. apply andb_prop in H as [Hc H].
  rewrite (Hpq c Hc), (IH H). reflexivity.
Qed.

Lemma strip_digits : forall s, all_chars digit s = true -> strip s = s.
Proof.
  intros s H. apply strip_no_space.
  apply (all_chars_impl digit); [|exact H].
  intros c Hc. rewrite (digit_is_no_space c Hc). reflexivity.
Qed.

(** What [\d+] consumes. *)
Lemma den_digits : forall w c c',
  den (Plus true digit) w c c' ->
  all_chars digit w = true /\ w <> EmptyString /\ c' = c.
Proof.
  intros w c c' H. unfold Plus in H. cbn [den] in H.
  destruct H as (w1 & w2 & cm & -> & (a & -> & Ha & ->) & (Hw & ->)).
  repeat split; [|discriminate]. cbn. rewrite Ha, Hw. reflexivity.
Qed.

(** ** Contacts *)

Lemma contact_row_captures : forall w c',
  den CONTACT_ROW w [] c' ->
  exists name number,
    c' = [("number", number); ("name", name)]
    /\ all_chars dot name = true
    /\ all_chars number_char number = true.
Proof.
  intros w c' H. unfold CONTACT_ROW in H. cbn [cat den] in H.
  destruct H as (w1 & r1 & c1 & -> & H1 & H). apply den_LitNoCase in H1 as [_ ->].
  destruct H as (w2 & r2 & c2 & -> & (_ & ->) & H).
  destruct H as (w3 & r3 & c3 & -> & H3 & H). apply den_Plus in H3 as [_ ->].
  destruct H as (w4 & r4 & c4 & -> & H4 & H). apply den_Plus in H4 as [_ ->].
  destruct H as (w5 & r5 & c5 & -> & H5 & H). apply den_LitNoCase in H5 as [_ ->].
  destruct H as (name & r6 & c6 & -> & (c6' & (Hname & ->) & ->) & H).
  destruct H as (w7 & r7 & c7 & -> & H7 & H). apply den_LitNoCase in H7 as [_ ->].
  destruct H as (w8 & r8 & c8 & -> & (_ & ->) & H).
  destruct H as (w9 & r9 & c9 & -> & H9 & H). apply den_LitNoCase in H9 as [_ ->].
  destruct H as (number & r10 & c10 & -> & (c10' & Hnum & ->) & (-> & ->)).
  unfold Plus in Hnum. cbn [den] in Hnum.
  destruct Hnum as (n1 & n2 & cm & -> & (a & -> & Ha & ->) & (Hn & ->)).
  exists name, (String a n2). repeat split; [exact Hname|].
  cbn. rewrite Ha, Hn. reflexivity.
Qed.

(** What every record of the contact parser satisfies. *)
Definition clean_contact (c : ContactRecord) : Prop :=
  trimmed (contact_name c)
  /\ all_chars dot (contact_name c) = true
  /\ trimmed (contact_number c)
  /\ all_chars number_char (contact_number c) = true.

Lemma contact_rows_clean : forall matches acc records,
  (forall m, In m matches ->
     exists name number,
       m_caps m = [("number", number); ("name", name)]
       /\ all_chars dot name = true /\ all_chars number_char number = true) ->
  Forall clean_contact acc ->
  contact_rows matches acc = Ok records ->
  Forall clean_contact records.
Proof.
  induction matches as [|m ms IH]; intros acc records H Hacc Hr; cbn [contact_rows] in Hr.
  - injection Hr as <-. exact Hacc.
  - destruct (H m (or_introl eq_refl)) as (name & number & Hc & Hn & Hd).
    unfold group in Hr. rewrite Hc in Hr. cbn in Hr.
    apply (IH _ _ (fun m' Hm' => H m' (or_intror Hm')) ) in Hr; [exact Hr|].
    apply Forall_app. split; [exact Hacc|].
    constructor; [|constructor].
    repeat split; cbn [contact_name contact_number].
    + apply trimmed_strip.
    + apply all_chars_strip, Hn.
    + apply trimmed_strip.
    + apply all_chars_strip, Hd.
Qed.

(** X14: In every record [parse_contacts_text] returns, the name and the
    number have no whitespace at either end, the name holds no line feed,
    and the number is made of digits, [+], [(], [)], [-] and whitespace
    only. *)
Theorem contact_records_are_clean :
  forall (raw : string) (records : list ContactRecord),
    parse_contacts_text raw = Ok records ->
    Forall clean_contact records.
Proof.
  intros raw records H. unfold parse_contacts_text in H.
  destruct (negb (truthy raw)).
  - injection H as <-. constructor.
  - apply (contact_rows_clean (finditer CONTACT_ROW raw) [] records); [|constructor|exact H].
    intros m Hm. apply finditer_sound in Hm as (pre & w & _ & Hd).
    apply contact_row_captures in Hd as (name & number & Hc & Hn & Hnum).
    exists name, number. repeat split; assumption.
Qed.

Lemma contact_records_are_clean_witness :
  parse_contacts_text "Row: 0 display_name= Bob Stone , data1=+1 (555) 123-4567 x"
  = Ok [mkContact "Bob Stone" "+1 (555) 123-4567"]
  /\ Forall clean_contact [mkContact "Bob Stone" "+1 (555) 123-4567"].
Proof.
  split; [vm_compute; reflexivity|].
  apply (contact_records_are_clean
           "Row: 0 display_name= Bob Stone , data1=+1 (555) 123-4567 x").
  vm_compute. reflexivity.
Defined.

(** ** Call records *)

Section Calls.

Variable f : string -> string.

(** What every record of the call log parser satisfies: stripped fields,
    a duration that is not empty, and a date made from the epoch field. *)
Definition clean_call (c : CallRecord) : Prop :=
  trimmed (call_name c) /\ trimmed (call_number c)
  /\ trimmed (duration_seconds c) /\ trimmed (call_date_epoch_ms c)
  /\ duration_seconds c <> EmptyString
  /\ call_date c = date_of f (call_date_epoch_ms c).

Lemma clean_call_record : forall name number duration date_ms,
  trimmed name -> trimmed number -> trimmed duration -> trimmed date_ms ->
  duration <> EmptyString ->
  clean_call (call_record f name number duration date_ms).
Proof.
  intros name number duration date_ms H1 H2 H3 H4 H5.
  unfold clean_call, call_record. cbn. repeat split; assumption.
Qed.

(** A named group [duration] filled by [\d+] gives a non-empty value. *)
Definition has_duration (c : caps) : Prop :=
  exists d, lookup "duration" c = Some d /\ all_chars digit d = true
            /\ d <> EmptyString.

Lemma clean_call_of_match : forall m,
  has_duration (m_caps m) -> clean_call (call_of_match f m).
Proof.
  intros m (d & Hl & Hd & Hne). unfold call_of_match.
  apply clean_call_record; try apply trimmed_safe_group.
  unfold safe_group, group. rewrite Hl. cbn [safe_strip].
  rewrite (strip_digits d Hd). exact Hne.
Qed.

Lemma call_row_duration : forall w c',
  den CALL_ROW w [] c' -> has_duration c'.
Proof.
  intros w c' H. unfold CALL_ROW in H. cbn [cat den] in H.
  destruct H as (w1 & r1 & c1 & -> & H1 & H).
  assert (c1 = []) as ->.
  { destruct H1 as [H1|H1]; apply den_LitNoCase in H1 as [_ ->]; reflexivity. }
  destruct H as (w2 & r2 & c2 & -> & H2 & H). apply den_LitNoCase in H2 as [_ ->].
  destruct H as (name & r3 & c3 & -> & (c3' & (_ & ->) & ->) & H).
  destruct H as (w4 & r4 & c4 & -> & H4 & H). apply den_LitNoCase in H4 as [_ ->].
  destruct H as (w5 & r5 & c5 & -> & (_ & ->) & H).
  destruct H as (w6 & r6 & c6 & -> & H6 & H). apply den_LitNoCase in H6 as [_ ->].
  destruct H as (number & r7 & c7 & -> & (c7' & (_ & ->) & ->) & H).
  destruct H as (w8 & r8 & c8 & -> & H8 & H). apply den_LitNoCase in H8 as [_ ->].
  destruct H as (w9 & r9 & c9 & -> & (_ & ->) & H).
  destruct H as (w10 & r10 & c10 & -> & H10 & H). apply den_LitNoCase in H10 as [_ ->].
  destruct H as (dur & r11 & c11 & -> & (c11' & Hdur & ->) & H).
  apply den_digits in Hdur as (Hd & Hne & ->).
  destruct H as (w12 & r12 & c12 & -> & H12 & H). apply den_LitNoCase in H12 as [_ ->].
  destruct H as (w13 & r13 & c13 & -> & (_ & ->) & H).
  destruct H as (w14 & r14 & c14 & -> & H14 & H). apply den_LitNoCase in H14 as [_ ->].
  destruct H as (date & r15 & c15 & -> & (c15' & Hdate & ->) & (-> & ->)).
  apply den_digits in Hdate as (_ & _ & ->).
  exists dur. repeat split; assumption.
Qed.

Lemma call_alt_duration : forall n p d t w c',
  den (call_alt n p d t) w [] c' -> has_duration c'.
Proof.
  intros n p d t w c' H. unfold call_alt in H. cbn [cat den] in H.
  destruct H as (w1 & r1 & c1 & -> & H1 & H). apply den_LitNoCase in H1 as [_ ->].
  destruct H as (name & r3 & c3 & -> & (c3' & (_ & ->) & ->) & H).
  destruct H as (w4 & r4 & c4 & -> & H4 & H). apply den_LitNoCase in H4 as [_ ->].
  destruct H as (w5 & r5 & c5 & -> & (_ & ->) & H).
  destruct H as (w6 & r6 & c6 & -> & H6 & H). apply den_LitNoCase in H6 as [_ ->].
  destruct H as (number & r7 & c7 & -> & (c7' & (_ & ->) & ->) & H).
  destruct H as (w8 & r8 & c8 & -> & H8 & H). apply den_LitNoCase in H8 as [_ ->].
  destruct H as (w9 & r9 & c9 & -> & (_ & ->) & H).
  destruct H as (w10 & r10 & c10 & -> & H10 & H). apply den_LitNoCase in H10 as [_ ->].
  destruct H as (dur & r11 & c11 & -> & (c11' & Hdur & ->) & H).
  apply den_digits in Hdur as (Hd & Hne & ->).
  destruct H as (w12 & r12 & c12 & -> & H12 & H). apply den_LitNoCase in H12 as [_ ->].
  destruct H as (w13 & r13 & c13 & -> & (_ & ->) & H).
  destruct H as (w14 & r14 & c14 & -> & H14 & H). apply den_LitNoCase in H14 as [_ ->].
  destruct H as (date & r15 & c15 & -> & (c15' & Hdate & ->) & (-> & ->)).
  apply den_digits in Hdate as (_ & _ & ->).
  exists dur. repeat split; assumption.
Qed.

Lemma call_duration_capture : forall w c',
  den CALL_DURATION w [] c' ->
  exists d, c' = [("1", d)] /\ all_chars digit d = true /\ d <> EmptyString.
Proof.
  intros w c' H. unfold CALL_DURATION in H. cbn [cat den] in H.
  destruct H as (w1 & r1 & c1 & -> & H1 & H). apply den_LitNoCase in H1 as [_ ->].
  destruct H as (dur & r2 & c2 & -> & (c2' & Hdur & ->) & (-> & ->)).
  apply den_digits in Hdur as (Hd & Hne & ->).
  exists dur. repeat split; assumption.
Qed.

Lemma fold_matches_clean : forall matches acc,
  (forall m, In m matches -> has_duration (m_caps m)) ->
  Forall clean_call acc ->
  Forall clean_call
    (fold_left (fun results m => results ++ [call_of_match f m]) matches acc).
Proof.
  induction matches as [|m ms IH]; intros acc H Hacc; [exact Hacc|].
  cbn [fold_left]. apply IH; [intros m' Hm'; apply H; right; exact Hm'|].
  apply Forall_app. split; [exact Hacc|].
  constructor; [|constructor]. apply clean_call_of_match, H. left. reflexivity.
Qed.

Lemma fold_lines_clean : forall (step : list CallRecord -> string -> list CallRecord)
    lines acc,
  (forall results line, Forall clean_call results -> Forall clean_call (step results line)) ->
  Forall clean_call acc ->
  Forall clean_call (fold_left step lines acc).
Proof.
  intros step. induction lines as [|l ls IH]; intros acc H Hacc; [exact Hacc|].
  cbn [fold_left]. apply IH; [exact H|apply H, Hacc].
Qed.

Lemma calls_strategy1_clean : forall text, Forall clean_call (calls_strategy1 f text).
Proof.
  intros text. unfold calls_strategy1. apply fold_matches_clean; [|constructor].
  intros m Hm. apply finditer_sound in Hm as (pre & w & _ & Hd).
  apply (call_row_duration w), Hd.
Qed.

Lemma calls_strategy2_clean : forall text, Forall clean_call (calls_strategy2 f text).
Proof.
  intros text. unfold calls_strategy2. apply fold_lines_clean; [|constructor].
  intros results line Hr.
  destruct (contains "duration=" line && contains "date=" line); [|exact Hr].
  unfold calls_line, or_continue.
  apply Forall_app. split; [exact Hr|].
  constructor; [|constructor].
  assert (Hf : forall found default, trimmed default -> trimmed (field_or found default)).
  { intros [m|] default Hd; cbn [field_or]; [apply trimmed_safe_strip|exact Hd]. }
  apply clean_call_record; try (apply Hf; reflexivity).
  destruct (search CALL_DURATION line) as [m|] eqn:Es; cbn [field_or]; [|discriminate].
  apply search_sound in Es as (pre & w & _ & Hd).
  apply call_duration_capture in Hd as (d & Hc & Hdig & Hne).
  unfold group. rewrite Hc. cbn [lookup String.eqb Ascii.eqb Bool.eqb safe_strip].
  rewrite (strip_digits d Hdig). exact Hne.
Qed.

Lemma calls_strategy3_clean : forall patterns text acc results,
  (forall p, In p patterns -> forall w c', den p w [] c' -> has_duration c') ->
  Forall clean_call acc ->
  calls_strategy3 f patterns text acc = Some results ->
  Forall clean_call results.
Proof.
  induction patterns as [|p rest IH]; intros text acc results Hp Hacc H;
    cbn [calls_strategy3] in H; [discriminate|].
  assert (Hfold : Forall clean_call
            (fold_left (fun acc m => acc ++ [call_of_match f m]) (finditer p text) acc)).
  { apply fold_matches_clean; [|exact Hacc].
    intros m Hm. apply finditer_sound in Hm as (pre & w & _ & Hd).
    apply (Hp p (or_introl eq_refl) w), Hd. }
  destruct (fold_left _ (finditer p text) acc) as [|x xs] eqn:E.
  - apply (IH text [] results); [|constructor|exact H].
    intros q Hq. apply Hp. right. exact Hq.
  - injection H as <-. exact Hfold.
Qed.

Lemma calls_strategy4_clean : forall text, Forall clean_call (calls_strategy4 f text).
Proof.
  intros text. unfold calls_strategy4. apply fold_lines_clean; [|constructor].
  intros results line Hr.
  destruct (negb (truthy (strip line)) || startswith "Row:" line); [exact Hr|].
  set (data := map (fun kv => (lower (fst kv), strip (snd kv)))
                   (findall_pairs KEY_VALUE line)).
  destruct (truthy _ || truthy _); [|exact Hr].
  apply Forall_app. split; [exact Hr|].
  constructor; [|constructor].
  assert (Hg : forall key, match dict_get key data with
                           | Some v => trimmed v | None => True end)
    by (intros key; apply trimmed_dict_get).
  apply clean_call_record.
  - apply trimmed_first_truthy; [|reflexivity]. repeat constructor; apply Hg.
  - apply trimmed_first_truthy; [|reflexivity]. repeat constructor; apply Hg.
  - apply trimmed_first_truthy; [|reflexivity]. repeat constructor; apply Hg.
  - apply trimmed_first_truthy; [|reflexivity]. repeat constructor; apply Hg.
  - cbn [first_truthy].
    destruct (dict_get "duration" data) as [[|a v]|];
      destruct (dict_get "call_duration" data) as [[|b u]|]; cbn [truthy]; discriminate.
Qed.

Lemma parse_calls_clean : forall raw records,
  parse_calls_text f raw = Ok records -> Forall clean_call records.
Proof.
  intros raw records H. unfold parse_calls_text in H.
  destruct (negb (truthy raw)); [injection H as <-; constructor|].
  destruct (negb (truthy (strip (without_comments raw))));
    [injection H as <-; constructor|].
  pose proof (calls_strategy1_clean (without_comments raw)) as H1.
  destruct (calls_strategy1 f (without_comments raw)) as [|x1 xs1];
    [|injection H as <-; exact H1].
  pose proof (calls_strategy2_clean (without_comments raw)) as H2.
  destruct (calls_strategy2 f (without_comments raw)) as [|x2 xs2];
    [|injection H as <-; exact H2].
  destruct (calls_strategy3 f CALL_ALT_PATTERNS (without_comments raw) [])
    as [results|] eqn:E3.
  - injection H as <-.
    apply (calls_strategy3_clean CALL_ALT_PATTERNS (without_comments raw) [] results);
      [|constructor|exact E3].
    intros p Hp w c' Hd. unfold CALL_ALT_PATTERNS in Hp. cbn [In] in Hp.
    destruct Hp as [<-|[<-|[]]]; apply (call_alt_duration _ _ _ _ w c' Hd).
  - injection H as <-. apply calls_strategy4_clean.
Qed.

End Calls.

(** X15: In every record [parse_calls_text] returns, whichever of the four
    strategies made it, the name, number, duration and epoch fields have
    no whitespace at either end, the duration is never empty (it is ["0"]
    when none was found), and the date is the formatted epoch field, or
    ["Unknown"] when that field is empty. *)
Theorem call_records_are_clean :
  forall (f : string -> string) (raw : string) (records : list CallRecord),
    parse_calls_text f raw = Ok records ->
    Forall (clean_call f) records.
Proof. exact parse_calls_clean. Qed.

Lemma call_records_are_clean_witness :
  parse_calls_text (epoch_ms_to_str utc) "number=555 1234 , note=missed"
  = Ok [mkCall "" "555 1234" "0" "" "Unknown"]
  /\ Forall (clean_call (epoch_ms_to_str utc)) [mkCall "" "555 1234" "0" "" "Unknown"].
Proof.
  split; [vm_compute; reflexivity|].
  apply (call_records_are_clean (epoch_ms_to_str utc) "number=555 1234 , note=missed").
  vm_compute. reflexivity.
Defined.

End RecordShape.

(* ===================================================================== *)
(** * Seconds and milliseconds in [epoch_ms_to_str] *)
(* ===================================================================== *)

Module ClockFacts.
Import PyStr Clock ParserFacts.
Local Open Scope Z_scope.

Lemma fromtimestamp_beyond : forall (utc_offset : Z -> Z) t,
  (forall x, -86400 < utc_offset x < 86400) ->
  253407571200 <= t ->
  fromtimestamp utc_offset t = Raised.
Proof.
  intros tz t Htz Ht. unfold fromtimestamp.
  assert (Hr : year_in_range tz t = false).
  { unfold year_in_range. specialize (Htz t).
    pose proof (civil_year_bounds ((t + tz t) / 86400)) as Hy. cbv zeta in Hy.
    destruct (civil_from_days ((t + tz t) / 86400)) as [[y m] d]. cbn [fst] in Hy.
    assert (Hd : 2932957 <= (t + tz t) / 86400)
      by (apply Z.div_le_lower_bound; lia).
    assert (He : 25 <= ((t + tz t) / 86400 + 719468) / 146097)
      by (apply Z.div_le_lower_bound; lia).
    assert (Hr : (y <=? 9999) = false) by (apply Z.leb_gt; lia).
    rewrite Hr, andb_false_r. reflexivity. }
  rewrite Hr. cbn [andb].
  destruct (civil_from_days ((t + tz t) / 86400)) as [[y m] d]. reflexivity.
Qed.

(** X16: [epoch_ms_to_str] reads an integer above [10^12] as milliseconds and
    any other as seconds.  So, in any time zone: a value above [10^12]
    and up to [10^14] (September 2001 to the year 5138, in milliseconds)
    comes back as a timestamp laid out as [YYYY-MM-DD HH:MM:SS]; but a
    value from 253407571200 up to [10^12] -- every millisecond timestamp
    from 12 January 1978 to 9 September 2001 -- is read as seconds, falls
    after the year 9999, and comes back as the plain number. *)
Theorem epoch_ms_threshold :
  forall (utc_offset : Z -> Z) (ms : string) (n : Z),
    (forall t, -86400 < utc_offset t < 86400) ->
    py_int ms = Ok n ->
    (10 ^ 12 < n <= 10 ^ 14 ->
     is_timestamp (epoch_ms_to_str utc_offset ms) = true)
    /\ (253407571200 <= n <= 10 ^ 12 ->
        epoch_ms_to_str utc_offset ms = str_of_int n).
Proof.
  intros tz ms n Htz Hint. unfold epoch_ms_to_str. rewrite Hint. split.
  - intros Hn.
    assert (Hgt : (n >? 10 ^ 12) = true) by (apply Z.gtb_lt; lia).
    rewrite Hgt.
    change (10 ^ 12) with 1000000000000 in Hn. change (10 ^ 14) with 100000000000000 in Hn.
    destruct (fromtimestamp_in_range tz (n / 1000) Htz) as (dt & Hdt & Hy).
    { change (10 ^ 9) with 1000000000. change (10 ^ 11) with 100000000000.
      split; [apply Z.div_le_lower_bound; lia|apply Z.div_le_upper_bound; lia]. }
    rewrite Hdt. apply strftime_shape, Hy.
  - intros Hn.
    assert (Hgt : (n >? 10 ^ 12) = false).
    { destruct (n >? 10 ^ 12) eqn:E; [|reflexivity]. apply Z.gtb_lt in E. lia. }
    rewrite Hgt, (fromtimestamp_beyond tz n Htz); [reflexivity|lia].
Qed.

Lemma epoch_ms_threshold_witness :
  is_timestamp (epoch_ms_to_str one_hour_east "1700000000000") = true
  /\ epoch_ms_to_str one_hour_east "946684800000" = "946684800000".
Proof.
  assert (Htz : forall t, -86400 < one_hour_east t < 86400)
    by (intros t; unfold one_hour_east; lia).
  split.
  - apply (proj1 (epoch_ms_threshold one_hour_east "1700000000000" 1700000000000
                    Htz eq_refl)).
    change (10 ^ 12) with 1000000000000. change (10 ^ 14) with 100000000000000. lia.
  - rewrite (proj2 (epoch_ms_threshold one_hour_east "946684800000" 946684800000
                      Htz eq_refl)); [reflexivity|].
    change (10 ^ 12) with 1000000000000. lia.
Defined.

End ClockFacts.

(* ===================================================================== *)
(** * The manifest table: [manifest_to_table_rows] *)
(* ===================================================================== *)

Module Table.
Import PyStr Clock Extraction.

(** The Python values a manifest is made of.  A dictionary is the list of
    its items, each key once. *)
#[warnings="-register-all"]
Inductive PyVal : Type :=
| PNone
| PBool (b : bool)
| PInt (n : Z)
| PFloat (q : Q)
| PStr (s : string)
| PList (items : list PyVal)
| PDict (items : list (string * PyVal)).

(** [bool(v)]. *)
Definition py_truthy (v : PyVal) : bool :=
  match v with
  | PNone => false
  | PBool b => b
  | PInt n => negb (n =? 0)%Z
  | PFloat q => negb (Qeq_bool q 0)
  | PStr s => truthy s
  | PList items => match items with [] => false | _ :: _ => true end
  | PDict items => match items with [] => false | _ :: _ => true end
  end.

(** [d.get(key, default)] on the items of a dictionary. *)
Fixpoint items_get (key : string) (items : list (string * PyVal)) (default : PyVal)
  : PyVal :=
  match items with
  | [] => default
  | (k, v) :: rest => if String.eqb k key then v else items_get key rest default
  end.

(** [v.get(key, default)]: only a dictionary has the method. *)
Definition py_get (v : PyVal) (key : string) (default : PyVal) : result PyVal :=
  match v with
  | PDict items => Ok (items_get key items default)
  | _ => Raised
  end.

Definition HEADERS : list string :=
  ["Remote Path"; "Local Path"; "Size"; "MD5"; "SHA1"; "SHA256"].

(** The body of [for entry in manifest]. *)
Definition table_row (entry : PyVal) : result (list PyVal) :=
  match py_get entry "hashes" (PDict []) with
  | Raised => Raised
  | Ok found =>
      let hashes := if py_truthy found then found else PDict [] in
      match py_get entry "remote_path" (PStr ""), py_get entry "local_path" (PStr ""),
            py_get entry "size" (PInt 0),
            py_get hashes "md5" (PStr ""), py_get hashes "sha1" (PStr ""),
            py_get hashes "sha256" (PStr "") with
      | Ok remote, Ok local, Ok size, Ok md5, Ok sha1, Ok sha256 =>
          Ok [remote; local; size; md5; sha1; sha256]
      | _, _, _, _, _, _ => Raised
      end
  end.

Fixpoint table_rows (entries : list PyVal) (rows : list (list PyVal))
  : result (list (list PyVal)) :=
  match entries with
  | [] => Ok rows
  | entry :: rest =>
      match table_row entry with
      | Ok row => table_rows rest (rows ++ [row])
      | Raised => Raised
      end
  end.

Definition manifest_to_table_rows (manifest : PyVal)
  : result (list string * list (list PyVal)) :=
  match manifest with
  | PList entries =>
      match table_rows entries [] with
      | Ok rows => Ok (HEADERS, rows)
      | Raised => Raised
      end
  | _ => Ok (HEADERS, [])
  end.

(** A digest or [None]. *)
Definition py_opt (o : option string) : PyVal :=
  match o with Some s => PStr s | None => PNone end.

(** The dictionary [brute_extract_folder] appends for an entry, with the
    dictionary of [compute_hashes] inside. *)
Definition entry_dict (e : ManifestEntry) : PyVal :=
  PDict [("remote_path", PStr (remote_path e));
         ("local_path", PStr (local_path e));
         ("size", PInt (Z.of_N (size e)));
         ("mtime", PFloat (mtime e));
         ("hashes", PDict [("md5", py_opt (md5 (hashes e)));
                           ("sha1", py_opt (sha1 (hashes e)));
                           ("sha256", py_opt (sha256 (hashes e)))]);
         ("adb_result", PStr (adb_result e))].

(** The row shown for an entry. *)
Definition entry_row (e : ManifestEntry) : list PyVal :=
  [PStr (remote_path e); PStr (local_path e); PInt (Z.of_N (size e));
   py_opt (md5 (hashes e)); py_opt (sha1 (hashes e)); py_opt (sha256 (hashes e))].

Lemma table_rows_entries : forall manifest rows,
  table_rows (map entry_dict manifest) rows = Ok (rows ++ map entry_row manifest).
Proof.
  induction manifest as [|e rest IH]; intros rows; cbn [map table_rows].
  - rewrite app_nil_r. reflexivity.
  - change (table_row (entry_dict e)) with (Ok (entry_row e)). cbv beta iota.
    rewrite IH, <- app_assoc. reflexivity.
Qed.

Lemma table_row_width : forall entry row, table_row entry = Ok row -> length row = 6.
Proof.
  intros entry row H. unfold table_row in H.
  destruct (py_get entry "hashes" (PDict [])) as [found|]; [|discriminate].
  destruct (py_get entry "remote_path" (PStr "")); [|discriminate].
  destruct (py_get entry "local_path" (PStr "")); [|discriminate].
  destruct (py_get entry "size" (PInt 0)); [|discriminate].
  destruct (py_get _ "md5" (PStr "")); [|discriminate].
  destruct (py_get _ "sha1" (PStr "")); [|discriminate].
  destruct (py_get _ "sha256" (PStr "")); [|discriminate].
  injection H as <-. reflexivity.
Qed.

Lemma table_rows_shape : forall entries rows out,
  table_rows entries rows = Ok out ->
  length out = length rows + length entries
  /\ (Forall (fun r => length r = 6) rows -> Forall (fun r => length r = 6) out).
Proof.
  induction entries as [|entry rest IH]; intros rows out H; cbn [table_rows] in H.
  - injection H as <-. split; [cbn; lia|auto].
  - destruct (table_row entry) as [row|] eqn:Er; [|discriminate].
    destruct (IH _ _ H) as [Hl Hw]. split.
    + rewrite Hl, length_app. cbn. lia.
    + intros Hr. apply Hw. apply Forall_app. split; [exact Hr|].
      constructor; [apply (table_row_width entry), Er|constructor].
Qed.

(** X17: The table made from a manifest of the extraction has one row per
    entry, in order, holding the remote path, the local path, the size
    and the three digests; a digest that is null in the manifest is
    [None] in the row, not the empty default, because the key is there.
    For any list the function accepts, there are as many rows as entries
    and each row has the six cells of the headers; anything that is not a
    list gives the headers and no row. *)
Theorem table_rows_mirror_manifest :
  (forall manifest : list ManifestEntry,
      manifest_to_table_rows (PList (map entry_dict manifest))
      = Ok (HEADERS, map entry_row manifest))
  /\ (forall entries headers rows,
        manifest_to_table_rows (PList entries) = Ok (headers, rows) ->
        headers = HEADERS /\ length rows = length entries
        /\ Forall (fun r => length r = length HEADERS) rows)
  /\ (forall v, (forall entries, v <> PList entries) ->
        manifest_to_table_rows v = Ok (HEADERS, [])).
Proof.
  split; [|split].
  - intros manifest. unfold manifest_to_table_rows.
    rewrite table_rows_entries. reflexivity.
  - intros entries headers rows H. unfold manifest_to_table_rows in H.
    destruct (table_rows entries []) as [out|] eqn:E; [|discriminate].
    injection H as <- <-.
    destruct (table_rows_shape _ _ _ E) as [Hl Hw].
    split; [reflexivity|]. split; [exact Hl|apply Hw; constructor].
  - intros v Hv. destruct v; try reflexivity.
    exfalso. apply (Hv items). reflexivity.
Qed.

Lemma table_rows_mirror_manifest_witness :
  manifest_to_table_rows (PList (map entry_dict media_manifest))
  = Ok (HEADERS,
        [[PStr "/sdcard/gone.txt"; PStr "/out/sdcard/gone.txt"; PInt 0;
          PNone; PNone; PNone];
         [PStr "/sdcard/DCIM/a.jpg"; PStr "/out/sdcard/DCIM/a.jpg"; PInt 4;
          PStr "md5:JFIF"; PStr "sha1:JFIF"; PStr "sha256:JFIF"]])
  /\ manifest_to_table_rows (PStr "No files found or permission denied.")
     = Ok (HEADERS, []).
Proof.
  split.
  - apply (proj1 table_rows_mirror_manifest media_manifest).
  - apply (proj2 (proj2 table_rows_mirror_manifest)). intros entries H. discriminate H.
Defined.

End Table.

(* ===================================================================== *)
(** * The shape of SMS records *)
(* ===================================================================== *)

Module SmsShape.
Import PyStr StrFacts RegexFacts TextFacts Clock Regex Parsers ParserFacts RecordShape.

Section Sms.

Variable f : string -> string.

(** What every record of the SMS parser satisfies: stripped fields, and a
    date made from the epoch field. *)
Definition clean_sms (r : SmsRecord) : Prop :=
  trimmed (address r) /\ trimmed (sms_date_epoch_ms r) /\ trimmed (body r)
  /\ sms_date r = date_of f (sms_date_epoch_ms r).

Lemma clean_sms_record : forall addr date_ms body,
  trimmed addr -> trimmed date_ms -> trimmed body ->
  clean_sms (sms_record f addr date_ms body).
Proof.
  intros addr date_ms body H1 H2 H3. unfold clean_sms, sms_record. cbn.
  repeat split; assumption.
Qed.

Lemma fold_clean : forall (A : Type) (step : list SmsRecord -> A -> list SmsRecord)
    items acc,
  (forall results x, Forall clean_sms results -> Forall clean_sms (step results x)) ->
  Forall clean_sms acc ->
  Forall clean_sms (fold_left step items acc).
Proof.
  intros A step. induction items as [|x xs IH]; intros acc H Hacc; [exact Hacc|].
  cbn [fold_left]. apply IH; [exact H|apply H, Hacc].
Qed.

Lemma append_clean : forall results addr date_ms body,
  Forall clean_sms results ->
  trimmed addr -> trimmed date_ms -> trimmed body ->
  Forall clean_sms (results ++ [sms_record f addr date_ms body]).
Proof.
  intros results addr date_ms body Hr H1 H2 H3.
  apply Forall_app. split; [exact Hr|].
  constructor; [apply clean_sms_record; assumption|constructor].
Qed.

Lemma sms_search_line_clean : forall pattern line results,
  Forall clean_sms results ->
  Forall clean_sms (or_continue (sms_search_line f pattern line results) results).
Proof.
  intros pattern line results Hr. unfold sms_search_line.
  destruct (search pattern line) as [m|]; cbn [or_continue]; [|exact Hr].
  apply append_clean; try apply trimmed_safe_group. exact Hr.
Qed.

Lemma sms_strategy3_clean : forall patterns text acc results,
  Forall clean_sms acc ->
  sms_strategy3 f patterns text acc = Some results ->
  Forall clean_sms results.
Proof.
  induction patterns as [|p rest IH]; intros text acc results Hacc H;
    cbn [sms_strategy3] in H; [discriminate|].
  assert (Hfold : Forall clean_sms
            (fold_left (fun acc line => or_continue (sms_search_line f p line acc) acc)
                       (splitlines text) acc)).
  { apply fold_clean; [|exact Hacc]. intros results' line Hr.
    apply sms_search_line_clean, Hr. }
  destruct (fold_left _ (splitlines text) acc) as [|x xs].
  - apply (IH text [] results); [constructor|exact H].
  - injection H as <-. exact Hfold.
Qed.

Lemma parse_sms_clean : forall raw records,
  parse_sms_text f raw = Ok records -> Forall clean_sms records.
Proof.
  intros raw records H. unfold parse_sms_text in H.
  destruct (negb (truthy raw)); [injection H as <-; constructor|].
  destruct (negb (truthy (strip (without_comments raw))));
    [injection H as <-; constructor|].
  assert (H1 : Forall clean_sms (sms_strategy1 f (without_comments raw))).
  { unfold sms_strategy1. apply fold_clean; [|constructor]. intros results m Hr.
    destruct (truthy _ || truthy _); [|exact Hr].
    apply append_clean; try apply trimmed_safe_group. exact Hr. }
  destruct (sms_strategy1 f (without_comments raw)) as [|x1 xs1];
    [|injection H as <-; exact H1].
  assert (H2 : Forall clean_sms (sms_strategy2 f (without_comments raw))).
  { unfold sms_strategy2. apply fold_clean; [|constructor]. intros results line Hr.
    destruct (contains "address=" line && contains "date=" line && contains "body=" line);
      [|exact Hr].
    apply sms_search_line_clean, Hr. }
  destruct (sms_strategy2 f (without_comments raw)) as [|x2 xs2];
    [|injection H as <-; exact H2].
  destruct (sms_strategy3 f SMS_ALT_PATTERNS (without_comments raw) [])
    as [results|] eqn:E3.
  - injection H as <-.
    apply (sms_strategy3_clean SMS_ALT_PATTERNS (without_comments raw) [] results);
      [constructor|exact E3].
  - injection H as <-. unfold sms_strategy4. apply fold_clean; [|constructor].
    intros results line Hr.
    destruct (negb (truthy (strip line)) || startswith "Row:" line); [exact Hr|].
    set (data := map (fun kv => (fst kv, strip (snd kv))) (findall_pairs KEY_VALUE line)).
    destruct (truthy _ || truthy _); [|exact Hr].
    assert (Hg : forall key, match dict_get key data with
                             | Some v => trimmed v | None => True end)
      by (intros key; apply (trimmed_dict_get (fun k => k))).
    apply append_clean; [exact Hr| | |];
      (apply trimmed_first_truthy; [repeat constructor; apply Hg|reflexivity]).
Qed.

End Sms.

(** X18: In every record [parse_sms_text] returns, whichever of the four
    strategies made it, the address, the epoch field and the body have no
    whitespace at either end, and the date is the formatted epoch field,
    or ["Unknown"] when that field is empty. *)
Theorem sms_records_are_clean :
  forall (f : string -> string) (raw : string) (records : list SmsRecord),
    parse_sms_text f raw = Ok records ->
    Forall (clean_sms f) records.
Proof. exact parse_sms_clean. Qed.

Lemma sms_records_are_clean_witness :
  parse_sms_text (epoch_ms_to_str utc) "text= see you "
  = Ok [mkSms "" "" "Unknown" "see you"]
  /\ Forall (clean_sms (epoch_ms_to_str utc)) [mkSms "" "" "Unknown" "see you"].
Proof.
  split; [vm_compute; reflexivity|].
  apply (sms_records_are_clean (epoch_ms_to_str utc) "text= see you ").
  vm_compute. reflexivity.
Defined.

End SmsShape.

(* ===================================================================== *)
(** * Sessions: [SessionManager] *)
(* ===================================================================== *)

Module Session.
Import PyStr Clock Extraction.

(** An entry of [operations_log]. *)
Record Operation : Type := mkOperation {
  operation_id : string;
  operation_type : string;
  op_timestamp : string;
  op_status : string;
  op_log_file : option string;
  op_record_count : option Z
}.

(** The metadata dictionary of a session.  A file read back may lack the
    [operations_log] key. *)
Record Metadata : Type := mkMetadata {
  session_id : string;
  device : string;
  session_created : string;
  session_last_updated : string;
  operations_log : option (list Operation)
}.

(** [self.current_session]. *)
Record CurrentSession : Type := mkCurrent {
  metadata : Metadata;
  session_dir : string;
  metadata_path : string
}.

(** The attributes of a [SessionManager]. *)
Record Manager : Type := mkManager {
  base_dir : string;
  current_session : option CurrentSession;
  operation_counter : nat
}.

(** What a metadata file holds: a dictionary, or something [json.load]
    raises on. *)
Inductive FileContent : Type :=
| Json (m : Metadata)
| Unreadable.

Definition Store : Type := string -> option FileContent.

Definition store_set (path : string) (c : FileContent) (st : Store) : Store :=
  fun q => if String.eqb q path then Some c else st q.

(** [dt.strftime("%Y-%m-%d")]. *)
Definition strftime_date (dt : datetime) : string :=
  (year_str (year dt) ++ "-" ++ pad2 (month dt) ++ "-" ++ pad2 (day dt))%string.

(** [s.zfill(4)] for a string of digits. *)
Fixpoint zeros (k : nat) : string :=
  match k with
  | O => EmptyString
  | S k' => String "0" (zeros k')
  end.

Definition zfill4 (s : string) : string := (zeros (4 - String.length s) ++ s)%string.

(** [f"op_{n:04d}"] for a counter, which is never negative. *)
Definition op_id (n : nat) : string :=
  ("op_" ++ zfill4 (str_of_int (Z.of_nat n)))%string.

Section WithDevice.

Variable World : Type.
(** [run_adb(args)]. *)
Variable run_adb : list string -> St.M World string.
(** [datetime.now()]. *)
Variable now : St.M World datetime.
(** [directory / name]. *)
Variable child : string -> string -> string.

(** The manager, the device and clock, and the metadata files.  Making
    the session directories and opening the metadata file for writing are
    taken to succeed. *)
Definition State : Type := (Manager * World * Store)%type.

Definition get_device_serial : St.M World string :=
  out <- run_adb ["get-serialno"] ;;
  let serial := strip out in
  St.ret (if negb (truthy serial) || String.eqb serial "unknown"
          then "UNKNOWN_DEVICE" else serial).

Definition timestamp_now : St.M World string :=
  dt <- now ;; St.ret (strftime dt).

(** [_save_metadata()]. *)
Definition save_metadata (mgr : Manager) (st : Store) : Store :=
  match current_session mgr with
  | None => st
  | Some cur => store_set (metadata_path cur) (Json (metadata cur)) st
  end.

(** [start_session(device_info)], [device_info or {}] being given as its
    text.  [Raises] when the metadata file cannot be decoded. *)
Definition start_session (device_info : string) (s : State)
  : Run (string * State) :=
  let '(mgr, w, st) := s in
  let (serial, w1) := get_device_serial w in
  let (dt, w2) := now w1 in
  let session_id := ("device_" ++ serial ++ "_" ++ strftime_date dt)%string in
  let session_dir := child (base_dir mgr) session_id in
  let metadata_path := child session_dir "session_metadata.json" in
  match st metadata_path with
  | Some Unreadable => Raises
  | Some (Json loaded) =>
      let (t, w3) := timestamp_now w2 in
      let metadata :=
        mkMetadata (Session.session_id loaded) (device loaded) (session_created loaded)
                   t (operations_log loaded) in
      let counter := match operations_log loaded with
                     | Some log => length log
                     | None => 0
                     end in
      let mgr' := mkManager (base_dir mgr)
                    (Some (mkCurrent metadata session_dir metadata_path)) counter in
      Returns (session_dir, (mgr', w3, save_metadata mgr' st))
  | None =>
      let (t1, w3) := timestamp_now w2 in
      let (t2, w4) := timestamp_now w3 in
      let metadata := mkMetadata session_id device_info t1 t2 (Some []) in
      let mgr' := mkManager (base_dir mgr)
                    (Some (mkCurrent metadata session_dir metadata_path)) 0 in
      Returns (session_dir, (mgr', w4, save_metadata mgr' st))
  end.

(** [log_operation(operation_type, status, log_file, record_count)];
    the value is the operation id, or [None] without a session.
    [Raises] is the [KeyError] of a metadata dictionary without
    [operations_log]; the counter has been advanced by then. *)
Definition log_operation (operation_type status : string)
  (log_file : option string) (record_count : option Z) (s : State)
  : Run (option string * State) :=
  let '(mgr, w, st) := s in
  match current_session mgr with
  | None => Returns (None, s)
  | Some cur =>
      let counter := S (operation_counter mgr) in
      let id := op_id counter in
      let (t, w1) := timestamp_now w in
      let entry := mkOperation id operation_type t status
                     (match log_file with
                      | Some p => if truthy p then Some p else None
                      | None => None
                      end)
                     record_count in
      match operations_log (metadata cur) with
      | None => Raises
      | Some log =>
          let (t2, w2) := timestamp_now w1 in
          let m := metadata cur in
          let metadata' :=
            mkMetadata (Session.session_id m) (device m) (session_created m) t2
                       (Some (log ++ [entry])) in
          let mgr' := mkManager (base_dir mgr)
                        (Some (mkCurrent metadata' (session_dir cur) (metadata_path cur)))
                        counter in
          Returns (Some id, (mgr', w2, save_metadata mgr' st))
      end
  end.

(** [log_operation] called once for each of [requests]. *)
Fixpoint log_operations (requests : list (string * string)) (s : State)
  : Run (list string * State) :=
  match requests with
  | [] => Returns ([], s)
  | (operation_type, status) :: rest =>
      match log_operation operation_type status None None s with
      | Returns (Some id, s1) =>
          match log_operations rest s1 with
          | Returns (ids, s2) => Returns (id :: ids, s2)
          | Raises => Raises
          | Unfinished => Unfinished
          end
      | Returns (None, s1) => log_operations rest s1
      | Raises => Raises
      | Unfinished => Unfinished
      end
  end.

End WithDevice.

Arguments start_session {World} run_adb now child device_info s.
Arguments log_operation {World} now operation_type status log_file record_count s.
Arguments log_operations {World} now requests s.

End Session.

Module SessionFacts.
Import PyStr Clock Extraction Session.
Local Open Scope Z_scope.

(** ** Operation ids name their counter *)

(** The number a string of decimal digits stands for. *)
Fixpoint digits_number (acc : Z) (s : string) : Z :=
  match s with
  | EmptyString => acc
  | String c r => digits_number (10 * acc + (Z.of_N (code c) - 48)) r
  end.

Lemma digits_number_append : forall a b acc,
  digits_number acc (a ++ b) = digits_number (digits_number acc a) b.
Proof.
  induction a as [|c a IH]; intros b acc; [reflexivity|].
  cbn [append digits_number]. apply IH.
Qed.

Lemma digit_char_value : forall n, Z.of_N (code (digit_char n)) - 48 = n mod 10.
Proof.
  intros n. unfold digit_char, code.
  pose proof (Z.mod_pos_bound n 10 ltac:(lia)) as Hb.
  rewrite N_ascii_embedding by lia.
  rewrite Z2N.id by lia. lia.
Qed.

Lemma nat_digits_append : forall fuel n rest,
  nat_digits fuel n rest = (nat_digits fuel n EmptyString ++ rest)%string.
Proof.
  induction fuel as [|fuel IH]; intros n rest; [reflexivity|].
  cbn [nat_digits]. destruct (n <? 10).
  - reflexivity.
  - rewrite (IH (n / 10) (String (digit_char n) rest)).
    rewrite (IH (n / 10) (String (digit_char n) EmptyString)).
    rewrite append_assoc. reflexivity.
Qed.

Lemma digits_number_nat_digits : forall fuel n,
  0 <= n < 10 ^ Z.of_nat fuel ->
  digits_number 0 (nat_digits fuel n EmptyString) = n.
Proof.
  induction fuel as [|fuel IH]; intros n Hn.
  - change (10 ^ Z.of_nat 0) with 1 in Hn. cbn [nat_digits digits_number]. lia.
  - cbn [nat_digits]. destruct (n <? 10) eqn:E.
    + apply Z.ltb_lt in E. cbn [digits_number].
      rewrite digit_char_value, Z.mod_small by lia. lia.
    + apply Z.ltb_ge in E.
      rewrite nat_digits_append, digits_number_append, IH.
      * cbn [digits_number]. rewrite digit_char_value.
        pose proof (Z.div_mod n 10 ltac:(lia)). lia.
      * rewrite Nat2Z.inj_succ, Z.pow_succ_r in Hn by lia.
        split; [apply Z.div_pos; lia|apply Z.div_lt_upper_bound; lia].
Qed.

Lemma digits_number_str_of_int : forall n,
  0 <= n -> digits_number 0 (str_of_int n) = n.
Proof.
  intros n Hn. unfold str_of_int.
  assert (E : (n <? 0) = false) by (apply Z.ltb_ge; lia). rewrite E.
  apply digits_number_nat_digits. split; [exact Hn|].
  rewrite Nat2Z.inj_add, Z2Nat.id by apply Z.log2_nonneg.
  change (Z.of_nat 1) with 1.
  destruct (Z.eq_dec n 0) as [->|Hz]; [reflexivity|].
  pose proof (Z.log2_spec n ltac:(lia)) as [_ Hlt].
  apply (Z.lt_le_trans _ _ _ Hlt).
  rewrite <- Z.add_1_r.
  apply Z.pow_le_mono_l. pose proof (Z.log2_nonneg n). lia.
Qed.

Lemma digits_number_zeros : forall k s,
  digits_number 0 (zeros k ++ s) = digits_number 0 s.
Proof.
  induction k as [|k IH]; intros s; [reflexivity|].
  cbn [zeros append digits_number]. apply IH.
Qed.

(** The number in an operation id. *)
Definition id_number (id : string) : Z :=
  match id with
  | String _ (String _ (String _ digits)) => digits_number 0 digits
  | _ => -1
  end.

Lemma id_number_op_id : forall n, id_number (op_id n) = Z.of_nat n.
Proof.
  intros n. unfold op_id, zfill4. cbn [append id_number].
  rewrite digits_number_zeros. apply digits_number_str_of_int. lia.
Qed.

Lemma op_id_injective : forall a b, op_id a = op_id b -> a = b.
Proof.
  intros a b H. apply (f_equal id_number) in H.
  rewrite !id_number_op_id in H. lia.
Qed.

Local Close Scope Z_scope.

(** ** The counter and the log *)

Section Invariant.

Variable World : Type.
Variable run_adb : list string -> St.M World string.
Variable now : St.M World datetime.
Variable child : string -> string -> string.

(** The ids [op_id (from+1)], [op_id (from+2)], ... of the entries. *)
Fixpoint numbered_from (from : nat) (log : list Operation) : Prop :=
  match log with
  | [] => True
  | e :: rest => operation_id e = op_id (S from) /\ numbered_from (S from) rest
  end.

(** A manager with a session whose log is numbered from 1, whose counter
    is the length of the log, and whose metadata file holds the
    metadata. *)
Definition in_step (s : State World) (log : list Operation) : Prop :=
  let '(mgr, w, st) := s in
  exists cur,
    current_session mgr = Some cur
    /\ operations_log (metadata cur) = Some log
    /\ operation_counter mgr = length log
    /\ numbered_from 0 log
    /\ st (metadata_path cur) = Some (Json (metadata cur)).

Lemma numbered_from_app : forall log from e,
  numbered_from from log ->
  operation_id e = op_id (S (from + length log)) ->
  numbered_from from (log ++ [e]).
Proof.
  induction log as [|x log IH]; intros from e H He;
    cbn [numbered_from app length] in *.
  - rewrite Nat.add_0_r in He. split; [exact He|exact I].
  - destruct H as [Hx H]. split; [exact Hx|].
    apply IH; [exact H|]. rewrite He. f_equal. lia.
Qed.

Lemma store_set_same : forall path c st, store_set path c st path = Some c.
Proof. intros path c st. unfold store_set. rewrite String.eqb_refl. reflexivity. Qed.

Lemma log_operation_in_step : forall operation_type status log_file record_count s log,
  in_step s log ->
  exists entry s',
    log_operation now operation_type status log_file record_count s
    = Returns (Some (op_id (S (length log))), s')
    /\ operation_id entry = op_id (S (length log))
    /\ in_step s' (log ++ [entry]).
Proof.
  intros operation_type status log_file record_count [[mgr w] st] log
    (cur & Hc & Hl & Hn & Hnum & Hf).
  unfold log_operation. rewrite Hc, Hl, Hn.
  unfold timestamp_now, St.bind, St.ret.
  destruct (now w) as [dt1 w1]. destruct (now w1) as [dt2 w2].
  eexists (mkOperation (op_id (S (length log))) operation_type (strftime dt1) status _
             record_count), _.
  split; [reflexivity|]. split; [reflexivity|].
  eexists. cbn [current_session]. split; [reflexivity|].
  cbn [metadata operations_log operation_counter metadata_path].
  split; [reflexivity|]. split; [rewrite length_app; cbn; lia|].
  split; [apply numbered_from_app; [exact Hnum|reflexivity]|].
  unfold save_metadata. cbn [current_session metadata_path metadata].
  apply store_set_same.
Qed.

Lemma numbered_ids : forall log from,
  numbered_from from log ->
  map operation_id log = map (fun k => op_id (S (from + k))) (seq 0 (length log)).
Proof.
  induction log as [|e log IH]; intros from H; [reflexivity|].
  cbn in H. destruct H as [He H]. cbn [map length seq].
  rewrite He, Nat.add_0_r. f_equal.
  rewrite (IH (S from) H), <- seq_shift, map_map.
  apply map_ext. intros k. f_equal. lia.
Qed.

Lemma nodup_map_injective : forall (A B : Type) (f : A -> B) (l : list A),
  (forall a b, f a = f b -> a = b) -> NoDup l -> NoDup (map f l).
Proof.
  intros A B f l Hf H. induction H as [|a l Ha H IH]; cbn [map]; constructor.
  - intros Hin. apply in_map_iff in Hin. destruct Hin as (b & Hb & Hin).
    apply Hf in Hb. subst b. exact (Ha Hin).
  - exact IH.
Qed.

Lemma numbered_nodup : forall log,
  numbered_from 0 log -> NoDup (map operation_id log).
Proof.
  intros log H. rewrite (numbered_ids log 0 H).
  apply nodup_map_injective; [|apply seq_NoDup].
  intros a b Hab. apply op_id_injective in Hab. cbn [Nat.add] in Hab. lia.
Qed.

End Invariant.

(** X19: The manager keeps its counter equal to the length of the operations
    log.  A session started where no metadata file exists has an empty
    log; from a state in which the log is numbered [op_0001],
    [op_0002], ..., the counter is its length and the file holds the
    metadata, [log_operation] returns the next id, appends one entry with
    that id, and leaves such a state again, with the file rewritten; all
    ids of the log are different.  A session resumed from such a file has
    the same log and the counter at its length, so the numbering goes on
    where it stopped. *)
Theorem session_operation_ids_are_sequential :
  forall (World : Type) (run_adb : list string -> St.M World string)
         (now : St.M World datetime) (child : string -> string -> string),
    (forall device_info mgr w st dir s',
        start_session run_adb now child device_info (mgr, w, st) = Returns (dir, s') ->
        st (child dir "session_metadata.json") = None ->
        in_step World s' [])
    /\ (forall operation_type status log_file record_count s log,
          in_step World s log ->
          exists entry s',
            log_operation now operation_type status log_file record_count s
            = Returns (Some (op_id (S (length log))), s')
            /\ operation_id entry = op_id (S (length log))
            /\ in_step World s' (log ++ [entry])
            /\ NoDup (map operation_id (log ++ [entry])))
    /\ (forall device_info mgr w st dir s' m log,
          start_session run_adb now child device_info (mgr, w, st) = Returns (dir, s') ->
          st (child dir "session_metadata.json") = Some (Json m) ->
          operations_log m = Some log ->
          numbered_from 0 log ->
          in_step World s' log).
Proof.
  intros World run_adb now child. split; [|split].
  - intros device_info mgr w st dir s' H Hnone.
    unfold start_session, get_device_serial, timestamp_now, St.bind, St.ret in H.
    destruct (run_adb ["get-serialno"] w) as [out w1].
    destruct (now w1) as [dt w2].
    match type of H with
    | context [child (child (base_dir mgr) ?id) _] => set (sid := id) in *
    end.
    destruct (st (child (child (base_dir mgr) sid) "session_metadata.json"))
      as [[loaded|]|] eqn:Ef.
    + destruct (now w2) as [dt3 w3]. injection H as <- <-.
      rewrite Ef in Hnone. discriminate.
    + discriminate.
    + destruct (now w2) as [dt3 w3]. destruct (now w3) as [dt4 w4].
      injection H as <- <-.
      eexists. cbn [current_session]. split; [reflexivity|].
      cbn [metadata operations_log operation_counter metadata_path].
      repeat split. unfold save_metadata. cbn [current_session metadata_path metadata].
      apply store_set_same.
  - intros operation_type status log_file record_count s log Hs.
    destruct (log_operation_in_step World now operation_type status log_file
                record_count s log Hs) as (entry & s' & H1 & H2 & H3).
    exists entry, s'. repeat split; try assumption.
    destruct s' as [[mgr' w'] st']. destruct H3 as (cur & _ & _ & _ & Hnum & _).
    apply numbered_nodup, Hnum.
  - intros device_info mgr w st dir s' m log H Hfile Hlog Hnum.
    unfold start_session, get_device_serial, timestamp_now, St.bind, St.ret in H.
    destruct (run_adb ["get-serialno"] w) as [out w1].
    destruct (now w1) as [dt w2].
    match type of H with
    | context [child (child (base_dir mgr) ?id) _] => set (sid := id) in *
    end.
    destruct (st (child (child (base_dir mgr) sid) "session_metadata.json"))
      as [[loaded|]|] eqn:Ef.
    + destruct (now w2) as [dt3 w3]. injection H as <- <-.
      rewrite Ef in Hfile. injection Hfile as ->.
      eexists. cbn [current_session]. split; [reflexivity|].
      cbn [metadata operations_log operation_counter metadata_path].
      rewrite Hlog. repeat split; [exact Hnum|].
      unfold save_metadata. cbn [current_session metadata_path metadata].
      apply store_set_same.
    + discriminate.
    + destruct (now w2) as [dt3 w3]. destruct (now w3) as [dt4 w4].
      injection H as <- <-. rewrite Ef in Hfile. discriminate.
Qed.

(** A device that answers its serial number, and a clock that stands
    still. *)
Definition serial_stub : list string -> St.M unit string :=
  fun _ w => ("R58M123ABC", w).

Definition fixed_clock : St.M unit datetime :=
  fun w => (mkDatetime 2024 1 2 3 4 5, w).

Definition under_dir (dir name : string) : string := (dir ++ "/" ++ name)%string.

Definition empty_store : Store := fun _ => None.

Lemma session_operation_ids_are_sequential_witness :
  exists s1 e1 s2 e2 s3,
    start_session serial_stub fixed_clock under_dir "{}"
      (mkManager "forensics_sessions" None 0, tt, empty_store)
    = Returns ("forensics_sessions/device_R58M123ABC_2024-01-02", s1)
    /\ log_operation fixed_clock "view_sms" "success" (Some "sms_logs/sms_1.json") (Some 2%Z) s1
       = Returns (Some "op_0001", s2)
    /\ log_operation fixed_clock "view_calls" "success" None None s2
       = Returns (Some "op_0002", s3)
    /\ in_step unit s3 [e1; e2].
Proof.
  destruct (session_operation_ids_are_sequential unit serial_stub fixed_clock under_dir)
    as (H1 & H2 & _).
  pose proof (H1 "{}" (mkManager "forensics_sessions" None 0) tt empty_store
                _ _ eq_refl eq_refl) as Hs1.
  destruct (H2 "view_sms" "success" (Some "sms_logs/sms_1.json") (Some 2%Z) _ [] Hs1)
    as (e1 & s2 & Hr1 & _ & Hs2 & _).
  destruct (H2 "view_calls" "success" None None s2 [e1] Hs2)
    as (e2 & s3 & Hr2 & _ & Hs3 & _).
  eexists _, e1, s2, e2, s3.
  split; [reflexivity|]. split; [exact Hr1|]. split; [exact Hr2|exact Hs3].
Defined.

End SessionFacts.

(* ===================================================================== *)
(** * The extraction info the viewer logs: [_extract_metadata_from_raw] *)
(* ===================================================================== *)

Module Gui.
Import PyStr Regex Parsers.

(** [# URI(?:\s+used)?:\s*(.+)]. *)
Definition URI_LINE : regex :=
  cat [Lit "# URI"; Alt (cat [Plus true space; Lit "used"]) Eps; Lit ":";
       Star true space; Group "1" (Plus true dot)].

(** [# Projection:\s*(.+)]. *)
Definition PROJECTION_LINE : regex :=
  cat [Lit "# Projection:"; Star true space; Group "1" (Plus true dot)].

(** The dictionary [info]; a key that is not set is [None]. *)
Record ExtractionInfo : Type := mkInfo {
  info_uri_used : option string;
  info_projection_used : option string
}.

(** [m.group(1).strip()] for an optional match; group 1 takes part in
    every match of the two patterns. *)
Definition stripped_group (m : option Match) : option string :=
  match m with
  | Some m =>
      match group m "1" with
      | Some g => Some (strip g)
      | None => None
      end
  | None => None
  end.

(** [_extract_metadata_from_raw(raw_text)]. *)
Definition extract_metadata_from_raw (raw_text : string) : ExtractionInfo :=
  mkInfo (stripped_group (search URI_LINE raw_text))
         (stripped_group (search PROJECTION_LINE raw_text)).

End Gui.

Module RunFacts.
Import PyStr StrFacts RegexFacts TextFacts Regex.

(** ** Running a pattern on a subject of known shape *)

Lemma run_Lit_prefix : forall (R : Type) L s c (k : string -> caps -> option R),
  run (Lit L) (L ++ s) c k = k s c.
Proof.
  intros R L. induction L as [|a L IH]; intros s c k; [reflexivity|].
  cbn [Lit run append]. unfold is_char. rewrite Ascii.eqb_refl. apply IH.
Qed.

(** Where the subject ends or goes on with a character outside the
    class. *)
Definition stops (p : ascii -> bool) (s : string) : bool :=
  match s with
  | EmptyString => true
  | String a _ => negb (p a)
  end.

Lemma star_greedy_stops : forall (R : Type) p w s c
    (k : string -> caps -> option R) x,
  all_chars p w = true -> stops p s = true -> k s c = Some x ->
  star_greedy p (w ++ s) c k = Some x.
Proof.
  intros R p w. induction w as [|a w IH]; intros s c k x Hw Hs Hk.
  - cbn [append]. destruct s as [|b s]; cbn [star_greedy]; [exact Hk|].
    cbn [stops] in Hs. apply negb_true_iff in Hs. rewrite Hs. exact Hk.
  - cbn [all_chars] in Hw. apply andb_prop in Hw as [Ha Hw].
    cbn [append star_greedy]. rewrite Ha, (IH s c k x Hw Hs Hk). reflexivity.
Qed.

(** A search passes over a prefix at none of whose positions the
    pattern matches. *)
Lemma search_skip : forall r pre s,
  (forall u a v, pre = (u ++ String a v)%string ->
                 match_at r (String a v ++ s) = None) ->
  search r (pre ++ s) = search r s.
Proof.
  intros r pre. induction pre as [|a pre IH]; intros s H; [reflexivity|].
  cbn [append]. rewrite <- (IH s).
  - pose proof (H EmptyString a pre eq_refl) as H0. cbn [append] in H0.
    destruct s; cbn [search]; rewrite H0; reflexivity.
  - intros u b v E. apply (H (String a u) b v). cbn [append]. rewrite E. reflexivity.
Qed.

(** A pattern that opens with a literal character matches at no
    position that holds another character. *)
Lemma match_at_other_char : forall c0 L rest a v,
  Ascii.eqb a c0 = false ->
  match_at (Seq (Lit (String c0 L)) rest) (String a v) = None.
Proof.
  intros c0 L rest a v H. unfold match_at. cbn [Lit run]. unfold is_char.
  rewrite H. reflexivity.
Qed.

Lemma run_Seq : forall (R : Type) a b s c (k : string -> caps -> option R),
  run (Seq a b) s c k = run a s c (fun s' c' => run b s' c' k).
Proof. reflexivity. Qed.

Lemma run_Alt_second : forall (R : Type) a b s c (k : string -> caps -> option R),
  run a s c k = None -> run (Alt a b) s c k = run b s c k.
Proof. intros R a b s c k H. cbn [run]. rewrite H. reflexivity. Qed.

Lemma search_here : forall r s m, match_at r s = Some m -> search r s = Some m.
Proof. intros r s m H. destruct s; cbn [search]; rewrite H; reflexivity. Qed.

(** A lazy repetition stops at the first position where what follows
    matches. *)
Lemma star_lazy_first : forall (R : Type) p w s c
    (k : string -> caps -> option R) x,
  all_chars p w = true ->
  (forall u a v, w = (u ++ String a v)%string -> k (String a v ++ s)%string c = None) ->
  k s c = Some x ->
  star_lazy p (w ++ s) c k = Some x.
Proof.
  intros R p w. induction w as [|a w IH]; intros s c k x Hw Hn Hk.
  - cbn [append]. destruct s; cbn [star_lazy]; rewrite Hk; reflexivity.
  - cbn [all_chars] in Hw. apply andb_prop in Hw as [Ha Hw].
    pose proof (Hn EmptyString a w eq_refl) as H0. cbn [append] in H0.
    cbn [append star_lazy]. rewrite H0, Ha.
    apply IH; [exact Hw| |exact Hk].
    intros u b v E. apply (Hn (String a u) b v). cbn [append]. rewrite E. reflexivity.
Qed.

End RunFacts.

Module GuiFacts.
Import PyStr StrFacts RegexFacts TextFacts Query Regex Parsers ParserFacts.
Import Device LiveFacts Gui RunFacts.

(** No ["#"] in a string. *)
Definition no_hash (s : string) : bool :=
  all_chars (fun c => negb (Ascii.eqb c "#")) s.

Lemma search_skip_no_hash : forall L rest pre s,
  no_hash pre = true ->
  search (Seq (Lit (String "#" L)) rest) (pre ++ s)
  = search (Seq (Lit (String "#" L)) rest) s.
Proof.
  intros L rest pre s H. apply search_skip. intros u a v E. cbn [append].
  apply match_at_other_char.
  unfold no_hash in H. rewrite E, all_chars_append in H.
  apply andb_prop in H as [_ H]. cbn [all_chars] in H.
  apply andb_prop in H as [H _]. apply negb_true_iff in H. exact H.
Qed.

(** ** A labelled header line *)

(** A value a header line can carry and give back: it starts with a
    character that is neither white space nor a line feed, and holds no
    line feed. *)
Definition line_value (v : string) : bool :=
  match v with
  | EmptyString => false
  | String a w => negb (space a) && dot a && all_chars dot w
  end.

Lemma run_value : forall (R : Type) sp v T c (k : string -> caps -> option R) x,
  all_chars space sp = true -> line_value v = true ->
  k (String "010" T) (("1", v) :: c) = Some x ->
  run (cat [Star true space; Group "1" (Plus true dot)])
      (sp ++ v ++ String "010" T) c k = Some x.
Proof.
  intros R sp v T c k x Hsp Hv Hk.
  destruct v as [|a w]; [discriminate|]. cbn [line_value] in Hv.
  apply andb_prop in Hv as [Hv Hw]. apply andb_prop in Hv as [Hs Hd].
  cbn [cat fold_right run].
  apply star_greedy_stops; [exact Hsp|exact Hs|].
  cbn [append Plus run]. rewrite Hd.
  apply star_greedy_stops; [exact Hw|reflexivity|].
  change (String a (w ++ String "010" T)) with (String a w ++ String "010" T)%string.
  rewrite taken_app. exact Hk.
Qed.

Lemma uri_line_found : forall v T,
  line_value v = true ->
  search URI_LINE ("# URI: " ++ v ++ String "010" T)
  = Some (mkMatch ("# URI: " ++ v ++ String "010" T) (String "010" T) [("1", v)]).
Proof.
  intros v T Hv. apply search_here. unfold match_at, URI_LINE.
  change ("# URI: " ++ v ++ String "010" T)%string
    with ("# URI" ++ ":" ++ " " ++ v ++ String "010" T)%string at 1.
  cbn [cat fold_right].
  rewrite run_Seq, run_Lit_prefix, run_Seq, run_Alt_second by reflexivity.
  change (run Eps ?s ?c ?k) with (k s c). cbv beta.
  rewrite run_Seq, run_Lit_prefix.
  apply (run_value _ " " v T); [reflexivity|exact Hv|reflexivity].
Qed.

Lemma projection_line_found : forall sp v T,
  all_chars space sp = true -> line_value v = true ->
  search PROJECTION_LINE ("# Projection:" ++ sp ++ v ++ String "010" T)
  = Some (mkMatch ("# Projection:" ++ sp ++ v ++ String "010" T) (String "010" T)
            [("1", v)]).
Proof.
  intros sp v T Hsp Hv. apply search_here. unfold match_at, PROJECTION_LINE.
  cbn [cat fold_right].
  rewrite run_Seq, run_Lit_prefix.
  apply (run_value _ sp v T); [exact Hsp|exact Hv|reflexivity].
Qed.

(** ** The header of a live query *)

(** A search for a pattern that opens with ["#"] passes over a header
    line it does not match at and that holds no further ["#"]. *)
Lemma search_after_line : forall L rest line s,
  match_at (Seq (Lit (String "#" L)) rest) (String "#" (line ++ String "010" s)) = None ->
  no_hash line = true ->
  search (Seq (Lit (String "#" L)) rest) (String "#" (line ++ String "010" s))
  = search (Seq (Lit (String "#" L)) rest) s.
Proof.
  intros L rest line s H0 Hd.
  cbn [search]. rewrite H0.
  replace (line ++ String "010" s)%string
    with ((line ++ String "010" EmptyString) ++ s)%string
    by (rewrite append_assoc; reflexivity).
  apply search_skip_no_hash.
  unfold no_hash in *. rewrite all_chars_append, Hd. reflexivity.
Qed.

(** A value that comes back from its header line as it went in. *)
Definition clean_value (v : string) : bool :=
  line_value v && no_hash v && String.eqb (strip v) v.

(** What the viewer logs for an answer of the query engine: the URI, and
    the projection -- or, in place of an empty projection, the line that
    follows it in the header. *)
Definition logged_info (r : QueryResult) : ExtractionInfo :=
  mkInfo (Some (str_of_opt (uri_used r)))
         (Some (match projection_used r with
                | Some EmptyString => ("# Success: " ++ str_of_bool (success r))%string
                | p => str_of_opt p
                end)).

Lemma live_text_shape : forall info r,
  (live_metadata info r ++ raw_text r)%string
  = String "#" ((" Device: " ++ manufacturer info ++ " " ++ model info) ++ String "010"
      (String "#" ((" URI: " ++ str_of_opt (uri_used r)) ++ String "010"
         ("# Projection:" ++ " " ++ str_of_opt (projection_used r) ++ String "010"
            ("# Success: " ++ str_of_bool (success r) ++ String "010"
               (String "010" (raw_text r)))))))%string.
Proof.
  intros info r. unfold live_metadata, newline.
  repeat (rewrite ?append_assoc; cbn [append]). reflexivity.
Qed.

Lemma no_hash_append : forall a b, no_hash (a ++ b) = no_hash a && no_hash b.
Proof. intros a b. apply all_chars_append. Qed.

Lemma clean_value_facts : forall v,
  clean_value v = true -> line_value v = true /\ no_hash v = true /\ strip v = v.
Proof.
  intros v H. unfold clean_value in H.
  apply andb_prop in H as [H H3]. apply andb_prop in H as [H1 H2].
  apply String.eqb_eq in H3. repeat split; assumption.
Qed.

Lemma extraction_info_of_live_text : forall info r,
  no_hash (manufacturer info) = true -> no_hash (model info) = true ->
  clean_value (str_of_opt (uri_used r)) = true ->
  projection_used r = Some EmptyString
  \/ (projection_used r <> Some EmptyString
      /\ clean_value (str_of_opt (projection_used r)) = true) ->
  extract_metadata_from_raw (live_metadata info r ++ raw_text r) = logged_info r.
Proof.
  intros info r Hm Hd Hu Hp.
  apply clean_value_facts in Hu. destruct Hu as (Hu1 & Hu2 & Hu3).
  rewrite live_text_shape. unfold extract_metadata_from_raw, logged_info.
  assert (Hdev : no_hash (" Device: " ++ manufacturer info ++ " " ++ model info) = true).
  { change (no_hash (manufacturer info ++ " " ++ model info) = true).
    rewrite no_hash_append, Hm. exact Hd. }
  assert (Huri : no_hash (" URI: " ++ str_of_opt (uri_used r)) = true) by exact Hu2.
  f_equal.
  - change URI_LINE with
      (Seq (Lit (String "#" " URI"))
         (cat [Alt (cat [Plus true space; Lit "used"]) Eps; Lit ":";
               Star true space; Group "1" (Plus true dot)])).
    rewrite search_after_line; [|reflexivity|exact Hdev].
    change (Seq (Lit (String "#" " URI"))
         (cat [Alt (cat [Plus true space; Lit "used"]) Eps; Lit ":";
               Star true space; Group "1" (Plus true dot)])) with URI_LINE.
    change (String "#" ((" URI: " ++ str_of_opt (uri_used r)) ++ ?T))%string
      with ("# URI: " ++ str_of_opt (uri_used r) ++ T)%string.
    rewrite uri_line_found by exact Hu1.
    cbn [stripped_group group m_caps lookup]. rewrite String.eqb_refl, Hu3. reflexivity.
  - change PROJECTION_LINE with
      (Seq (Lit (String "#" " Projection:"))
         (cat [Star true space; Group "1" (Plus true dot)])).
    rewrite search_after_line; [|reflexivity|exact Hdev].
    rewrite search_after_line; [|reflexivity|exact Huri].
    change (Seq (Lit (String "#" " Projection:"))
         (cat [Star true space; Group "1" (Plus true dot)])) with PROJECTION_LINE.
    destruct Hp as [Hp|[Hne Hp]].
    + rewrite Hp. cbn [str_of_opt].
      change (search PROJECTION_LINE _)
        with (search PROJECTION_LINE
                ("# Projection:" ++ String " " (String "010" EmptyString)
                 ++ ("# Success: " ++ str_of_bool (success r))
                 ++ String "010" (String "010" (raw_text r)))).
      rewrite projection_line_found;
        [|reflexivity|destruct (success r); reflexivity].
      cbn [stripped_group group m_caps lookup]. rewrite String.eqb_refl.
      destruct (success r); reflexivity.
    + apply clean_value_facts in Hp. destruct Hp as (Hp1 & _ & Hp3).
      rewrite projection_line_found; [|reflexivity|exact Hp1].
      cbn [stripped_group group m_caps lookup]. rewrite String.eqb_refl, Hp3.
      destruct (projection_used r) as [[|a p]|]; [congruence|reflexivity|reflexivity].
Qed.

Lemma extraction_info_of_query_live : forall (World : Type)
    (run_adb : list string -> Z -> St.M World string) uris projs label w,
  forallb clean_value uris = true ->
  forallb (fun p => String.eqb p EmptyString || clean_value p) projs = true ->
  no_hash (manufacturer (fst (detect_device_manufacturer run_adb w))) = true ->
  no_hash (model (fst (detect_device_manufacturer run_adb w))) = true ->
  extract_metadata_from_raw (fst (query_live run_adb uris projs label w))
  = logged_info
      (fst (query_content_provider_with_fallbacks (adb run_adb) uris projs label
              (snd (detect_device_manufacturer run_adb w)))).
Proof.
  intros World run_adb uris projs label w Hu Hp Hm Hd.
  rewrite query_live_unfold.
  pose proof (engine_answers World (adb run_adb) uris projs label
                (snd (detect_device_manufacturer run_adb w))) as Ha.
  set (r := fst (query_content_provider_with_fallbacks (adb run_adb) uris projs label
                   (snd (detect_device_manufacturer run_adb w)))) in *.
  apply extraction_info_of_live_text; [exact Hm|exact Hd| |].
  - destruct Ha as [(_ & u & p & -> & _ & Iu & _)| ->]; [|reflexivity].
    rewrite forallb_forall in Hu. apply Hu, Iu.
  - destruct Ha as [(_ & u & p & _ & -> & _ & Ip)| ->].
    + rewrite forallb_forall in Hp. specialize (Hp p Ip).
      destruct p as [|a p]; [left; reflexivity|].
      right. split; [discriminate|exact Hp].
    + right. split; [discriminate|reflexivity].
Qed.

(** X20: The extraction info the viewer logs with the SMS, the contacts and
    the call log is read back from the header of the live query.  The URI
    it finds is the one the query engine used (the text [None] when
    every query failed), and so is the projection, with one exception:
    when the query that succeeded is the one without a projection, the
    header line of the projection is empty, and what is logged as
    [projection_used] is the next header line, [# Success: True].  This
    holds when the manufacturer and model properties of the device hold
    no ["#"]. *)
Theorem viewer_logs_extraction_info :
  forall (World : Type) (run_adb : list string -> Z -> St.M World string) (w : World),
    let info := fst (detect_device_manufacturer run_adb w) in
    let answer := fun uris projs label =>
      fst (query_content_provider_with_fallbacks (adb run_adb) uris projs label
             (snd (detect_device_manufacturer run_adb w))) in
    no_hash (manufacturer info) = true ->
    no_hash (model info) = true ->
    extract_metadata_from_raw (fst (query_sms_live run_adb w))
    = logged_info (answer SMS_LIVE_URIS SMS_LIVE_PROJECTIONS "SMS")
    /\ extract_metadata_from_raw (fst (query_contacts_live run_adb w))
       = logged_info (answer CONTACTS_LIVE_URIS CONTACTS_LIVE_PROJECTIONS "Contacts")
    /\ extract_metadata_from_raw (fst (query_calls_live run_adb w))
       = logged_info (answer CALLS_LIVE_URIS CALLS_LIVE_PROJECTIONS "Call Logs").
Proof.
  intros World run_adb w info answer Hm Hd.
  repeat split; apply extraction_info_of_query_live; try reflexivity; assumption.
Qed.

(** A phone that answers only the SMS query without a projection. *)
Definition old_phone_table (args : list string) : string :=
  if list_eq_dec string_dec args ["shell"; "getprop"; "ro.product.manufacturer"]
  then "Xiaomi"
  else if list_eq_dec string_dec args ["shell"; "getprop"; "ro.product.model"]
  then "Redmi Note 8"
  else if list_eq_dec string_dec args ["shell"; "getprop"; "ro.product.brand"]
  then "Redmi"
  else if list_eq_dec string_dec args ["shell"; "getprop"; "ro.build.version.sdk"]
  then "29"
  else if list_eq_dec string_dec args ["shell"; "content"; "query"; "--uri"; "content://sms/"]
  then "Row: 0 _id=1, address=+15551234567, date=1700000000000, body=Hello there"
  else "java.lang.SecurityException: Permission Denial".

Definition old_phone : list string -> Z -> St.M unit string :=
  fun args _ w => (old_phone_table args, w).

Lemma viewer_logs_extraction_info_witness :
  extract_metadata_from_raw (fst (query_sms_live old_phone tt))
  = mkInfo (Some "content://sms/") (Some "# Success: True")
  /\ extract_metadata_from_raw (fst (query_calls_live old_phone tt))
     = mkInfo (Some "None") (Some "None").
Proof.
  destruct (viewer_logs_extraction_info unit old_phone tt eq_refl eq_refl)
    as (Hs & _ & Hc).
  split; [rewrite Hs|rewrite Hc]; vm_compute; reflexivity.
Defined.

End GuiFacts.

(* ===================================================================== *)
(** * The key/value strategy on a line of two fields *)
(* ===================================================================== *)

Module KeyValueFacts.
Import PyStr StrFacts RegexFacts TextFacts Clock Regex Parsers ParserFacts HeaderFacts RunFacts.

(** The text of a field: no comma, no [=], no line boundary. *)
Definition field_char (c : ascii) : bool :=
  negb (Ascii.eqb c ",") && negb (Ascii.eqb c "=") && negb (is_linebreak c).

Definition field_text (s : string) : bool := all_chars field_char s.

Lemma field_char_dot : forall c, field_char c = true -> dot c = true.
Proof.
  intros c H. unfold field_char in H. apply andb_prop in H as [_ H].
  unfold dot. destruct (Ascii.eqb_spec c "010") as [->|_]; [discriminate H|reflexivity].
Qed.

Lemma field_text_dot : forall s, field_text s = true -> all_chars dot s = true.
Proof.
  induction s as [|c s IH]; intros H; [reflexivity|].
  unfold field_text in *. cbn [all_chars] in *. apply andb_prop in H as [Hc H].
  rewrite (field_char_dot c Hc), (IH H). reflexivity.
Qed.

(** The end-of-line test fails in front of a character that is no line
    feed. *)
Lemma end_dollar_fails : forall (R : Type) a s c (k : string -> caps -> option R),
  dot a = true -> run EndDollar (String a s) c k = None.
Proof.
  intros R a s c k H. cbn [run]. destruct s; [|reflexivity].
  unfold dot in H. apply negb_true_iff in H. rewrite H. reflexivity.
Qed.

Lemma run_Group : forall (R : Type) n a s c (k : string -> caps -> option R),
  run (Group n a) s c k = run a s c (fun s' c' => k s' ((n, taken s s') :: c')).
Proof. reflexivity. Qed.

Lemma run_Plus_first : forall (R : Type) p a s c (k : string -> caps -> option R),
  p a = true -> run (Plus true p) (String a s) c k = star_greedy p s c k.
Proof. intros R p a s c k H. cbn [Plus run]. rewrite H. reflexivity. Qed.

Lemma run_Chr_other : forall (R : Type) p a s c (k : string -> caps -> option R),
  p a = false -> run (Chr p) (String a s) c k = None.
Proof. intros R p a s c k H. cbn [run]. rewrite H. reflexivity. Qed.

Lemma run_Alt_first : forall (R : Type) a b s c (k : string -> caps -> option R) x,
  run a s c k = Some x -> run (Alt a b) s c k = Some x.
Proof. intros R a b s c k x H. cbn [run]. rewrite H. reflexivity. Qed.

Lemma word_is_no_space : forall c, word c = true -> space c = false.
Proof.
  intros [b0 b1 b2 b3 b4 b5 b6 b7] H.
  destruct b0, b1, b2, b3, b4, b5, b6, b7; try reflexivity; discriminate H.
Qed.

(** The pattern on [key=value,<spaces>key=...]: the match takes the
    first pair and, as its end, the key of the second. *)
Lemma key_value_first : forall a1 k1 A sp a2 k2 B,
  word a1 = true -> all_chars word k1 = true ->
  field_text A = true -> all_chars space sp = true ->
  word a2 = true -> all_chars word k2 = true ->
  match_at KEY_VALUE
    (String a1 k1 ++ "=" ++ A ++ "," ++ sp ++ String a2 k2 ++ "=" ++ B)
  = Some (mkMatch (String a1 k1 ++ "=" ++ A ++ "," ++ sp ++ String a2 k2 ++ "=" ++ B) B
            [("2", A); ("1", String a1 k1)]).
Proof.
  intros a1 k1 A sp a2 k2 B Ha1 Hk1 HA Hsp Ha2 Hk2.
  unfold match_at, KEY_VALUE. cbn [cat fold_right].
  set (line := (String a1 k1 ++ "=" ++ A ++ "," ++ sp ++ String a2 k2 ++ "=" ++ B)%string).
  rewrite run_Seq, run_Group.
  change line with (String a1 (k1 ++ "=" ++ A ++ "," ++ sp ++ String a2 k2 ++ "=" ++ B))%string
    at 1.
  rewrite run_Plus_first by exact Ha1.
  apply star_greedy_stops; [exact Hk1|reflexivity|].
  rewrite run_Seq, run_Lit_prefix, run_Seq, run_Group.
  change (run (Star false dot) ?s ?c ?k) with (star_lazy dot s c k).
  apply star_lazy_first.
  - apply field_text_dot, HA.
  - intros u a v E.
    assert (Hf : field_char a = true).
    { unfold field_text in HA. rewrite E, all_chars_append in HA.
      apply andb_prop in HA as [_ HA]. cbn [all_chars] in HA.
      apply andb_prop in HA as [HA _]. exact HA. }
    cbn [append]. rewrite run_Seq, run_Alt_second.
    + apply end_dollar_fails, field_char_dot, Hf.
    + rewrite run_Seq. cbn [Lit]. rewrite run_Seq. apply run_Chr_other.
      unfold field_char in Hf. apply andb_prop in Hf as [Hf _].
      apply andb_prop in Hf as [Hf _]. apply negb_true_iff in Hf. exact Hf.
  - rewrite run_Seq. apply run_Alt_first.
    rewrite run_Seq, run_Lit_prefix, run_Seq.
    change (run (Star true space) ?s ?c ?k) with (star_greedy space s c k).
    apply star_greedy_stops; [exact Hsp| |].
    + cbn [append stops]. rewrite (word_is_no_space a2 Ha2). reflexivity.
    + rewrite run_Seq. cbn [append]. rewrite run_Plus_first by exact Ha2.
      apply star_greedy_stops; [exact Hk2|reflexivity|].
      rewrite run_Seq.
      change (String "=" B) with ("=" ++ B)%string.
      rewrite run_Lit_prefix. cbn [run].
      rewrite taken_app.
      change (String a1 k1 ++ ?t)%string with (String a1 (k1 ++ t))%string in line.
      subst line.
      change (String a1 (k1 ++ ?t))%string with (String a1 k1 ++ t)%string at 2.
      rewrite taken_app. reflexivity.
Qed.

(** ** A subject without [=] *)

Lemma field_text_no_equals : forall s, field_text s = true -> contains "=" s = false.
Proof.
  induction s as [|c s IH]; intros H; [reflexivity|].
  unfold field_text in *. cbn [all_chars] in H. apply andb_prop in H as [Hc H].
  cbn [contains startswith]. rewrite (IH H).
  unfold field_char in Hc. apply andb_prop in Hc as [Hc _].
  apply andb_prop in Hc as [_ Hc]. apply negb_true_iff in Hc.
  rewrite Ascii.eqb_sym, Hc. reflexivity.
Qed.

Lemma contains_part : forall a b s,
  occurs a b -> contains b s = true -> contains a s = true.
Proof.
  intros a b s Hab H. apply contains_occurs. apply contains_occurs in H.
  exact (occurs_trans _ _ _ Hab H).
Qed.

Lemma occurs_equals : forall K, occurs "=" (K ++ "=").
Proof. intros K. exists K, EmptyString. reflexivity. Qed.

Lemma field_text_no_marker : forall K s,
  field_text s = true -> contains (K ++ "=") s = false.
Proof.
  intros K s H. destruct (contains (K ++ "=") s) eqn:E; [|reflexivity].
  apply (contains_part "=" _ _ (occurs_equals K)) in E.
  rewrite (field_text_no_equals s H) in E. discriminate.
Qed.

Lemma key_value_needs_equals : forall w c',
  den KEY_VALUE w [] c' -> occurs "=" (map_chars (fun a => a) w).
Proof.
  intros w c' H. rewrite map_chars_id.
  apply key_value_captures in H as (k & v & _ & Ho).
  exact (occurs_trans _ _ _ (occurs_equals k) Ho).
Qed.

Lemma key_value_search_none : forall s,
  field_text s = true -> search KEY_VALUE s = None.
Proof.
  intros s H. apply (search_none (fun a => a) "=" KEY_VALUE key_value_needs_equals).
  rewrite map_chars_id. apply field_text_no_equals, H.
Qed.

Lemma finditer_from_none : forall fuel r s, search r s = None -> finditer_from fuel r s = [].
Proof. intros [|fuel] r s H; [reflexivity|]. cbn [finditer_from]. rewrite H. reflexivity. Qed.

(** [re.findall] on the line gives the first pair alone. *)
Lemma key_value_pairs_of_line : forall a1 k1 A sp a2 k2 B,
  word a1 = true -> all_chars word k1 = true ->
  field_text A = true -> all_chars space sp = true ->
  word a2 = true -> all_chars word k2 = true ->
  field_text B = true ->
  findall_pairs KEY_VALUE
    (String a1 k1 ++ "=" ++ A ++ "," ++ sp ++ String a2 k2 ++ "=" ++ B)
  = [(String a1 k1, A)].
Proof.
  intros a1 k1 A sp a2 k2 B Ha1 Hk1 HA Hsp Ha2 Hk2 HB.
  unfold findall_pairs, finditer. cbn [finditer_from].
  rewrite (search_here _ _ _ (key_value_first a1 k1 A sp a2 k2 B Ha1 Hk1 HA Hsp Ha2 Hk2)).
  cbn [m_rest m_from map group m_caps lookup].
  assert (E : (if Nat.ltb (String.length B)
                    (String.length (String a1 k1 ++ "=" ++ A ++ "," ++ sp
                                    ++ String a2 k2 ++ "=" ++ B))
               then finditer_from
                      (String.length (String a1 k1 ++ "=" ++ A ++ "," ++ sp
                                      ++ String a2 k2 ++ "=" ++ B)) KEY_VALUE B
               else match B with
                    | String _ rest =>
                        finditer_from
                          (String.length (String a1 k1 ++ "=" ++ A ++ "," ++ sp
                                          ++ String a2 k2 ++ "=" ++ B)) KEY_VALUE rest
                    | EmptyString => []
                    end) = []).
  { destruct (Nat.ltb _ _).
    - apply finditer_from_none, key_value_search_none, HB.
    - destruct B as [|b B']; [reflexivity|].
      apply finditer_from_none, key_value_search_none.
      unfold field_text in *. cbn [all_chars] in HB. apply andb_prop in HB as [_ HB].
      exact HB. }
  rewrite E. reflexivity.
Qed.

(** ** Where a marker can stand in a line *)

Definition no_equals (s : string) : bool :=
  all_chars (fun c => negb (Ascii.eqb c "=")) s.

Fixpoint last_char (s : string) : option ascii :=
  match s with
  | EmptyString => None
  | String c EmptyString => Some c
  | String _ r => last_char r
  end.

Lemma last_char_append : forall a c r,
  last_char (a ++ String c r) = last_char (String c r).
Proof.
  induction a as [|x a IH]; intros c r; [reflexivity|].
  cbn [append]. rewrite <- (IH c r).
  destruct (a ++ String c r)%string eqn:E; [destruct a; discriminate|reflexivity].
Qed.

Lemma last_char_some : forall c s, last_char (String c s) <> None.
Proof.
  intros c s. revert c. induction s as [|b s IH]; intros c; [discriminate|].
  change (last_char (String c (String b s))) with (last_char (String b s)). apply IH.
Qed.

Lemma startswith_to_equals : forall K w v,
  no_equals K = true -> no_equals w = true ->
  startswith (K ++ "=") (w ++ String "=" v) = true -> K = w.
Proof.
  unfold no_equals.
  induction K as [|a K IH]; intros w v HK Hw H.
  - destruct w as [|b w]; [reflexivity|].
    cbn [append startswith all_chars] in H, Hw.
    apply andb_prop in H as [H _]. apply andb_prop in Hw as [Hw _].
    rewrite Ascii.eqb_sym, H in Hw. discriminate.
  - cbn [all_chars] in HK. apply andb_prop in HK as [Ha HK].
    destruct w as [|b w].
    + cbn [append startswith] in H. apply andb_prop in H as [H _].
      rewrite H in Ha. discriminate.
    + cbn [all_chars] in Hw. apply andb_prop in Hw as [Hb Hw].
      cbn [append startswith] in H. apply andb_prop in H as [Hab H].
      apply Ascii.eqb_eq in Hab. subst b. f_equal. exact (IH w v HK Hw H).
Qed.

Lemma marker_position : forall K u v,
  K <> EmptyString -> no_equals K = true -> no_equals u = true ->
  contains (K ++ "=") (u ++ String "=" v) = true ->
  last_char u = last_char K \/ contains (K ++ "=") v = true.
Proof.
  intros K u v HK Hn. induction u as [|b u IH]; intros Hu H.
  - cbn [append contains] in H. apply orb_prop in H as [H|H]; [|right; exact H].
    apply (startswith_to_equals K EmptyString v Hn Hu) in H. contradiction.
  - cbn [append contains] in H. apply orb_prop in H as [H|H].
    + apply (startswith_to_equals K (String b u) v Hn Hu) in H. subst K. left. reflexivity.
    + assert (Hu' : no_equals u = true).
      { unfold no_equals in *. cbn [all_chars] in Hu.
        apply andb_prop in Hu as [_ Hu]. exact Hu. }
      destruct (IH Hu' H) as [E|E]; [left|right; exact E].
      destruct u as [|c u].
      * destruct K as [|a K]; [contradiction|].
        exfalso. apply (last_char_some a K). symmetry. exact E.
      * exact E.
Qed.

Lemma field_text_no_equals_chars : forall s, field_text s = true -> no_equals s = true.
Proof.
  intros s H. unfold field_text, no_equals in *.
  induction s as [|c s IH]; [reflexivity|].
  cbn [all_chars] in *. apply andb_prop in H as [Hc H]. rewrite (IH H).
  unfold field_char in Hc. apply andb_prop in Hc as [Hc _].
  apply andb_prop in Hc as [_ Hc]. rewrite Hc. reflexivity.
Qed.

Lemma no_equals_append : forall a b, no_equals (a ++ b) = no_equals a && no_equals b.
Proof. intros a b. apply all_chars_append. Qed.

(** A marker [K=] whose last letter is neither that of [address] nor
    that of [body] is not in the line. *)
Lemma line_without_marker : forall K A B,
  K <> EmptyString -> no_equals K = true ->
  last_char K <> Some "s"%char -> last_char K <> Some "y"%char ->
  field_text A = true -> field_text B = true ->
  contains (K ++ "=") ("address=" ++ A ++ ", body=" ++ B) = false.
Proof.
  intros K A B HK Hn Hs Hy HA HB.
  destruct (contains (K ++ "=") ("address=" ++ A ++ ", body=" ++ B)) eqn:E; [|reflexivity].
  exfalso.
  change ("address=" ++ A ++ ", body=" ++ B)%string
    with ("address" ++ String "=" (A ++ ", body=" ++ B))%string in E.
  apply (marker_position K "address" _ HK Hn eq_refl) in E.
  destruct E as [E|E]; [apply Hs; rewrite <- E; reflexivity|].
  replace (A ++ ", body=" ++ B)%string
    with ((A ++ ", body") ++ String "=" B)%string in E
    by (rewrite append_assoc; reflexivity).
  apply (marker_position K (A ++ ", body") B HK Hn) in E.
  - destruct E as [E|E].
    + apply Hy. rewrite <- E. rewrite last_char_append. reflexivity.
    + rewrite (field_text_no_marker K B HB) in E. discriminate.
  - rewrite no_equals_append, (field_text_no_equals_chars A HA). reflexivity.
Qed.

(** ** The parser on the line *)

Lemma sms_row_needs_date : forall w c',
  den SMS_ROW w [] c' -> occurs "date=" (map_chars (fun a => a) w).
Proof.
  intros w c' H. rewrite map_chars_id. unfold SMS_ROW in H. cbn [cat den] in H.
  break_den. subst.
  repeat (apply occurs_prefix || apply occurs_app_r).
Qed.

Lemma splitlines_single : forall s,
  one_line s = true -> s <> EmptyString -> splitlines s = [s].
Proof.
  induction s as [|c s IH]; intros H Hne; [contradiction|].
  unfold one_line in H. cbn [all_chars] in H. apply andb_prop in H as [Hc H].
  apply negb_true_iff in Hc. rewrite splitlines_cons, Hc.
  destruct s as [|b s]; [reflexivity|].
  rewrite (IH H); [reflexivity|discriminate].
Qed.

Lemma field_text_one_line : forall s, field_text s = true -> one_line s = true.
Proof.
  intros s H. unfold field_text, one_line in *.
  induction s as [|c s IH]; [reflexivity|].
  cbn [all_chars] in *. apply andb_prop in H as [Hc H]. rewrite (IH H).
  unfold field_char in Hc. apply andb_prop in Hc as [_ Hc]. rewrite Hc. reflexivity.
Qed.

(** X21: The last strategy of [parse_sms_text] loses every second field of a
    line.  A text that is the one line [address=A, body=B] -- [A] and
    [B] without comma, [=] and line boundary -- has no [date=], so the
    first three strategies find nothing; the key/value pattern of the
    fourth ends its first match with the key of the next field
    ([, body=]), so the search goes on behind that key and [body] is
    never seen as a key.  The record returned has the address and an
    empty body; when [A] is blank nothing is returned at all. *)
Theorem sms_key_value_line_loses_body :
  forall (f : string -> string) (A B : string),
    field_text A = true -> field_text B = true ->
    parse_sms_text f ("address=" ++ A ++ ", body=" ++ B)
    = Ok (if truthy (strip A) then [mkSms (strip A) "" "Unknown" ""] else []).
Proof.
  intros f A B HA HB.
  set (line := ("address=" ++ A ++ ", body=" ++ B)%string).
  assert (Hone : one_line line = true).
  { subst line. unfold one_line.
    change (all_chars (fun c => negb (is_linebreak c)) (A ++ ", body=" ++ B) = true).
    rewrite all_chars_append. fold (one_line A). rewrite (field_text_one_line A HA).
    exact (field_text_one_line B HB). }
  assert (Hlines : splitlines line = [line])
    by (apply splitlines_single; [exact Hone|discriminate]).
  assert (Htext : without_comments line = line).
  { unfold without_comments. rewrite Hlines. reflexivity. }
  assert (Hm : forall K, K <> EmptyString -> no_equals K = true ->
                 last_char K <> Some "s"%char -> last_char K <> Some "y"%char ->
                 contains (K ++ "=") line = false)
    by (intros K H1 H2 H3 H4; apply line_without_marker; assumption).
  rewrite parse_sms_unfold, Htext.
  change (negb (truthy line)) with false. cbv iota.
  change (negb (truthy (strip line))) with false. cbv iota.
  unfold sms_cascade.
  assert (H1 : sms_strategy1 f line = []).
  { unfold sms_strategy1.
    rewrite (finditer_nil (fun a => a) "date=" SMS_ROW sms_row_needs_date); [reflexivity|].
    rewrite map_chars_id. apply (Hm "date"); discriminate || reflexivity. }
  rewrite H1.
  assert (H2 : sms_strategy2 f line = []).
  { unfold sms_strategy2. rewrite Hlines. cbn [fold_left].
    assert (Hd : contains "date=" line = false)
      by (apply (Hm "date"); discriminate || reflexivity).
    rewrite Hd, andb_false_r. reflexivity. }
  rewrite H2.
  rewrite sms_strategy3_none.
  2:{ intros l Hl. rewrite Hlines in Hl. destruct Hl as [<-|[]].
      repeat split; [apply (Hm "phone_number")|apply (Hm "sender")|apply (Hm "number")];
        discriminate || reflexivity. }
  f_equal. unfold sms_strategy4. rewrite Hlines. cbn [fold_left].
  change (negb (truthy (strip line)) || startswith "Row:" line) with false. cbv iota.
  subst line.
  change ("address=" ++ A ++ ", body=" ++ B)%string
    with ("address" ++ "=" ++ A ++ "," ++ " " ++ "body" ++ "=" ++ B)%string.
  rewrite (key_value_pairs_of_line "a" "ddress" A " " "b" "ody" B)
    by (reflexivity || assumption).
  cbn [map fst snd dict_get rev app lookup first_truthy].
  change (String.eqb "address" "address") with true.
  change (String.eqb "address" "phone_number") with false.
  change (String.eqb "address" "sender") with false.
  change (String.eqb "address" "number") with false.
  change (String.eqb "address" "body") with false.
  change (String.eqb "address" "message") with false.
  change (String.eqb "address" "text") with false.
  change (String.eqb "address" "date") with false.
  change (String.eqb "address" "timestamp") with false.
  change (String.eqb "address" "date_sent") with false.
  cbv iota. cbn [first_truthy].
  destruct (truthy (strip A)) eqn:E; cbn [truthy orb app]; [|reflexivity].
  unfold sms_record, date_of. rewrite E. reflexivity.
Qed.

Lemma sms_key_value_line_loses_body_witness :
  parse_sms_text (epoch_ms_to_str utc) "address=+15551234567, body=Hello there"
  = Ok [mkSms "+15551234567" "" "Unknown" ""].
Proof.
  exact (sms_key_value_line_loses_body (epoch_ms_to_str utc) "+15551234567" "Hello there"
           eq_refl eq_refl).
Defined.

End KeyValueFacts.

From Stdlib Require Import Sorted Permutation.

(* ===================================================================== *)
(** * Timeline statistics: [TimelineBuilder._calculate_statistics] *)
(* ===================================================================== *)

Module Timeline.
Import PyStr Clock.

(** A timeline event as [_load_sms_events] and [_load_call_events] build
    it; [details] is not read by the statistics and left out.  Only call
    events carry [contact_name]. *)
Record Event : Type := mkEvent {
  event_id : string;
  event_timestamp : string;
  epoch_ms : Z;
  event_type : string;
  contact_number : string;
  contact_name : option string
}.

(** A dictionary from strings to counts, in insertion order. *)
Definition Counter : Type := list (string * nat).

(** [key in d]. *)
Fixpoint has_key (key : string) (d : Counter) : bool :=
  match d with
  | [] => false
  | (k, _) :: rest => String.eqb k key || has_key key rest
  end.

(** [d[key] += 1] on a [defaultdict(int)], which is also what
    [d[key] = d.get(key, 0) + 1] does. *)
Fixpoint incr (key : string) (d : Counter) : Counter :=
  match d with
  | [] => [(key, 1)]
  | (k, v) :: rest =>
      if String.eqb k key then (k, S v) :: rest else (k, v) :: incr key rest
  end.

(** [if key not in d: d[key] = 0]. *)
Definition ensure (key : string) (d : Counter) : Counter :=
  if has_key key d then d else d ++ [(key, 0)].

(** [sorted(items, key=lambda x: x[1], reverse=True)]: by falling count,
    items of equal count in their first order. *)
Fixpoint insert_by_count (x : string * nat) (l : Counter) : Counter :=
  match l with
  | [] => [x]
  | y :: rest =>
      if Nat.leb (snd y) (snd x) then x :: l else y :: insert_by_count x rest
  end.

Definition sorted_by_count (items : Counter) : Counter :=
  fold_right insert_by_count [] items.

(** The order of Python on [(key, count)] tuples. *)
Definition item_leb (x y : string * nat) : bool :=
  match String.compare (fst x) (fst y) with
  | Lt => true
  | Eq => Nat.leb (snd x) (snd y)
  | Gt => false
  end.

(** [sorted(items)]. *)
Fixpoint insert_item (x : string * nat) (l : Counter) : Counter :=
  match l with
  | [] => [x]
  | y :: rest => if item_leb x y then x :: l else y :: insert_item x rest
  end.

Definition sorted_items (items : Counter) : Counter :=
  fold_right insert_item [] items.

Record DateRange : Type := mkDateRange {
  earliest : string;
  earliest_epoch_ms : Z;
  latest : string;
  latest_epoch_ms : Z;
  span_days : Z
}.

Record TopContact : Type := mkTopContact {
  top_number : string;
  top_event_count : nat;
  top_name : string
}.

Record Statistics : Type := mkStatistics {
  total_events : nat;
  date_range : DateRange;
  event_type_counts : Counter;
  top_contacts : list TopContact;
  activity_by_hour : Counter
}.

(** What [_calculate_statistics] returns: [{}], the dictionary with
    [total_events] alone, or the full one. *)
Inductive StatisticsResult : Type :=
| NoStatistics
| TotalOnly (total : nat)
| Full (statistics : Statistics).

(** [min(l)] and [max(l)] of a list that is not empty. *)
Definition py_min (l : list Z) : Z :=
  match l with
  | [] => 0%Z
  | x :: rest => fold_left Z.min rest x
  end.

Definition py_max (l : list Z) : Z :=
  match l with
  | [] => 0%Z
  | x :: rest => fold_left Z.max rest x
  end.

(** [_find_contact_name(events, contact_number)]. *)
Fixpoint find_contact_name (events : list Event) (number : string) : string :=
  match events with
  | [] => "Unknown"
  | event :: rest =>
      if String.eqb (contact_number event) number
      then match contact_name event with
           | Some name =>
               if truthy name && negb (String.eqb name "Unknown") then name
               else find_contact_name rest number
           | None => find_contact_name rest number
           end
      else find_contact_name rest number
  end.

Section LocalTime.

Variable utc_offset : Z -> Z.

(** [epoch_ms_to_str(ms)] for an integer [ms]: [int(ms)] is [ms]. *)
Definition epoch_to_str (ms : Z) : string :=
  let dt := if (ms >? 10 ^ 12)%Z then fromtimestamp utc_offset (ms / 1000)
            else fromtimestamp utc_offset ms in
  match dt with
  | Ok dt => strftime dt
  | Raised => str_of_int ms
  end.

(** The loop over [valid_events] that counts by hour; a conversion that
    raises is passed over.  [epoch_ms / 1000.0] has its whole seconds
    at [epoch_ms / 1000]. *)
Definition count_hours (valid_events : list Event) : Counter :=
  fold_left
    (fun d event =>
       match fromtimestamp utc_offset (epoch_ms event / 1000) with
       | Ok dt => incr (pad2 (hour dt)) d
       | Raised => d
       end)
    valid_events [].

(** [for h in range(24)]: every hour gets a key. *)
Definition all_hours (d : Counter) : Counter :=
  fold_left (fun d h => ensure (pad2 (Z.of_nat h)) d) (seq 0 24) d.

(** [_calculate_statistics(events)]. *)
Definition calculate_statistics (events : list Event) : StatisticsResult :=
  match events with
  | [] => NoStatistics
  | _ :: _ =>
      let valid_events := filter (fun e => (epoch_ms e >? 0)%Z) events in
      match valid_events with
      | [] => TotalOnly (length events)
      | _ :: _ =>
          let event_type_counts :=
            fold_left (fun d event => incr (event_type event) d) events [] in
          let epochs := map epoch_ms valid_events in
          let min_epoch := py_min epochs in
          let max_epoch := py_max epochs in
          let contact_counts :=
            fold_left
              (fun d event =>
                 if String.eqb (contact_number event) "Unknown" then d
                 else incr (contact_number event) d)
              events [] in
          let top_contacts :=
            map (fun item =>
                   mkTopContact (fst item) (snd item) (find_contact_name events (fst item)))
                (firstn 10 (sorted_by_count contact_counts)) in
          let activity_by_hour := all_hours (count_hours valid_events) in
          Full (mkStatistics
                  (length events)
                  (mkDateRange (epoch_to_str min_epoch) min_epoch
                               (epoch_to_str max_epoch) max_epoch
                               ((max_epoch - min_epoch) / (1000 * 60 * 60 * 24))%Z)
                  event_type_counts
                  top_contacts
                  (sorted_items activity_by_hour))
      end
  end.

End LocalTime.

End Timeline.

Module TimelineFacts.
Import PyStr Clock Timeline.

(** ** Counters *)

Definition keys (d : Counter) : list string := map fst d.

(** The sum of the counts. *)
Definition total (d : Counter) : nat := list_sum (map snd d).

(** [d.get(key, 0)]. *)
Fixpoint get (key : string) (d : Counter) : nat :=
  match d with
  | [] => 0
  | (k, v) :: rest => if String.eqb k key then v else get key rest
  end.

Lemma has_key_in : forall key d, has_key key d = true <-> In key (keys d).
Proof.
  intros key d. induction d as [|[k v] d IH]; cbn [has_key keys map fst In].
  - split; [discriminate|tauto].
  - rewrite orb_true_iff, IH, String.eqb_eq. reflexivity.
Qed.

Lemma total_incr : forall key d, total (incr key d) = S (total d).
Proof.
  intros key d. unfold total. induction d as [|[k v] d IH]; [reflexivity|].
  cbn [incr]. destruct (String.eqb k key); simpl; [|rewrite IH]; lia.
Qed.

Lemma get_incr : forall key k d,
  get key (incr k d) = if String.eqb k key then S (get key d) else get key d.
Proof.
  intros key k d. induction d as [|[k0 v] d IH]; cbn [incr get].
  - destruct (String.eqb k key); reflexivity.
  - destruct (String.eqb k0 k) eqn:E0; cbn [get].
    + apply String.eqb_eq in E0. subst k0.
      destruct (String.eqb k key); reflexivity.
    + destruct (String.eqb k0 key) eqn:E1; [|exact IH].
      apply String.eqb_eq in E1. subst k0.
      rewrite String.eqb_sym, E0. reflexivity.
Qed.

Lemma keys_incr : forall key d x,
  In x (keys (incr key d)) <-> x = key \/ In x (keys d).
Proof.
  intros key d x. induction d as [|[k v] d IH]; cbn [incr keys map fst In].
  - split; intros [H|H]; auto.
  - destruct (String.eqb k key) eqn:E; cbn [map fst In].
    + apply String.eqb_eq in E. subst k. intuition congruence.
    + unfold keys in IH. rewrite IH. tauto.
Qed.

Lemma nodup_incr : forall key d, NoDup (keys d) -> NoDup (keys (incr key d)).
Proof.
  intros key d. induction d as [|[k v] d IH]; intros H; cbn [incr].
  - constructor; [intros []|constructor].
  - cbn [keys map fst] in H. inversion H as [|? ? Hk Hd]; subst.
    destruct (String.eqb k key) eqn:E; cbn [keys map fst].
    + constructor; assumption.
    + constructor; [|apply IH, Hd].
      intros Hin. apply keys_incr in Hin as [->|Hin]; [|exact (Hk Hin)].
      rewrite String.eqb_refl in E. discriminate.
Qed.

Lemma positive_incr : forall key d,
  Forall (fun kv => 1 <= snd kv) d -> Forall (fun kv => 1 <= snd kv) (incr key d).
Proof.
  intros key d H. induction H as [|[k v] d Hv H IH]; cbn [incr].
  - constructor; [cbn; lia|constructor].
  - destruct (String.eqb k key); constructor; cbn [snd] in *; try lia; assumption.
Qed.

Lemma keys_app : forall a b, keys (a ++ b) = keys a ++ keys b.
Proof. intros a b. apply map_app. Qed.

Lemma get_absent : forall key d, ~ In key (keys d) -> get key d = 0.
Proof.
  intros key d. induction d as [|[k v] d IH]; intros H; [reflexivity|].
  cbn [get]. cbn [keys map fst In] in H.
  destruct (String.eqb k key) eqn:E.
  - apply String.eqb_eq in E. tauto.
  - apply IH. tauto.
Qed.

Lemma get_app_zero : forall key k d, get key (d ++ [(k, 0)]) = get key d.
Proof.
  intros key k d. induction d as [|[k0 v] d IH]; cbn [app get].
  - destruct (String.eqb k key); reflexivity.
  - destruct (String.eqb k0 key); [reflexivity|exact IH].
Qed.

Lemma get_ensure : forall key k d, get key (ensure k d) = get key d.
Proof.
  intros key k d. unfold ensure. destruct (has_key k d); [reflexivity|].
  apply get_app_zero.
Qed.

Lemma keys_ensure : forall k d x,
  In x (keys (ensure k d)) <-> x = k \/ In x (keys d).
Proof.
  intros k d x. unfold ensure. destruct (has_key k d) eqn:E.
  - apply has_key_in in E. split; [tauto|]. intros [->|H]; assumption.
  - rewrite keys_app, in_app_iff. cbn [keys map fst In]. intuition congruence.
Qed.

Lemma nodup_ensure : forall k d, NoDup (keys d) -> NoDup (keys (ensure k d)).
Proof.
  intros k d H. unfold ensure. destruct (has_key k d) eqn:E; [exact H|].
  rewrite keys_app. cbn [keys map fst].
  apply NoDup_app; [exact H|constructor; [intros []|constructor]|].
  intros x Hx [<-|[]]. apply has_key_in in Hx. congruence.
Qed.

(** The value of a key is its count wherever the key stands, when no key
    stands twice. *)
Lemma get_in : forall key v d,
  NoDup (keys d) -> In (key, v) d -> get key d = v.
Proof.
  intros key v d. induction d as [|[k0 v0] d IH]; intros Hn Hin; [destruct Hin|].
  cbn [keys map fst] in Hn. inversion Hn as [|? ? Hk Hd]; subst.
  cbn [get]. destruct Hin as [E|Hin].
  - injection E as -> ->. rewrite String.eqb_refl. reflexivity.
  - destruct (String.eqb k0 key) eqn:E; [|exact (IH Hd Hin)].
    apply String.eqb_eq in E. subst k0. exfalso. apply Hk.
    apply (in_map fst) in Hin. exact Hin.
Qed.

Lemma in_get : forall key d, In key (keys d) -> In (key, get key d) d.
Proof.
  intros key d. induction d as [|[k0 v0] d IH]; intros H; [destruct H|].
  cbn [get]. destruct (String.eqb k0 key) eqn:E.
  - apply String.eqb_eq in E. subst k0. left. reflexivity.
  - right. apply IH. destruct H as [H|H]; [|exact H].
    cbn in H. subst k0. rewrite String.eqb_refl in E. discriminate.
Qed.

Lemma get_permutation : forall key d d',
  Permutation d d' -> NoDup (keys d) -> get key d' = get key d.
Proof.
  intros key d d' Hp Hn.
  assert (Hn' : NoDup (keys d'))
    by (apply (Permutation_NoDup (Permutation_map fst Hp)), Hn).
  destruct (in_dec string_dec key (keys d)) as [Hin|Hout].
  - apply get_in; [exact Hn'|].
    apply (Permutation_in _ Hp), in_get, Hin.
  - rewrite (get_absent key d Hout). apply get_absent.
    intros H. apply Hout.
    apply (Permutation_in _ (Permutation_sym (Permutation_map fst Hp))), H.
Qed.

(** A counter is its keys with their values. *)
Lemma counter_by_keys : forall d,
  NoDup (keys d) -> d = map (fun k => (k, get k d)) (keys d).
Proof.
  induction d as [|[k v] d IH]; intros H; [reflexivity|].
  cbn [keys map fst] in H. inversion H as [|? ? Hk Hd]; subst.
  cbn [keys map fst get]. rewrite String.eqb_refl. f_equal.
  rewrite (IH Hd) at 1. apply map_ext_in. intros x Hx.
  destruct (String.eqb k x) eqn:E; [|reflexivity].
  apply String.eqb_eq in E. subst x. contradiction.
Qed.

(** ** Sorting *)

Lemma insert_item_permutation : forall x l, Permutation (insert_item x l) (x :: l).
Proof.
  intros x l. induction l as [|y l IH]; cbn [insert_item]; [reflexivity|].
  destruct (item_leb x y); [reflexivity|].
  rewrite IH. apply perm_swap.
Qed.

Lemma sorted_items_permutation : forall l, Permutation (sorted_items l) l.
Proof.
  induction l as [|x l IH]; [reflexivity|].
  cbn [sorted_items fold_right]. fold (sorted_items l).
  rewrite insert_item_permutation, IH. reflexivity.
Qed.

(** A key that does not come after another. *)
Definition key_le (a b : string) : Prop := String.compare a b <> Gt.

Lemma item_leb_true : forall x y, item_leb x y = true -> key_le (fst x) (fst y).
Proof.
  intros x y H. unfold item_leb in H. unfold key_le.
  destruct (String.compare (fst x) (fst y)); discriminate.
Qed.

Lemma item_leb_false : forall x y, item_leb x y = false -> key_le (fst y) (fst x).
Proof.
  intros x y H. unfold item_leb in H. unfold key_le.
  rewrite String.compare_antisym.
  destruct (String.compare (fst x) (fst y)); cbn; discriminate.
Qed.

Definition keys_ascend (l : Counter) : Prop := Sorted key_le (keys l).

Lemma insert_item_hd : forall a x l,
  key_le a (fst x) -> HdRel key_le a (keys l) -> HdRel key_le a (keys (insert_item x l)).
Proof.
  intros a x l Hx Hl. destruct l as [|y l]; cbn [insert_item].
  - constructor. exact Hx.
  - destruct (item_leb x y); cbn [keys map].
    + constructor. exact Hx.
    + inversion Hl; subst. constructor. assumption.
Qed.

Lemma insert_item_sorted : forall x l, keys_ascend l -> keys_ascend (insert_item x l).
Proof.
  intros x l. unfold keys_ascend. induction l as [|y l IH]; intros H; cbn [insert_item].
  - repeat constructor.
  - destruct (item_leb x y) eqn:E; cbn [keys map].
    + constructor; [exact H|]. constructor. apply item_leb_true, E.
    + inversion H as [|? ? Hs Hh]; subst. constructor; [apply IH, Hs|].
      apply insert_item_hd; [apply item_leb_false, E|exact Hh].
Qed.

Lemma sorted_items_sorted : forall l, keys_ascend (sorted_items l).
Proof.
  induction l as [|x l IH]; [constructor|].
  cbn [sorted_items fold_right]. apply insert_item_sorted, IH.
Qed.

Lemma insert_by_count_permutation : forall x l,
  Permutation (insert_by_count x l) (x :: l).
Proof.
  intros x l. induction l as [|y l IH]; cbn [insert_by_count]; [reflexivity|].
  destruct (Nat.leb (snd y) (snd x)); [reflexivity|].
  rewrite IH. apply perm_swap.
Qed.

Lemma sorted_by_count_permutation : forall l, Permutation (sorted_by_count l) l.
Proof.
  induction l as [|x l IH]; [reflexivity|].
  cbn [sorted_by_count fold_right]. fold (sorted_by_count l).
  rewrite insert_by_count_permutation, IH. reflexivity.
Qed.

(** Counts that never rise along a list. *)
Definition falling (counts : list nat) : Prop := Sorted ge counts.

Lemma insert_by_count_hd : forall a x l,
  a >= snd x -> HdRel ge a (map snd l) -> HdRel ge a (map snd (insert_by_count x l)).
Proof.
  intros a x l Hx Hl. destruct l as [|y l]; cbn [insert_by_count].
  - constructor. exact Hx.
  - destruct (Nat.leb (snd y) (snd x)); cbn [map].
    + constructor. exact Hx.
    + inversion Hl; subst. constructor. assumption.
Qed.

Lemma insert_by_count_falling : forall x l,
  falling (map snd l) -> falling (map snd (insert_by_count x l)).
Proof.
  intros x l. unfold falling. induction l as [|y l IH]; intros H; cbn [insert_by_count].
  - repeat constructor.
  - destruct (Nat.leb (snd y) (snd x)) eqn:E; cbn [map].
    + constructor; [exact H|]. constructor. apply Nat.leb_le in E. lia.
    + inversion H as [|? ? Hs Hh]; subst. constructor; [apply IH, Hs|].
      apply insert_by_count_hd; [apply Nat.leb_gt in E; lia|exact Hh].
Qed.

Lemma sorted_by_count_falling : forall l, falling (map snd (sorted_by_count l)).
Proof.
  induction l as [|x l IH]; [constructor|].
  cbn [sorted_by_count fold_right]. apply insert_by_count_falling, IH.
Qed.

Lemma falling_firstn : forall n l, falling l -> falling (firstn n l).
Proof.
  unfold falling. induction n as [|n IH]; intros l H; [constructor|].
  destruct l as [|x l]; [constructor|]. cbn [firstn].
  inversion H as [|? ? Hs Hh]; subst. constructor; [apply IH, Hs|].
  destruct l as [|y l]; [rewrite firstn_nil; constructor|].
  destruct n; cbn [firstn]; [constructor|].
  inversion Hh; subst. constructor. assumption.
Qed.

(** ** The keys of the hours *)

(** [f"{h:02d}"]. *)
Definition hour_key (h : nat) : string := pad2 (Z.of_nat h).

Definition HOURS : list string := map hour_key (seq 0 24).

Lemma compare_same : forall s, String.compare s s = Eq.
Proof.
  intros s. pose proof (String.compare_antisym s s) as H.
  destruct (String.compare s s); try reflexivity; discriminate.
Qed.

(** Among the keys of the hours, the order of the strings is the order
    of the hours. *)
Lemma hour_keys_order : forall i j,
  i < 24 -> j < 24 -> (key_le (hour_key i) (hour_key j) <-> i <= j).
Proof.
  intros i j Hi Hj.
  assert (H : forallb
                (fun i => forallb
                   (fun j => Bool.eqb
                      (match String.compare (hour_key i) (hour_key j) with
                       | Gt => false
                       | _ => true
                       end)
                      (Nat.leb i j))
                   (seq 0 24))
                (seq 0 24) = true) by (vm_compute; reflexivity).
  rewrite forallb_forall in H. specialize (H i ltac:(apply in_seq; lia)).
  rewrite forallb_forall in H. specialize (H j ltac:(apply in_seq; lia)).
  apply Bool.eqb_prop in H. unfold key_le.
  destruct (String.compare (hour_key i) (hour_key j)); symmetry in H.
  - apply Nat.leb_le in H. split; [intros _; exact H|discriminate].
  - apply Nat.leb_le in H. split; [intros _; exact H|discriminate].
  - apply Nat.leb_gt in H. split; [intros F; contradiction|lia].
Qed.

Lemma hour_key_injective : forall i j,
  i < 24 -> j < 24 -> hour_key i = hour_key j -> i = j.
Proof.
  intros i j Hi Hj E.
  assert (H1 : key_le (hour_key i) (hour_key j))
    by (unfold key_le; rewrite E, compare_same; discriminate).
  assert (H2 : key_le (hour_key j) (hour_key i))
    by (unfold key_le; rewrite E, compare_same; discriminate).
  apply hour_keys_order in H1; [|assumption..].
  apply hour_keys_order in H2; [|assumption..]. lia.
Qed.

Lemma in_hours : forall k, In k HOURS <-> exists h, h < 24 /\ k = hour_key h.
Proof.
  intros k. unfold HOURS. rewrite in_map_iff. split.
  - intros (h & <- & Hh). apply in_seq in Hh. exists h. split; [lia|reflexivity].
  - intros (h & Hh & ->). exists h. split; [reflexivity|apply in_seq; lia].
Qed.

Lemma hours_nodup : NoDup HOURS.
Proof.
  unfold HOURS. apply NoDup_map_NoDup_ForallPairs; [|apply seq_NoDup].
  intros i j Hi Hj E. apply in_seq in Hi. apply in_seq in Hj.
  apply hour_key_injective; [lia|lia|exact E].
Qed.

(** A list of numbers that rise strictly has no more members than the
    range they lie in; one that fills its range is the range. *)
Lemma rising_length : forall l lo hi,
  StronglySorted lt l -> Forall (fun x => lo <= x < hi) l -> length l <= hi - lo.
Proof.
  induction l as [|x l IH]; intros lo hi Hs Hb; [cbn; lia|].
  inversion Hs as [|? ? Hs' Hx]; subst. inversion Hb as [|? ? Hxb Hb']; subst.
  assert (H : length l <= hi - S x).
  { apply IH; [exact Hs'|]. rewrite Forall_forall in *. intros y Hy.
    specialize (Hx y Hy). specialize (Hb' y Hy). lia. }
  cbn [length]. lia.
Qed.

Lemma rising_full : forall n l a,
  StronglySorted lt l -> Forall (fun x => a <= x < a + n) l -> length l = n ->
  l = seq a n.
Proof.
  induction n as [|n IH]; intros l a Hs Hb Hl.
  - destruct l; [reflexivity|discriminate].
  - destruct l as [|x l]; [discriminate|].
    inversion Hs as [|? ? Hs' Hx]; subst. inversion Hb as [|? ? Hxb Hb']; subst.
    cbn [length] in Hl. injection Hl as Hl.
    assert (Hlen : length l <= a + S n - S x).
    { apply rising_length; [exact Hs'|]. rewrite Forall_forall in *. intros y Hy.
      specialize (Hx y Hy). specialize (Hb' y Hy). lia. }
    assert (x = a) by lia. subst x. cbn [seq]. f_equal.
    apply IH; [exact Hs'| |exact Hl].
    rewrite Forall_forall in *. intros y Hy.
    specialize (Hx y Hy). specialize (Hb' y Hy). lia.
Qed.

Lemma keys_as_hours : forall ks,
  incl ks HOURS -> exists hs, ks = map hour_key hs /\ Forall (fun h => h < 24) hs.
Proof.
  induction ks as [|k ks IH]; intros H.
  - exists []. split; [reflexivity|constructor].
  - destruct IH as (hs & -> & Hhs); [intros x Hx; apply H; right; exact Hx|].
    destruct (proj1 (in_hours k) (H k (or_introl eq_refl))) as (h & Hh & ->).
    exists (h :: hs). split; [reflexivity|constructor; assumption].
Qed.

(** Keys of hours in ascending order, none twice, twenty-four of them:
    these are the hours from [00] to [23]. *)
Lemma sorted_hours : forall ks,
  Sorted key_le ks -> NoDup ks -> incl ks HOURS -> length ks = 24 -> ks = HOURS.
Proof.
  intros ks Hs Hn Hi Hl.
  destruct (keys_as_hours ks Hi) as (hs & -> & Hhs).
  unfold HOURS. f_equal. rewrite length_map in Hl.
  apply (rising_full 24 hs 0); [| |exact Hl].
  - apply NoDup_map_inv in Hn.
    assert (Hle : StronglySorted le hs).
    { apply Sorted_StronglySorted; [intros a b c; apply Nat.le_trans|].
      clear Hn Hi Hl. induction hs as [|h hs IH]; [constructor|].
      inversion Hs as [|? ? Hs' Hh]; subst. inversion Hhs as [|? ? Hb Hhs']; subst.
      constructor; [apply IH; assumption|].
      destruct hs as [|h' hs]; [constructor|].
      inversion Hh; subst. inversion Hhs'; subst. constructor.
      apply hour_keys_order; assumption. }
    clear Hs Hi Hl Hhs. induction hs as [|h hs IH]; [constructor|].
    inversion Hle as [|? ? Hle' Hh]; subst. inversion Hn as [|? ? Hnot Hn']; subst.
    constructor; [apply IH; assumption|].
    rewrite Forall_forall in *. intros y Hy. specialize (Hh y Hy).
    assert (y <> h) by (intros ->; contradiction). lia.
  - rewrite Forall_forall in *. intros h Hh. specialize (Hhs h Hh). lia.
Qed.

(** ** Counting by hour *)

Section Hours.

Variable utc_offset : Z -> Z.

(** The local hour of an event, when its time converts. *)
Definition hour_of (event : Event) : option nat :=
  match fromtimestamp utc_offset (epoch_ms event / 1000) with
  | Ok dt => Some (Z.to_nat (hour dt))
  | Raised => None
  end.

Definition in_hour (h : nat) (event : Event) : bool :=
  match hour_of event with
  | Some h' => Nat.eqb h' h
  | None => false
  end.

Lemma hour_in_range : forall t dt,
  fromtimestamp utc_offset t = Ok dt -> (0 <= hour dt < 24)%Z.
Proof.
  intros t dt H. unfold fromtimestamp in H.
  destruct (civil_from_days ((t + utc_offset t) / 86400)) as [[y m] d].
  match type of H with
  | (if ?b then _ else _) = _ => destruct b; [|discriminate]
  end.
  injection H as <-. cbn [hour].
  pose proof (Z.mod_pos_bound (t + utc_offset t) 86400 ltac:(lia)) as Hm.
  split; [apply Z.div_pos; lia|apply Z.div_lt_upper_bound; lia].
Qed.

Lemma count_step : forall event d,
  match fromtimestamp utc_offset (epoch_ms event / 1000) with
  | Ok dt => incr (pad2 (hour dt)) d
  | Raised => d
  end
  = match hour_of event with
    | Some h => incr (hour_key h) d
    | None => d
    end.
Proof.
  intros event d. unfold hour_of.
  destruct (fromtimestamp utc_offset (epoch_ms event / 1000)) as [dt|] eqn:E;
    [|reflexivity].
  unfold hour_key. rewrite Z2Nat.id; [reflexivity|].
  apply (hour_in_range _ _ E).
Qed.

Lemma hour_of_range : forall event h, hour_of event = Some h -> h < 24.
Proof.
  intros event h H. unfold hour_of in H.
  destruct (fromtimestamp utc_offset (epoch_ms event / 1000)) as [dt|] eqn:E;
    [|discriminate].
  injection H as <-. pose proof (hour_in_range _ _ E). lia.
Qed.

Lemma count_hours_from : forall events d,
  NoDup (keys d) -> incl (keys d) HOURS ->
  let d' := fold_left
              (fun d event =>
                 match fromtimestamp utc_offset (epoch_ms event / 1000) with
                 | Ok dt => incr (pad2 (hour dt)) d
                 | Raised => d
                 end) events d in
  NoDup (keys d') /\ incl (keys d') HOURS
  /\ forall h, h < 24 ->
       get (hour_key h) d' = get (hour_key h) d + length (filter (in_hour h) events).
Proof.
  induction events as [|e events IH]; intros d Hn Hi; cbv zeta; cbn [fold_left].
  - split; [exact Hn|]. split; [exact Hi|]. intros h _. cbn [filter length]. lia.
  - rewrite count_step. destruct (hour_of e) as [h'|] eqn:E.
    + pose proof (hour_of_range e h' E) as Hh'.
      destruct (IH (incr (hour_key h') d)) as (H1 & H2 & H3).
      * apply nodup_incr, Hn.
      * intros x Hx. apply keys_incr in Hx as [->|Hx]; [|apply Hi, Hx].
        apply in_hours. exists h'. split; [exact Hh'|reflexivity].
      * split; [exact H1|]. split; [exact H2|]. intros h Hh.
        rewrite (H3 h Hh), get_incr. cbn [filter]. unfold in_hour at 2. rewrite E.
        destruct (String.eqb (hour_key h') (hour_key h)) eqn:Ek.
        -- apply String.eqb_eq, hour_key_injective in Ek; [|assumption..].
           subst h'. rewrite Nat.eqb_refl. cbn [length]. lia.
        -- destruct (Nat.eqb h' h) eqn:En; [|lia].
           apply Nat.eqb_eq in En. subst h'. rewrite String.eqb_refl in Ek. discriminate.
    + destruct (IH d Hn Hi) as (H1 & H2 & H3).
      split; [exact H1|]. split; [exact H2|]. intros h Hh.
      rewrite (H3 h Hh). cbn [filter]. unfold in_hour at 2. rewrite E. reflexivity.
Qed.

Lemma ensure_hours : forall hs d,
  NoDup (keys d) ->
  let d' := fold_left (fun d h => ensure (pad2 (Z.of_nat h)) d) hs d in
  NoDup (keys d')
  /\ (forall x, In x (keys d') <-> In x (map hour_key hs) \/ In x (keys d))
  /\ forall key, get key d' = get key d.
Proof.
  induction hs as [|h hs IH]; intros d Hn; cbv zeta; cbn [fold_left].
  - split; [exact Hn|]. split; [intros x; cbn [map In]; tauto|reflexivity].
  - destruct (IH (ensure (pad2 (Z.of_nat h)) d) (nodup_ensure _ _ Hn)) as (H1 & H2 & H3).
    split; [exact H1|]. split.
    + intros x. rewrite H2, keys_ensure. cbn [map In]. unfold hour_key.
      intuition congruence.
    + intros key. rewrite H3. apply get_ensure.
Qed.

Lemma count_hours_spec : forall events,
  NoDup (keys (count_hours utc_offset events))
  /\ incl (keys (count_hours utc_offset events)) HOURS
  /\ forall h, h < 24 ->
       get (hour_key h) (count_hours utc_offset events)
       = length (filter (in_hour h) events).
Proof.
  intros events.
  exact (count_hours_from events [] (NoDup_nil _) (incl_nil_l _)).
Qed.

Lemma all_hours_spec : forall d,
  NoDup (keys d) ->
  NoDup (keys (all_hours d))
  /\ (forall x, In x (keys (all_hours d)) <-> In x HOURS \/ In x (keys d))
  /\ forall key, get key (all_hours d) = get key d.
Proof.
  intros d H. exact (ensure_hours (seq 0 24) d H).
Qed.

(** The table of the hours: a row for each hour from [00] to [23], in
    this order, with the number of events of that hour. *)
Lemma activity_table : forall valid_events,
  sorted_items (all_hours (count_hours utc_offset valid_events))
  = map (fun h => (hour_key h, length (filter (in_hour h) valid_events))) (seq 0 24).
Proof.
  intros valid.
  destruct (count_hours_spec valid) as (C1 & C2 & C3).
  remember (count_hours utc_offset valid) as C eqn:EC.
  destruct (all_hours_spec C C1) as (D1 & D2 & D3).
  remember (all_hours C) as D eqn:ED.
  pose proof (sorted_items_permutation D) as Hp.
  remember (sorted_items D) as R eqn:ER.
  assert (Hk : Permutation (keys R) (keys D)) by (apply Permutation_map, Hp).
  assert (R1 : NoDup (keys R))
    by (apply (Permutation_NoDup (Permutation_sym Hk)), D1).
  assert (R2 : incl (keys R) HOURS).
  { intros x Hx. apply (Permutation_in _ Hk), D2 in Hx.
    destruct Hx as [Hx|Hx]; [exact Hx|apply C2, Hx]. }
  assert (R3 : incl HOURS (keys R)).
  { intros x Hx. apply (Permutation_in _ (Permutation_sym Hk)), D2. left. exact Hx. }
  assert (R4 : length (keys R) = length HOURS).
  { apply Nat.le_antisymm.
    - apply (NoDup_incl_length R1 R2).
    - apply (NoDup_incl_length hours_nodup R3). }
  assert (R5 : keys R = HOURS).
  { apply sorted_hours; [rewrite ER; apply sorted_items_sorted|assumption..|].
    rewrite R4. reflexivity. }
  rewrite (counter_by_keys R R1), R5. unfold HOURS. rewrite map_map.
  apply map_ext_in. intros h Hh. apply in_seq in Hh. f_equal.
  rewrite (get_permutation _ D R (Permutation_sym Hp) D1), D3, C3 by lia.
  reflexivity.
Qed.

End Hours.

(** ** Smallest and largest *)

Lemma fold_min_spec : forall rest x,
  (fold_left Z.min rest x <= x)%Z
  /\ Forall (fun y => (fold_left Z.min rest x <= y)%Z) rest
  /\ In (fold_left Z.min rest x) (x :: rest).
Proof.
  induction rest as [|y rest IH]; intros x; cbn [fold_left].
  - repeat split; [lia|constructor|left; reflexivity].
  - destruct (IH (Z.min x y)) as (H1 & H2 & H3). repeat split.
    + lia.
    + constructor; [lia|exact H2].
    + destruct H3 as [H3|H3]; [|right; right; exact H3].
      rewrite <- H3. destruct (Z.min_spec x y) as [[_ ->]|[_ ->]];
        [left|right; left]; reflexivity.
Qed.

Lemma fold_max_spec : forall rest x,
  (x <= fold_left Z.max rest x)%Z
  /\ Forall (fun y => (y <= fold_left Z.max rest x)%Z) rest
  /\ In (fold_left Z.max rest x) (x :: rest).
Proof.
  induction rest as [|y rest IH]; intros x; cbn [fold_left].
  - repeat split; [lia|constructor|left; reflexivity].
  - destruct (IH (Z.max x y)) as (H1 & H2 & H3). repeat split.
    + lia.
    + constructor; [lia|exact H2].
    + destruct H3 as [H3|H3]; [|right; right; exact H3].
      rewrite <- H3. destruct (Z.max_spec x y) as [[_ ->]|[_ ->]];
        [right; left|left]; reflexivity.
Qed.

Lemma py_min_max : forall l,
  l <> [] ->
  In (py_min l) l /\ In (py_max l) l
  /\ forall x, In x l -> (py_min l <= x <= py_max l)%Z.
Proof.
  intros [|x rest] H; [contradiction|]. cbn [py_min py_max].
  destruct (fold_min_spec rest x) as (A1 & A2 & A3).
  destruct (fold_max_spec rest x) as (B1 & B2 & B3).
  split; [exact A3|]. split; [exact B3|]. intros y Hy.
  rewrite Forall_forall in A2, B2.
  destruct Hy as [<-|Hy]; [lia|].
  specialize (A2 y Hy). specialize (B2 y Hy). lia.
Qed.

(** ** Counting by type and by contact *)

Lemma type_counts_from : forall events d,
  let d' := fold_left (fun d event => incr (event_type event) d) events d in
  total d' = total d + length events
  /\ forall ty, get ty d'
       = get ty d + length (filter (fun e => String.eqb (event_type e) ty) events).
Proof.
  induction events as [|e events IH]; intros d; cbv zeta; cbn [fold_left].
  - split; [cbn [length]; lia|]. intros ty. cbn [filter length]. lia.
  - destruct (IH (incr (event_type e) d)) as [H1 H2]. split.
    + rewrite H1, total_incr. cbn [length]. lia.
    + intros ty. rewrite H2, get_incr. cbn [filter].
      destruct (String.eqb (event_type e) ty); cbn [length]; lia.
Qed.

(** The events of a contact. *)
Definition events_of (number : string) (events : list Event) : nat :=
  length (filter (fun e => String.eqb (contact_number e) number) events).

Definition count_contacts (events : list Event) : Counter :=
  fold_left
    (fun d event =>
       if String.eqb (contact_number event) "Unknown" then d
       else incr (contact_number event) d)
    events [].

Lemma contact_counts_from : forall events d,
  NoDup (keys d) -> ~ In "Unknown" (keys d) ->
  let d' := fold_left
              (fun d event =>
                 if String.eqb (contact_number event) "Unknown" then d
                 else incr (contact_number event) d)
              events d in
  NoDup (keys d') /\ ~ In "Unknown" (keys d')
  /\ forall c, c <> "Unknown" -> get c d' = get c d + events_of c events.
Proof.
  unfold events_of.
  induction events as [|e events IH]; intros d Hn Hu; cbv zeta; cbn [fold_left].
  - split; [exact Hn|]. split; [exact Hu|]. intros c _. cbn [filter length]. lia.
  - destruct (String.eqb (contact_number e) "Unknown") eqn:E.
    + destruct (IH d Hn Hu) as (H1 & H2 & H3).
      split; [exact H1|]. split; [exact H2|]. intros c Hc.
      rewrite (H3 c Hc). cbn [filter].
      destruct (String.eqb (contact_number e) c) eqn:Ec; [|reflexivity].
      apply String.eqb_eq in E, Ec. congruence.
    + destruct (IH (incr (contact_number e) d)) as (H1 & H2 & H3).
      * apply nodup_incr, Hn.
      * intros Hin. apply keys_incr in Hin as [Hin|Hin]; [|exact (Hu Hin)].
        rewrite <- Hin, String.eqb_refl in E. discriminate.
      * split; [exact H1|]. split; [exact H2|]. intros c Hc.
        rewrite (H3 c Hc), get_incr. cbn [filter].
        destruct (String.eqb (contact_number e) c); cbn [length]; lia.
Qed.

Lemma contact_counts_positive : forall events d,
  Forall (fun kv => 1 <= snd kv) d ->
  Forall (fun kv => 1 <= snd kv)
    (fold_left
       (fun d event =>
          if String.eqb (contact_number event) "Unknown" then d
          else incr (contact_number event) d)
       events d).
Proof.
  induction events as [|e events IH]; intros d H; cbn [fold_left]; [exact H|].
  apply IH. destruct (String.eqb (contact_number e) "Unknown"); [exact H|].
  apply positive_incr, H.
Qed.

Lemma in_firstn : forall (A : Type) n (l : list A) x, In x (firstn n l) -> In x l.
Proof.
  intros A n l x H. rewrite <- (firstn_skipn n l). apply in_or_app. left. exact H.
Qed.

Lemma count_contacts_spec : forall events,
  NoDup (keys (count_contacts events))
  /\ ~ In "Unknown" (keys (count_contacts events))
  /\ forall c, c <> "Unknown" -> get c (count_contacts events) = events_of c events.
Proof.
  intros events.
  exact (contact_counts_from events [] (NoDup_nil _) (fun H => H)).
Qed.

(** In a list of falling counts, no count behind the first [n] exceeds
    one among the first [n]. *)
Lemma falling_split : forall n (l : Counter) x y,
  falling (map snd l) -> In x (firstn n l) -> In y (skipn n l) -> snd y <= snd x.
Proof.
  intros n l x y H Hx Hy.
  assert (Hs : StronglySorted ge (map snd l)).
  { apply Sorted_StronglySorted; [|exact H]. intros a b c Hab Hbc. lia. }
  clear H. revert l x y Hs Hx Hy.
  induction n as [|n IH]; intros l x y Hs Hx Hy; [destruct Hx|].
  destruct l as [|z l]; [destruct Hx|].
  cbn [map] in Hs. inversion Hs as [|? ? Hs' Hz]; subst.
  cbn [firstn skipn] in Hx, Hy. destruct Hx as [<-|Hx].
  - rewrite Forall_forall in Hz.
    assert (Hin : In (snd y) (map snd l))
      by (apply in_map; rewrite <- (firstn_skipn n l); apply in_or_app; right; exact Hy).
    specialize (Hz _ Hin). lia.
  - exact (IH l x y Hs' Hx Hy).
Qed.

(** ** The statistics *)

Section Statistics.

Variable utc_offset : Z -> Z.

Definition valid (event : Event) : bool := (epoch_ms event >? 0)%Z.

(** The dictionary [_calculate_statistics] returns for events of which
    one at least has a time. *)
Definition full_statistics (events : list Event) : Statistics :=
  let valid_events := filter valid events in
  let epochs := map epoch_ms valid_events in
  mkStatistics
    (length events)
    (mkDateRange (epoch_to_str utc_offset (py_min epochs)) (py_min epochs)
                 (epoch_to_str utc_offset (py_max epochs)) (py_max epochs)
                 ((py_max epochs - py_min epochs) / (1000 * 60 * 60 * 24))%Z)
    (fold_left (fun d event => incr (event_type event) d) events [])
    (map (fun item =>
            mkTopContact (fst item) (snd item) (find_contact_name events (fst item)))
         (firstn 10 (sorted_by_count (count_contacts events))))
    (sorted_items (all_hours (count_hours utc_offset valid_events))).

Lemma statistics_full : forall events e,
  In e events -> (0 < epoch_ms e)%Z ->
  calculate_statistics utc_offset events = Full (full_statistics events).
Proof.
  intros events e Hin He. unfold calculate_statistics, full_statistics.
  destruct events as [|e0 events]; [destruct Hin|].
  fold valid. 
  assert (Hv : In e (filter valid (e0 :: events))).
  { apply filter_In. split; [exact Hin|]. unfold valid. apply Z.gtb_lt. lia. }
  destruct (filter valid (e0 :: events)) as [|v vs]; [destruct Hv|].
  reflexivity.
Qed.

(** X22: [_calculate_statistics] gives the hours of the day as a table of
    twenty-four rows, [00] to [23] in this order, whatever the order of
    the events; the count of a row is the number of events with a time
    ([epoch_ms] above 0) whose local hour, read from [epoch_ms] as
    milliseconds, is that hour.  Events whose time does not convert to a
    date are counted in no row. *)
Theorem timeline_hours_table :
  forall (events : list Event) (e : Event),
    In e events -> (0 < epoch_ms e)%Z ->
    exists s,
      calculate_statistics utc_offset events = Full s
      /\ activity_by_hour s
         = map (fun h => (hour_key h,
                          length (filter (in_hour utc_offset h) (filter valid events))))
               (seq 0 24).
Proof.
  intros events e Hin He. exists (full_statistics events).
  split; [exact (statistics_full events e Hin He)|].
  unfold full_statistics. cbn [activity_by_hour]. apply activity_table.
Qed.

(** X23: The counts and the date range of [_calculate_statistics]: the total
    is the number of events; the counts by type add up to it, each being
    the number of events of its type; the earliest and the latest time
    are times of events, lie above 0 and around the time of every event
    that has one, and the span in days is not negative. *)
Theorem timeline_counts_and_range :
  forall (events : list Event) (e : Event),
    In e events -> (0 < epoch_ms e)%Z ->
    exists s,
      calculate_statistics utc_offset events = Full s
      /\ total_events s = length events
      /\ total (event_type_counts s) = length events
      /\ (forall ty, get ty (event_type_counts s)
                     = length (filter (fun x => String.eqb (event_type x) ty) events))
      /\ (exists a, In a events /\ epoch_ms a = earliest_epoch_ms (date_range s))
      /\ (exists b, In b events /\ epoch_ms b = latest_epoch_ms (date_range s))
      /\ (0 < earliest_epoch_ms (date_range s))%Z
      /\ (forall x, In x events -> (0 < epoch_ms x)%Z ->
            (earliest_epoch_ms (date_range s) <= epoch_ms x
             <= latest_epoch_ms (date_range s))%Z)
      /\ (0 <= span_days (date_range s))%Z.
Proof.
  intros events e Hin He. exists (full_statistics events).
  split; [exact (statistics_full events e Hin He)|].
  unfold full_statistics.
  cbn [total_events event_type_counts date_range earliest_epoch_ms latest_epoch_ms
       span_days].
  destruct (type_counts_from events []) as [T1 T2].
  assert (Hvalid : forall x, In x events -> (0 < epoch_ms x)%Z ->
                     In (epoch_ms x) (map epoch_ms (filter valid events))).
  { intros x Hx Hp. apply in_map, filter_In. split; [exact Hx|].
    unfold valid. apply Z.gtb_lt. lia. }
  assert (Hne : map epoch_ms (filter valid events) <> [])
    by (intros E; pose proof (Hvalid e Hin He) as H; rewrite E in H; destruct H).
  destruct (py_min_max _ Hne) as (M1 & M2 & M3).
  assert (Hback : forall n, In n (map epoch_ms (filter valid events)) ->
                    exists a, In a events /\ epoch_ms a = n /\ (0 < n)%Z).
  { intros n Hn. apply in_map_iff in Hn as (a & <- & Ha).
    apply filter_In in Ha as [Ha Hv]. unfold valid in Hv. apply Z.gtb_lt in Hv.
    exists a. repeat split; [exact Ha|lia]. }
  split; [reflexivity|]. split; [exact T1|]. split; [exact T2|].
  destruct (Hback _ M1) as (a & Ha & Ea & Pa).
  destruct (Hback _ M2) as (b & Hb & Eb & _).
  split; [exists a; split; assumption|].
  split; [exists b; split; assumption|].
  split; [exact Pa|]. split.
  - intros x Hx Hp. apply M3, Hvalid; assumption.
  - apply Z.div_pos; [|lia].
    pose proof (M3 _ M1). lia.
Qed.

(** X24: The top contacts of [_calculate_statistics]: at most ten, each
    contact once and never [Unknown], each with the number of events of
    that contact (one at least) and the name [_find_contact_name] finds,
    in the order of falling counts; and every other contact of an event
    has no more events than any of them. *)
Theorem timeline_top_contacts :
  forall (events : list Event) (e : Event),
    In e events -> (0 < epoch_ms e)%Z ->
    exists s,
      calculate_statistics utc_offset events = Full s
      /\ length (top_contacts s) <= 10
      /\ NoDup (map top_number (top_contacts s))
      /\ falling (map top_event_count (top_contacts s))
      /\ (forall t, In t (top_contacts s) ->
            top_number t <> "Unknown"
            /\ top_event_count t = events_of (top_number t) events
            /\ 1 <= top_event_count t
            /\ top_name t = find_contact_name events (top_number t))
      /\ (forall x, In x events -> contact_number x <> "Unknown" ->
            In (contact_number x) (map top_number (top_contacts s))
            \/ forall t, In t (top_contacts s) ->
                 events_of (contact_number x) events <= top_event_count t).
Proof.
  intros events e Hin He. exists (full_statistics events).
  split; [exact (statistics_full events e Hin He)|].
  unfold full_statistics. cbn [top_contacts].
  destruct (count_contacts_spec events) as (C1 & C2 & C3).
  pose proof (contact_counts_positive events [] (Forall_nil _)) as C4.
  fold (count_contacts events) in C4.
  remember (count_contacts events) as cc eqn:Ecc.
  pose proof (sorted_by_count_permutation cc) as Hp.
  pose proof (sorted_by_count_falling cc) as Hf.
  remember (sorted_by_count cc) as S eqn:ES.
  assert (S1 : NoDup (keys S))
    by (apply (Permutation_NoDup (Permutation_sym (Permutation_map fst Hp))), C1).
  assert (Hitem : forall item, In item S ->
            fst item <> "Unknown" /\ snd item = events_of (fst item) events
            /\ 1 <= snd item).
  { intros [c n] Hi. apply (Permutation_in _ Hp) in Hi. cbn [fst snd].
    assert (Hc : c <> "Unknown").
    { intros ->. apply C2. apply (in_map fst) in Hi. exact Hi. }
    split; [exact Hc|]. split.
    - rewrite <- (C3 c Hc). symmetry. apply get_in; assumption.
    - rewrite Forall_forall in C4. apply (C4 _ Hi). }
  split; [rewrite length_map; apply firstn_le_length|].
  split.
  { rewrite map_map. cbn [top_number].
    change (NoDup (keys (firstn 10 S))).
    rewrite <- (firstn_skipn 10 S) in S1. rewrite keys_app in S1.
    exact (NoDup_app_remove_r _ _ S1). }
  split.
  { rewrite map_map. cbn [top_event_count].
    change (falling (map snd (firstn 10 S))).
    rewrite <- firstn_map. apply falling_firstn, Hf. }
  split.
  { intros t Ht. apply in_map_iff in Ht as (item & <- & Hi).
    cbn [top_number top_event_count top_name].
    destruct (Hitem item (in_firstn _ _ _ _ Hi)) as (H1 & H2 & H3).
    repeat split; assumption. }
  intros x Hx Hc.
  assert (Hcount : 1 <= events_of (contact_number x) events).
  { unfold events_of.
    assert (Hm : In x (filter (fun e0 => String.eqb (contact_number e0) (contact_number x))
                          events))
      by (apply filter_In; split; [exact Hx|apply String.eqb_refl]).
    destruct (filter _ events); [destruct Hm|cbn [length]; lia]. }
  assert (Hkey : In (contact_number x) (keys cc)).
  { destruct (in_dec string_dec (contact_number x) (keys cc)) as [H|H]; [exact H|].
    apply get_absent in H. rewrite (C3 _ Hc) in H. lia. }
  assert (HinS : In (contact_number x, get (contact_number x) cc) S)
    by (apply (Permutation_in _ (Permutation_sym Hp)), in_get, Hkey).
  rewrite (C3 _ Hc) in HinS.
  rewrite <- (firstn_skipn 10 S) in HinS. apply in_app_or in HinS as [H|H].
  - left. rewrite map_map. cbn [top_number].
    apply (in_map fst) in H. exact H.
  - right. intros t Ht. apply in_map_iff in Ht as (item & <- & Hi).
    cbn [top_event_count].
    exact (falling_split 10 S item _ Hf Hi H).
Qed.

End Statistics.

(** Two messages and a call; the second message has no time. *)
Definition sample_events : list Event :=
  [mkEvent "sms_+15551234567_1700000000000" "2023-11-14 22:13:20" 1700000000000
           "sms" "+15551234567" None;
   mkEvent "sms_Unknown_0" "Unknown" 0 "sms" "Unknown" None;
   mkEvent "call_777_1700003600000" "2023-11-14 23:13:20" 1700003600000
           "call" "777" (Some "Bob");
   mkEvent "sms_777_1700003700000" "2023-11-14 23:15:00" 1700003700000
           "sms" "777" None].

Definition first_sample : Event :=
  mkEvent "sms_+15551234567_1700000000000" "2023-11-14 22:13:20" 1700000000000
          "sms" "+15551234567" None.

Lemma timeline_hours_table_witness :
  exists s,
    calculate_statistics utc sample_events = Full s
    /\ get "21" (activity_by_hour s) = 0
    /\ get "22" (activity_by_hour s) = 1
    /\ get "23" (activity_by_hour s) = 2
    /\ keys (activity_by_hour s) = HOURS.
Proof.
  destruct (timeline_hours_table utc sample_events first_sample
              (or_introl eq_refl) eq_refl) as (s & Hs & Ha).
  exists s. split; [exact Hs|]. rewrite Ha.
  repeat split; vm_compute; reflexivity.
Defined.

Lemma timeline_counts_and_range_witness :
  exists s,
    calculate_statistics utc sample_events = Full s
    /\ total_events s = 4
    /\ get "sms" (event_type_counts s) = 3
    /\ (0 <= span_days (date_range s))%Z.
Proof.
  destruct (timeline_counts_and_range utc sample_events first_sample
              (or_introl eq_refl) eq_refl)
    as (s & Hs & Ht & _ & Hty & _ & _ & _ & _ & Hspan).
  exists s. split; [exact Hs|]. split; [exact Ht|]. split; [|exact Hspan].
  rewrite Hty. reflexivity.
Defined.

Lemma timeline_top_contacts_witness :
  exists s,
    calculate_statistics utc sample_events = Full s
    /\ length (top_contacts s) <= 10
    /\ forall t, In t (top_contacts s) -> top_number t <> "Unknown".
Proof.
  destruct (timeline_top_contacts utc sample_events first_sample
              (or_introl eq_refl) eq_refl)
    as (s & Hs & Hl & _ & _ & Ht & _).
  exists s. split; [exact Hs|]. split; [exact Hl|].
  intros t Hin. apply (Ht t Hin).
Defined.

End TimelineFacts.

(* ===================================================================== *)
(** * Live contacts: the metadata header and the contact parser *)
(* ===================================================================== *)

Module ContactsHeader.
Import PyStr StrFacts RegexFacts TextFacts Clock Query Regex Parsers ParserFacts.
Import Device HeaderFacts LiveFacts RunFacts GuiFacts.

(** [finditer] passes over a prefix at none of whose positions the
    pattern matches. *)
Lemma finditer_skip_prefix : forall r pre s,
  (forall u a v, pre = (u ++ String a v)%string ->
                 match_at r (String a v ++ s) = None) ->
  finditer r (pre ++ s) = finditer r s.
Proof.
  intros r pre. induction pre as [|a pre IH]; intros s H; [reflexivity|].
  cbn [append]. rewrite finditer_skip.
  - apply IH. intros u b v E. apply (H (String a u) b v). cbn [append].
    rewrite E. reflexivity.
  - exact (H EmptyString a pre eq_refl).
Qed.

(** A match of the contact pattern starts with [Row:] in some letter
    case. *)
Lemma contact_row_start : forall x m,
  match_at CONTACT_ROW x = Some m -> startswith "row:" (lower x) = true.
Proof.
  intros x m H. apply match_at_sound in H as (w & -> & Hd).
  unfold CONTACT_ROW in Hd. cbn [cat den] in Hd.
  destruct Hd as (w1 & w2 & cm & -> & H1 & _).
  apply den_LitNoCase in H1 as [H1 _].
  apply startswith_spec. unfold lower in *. rewrite !map_chars_append, H1.
  change (map_chars lower_char "Row:") with "row:". rewrite append_assoc.
  eexists. reflexivity.
Qed.

Lemma append_split : forall a b u w,
  (a ++ b)%string = (u ++ w)%string ->
  (exists t, w = (t ++ b)%string /\ a = (u ++ t)%string)
  \/ (exists t, b = (t ++ w)%string /\ t <> EmptyString).
Proof.
  induction a as [|x a IH]; intros b u w H.
  - cbn [append] in H. destruct u as [|y u].
    + left. exists EmptyString. split; [symmetry; exact H|reflexivity].
    + right. exists (String y u). split; [exact H|discriminate].
  - destruct u as [|y u].
    + left. exists (String x a). cbn [append] in *. split; [symmetry; exact H|reflexivity].
    + cbn [append] in H. injection H as -> H.
      destruct (IH b u w H) as [(t & Hw & Ha)|(t & Hb & Ht)].
      * left. exists t. split; [exact Hw|]. cbn [append]. rewrite Ha. reflexivity.
      * right. exists t. split; assumption.
Qed.

(** No match of the contact pattern starts inside a header that holds no
    [row:] and ends in two line feeds. *)
Lemma no_contact_row_in_header : forall H s u a v,
  contains "row:" (lower H) = false ->
  (H ++ String "010" (String "010" EmptyString))%string = (u ++ String a v)%string ->
  match_at CONTACT_ROW (String a v ++ s) = None.
Proof.
  intros H s u a v Hno E.
  destruct (match_at CONTACT_ROW (String a v ++ s)) as [m|] eqn:Em; [|reflexivity].
  exfalso. apply contact_row_start in Em.
  apply append_split in E as [(t & Hw & Ha)|(t & Hb & Ht)].
  - rewrite Hw in Em. unfold lower in Em.
    rewrite append_assoc in Em. rewrite map_chars_append in Em.
    cbn [append map_chars] in Em.
    change (lower_char "010") with "010"%char in Em.
    apply (startswith_cut "010" "row:" _ _ eq_refl) in Em.
    assert (Hc : contains "row:" (lower H) = true).
    { apply contains_occurs. apply startswith_spec in Em as [post Hp].
      rewrite Ha. unfold lower. rewrite map_chars_append, Hp.
      exists (map_chars lower_char u), post. reflexivity. }
    congruence.
  - destruct t as [|x t]; [contradiction|].
    cbn [append] in Hb. injection Hb as <- Hb.
    destruct t as [|y t].
    + cbn [append] in Hb. injection Hb as <- _. discriminate Em.
    + cbn [append] in Hb. injection Hb as _ Hb. destruct t; discriminate Hb.
Qed.

Lemma no_row_cut : forall c a b,
  no_char (lower_char c) "row:" = true ->
  contains "row:" (lower a) = false -> contains "row:" (lower b) = false ->
  contains "row:" (lower (a ++ String c b)) = false.
Proof.
  intros c a b Hc Ha Hb. unfold lower in *. rewrite map_chars_append. cbn [map_chars].
  destruct (contains "row:" (map_chars lower_char a
                             ++ String (lower_char c) (map_chars lower_char b))) eqn:E;
    [|reflexivity].
  apply (contains_cut (lower_char c) "row:" _ _ Hc) in E as [E|E]; congruence.
Qed.

(** The header of a live query holds no [row:] when the values in it
    hold none. *)
Lemma live_header_without_row : forall info r,
  contains "row:" (lower (manufacturer info)) = false ->
  contains "row:" (lower (model info)) = false ->
  contains "row:" (lower (str_of_opt (uri_used r))) = false ->
  contains "row:" (lower (str_of_opt (projection_used r))) = false ->
  exists H,
    live_metadata info r = (H ++ String "010" (String "010" EmptyString))%string
    /\ contains "row:" (lower H) = false.
Proof.
  intros info r Hm Hd Hu Hp.
  exists (("# Device:" ++ String " " (manufacturer info ++ String " " (model info)))
          ++ String "010"
             (("# URI:" ++ String " " (str_of_opt (uri_used r)))
              ++ String "010"
                 (("# Projection:" ++ String " " (str_of_opt (projection_used r)))
                  ++ String "010"
                     ("# Success:" ++ String " " (str_of_bool (success r))))))%string.
  split.
  - unfold live_metadata, newline.
    repeat (rewrite ?append_assoc; cbn [append]). reflexivity.
  - apply no_row_cut; [reflexivity| |].
    { apply no_row_cut; [reflexivity|reflexivity|].
      apply no_row_cut; [reflexivity|exact Hm|exact Hd]. }
    apply no_row_cut; [reflexivity| |].
    { apply no_row_cut; [reflexivity|reflexivity|exact Hu]. }
    apply no_row_cut; [reflexivity| |].
    { apply no_row_cut; [reflexivity|reflexivity|exact Hp]. }
    apply no_row_cut; [reflexivity|reflexivity|].
    destruct (success r); reflexivity.
Qed.

(** X25: Parsing what [query_contacts_live] returns gives what
    [parse_contacts_text] gives on the provider output alone.  The
    contact parser removes no comment line, but no match of its pattern
    can start in the metadata header: a match starts with [Row:] in some
    letter case, and the header holds none provided the manufacturer and
    model properties of the device hold none.  In particular, when every
    query failed no contact is parsed. *)
Theorem live_contacts_header_adds_no_contact :
  forall (World : Type) (run_adb : list string -> Z -> St.M World string) (w : World),
    let info := fst (detect_device_manufacturer run_adb w) in
    let r := fst (query_content_provider_with_fallbacks (adb run_adb)
                    CONTACTS_LIVE_URIS CONTACTS_LIVE_PROJECTIONS "Contacts"
                    (snd (detect_device_manufacturer run_adb w))) in
    contains "row:" (lower (manufacturer info)) = false ->
    contains "row:" (lower (model info)) = false ->
    parse_contacts_text (fst (query_contacts_live run_adb w))
    = parse_contacts_text (raw_text r)
    /\ (success r = false ->
        parse_contacts_text (fst (query_contacts_live run_adb w)) = Ok []).
Proof.
  intros World run_adb w info r Hm Hd.
  pose proof (engine_answers World (adb run_adb) CONTACTS_LIVE_URIS
                CONTACTS_LIVE_PROJECTIONS "Contacts"
                (snd (detect_device_manufacturer run_adb w))) as Ha.
  fold r in Ha.
  assert (Hup : contains "row:" (lower (str_of_opt (uri_used r))) = false
                /\ contains "row:" (lower (str_of_opt (projection_used r))) = false).
  { destruct Ha as [(_ & u & p & -> & -> & Iu & Ip)| ->]; [|split; reflexivity].
    assert (Hu : forallb (fun x => negb (contains "row:" (lower x))) CONTACTS_LIVE_URIS
                 = true) by reflexivity.
    assert (Hp : forallb (fun x => negb (contains "row:" (lower x)))
                   CONTACTS_LIVE_PROJECTIONS = true) by reflexivity.
    rewrite forallb_forall in Hu, Hp.
    split; apply negb_true_iff; [apply Hu, Iu|apply Hp, Ip]. }
  destruct Hup as [Hu Hp].
  destruct (live_header_without_row info r Hm Hd Hu Hp) as (H & EH & Hno).
  assert (E : parse_contacts_text (fst (query_contacts_live run_adb w))
              = parse_contacts_text (raw_text r)).
  { unfold query_contacts_live. rewrite query_live_unfold. fold info. fold r.
    rewrite EH. unfold parse_contacts_text.
    assert (Ht : truthy ((H ++ String "010" (String "010" EmptyString)) ++ raw_text r)
                 = true) by (destruct H; reflexivity).
    rewrite Ht. cbn [negb].
    rewrite finditer_skip_prefix
      by (intros u a v Es; apply (no_contact_row_in_header H _ u a v Hno Es)).
    destruct (raw_text r) as [|c t]; reflexivity. }
  split; [exact E|].
  intros Hs. rewrite E.
  destruct Ha as [(Ht & _)| ->]; [congruence|].
  vm_compute. reflexivity.
Qed.

(** A phone that answers the first contacts query. *)
Definition contacts_phone_table (args : list string) : string :=
  if list_eq_dec string_dec args ["shell"; "getprop"; "ro.product.manufacturer"]
  then "Xiaomi"
  else if list_eq_dec string_dec args ["shell"; "getprop"; "ro.product.model"]
  then "Redmi Note 8"
  else if list_eq_dec string_dec args ["shell"; "getprop"; "ro.product.brand"]
  then "Redmi"
  else if list_eq_dec string_dec args ["shell"; "getprop"; "ro.build.version.sdk"]
  then "29"
  else if list_eq_dec string_dec args
            (query_args "content://com.android.contacts/data/phones" "display_name:data1")
  then "Row: 0 display_name=Bob Stone, data1=+1 555 123"
  else "java.lang.SecurityException: Permission Denial".

Definition contacts_phone : list string -> Z -> St.M unit string :=
  fun args _ w => (contacts_phone_table args, w).

Lemma live_contacts_header_adds_no_contact_witness :
  parse_contacts_text (fst (query_contacts_live contacts_phone tt))
  = Ok [mkContact "Bob Stone" "+1 555 123"].
Proof.
  rewrite (proj1 (live_contacts_header_adds_no_contact unit contacts_phone tt
                    eq_refl eq_refl)).
  vm_compute. reflexivity.
Defined.

End ContactsHeader.
